(* ===== verification/_CoqProject ===== *)
-Q . S2P
Prelude.v
Machine.v
Fmt.v
BitAccess.v
X86.v
Pic.v
Serial.v
Vga.v
Preempt.v
Singleton.v
Steps.v
Loader.v
MemMap.v
Bitmap.v
Page.v
PageTable.v
Alloc.v
Intr.v
Kernel.v
Main.v
Interleave.v
Races.v
Contexts.v
Boot.v
Heap.v
Holes.v
Lines.v
Uptime.v
Faults.v
Fuel.v
