(* ===== verification/Prelude.v ===== *)
(** * RondOS, verified: the kernel of [src/kernel/src] in Rocq

    RondOS is a small 32-bit x86 kernel.  A boot loader in assembly leaves a
    memory map, turns on paging and jumps to [main]; the kernel brings up a
    serial port and a text console, programs the interrupt controllers and the
    timer, fills an interrupt table, starts a page allocator on first use and
    idles, serving timer and keyboard interrupts.  This library translates the
    Rust code of the kernel into executable definitions and proves what each
    part promises and that the parts work together.

    ** The model

    - An integer is a [Z]; [uint w] is being a [w]-bit one.  Arithmetic
      ([Machine.add], [sub], ..) overflows as Rust does: a panic with overflow
      checks (the [dev] profile), wrap-around without ([release]).  Every
      theorem holds for both: the profile is a field of [Machine.Platform].
    - Code is in the monad [Machine.M S]: a [&mut self] of type [S], the
      hardware [Hw] (mapped bytes, text screen, trace of port accesses, the CPU
      registers used), and a [result]: a value, a panic, a fault on unmapped
      memory, undefined behaviour, or a wait that did not end.
    - Devices are [Platform.port_in]: what a port read answers, as a function of
      all port accesses before it.  [spin_fuel] is the number of tests a spin
      loop makes before the run counts as hanging; theorems about returning
      assume a device that answers within it ([Serial.Responsive]), or that it
      allows the two rounds [Singleton.init] needs.
    - Memory is a finite map from addresses to bytes; unmapped addresses fault.
      Reordering of memory accesses, caches and timing are not modelled.

    ** The files

    - [Prelude]: this file; integers, bits, lists, counting; tactics, hints.
    - [Machine]: outcomes, arithmetic, hardware, the monad, loops, memory,
      lenses, weakest preconditions.
    - [Fmt]: what is used of [core::fmt]; the interface [FmtWrite].
    - [BitAccess] ([utils/mod.rs]), [X86] ([arch/x86/mod.rs]), [Pic]
      ([arch/x86/pic.rs]), [Serial] ([io/serial.rs]), [Vga] ([io/vga.rs]),
      [Singleton] ([utils/singleton.rs]), [Loader] ([loader.rs]), [MemMap]
      ([mm/mod.rs]): one component each.
    - [Preempt] ([io/vga.rs]): the last arm of [putc] with the points at which
      an interrupt may print on the same console, and all of [putc] with every
      use of a field read anew.
    - [Bitmap], [Page], [PageTable] ([mm/page.rs]): the bitmap, the allocator
      over it, page-table entries.
    - [Alloc] ([mm/mod.rs]): the global allocator, against the interface
      [PageManager] that [Page] implements.
    - [Intr] ([arch/x86/intr.rs]): the interrupt table.
    - [Kernel]: the statics as one record, the print macros.
    - [Main] ([main.rs]): start-up, handlers, the keyboard decoder.
    - [Steps]: code laid out as a tree of single accesses ([prog], [Traced]), and
      its run with interrupts between them ([preempt], [preempt_sim]), and the
      states such a run comes through ([passes]).
    - [Interleave]: the layouts of the report of [main] and of the heap's
      operations, and what interrupts between their accesses change.
    - [Contexts]: [get_mut] laid out likewise, run by contexts that share the
      statics under any schedule.
    - [Races]: the same for key presses during the report, which print on the
      console [main] is printing on: an interrupted print stays beside the
      undisturbed one, with the column on the row, until a key press takes it off.
    - [Boot]: start-up and interrupts end to end; [Heap]: the running kernel's
      heap against a set of pages; [Holes]: that heap filled, on a memory map
      with holes; [Uptime]: interrupts inside start-up;
      [Lines]: the sixteen interrupt lines, both controllers, the table and the
      handlers as one state machine.
    - [Faults]: panics inside panics, and faulting accesses that are retried.
    - [Fuel]: the poll budget of the spin loops is no more than a budget.

    A definition has the name of the function it translates, with a prefix
    where two components use the same name, and follows its statements in order;
    the code comes first in each file, then specifications, lemmas, properties
    and witnesses.

    ** What is proved

    - Memory: [Alloc.heap_safety] (any history of allocation and release keeps
      live blocks disjoint, in the managed area, and leaks nothing),
      [dealloc_live_succeeds], [alloc_outcomes]; [Heap.kernel_heap] (the kernel
      answers every history of requests, wrong ones included, as the set of
      pages does, whatever interrupts come inside them), with what that set promises a client in
      [spec_block_fresh] and [spec_release_allocate]; [Page.get_page_spec],
      [free_page_spec], [get_free_roundtrip], [page_allocator_default_spec];
      [Bitmap.bitmap_find_first_fit], [bitmap_flips_spec];
      [MemMap.available_mem_size_counts] and the rest of [MemMap];
      [PageTable.pte_decode_encode].
    - Interrupts: [Intr.idt_install_dispatch], [idt_index_spec],
      [set_handle_fn_gate], [gate_options]: what the processor decodes from the table;
      [Pic.pic_init_programs], [Boot.irq_routing]: which handler a line reaches;
      [Lines.lines_served] (timer and keyboard are served next whatever the
      other lines do) and [lines_lost] (those are served once at most and
      take the less urgent ones with them);
      [Main.keyboard_handler_spec], [timer_handler_spec], [scancode_spec],
      [serve_spec].
    - Output: [Vga.vga_refines_terminal], [vga_cursor_tracks] and [vga_cursor_life]
      against an abstract terminal and a model of the cursor registers;
      [Preempt.putc_interrupts_safe] and [putc_race_panics]: where an interrupt
      inside a print is harmless and where it is not;
      [Serial.serial_write_str_spec], [serial_default_programs] against the
      UART's protocol and registers.
    - Globals: [Singleton.singleton_init_once], [singleton_published_stable],
      [singleton_progress] about the protocol of any number of contexts, which
      by [Contexts.get_mut_refines_protocol] is what the code does;
      [get_mut_initialises_once] and [get_mut_reentry_hangs] on one CPU.
    - Start-up: [Boot.main_boots], [Boot.kernel_runs]; [Boot.boot_output]: the
      screen and the serial line it leaves; [Uptime.kernel_uptime] adds timer
      interrupts inside start-up, [kernel_any_interrupts] key presses too:
      the report panics only if its run came through a state with the console's
      column off the row ([Steps.passes]), and otherwise nothing panics, during
      start-up or after it.
      [Races.race_window] finds, for one concrete run, the one access before
      which a key press does that.
    - Interrupts at any point: [Interleave.report_preemptible] (prints, memory,
      first allocation) for the timer, [heap_preemptible] for both interrupts,
      any number of them before each access.
      The simulation behind them needs of an access only that it cannot see
      what the handler changed, and of the handler that it keeps that so.
    - Errors: [Faults.panic_reported], [race_fatal], [page_fault_livelock],
      [heap_beyond_mapping]; [Holes.heap_in_holes].
    - All of the kernel: [Fuel.kernel_terminates].
    - Bits: [BitAccess.set_bits_get_bits], [bit_range_outcomes],
      [X86.selector_fields].

    Some theorems state defects: a free run at the end of the bitmap makes
    [find] panic, a region nested in the one before it breaks [available_mem_size], [alloc] ignores
    alignments above a page, [Singleton::drop] tests the wrong way round, the
    timer count can be the illegal 1, a key pressed at the wrong moment of a
    print moves the column off the row, from where the panic handler itself
    panics, the page-fault handler returns to the access that faulted, the
    allocator gives out memory that the loader did not map and memory that the
    memory map does not list, and an interrupt on
    a line without a handler, all of which [pic_init] unmasks, is never ended.

    ** What is not modelled

    The boot loader (its result is [Boot.booted]), [thread/mod.rs] (two types
    without operations), [cti] (not an instruction), the build files.  The
    [hlt] loop is the list of interrupts served in it.  Interrupts elsewhere come
    between accesses: a byte of memory, a port, the text buffer, a static, a
    field of the console.  That is coarser than instructions, but the timer
    handler touches none of what the report and the heap touch, so when a value
    is read again or kept in a register makes no difference.  It does for a key
    press during a print; there the accesses are taken in source order, one by
    one, every field read anew ([Preempt.putc_src]), and what a compiler may do
    with two mutable references to one console is not modelled.  Interrupts
    between the reads and writes inside one method call of [BitMap] or inside
    one formatted line are covered; interrupts before [sti] cannot happen.
    The [copy_within] of a scroll is one access, and a line is formatted from its
    arguments before it is printed; no handler writes what the arguments read.
    Lines other than the timer's and the keyboard's are followed in the idle loop
    only ([Lines]); of the controllers' modes those the kernel selects are
    modelled, without spurious interrupts.  Handlers
    run with interrupts off (interrupt gates) and do not nest. *)
From Stdlib Require Import ZArith Lia Btauto.
From stdpp Require Import base tactics numbers list.

Open Scope Z_scope.

Declare Scope rond_scope.
Delimit Scope rond_scope with rond.
Open Scope rond_scope.

(** ** Machine-width unsigned integers

    A [w]-bit unsigned integer is a [Z] in [0, 2^w); [wrap w] is the
    reduction that release builds apply and that [as u8]/[as u16] casts do. *)

Definition uint (w x : Z) : Prop := 0 <= x < 2 ^ w.

Definition wrap (w x : Z) : Z := x mod 2 ^ w.

(** Bitwise complement [!x] at width [w]. *)
Definition not_w (w x : Z) : Z := wrap w (Z.lnot x).

Notation "x ∈u w" := (uint w x) (at level 70, no associativity) : rond_scope.

#[export] Instance uint_dec w x : Decision (uint w x).
Proof. unfold uint. apply _. Defined.

(** Facts about widths and bits; [bits] rewrites [Z.testbit] goals. *)
Create Rewrite HintDb bits.
Create HintDb width.
Create Rewrite HintDb wp.

Section uint.
Implicit Types w x y i n : Z.

Lemma pow2_pos w : 0 <= w -> 0 < 2 ^ w.
Proof. intros. apply Z.pow_pos_nonneg; lia. Qed.

Lemma uint_wrap w x : 0 <= w -> wrap w x ∈u w.
Proof. intros. apply Z.mod_pos_bound, pow2_pos; done. Qed.

Lemma wrap_small w x : x ∈u w -> wrap w x = x.
Proof. apply Z.mod_small. Qed.

Lemma uint_mono w w' x : w <= w' -> x ∈u w -> x ∈u w'.
Proof.
  intros Hw [? ?]. split; [done|].
  apply Z.lt_le_trans with (2 ^ w); [done|].
  apply Z.pow_le_mono_r; lia.
Qed.

Lemma testbit_wrap w x i :
  0 <= w -> 0 <= i -> Z.testbit (wrap w x) i = (i <? w) && Z.testbit x i.
Proof.
  intros. unfold wrap. rewrite <- Z.land_ones by lia.
  rewrite Z.land_spec, Z.testbit_ones_nonneg by lia.
  apply andb_comm.
Qed.

Lemma testbit_uint_high w x i :
  x ∈u w -> 0 <= w -> w <= i -> Z.testbit x i = false.
Proof.
  intros Hx ??. rewrite <- (wrap_small w x) by done.
  rewrite testbit_wrap by lia. by destruct (Z.ltb_spec i w); [lia|].
Qed.

Lemma uint_testbit w x :
  0 <= w -> 0 <= x -> (forall i, w <= i -> Z.testbit x i = false) -> x ∈u w.
Proof.
  intros Hw Hx Hb. split; [done|].
  destruct (decide (x < 2 ^ w)) as [|Hge]; [done|exfalso].
  assert (0 < x) by (pose proof (pow2_pos w Hw); lia).
  assert (w <= Z.log2 x) by (apply Z.log2_le_pow2; lia).
  specialize (Hb (Z.log2 x)). rewrite Z.bit_log2 in Hb by done. by specialize (Hb ltac:(done)).
Qed.

Lemma testbit_pow2 n i : 0 <= n -> Z.testbit (2 ^ n) i = (n =? i).
Proof. apply Z.pow2_bits_eqb. Qed.

Lemma testbit_one i : Z.testbit 1 i = (i =? 0).
Proof.
  rewrite Z.eqb_sym. by apply (testbit_pow2 0 i).
Qed.

Lemma testbit_shiftl x n i :
  0 <= i -> Z.testbit (Z.shiftl x n) i = (n <=? i) && Z.testbit x (i - n).
Proof.
  intros. rewrite Z.shiftl_spec by done.
  destruct (Z.leb_spec n i); [done|]. by rewrite Z.testbit_neg_r by lia.
Qed.

Lemma testbit_not_w w x i :
  0 <= w -> 0 <= i -> Z.testbit (not_w w x) i = (i <? w) && negb (Z.testbit x i).
Proof. intros. unfold not_w. by rewrite testbit_wrap, Z.lnot_spec by lia. Qed.

Lemma uint_not_w w x : 0 <= w -> not_w w x ∈u w.
Proof. apply uint_wrap. Qed.
End uint.

#[export] Hint Rewrite Z.land_spec Z.lor_spec Z.lxor_spec : bits.
#[export] Hint Rewrite testbit_wrap testbit_not_w testbit_shiftl Z.shiftr_spec
  Z.lnot_spec testbit_pow2 using lia : bits.
#[export] Hint Rewrite testbit_one Z.bits_0 : bits.

(** [zlia]: [lia] over Euclidean division; [bits_case] splits the comparisons a
    bitwise goal was reduced to; [bits_solve] proves equalities of bit tests. *)
Ltac zlia := Z.to_euclidean_division_equations; lia.

Ltac bits_high :=
  match goal with
  | H : uint ?w ?x |- context [Z.testbit ?x ?i] =>
      rewrite (testbit_uint_high w x i H) by lia
  end.

Ltac bits_case :=
  match goal with
  | |- context [?a <? ?b] => destruct (Z.ltb_spec a b)
  | |- context [?a <=? ?b] => destruct (Z.leb_spec a b)
  | |- context [?a =? ?b] => destruct (Z.eqb_spec a b)
  end; try (exfalso; lia).

Ltac bits_neg :=
  match goal with
  | |- context [Z.testbit ?x ?i] => rewrite (Z.testbit_neg_r x i) by lia
  end.

Ltac bits_solve :=
  autorewrite with bits;
  repeat (bits_case; simpl);
  repeat bits_high; repeat bits_neg;
  rewrite ?andb_true_r, ?andb_false_r, ?orb_false_r, ?orb_true_r, ?xorb_false_r;
  simpl; try btauto; try (exfalso; lia); repeat f_equal; lia.

Ltac bits_ext := apply Z.bits_inj'; intros ?i ?; bits_solve.

Section uint_ops.
Implicit Types w x y n : Z.

Lemma uint_land w x y : 0 <= w -> x ∈u w -> 0 <= y -> Z.land x y ∈u w.
Proof.
  intros ? Hx ?. apply uint_testbit; [done|by apply Z.land_nonneg; left; apply Hx|].
  intros. autorewrite with bits. by bits_high.
Qed.

Lemma uint_lor w x y : 0 <= w -> x ∈u w -> y ∈u w -> Z.lor x y ∈u w.
Proof.
  intros ? Hx Hy. apply uint_testbit; [done|apply Z.lor_nonneg; split; [apply Hx|apply Hy]|].
  intros. autorewrite with bits. by do 2 bits_high.
Qed.

Lemma uint_lxor w x y : 0 <= w -> x ∈u w -> y ∈u w -> Z.lxor x y ∈u w.
Proof.
  intros ? Hx Hy. apply uint_testbit; [done| |].
  - apply Z.lxor_nonneg. destruct Hx, Hy. lia.
  - intros. autorewrite with bits. by do 2 bits_high.
Qed.

Lemma uint_shiftr w x n : 0 <= w -> 0 <= n -> x ∈u w -> Z.shiftr x n ∈u w.
Proof.
  intros ?? Hx. apply uint_testbit; [done|apply Z.shiftr_nonneg, Hx|].
  intros. autorewrite with bits. by bits_high.
Qed.

(** Shifting up and down again clears the bits above [n]. *)
Lemma shiftl_shiftr_wrap w x n :
  0 <= n <= w -> x ∈u w ->
  Z.shiftr (wrap w (Z.shiftl x (w - n))) (w - n) = wrap n x.
Proof. intros ? Hx. bits_ext. Qed.

(** Putting [lo] into the low bits is adding it. *)
Lemma lor_shiftl_add x lo n :
  0 <= n -> lo ∈u n -> Z.lor (Z.shiftl x n) lo = x * 2 ^ n + lo.
Proof.
  intros ? Hlo. rewrite <- Z.shiftl_mul_pow2 by done.
  assert (Z.land (Z.shiftl x n) lo = 0) as Hz.
  { apply Z.bits_inj'. intros i ?. autorewrite with bits. bits_case; simpl; [|done].
    bits_high. by rewrite andb_false_r. }
  by rewrite Z.add_nocarry_lxor, Z.lxor_lor.
Qed.
End uint_ops.

#[export] Hint Resolve uint_wrap uint_not_w uint_land uint_lor uint_lxor uint_shiftr : width.

(** The [i]-th of the equal chunks a list is the concatenation of. *)
Lemma concat_chunk {A} (n : nat) (ls : list (list A)) i x :
  Forall (fun l => length l = n) ls -> ls !! i = Some x ->
  take n (drop (i * n) (concat ls)) = x.
Proof.
  intros Hall. revert i. induction Hall as [|l ls Hl _ IH]; intros i Hi; [done|].
  destruct i as [|i]; simplify_eq/=.
  - by rewrite drop_0, take_app_length.
  - rewrite drop_app_ge by lia. replace (length l + i * length l - length l)%nat with (i * length l)%nat by lia.
    by apply IH.
Qed.

(** ** Counting addresses

    [cnt p lo hi] is the number of integers in [lo, hi) that satisfy [p]. *)

Fixpoint cnt_n (p : Z -> bool) (lo : Z) (n : nat) : Z :=
  match n with
  | O => 0
  | S n' => (if p lo then 1 else 0) + cnt_n p (lo + 1) n'
  end.

Definition cnt (p : Z -> bool) (lo hi : Z) : Z := cnt_n p lo (Z.to_nat (hi - lo)).

Section cnt.
Implicit Types (p q : Z -> bool) (lo hi : Z).

Lemma cnt_n_app p lo n m : cnt_n p lo (n + m) = cnt_n p lo n + cnt_n p (lo + Z.of_nat n) m.
Proof.
  revert lo. induction n as [|n IH]; intros lo; simpl; [by rewrite Z.add_0_r|].
  rewrite IH. replace (lo + 1 + Z.of_nat n) with (lo + Z.of_nat (S n)) by lia. lia.
Qed.

Lemma cnt_split p lo mid hi :
  lo <= mid <= hi -> cnt p lo hi = cnt p lo mid + cnt p mid hi.
Proof.
  intros ?. unfold cnt.
  replace (Z.to_nat (hi - lo)) with (Z.to_nat (mid - lo) + Z.to_nat (hi - mid))%nat by lia.
  rewrite cnt_n_app. do 2 f_equal. lia.
Qed.

Lemma cnt_ext p q lo hi :
  (forall a, lo <= a < hi -> p a = q a) -> cnt p lo hi = cnt q lo hi.
Proof.
  unfold cnt. intros Hpq.
  assert (forall n lo', lo <= lo' -> lo' + Z.of_nat n <= Z.max lo hi ->
    cnt_n p lo' n = cnt_n q lo' n) as Hn; [|apply Hn; lia].
  induction n as [|n IH]; intros lo' ??; simpl; [done|].
  rewrite Hpq, IH by lia. done.
Qed.

Lemma cnt_const b lo hi : lo <= hi -> cnt (fun _ => b) lo hi = if b then hi - lo else 0.
Proof.
  intros ?. unfold cnt. assert (forall n lo', cnt_n (fun _ => b) lo' n = if b then Z.of_nat n else 0) as Hn.
  { induction n as [|n IH]; intros lo'; simpl; [by destruct b|]. rewrite IH. destruct b; lia. }
  rewrite Hn. destruct b; lia.
Qed.

Lemma cnt_bounds p lo hi : lo <= hi -> 0 <= cnt p lo hi <= hi - lo.
Proof.
  intros ?. unfold cnt. assert (forall n lo', 0 <= cnt_n p lo' n <= Z.of_nat n) as Hn.
  { induction n as [|n IH]; intros lo'; simpl; [lia|]. specialize (IH (lo' + 1)).
    destruct (p lo'); lia. }
  specialize (Hn (Z.to_nat (hi - lo)) lo). lia.
Qed.

Lemma cnt_negb p lo hi : lo <= hi -> cnt p lo hi + cnt (fun a => negb (p a)) lo hi = hi - lo.
Proof.
  intros ?. unfold cnt.
  assert (forall n lo', cnt_n p lo' n + cnt_n (fun a => negb (p a)) lo' n = Z.of_nat n) as Hn.
  { induction n as [|n IH]; intros lo'; simpl; [lia|]. specialize (IH (lo' + 1)). destruct (p lo'); simpl; lia. }
  rewrite Hn. lia.
Qed.

(** What holds somewhere, and a hole. *)
Lemma cnt_pos p lo hi : 0 < cnt p lo hi -> exists a, lo <= a < hi /\ p a = true.
Proof.
  unfold cnt. enough (forall n lo', 0 < cnt_n p lo' n -> exists a, lo' <= a < lo' + Z.of_nat n /\ p a = true) as Hn.
  { intros (a & ? & ?)%Hn. exists a. split; [lia|done]. }
  induction n as [|n IH]; intros lo' Hpos; cbn in Hpos; [lia|].
  destruct (p lo') eqn:Hp; [exists lo'; split; [lia|done]|].
  destruct (IH (lo' + 1)) as (a & ? & ?); [lia|]. exists a. split; [lia|done].
Qed.

Lemma cnt_hole p lo hi y : lo <= y < hi -> p y = false -> cnt p lo hi < hi - lo.
Proof.
  intros Hy Hp. rewrite (cnt_split p lo y hi), (cnt_split p y (y + 1) hi) by lia.
  rewrite (cnt_ext p (fun _ => false) y (y + 1)), cnt_const by (lia || (intros a ?; by replace a with y by lia)).
  pose proof (cnt_bounds p lo y ltac:(lia)). pose proof (cnt_bounds p (y + 1) hi ltac:(lia)). lia.
Qed.
End cnt.
