(* ===== verification/Machine.v ===== *)
(** * The machine the kernel runs on, and the monads its code is written in

    [result] holds the outcomes of Rust code in this kernel: a value, a panic,
    an access to an unmapped address, undefined behaviour, or a polling loop
    that ran out of the polls it was given.  [M S] is code with a [&mut self]
    of type [S] on the hardware [Hw]: RAM, the text-mode screen, the I/O ports
    (as the trace of accesses, newest first) and the few CPU registers the
    kernel touches.  [wp] is total correctness: it holds only of runs that
    return. *)
From Stdlib Require Import ZArith Lia.
From stdpp Require Import base tactics numbers list gmap.
From S2P Require Import Prelude.

(** ** Outcomes *)

Inductive panic_reason :=
  | Overflow        (** arithmetic overflow check (debug profile) *)
  | AssertFailed    (** [assert!] / [assert_eq!] *)
  | OutOfBounds     (** slice or array index out of range *)
  | DivByZero
  | UnwrapNone      (** [Option::unwrap] on [None] *)
  | Explicit.       (** [panic!] *)

#[export] Instance panic_reason_eq_dec : EqDecision panic_reason.
Proof. solve_decision. Defined.

Inductive result (A : Type) :=
  | Ok (a : A)
  | Panic (why : panic_reason)
  | PageFault (addr : Z)
  | Undefined
  | Hang.
Arguments Ok {A} a.
Arguments Panic {A} why.
Arguments PageFault {A} addr.
Arguments Undefined {A}.
Arguments Hang {A}.

#[export] Instance result_ret : MRet result := fun A a => Ok a.

#[export] Instance result_bind : MBind result := fun A B k r =>
  match r with
  | Ok a => k a
  | Panic p => Panic p
  | PageFault a => PageFault a
  | Undefined => Undefined
  | Hang => Hang
  end.

#[export] Instance result_fmap : FMap result := fun A B f r => r ≫= (fun a => Ok (f a)).

(** ** The platform: build profile and devices

    [overflow_checks] is the cargo profile (on in [dev], off in [release]);
    [spin_fuel] bounds the polls of a spin loop; [port_in] is what the devices
    answer to an [in] instruction, as a function of everything that went over
    the ports before. *)

Inductive io_event :=
  | In (port value : Z)
  | Out (port value : Z).

#[export] Instance io_event_eq_dec : EqDecision io_event.
Proof. solve_decision. Defined.

Class Platform := {
  overflow_checks : bool;
  spin_fuel : nat;
  port_in : list io_event -> Z -> Z;
  port_in_byte : forall tr p, port_in tr p ∈u 8
}.

(** Platforms to evaluate definitions on: every port always answers
    [answer], with either build profile. *)
Definition constant_platform (checks : bool) (answer : Z) : Platform :=
  {| overflow_checks := checks; spin_fuel := 10;
     port_in := fun _ _ => wrap 8 answer;
     port_in_byte := fun _ _ => uint_wrap 8 answer ltac:(lia) |}.

Definition is_panic {A} (r : result A) : bool :=
  match r with Panic _ => true | _ => false end.

(** ** Rust arithmetic at a fixed width *)
Section arith.
Context `{Platform}.

Definition arith (w x : Z) : result Z :=
  if decide (x ∈u w) then Ok x
  else if overflow_checks then Panic Overflow
  else Ok (wrap w x).

Definition add (w a b : Z) : result Z := arith w (a + b).
Definition sub (w a b : Z) : result Z := arith w (a - b).
Definition mul (w a b : Z) : result Z := arith w (a * b).

Definition div (a b : Z) : result Z :=
  if decide (b = 0) then Panic DivByZero else Ok (a / b).

Definition rem (a b : Z) : result Z :=
  if decide (b = 0) then Panic DivByZero else Ok (a mod b).

(** [a << n] and [a >> n]: bits shifted out are lost, an [n] of [w] or more
    panics in debug builds and is masked in release builds. *)
Definition shift_amount (w n : Z) : result Z :=
  if decide (n < w) then Ok n
  else if overflow_checks then Panic Overflow
  else Ok (n mod w).

Definition shl (w a n : Z) : result Z :=
  n ← shift_amount w n; Ok (wrap w (Z.shiftl a n)).

Definition shr (w a n : Z) : result Z :=
  n ← shift_amount w n; Ok (Z.shiftr a n).

Definition assert (b : bool) : result unit :=
  if b then Ok tt else Panic AssertFailed.

Lemma arith_ok w x : x ∈u w -> arith w x = Ok x.
Proof. intros. unfold arith. by rewrite decide_True. Qed.

Lemma add_ok w a b : a + b ∈u w -> add w a b = Ok (a + b).
Proof. apply arith_ok. Qed.

Lemma sub_ok w a b : a - b ∈u w -> sub w a b = Ok (a - b).
Proof. apply arith_ok. Qed.

Lemma mul_ok w a b : a * b ∈u w -> mul w a b = Ok (a * b).
Proof. apply arith_ok. Qed.

Lemma div_ok a b : b ≠ 0 -> div a b = Ok (a / b).
Proof. intros. unfold div. by rewrite decide_False. Qed.

Lemma rem_ok a b : b ≠ 0 -> rem a b = Ok (a mod b).
Proof. intros. unfold rem. by rewrite decide_False. Qed.

Lemma shl_ok w a n : n < w -> shl w a n = Ok (wrap w (Z.shiftl a n)).
Proof. intros. unfold shl, shift_amount. by rewrite decide_True. Qed.

Lemma shr_ok w a n : n < w -> shr w a n = Ok (Z.shiftr a n).
Proof. intros. unfold shr, shift_amount. by rewrite decide_True. Qed.

Lemma assert_ok b : b = true -> assert b = Ok tt.
Proof. by intros ->. Qed.

Lemma assert_fail b : b = false -> assert b = Panic AssertFailed.
Proof. by intros ->. Qed.
End arith.

Lemma result_bind_ok {A B} (a : A) (k : A -> result B) : Ok a ≫= k = k a.
Proof. done. Qed.

Lemma result_bind_panic {A B} p (k : A -> result B) : Panic p ≫= k = Panic p.
Proof. done. Qed.

Lemma result_bind_eq {A B} (r : result A) (k : A -> result B) a z :
  r = Ok a -> k a = z -> r ≫= k = z.
Proof. by intros ->. Qed.

Lemma result_bind_fail {A B} (r : result A) (k : A -> result B) p :
  r = Panic p -> r ≫= k = Panic p.
Proof. by intros ->. Qed.

Lemma result_bind_is_panic {A B} (r : result A) (k : A -> result B) :
  is_panic r = true -> is_panic (r ≫= k) = true.
Proof. by destruct r. Qed.

Lemma result_det {A} (r : result A) a b : r = Ok a -> r = Ok b -> a = b.
Proof. intros ->. by intros [= ->]. Qed.

(** [ok_step L]: the first action of a pure computation succeeds by [L];
    [fail_step L]: it panics by [L]. *)
Tactic Notation "ok_step" uconstr(L) := eapply result_bind_eq; [apply L|cbv beta].
Tactic Notation "ok_step" uconstr(L) "by" tactic3(t) :=
  eapply result_bind_eq; [apply L; t|cbv beta].
Tactic Notation "fail_step" uconstr(L) := eapply result_bind_fail, L.

(** ** Hardware state *)

Record Hw := MkHw {
  mem : gmap Z Z;                   (** mapped bytes, by virtual address *)
  screen : list (list (Z * Z));     (** text buffer: rows of (character, attribute) *)
  trace : list io_event;            (** port accesses, newest first *)
  reg_cs : Z;
  reg_esp : Z;
  reg_cr3 : Z;
  reg_idtr : option (Z * Z);        (** (base, limit) once [lidt] ran *)
  reg_if : bool                     (** interrupts enabled *)
}.

Definition set_mem (m : gmap Z Z) (h : Hw) : Hw :=
  MkHw m (screen h) (trace h) (reg_cs h) (reg_esp h) (reg_cr3 h) (reg_idtr h) (reg_if h).
Definition set_screen (v : list (list (Z * Z))) (h : Hw) : Hw :=
  MkHw (mem h) v (trace h) (reg_cs h) (reg_esp h) (reg_cr3 h) (reg_idtr h) (reg_if h).
Definition log_io (e : io_event) (h : Hw) : Hw :=
  MkHw (mem h) (screen h) (e :: trace h) (reg_cs h) (reg_esp h) (reg_cr3 h)
    (reg_idtr h) (reg_if h).
Definition set_idtr (d : Z * Z) (h : Hw) : Hw :=
  MkHw (mem h) (screen h) (trace h) (reg_cs h) (reg_esp h) (reg_cr3 h) (Some d) (reg_if h).
Definition set_if (b : bool) (h : Hw) : Hw :=
  MkHw (mem h) (screen h) (trace h) (reg_cs h) (reg_esp h) (reg_cr3 h) (reg_idtr h) b.

(** The hardware after the port accesses [es], in order. *)
Definition log_ios (es : list io_event) (h : Hw) : Hw :=
  fold_left (fun h e => log_io e h) es h.

Lemma log_ios_app es es' h : log_ios (es ++ es') h = log_ios es' (log_ios es h).
Proof. apply fold_left_app. Qed.

Lemma log_ios_spec es h :
  log_ios es h = MkHw (mem h) (screen h) (rev es ++ trace h) (reg_cs h) (reg_esp h)
    (reg_cr3 h) (reg_idtr h) (reg_if h).
Proof.
  revert h. induction es as [|e es IH]; intros h; [by destruct h|].
  simpl. rewrite IH. simpl. by rewrite <- app_assoc.
Qed.

Lemma trace_log_ios es h : trace (log_ios es h) = rev es ++ trace h.
Proof. by rewrite log_ios_spec. Qed.

(** ** The state monad *)

Definition M (S A : Type) : Type := S -> Hw -> result A * (S * Hw).

#[export] Instance M_ret {S} : MRet (M S) := fun A a s h => (Ok a, (s, h)).

#[export] Instance M_bind {S} : MBind (M S) := fun A B k m s h =>
  match m s h with
  | (Ok a, (s', h')) => k a s' h'
  | (Panic p, sh) => (Panic p, sh)
  | (PageFault a, sh) => (PageFault a, sh)
  | (Undefined, sh) => (Undefined, sh)
  | (Hang, sh) => (Hang, sh)
  end.

(** Pure fallible code used inside [M]. *)
Definition lift {S A} (r : result A) : M S A := fun s h => (r, (s, h)).

Definition get {S} : M S S := fun s h => (Ok s, (s, h)).
Definition put {S} (s' : S) : M S unit := fun _ h => (Ok tt, (s', h)).
Definition hw {S} : M S Hw := fun s h => (Ok h, (s, h)).
Definition modify_hw {S} (f : Hw -> Hw) : M S unit := fun s h => (Ok tt, (s, f h)).

(** A field of a larger state, and code on the field run in the larger state. *)
Record Lens (G T : Type) := MkLens { view : G -> T; over : T -> G -> G }.
Arguments MkLens {G T} _ _.
Arguments view {G T} _ _.
Arguments over {G T} _ _ _.

Class LensLaws {G T} (l : Lens G T) := {
  view_over : forall t g, view l (over l t g) = t;
  over_over : forall t t' g, over l t (over l t' g) = over l t g;
  over_view : forall g, over l (view l g) g = g
}.

Definition zoom {G T A} (l : Lens G T) (m : M T A) : M G A := fun g h =>
  let '(r, (t, h')) := m (view l g) h in (r, (over l t g, h')).

(** ** Loops

    [for i in lo..hi]: [for_each] runs the body on every index, [for_ret] stops
    at the first index whose body executes [return]. *)

Fixpoint for_each_n {S} (n : nat) (i : Z) (body : Z -> M S unit) : M S unit :=
  match n with
  | O => mret tt
  | Datatypes.S n' => _ ← body i; for_each_n n' (i + 1) body
  end.

Definition for_each {S} (lo hi : Z) (body : Z -> M S unit) : M S unit :=
  for_each_n (Z.to_nat (hi - lo)) lo body.

Fixpoint for_ret_n {S R} (n : nat) (i : Z) (body : Z -> M S (option R)) : M S (option R) :=
  match n with
  | O => mret None
  | Datatypes.S n' =>
      r ← body i;
      match r with
      | Some x => mret (Some x)
      | None => for_ret_n n' (i + 1) body
      end
  end.

Definition for_ret {S R} (lo hi : Z) (body : Z -> M S (option R)) : M S (option R) :=
  for_ret_n (Z.to_nat (hi - lo)) lo body.

(** [for x in slice]. *)
Fixpoint for_in {S A} (l : list A) (body : A -> M S unit) : M S unit :=
  match l with
  | [] => mret tt
  | x :: l' => _ ← body x; for_in l' body
  end.

(** [while !cond { spin_loop() }], at most [fuel] tests of [cond]. *)
Fixpoint spin_until {S} (fuel : nat) (cond : M S bool) : M S unit :=
  match fuel with
  | O => lift Hang
  | Datatypes.S fuel' =>
      b ← cond;
      if (b : bool) then mret tt else spin_until fuel' cond
  end.

(** ** Memory *)

Definition load8 {S} (a : Z) : M S Z := fun s h =>
  match mem h !! a with
  | Some b => (Ok b, (s, h))
  | None => (PageFault a, (s, h))
  end.

Definition store8 {S} (a b : Z) : M S unit := fun s h =>
  match mem h !! a with
  | Some _ => (Ok tt, (s, set_mem (<[a := b]> (mem h)) h))
  | None => (PageFault a, (s, h))
  end.

(** Little-endian load of [n] bytes. *)
Fixpoint load_le {S} (n : nat) (a : Z) : M S Z :=
  match n with
  | O => mret 0
  | Datatypes.S n' => b ← load8 a; r ← load_le n' (a + 1); mret (b + 256 * r)
  end.

(** Little-endian store of [n] bytes. *)
Fixpoint store_le {S} (n : nat) (a v : Z) : M S unit :=
  match n with
  | O => mret tt
  | Datatypes.S n' => _ ← store8 a (v mod 256); store_le n' (a + 1) (v / 256)
  end.

(** Pointer arithmetic on the 32-bit address space ([ptr.offset(n)]). *)
Definition ptr_offset (p n : Z) : Z := wrap 32 (p + n).

(** [ptr.write_bytes(val, len)]. *)
Definition write_bytes_at {S} (p val len : Z) : M S unit :=
  for_each 0 len (fun i => store8 (ptr_offset p i) val).

(** ** Weakest preconditions *)

Definition wp {S A} (m : M S A) (Q : A -> S -> Hw -> Prop) (s : S) (h : Hw) : Prop :=
  match m s h with
  | (Ok a, (s', h')) => Q a s' h'
  | _ => False
  end.

Section wp.
Context {S : Type}.
Implicit Types (s : S) (h : Hw).

Lemma wp_run {A} (m : M S A) Q s h :
  wp m Q s h <-> exists a s' h', m s h = (Ok a, (s', h')) /\ Q a s' h'.
Proof.
  unfold wp. split.
  - destruct (m s h) as [[a| | | |] [s' h']]; try done. eauto.
  - intros (a & s' & h' & -> & HQ). done.
Qed.

Lemma wp_mono {A} (m : M S A) (Q Q' : A -> S -> Hw -> Prop) s h :
  wp m Q s h -> (forall a s' h', Q a s' h' -> Q' a s' h') -> wp m Q' s h.
Proof. unfold wp. destruct (m s h) as [[] []]; eauto. Qed.

Lemma wp_conj {A} (m : M S A) (Q Q' : A -> S -> Hw -> Prop) s h :
  wp m Q s h -> wp m Q' s h -> wp m (fun a s' h' => Q a s' h' /\ Q' a s' h') s h.
Proof. unfold wp. destruct (m s h) as [[] []]; eauto. Qed.

Lemma wp_bind {A B} (m : M S A) (k : A -> M S B) Q s h :
  wp (m ≫= k) Q s h <-> wp m (fun a s' h' => wp (k a) Q s' h') s h.
Proof. unfold wp, mbind, M_bind. by destruct (m s h) as [[] []]. Qed.

Lemma wp_ret {A} (a : A) (Q : A -> S -> Hw -> Prop) s h :
  wp (mret a) Q s h <-> Q a s h.
Proof. done. Qed.

Lemma wp_lift {A} (r : result A) (Q : A -> S -> Hw -> Prop) s h :
  wp (lift r) Q s h <-> match r with Ok a => Q a s h | _ => False end.
Proof. unfold wp, lift. by destruct r. Qed.

Lemma wp_lift_ok {A} (r : result A) a (Q : A -> S -> Hw -> Prop) s h :
  r = Ok a -> Q a s h -> wp (lift r) Q s h.
Proof. by intros ->. Qed.

Lemma wp_get (Q : S -> S -> Hw -> Prop) s h : wp get Q s h <-> Q s s h.
Proof. done. Qed.

Lemma wp_put s' (Q : unit -> S -> Hw -> Prop) s h : wp (put s') Q s h <-> Q tt s' h.
Proof. done. Qed.

Lemma wp_hw (Q : Hw -> S -> Hw -> Prop) s h : wp hw Q s h <-> Q h s h.
Proof. done. Qed.

Lemma wp_modify_hw f (Q : unit -> S -> Hw -> Prop) s h :
  wp (modify_hw f) Q s h <-> Q tt s (f h).
Proof. done. Qed.

Lemma wp_load8 a (Q : Z -> S -> Hw -> Prop) b s h :
  mem h !! a = Some b -> Q b s h -> wp (load8 a) Q s h.
Proof. unfold wp, load8. by intros ->. Qed.

Lemma wp_store8 a b (Q : unit -> S -> Hw -> Prop) s h :
  is_Some (mem h !! a) -> Q tt s (set_mem (<[a := b]> (mem h)) h) ->
  wp (store8 a b) Q s h.
Proof. unfold wp, store8. by intros [? ->]. Qed.

(** Loop rule: an invariant indexed by the loop counter. *)
Lemma wp_for_each (I : Z -> S -> Hw -> Prop) lo hi body
    (Q : unit -> S -> Hw -> Prop) s h :
  lo <= hi ->
  I lo s h ->
  (forall i s h, lo <= i < hi -> I i s h -> wp (body i) (fun _ => I (i + 1)) s h) ->
  (forall s h, I hi s h -> Q tt s h) ->
  wp (for_each lo hi body) Q s h.
Proof.
  intros Hle HI Hbody HQ. unfold for_each.
  remember (Z.to_nat (hi - lo)) as n eqn:Hn.
  assert (hi = lo + Z.of_nat n) as -> by lia. clear Hle Hn.
  revert lo s h HI Hbody HQ.
  induction n as [|n IH]; intros lo s h HI Hbody HQ; simpl.
  - apply wp_ret, HQ. by rewrite Z.add_0_r.
  - apply wp_bind. eapply wp_mono; [apply Hbody; [lia|done]|].
    intros [] s' h' HI'. simpl in HI'. apply IH; [done| |].
    + intros i s1 h1 ?. apply Hbody. lia.
    + intros s1 h1 ?. apply HQ.
      by replace (lo + Z.of_nat (Datatypes.S n)) with (lo + 1 + Z.of_nat n) by lia.
Qed.

Lemma wp_for_in {A} (I : list A -> S -> Hw -> Prop) (l : list A) body
    (Q : unit -> S -> Hw -> Prop) s h :
  I l s h ->
  (forall x l' s h, I (x :: l') s h -> wp (body x) (fun _ => I l') s h) ->
  (forall s h, I [] s h -> Q tt s h) ->
  wp (for_in l body) Q s h.
Proof.
  intros HI Hbody HQ. revert s h HI. induction l as [|x l IH]; intros s h HI; simpl.
  - by apply wp_ret, HQ.
  - apply wp_bind. eapply wp_mono; [by apply Hbody|]. intros [] s' h' HI'. by apply IH.
Qed.
End wp.

Lemma wp_zoom {G T A} (l : Lens G T) (m : M T A) (Q : A -> G -> Hw -> Prop) g h :
  wp (zoom l m) Q g h <-> wp m (fun a t h' => Q a (over l t g) h') (view l g) h.
Proof. unfold wp, zoom. by destruct (m (view l g) h) as [[] []]. Qed.

(** Running [m] and continuing, as equations on whole runs. *)
Lemma run_bind {S A B} (m : M S A) (k : A -> M S B) s h a s' h' :
  m s h = (Ok a, (s', h')) -> (m ≫= k) s h = k a s' h'.
Proof. unfold mbind, M_bind. by intros ->. Qed.

Lemma run_bind_panic {S A B} (m : M S A) (k : A -> M S B) s h p sh :
  m s h = (Panic p, sh) -> (m ≫= k) s h = (Panic p, sh).
Proof. unfold mbind, M_bind. by intros ->. Qed.

Lemma run_bind_lift {S A B} (r : result A) (k : A -> M S B) s h a :
  r = Ok a -> (lift r ≫= k) s h = k a s h.
Proof. by intros ->. Qed.

Lemma bind_assoc {S A B C} (m : M S A) (k : A -> M S B) (k' : B -> M S C) s h :
  ((m ≫= k) ≫= k') s h = (m ≫= (fun a => k a ≫= k')) s h.
Proof. unfold mbind, M_bind. by destruct (m s h) as [[] []]. Qed.

Lemma run_bind_eq {S A B} (m : M S A) (k : A -> M S B) s h a s' h' z :
  m s h = (Ok a, (s', h')) -> k a s' h' = z -> (m ≫= k) s h = z.
Proof. intros Hm <-. by apply run_bind. Qed.

(** A run that starts with pure code, as pure code. *)
Lemma run_bind_pure {S A B} (r : result A) (k : A -> M S B) (k' : A -> result B) s h :
  (forall a, r = Ok a -> k a s h = (k' a, (s, h))) ->
  (lift r ≫= k) s h = (r ≫= k', (s, h)).
Proof. intros Hk. unfold mbind, M_bind, lift. destruct r; cbn; auto. Qed.

(** [run_step L]: the first action of a run returns by [L]. *)
Tactic Notation "run_step" uconstr(L) := eapply run_bind_eq; [apply L|cbv beta].
Tactic Notation "run_lift" uconstr(L) :=
  eapply run_bind_eq; [unfold lift; rewrite L; reflexivity|cbv beta].
Tactic Notation "run_lift" uconstr(L) "by" tactic3(t) :=
  eapply run_bind_eq; [unfold lift; rewrite L by t; reflexivity|cbv beta].

(** A loop whose first iterations return and whose next one panics. *)
Lemma for_each_panic {S} lo mid hi (body : Z -> M S unit) s h s' h' p sh :
  lo <= mid < hi -> for_each lo mid body s h = (Ok tt, (s', h')) ->
  body mid s' h' = (Panic p, sh) -> for_each lo hi body s h = (Panic p, sh).
Proof.
  intros Hm Hrun Hp. unfold for_each in *.
  replace (Z.to_nat (hi - lo)) with (Z.to_nat (mid - lo) + Datatypes.S (Z.to_nat (hi - mid - 1)))%nat by lia.
  assert (mid = lo + Z.of_nat (Z.to_nat (mid - lo))) as Hmid by lia.
  revert Hmid Hrun. generalize (Z.to_nat (mid - lo)) as n. clear Hm. intros n. revert lo s h.
  induction n as [|n IH]; intros lo s h Hmid Hrun; cbn [for_each_n Nat.add] in *.
  - injection Hrun as <- <-. rewrite Z.add_0_r in Hmid. subst lo. by apply run_bind_panic.
  - unfold mbind, M_bind in Hrun |- *. destruct (body lo s h) as [[[]| | | |] [s1 h1]]; try done.
    apply IH; [lia|done].
Qed.

Lemma run_load8 {S} a b (s : S) h :
  mem h !! a = Some b -> load8 a s h = (Ok b, (s, h)).
Proof. unfold load8. by intros ->. Qed.

Lemma run_store8 {S} a b (s : S) h :
  is_Some (mem h !! a) ->
  store8 a b s h = (Ok tt, (s, set_mem (<[a := b]> (mem h)) h)).
Proof. unfold store8. by intros [? ->]. Qed.

#[export] Hint Rewrite @wp_bind @wp_ret @wp_get @wp_put @wp_hw @wp_modify_hw @wp_zoom
  : wp.

(** [wp_simp] runs the administrative steps of a weakest-precondition goal;
    [wp_ok L] steps over pure code whose success is lemma [L]. *)
Ltac wp_simp := autorewrite with wp; simpl.
Ltac wp_ok L := apply wp_bind; eapply wp_lift_ok; [apply L|]; simpl.
