(* ===== verification/Fmt.v ===== *)
(** * Formatted output: what the kernel uses of [core::fmt]

    [fmt::Write] is an interface, [FmtWrite]: a [write_str] that may be given a
    text in pieces.  [fmt::Arguments] is the list of pieces it will be written
    as, and [write_fmt] is the trait's provided method.  The VGA console and
    the serial port implement the interface; the [print!] macros are proved
    against it.  Strings are lists of bytes. *)
From Stdlib Require Import ZArith Lia Ascii String.
From stdpp Require Import base tactics numbers list gmap.
From S2P Require Import Prelude.
From S2P Require Import Machine.

(** ** Texts *)

(** A string literal as bytes. *)
Definition bs (s : string) : list Z :=
  map (fun c => Z.of_N (N_of_ascii c)) (list_ascii_of_string s).

(** Positional notation, most significant digit first. *)
Definition digit_char (d : Z) : Z := if d <? 10 then 48 + d else 87 + d.

Fixpoint digits (fuel : nat) (radix n : Z) : list Z :=
  match fuel with
  | O => []
  | S fuel' =>
      if n <? radix then [digit_char (n mod radix)]
      else digits fuel' radix (n / radix) ++ [digit_char (n mod radix)]
  end.

(** [{}] and [{:x}] of an unsigned integer. *)
Definition display (n : Z) : list Z := digits (S (Z.to_nat (Z.log2 n))) 10 n.
Definition lower_hex (n : Z) : list Z := digits (S (Z.to_nat (Z.log2 n))) 16 n.

(** [{:?}] of a struct through [f.debug_struct(..).field(..).finish()]. *)
Fixpoint debug_fields (sep : list Z) (fields : list (list Z * list Z)) : list Z :=
  match fields with
  | [] => []
  | (name, value) :: rest => sep ++ name ++ bs ": " ++ value ++ debug_fields (bs ", ") rest
  end.

Definition debug_struct (name : list Z) (fields : list (list Z * list Z)) : list Z :=
  match fields with
  | [] => name
  | _ => name ++ bs " { " ++ debug_fields [] fields ++ bs " }"
  end.

Definition debug_bool (b : bool) : list Z := if b then bs "true" else bs "false".

(** ** The interface *)

Class FmtWrite (S : Type) := {
  write_str : list Z -> M S unit;
  write_str_nil : forall s h, write_str [] s h = (Ok tt, (s, h));
  write_str_app : forall a b s h,
    write_str (a ++ b) s h = (_ ← write_str a; write_str b) s h
}.

(** [write_fmt]: the pieces in order; no [write_str] of the kernel returns an
    error. *)
Definition write_fmt {S} `{FmtWrite S} (args : list (list Z)) : M S unit :=
  for_in args write_str.

Section interface.
Context {S : Type} `{FmtWrite S}.

(** How a text is cut into pieces does not matter. *)
Lemma write_fmt_concat args s h : write_fmt args s h = write_str (concat args) s h.
Proof.
  revert s h. induction args as [|a args IH]; intros s h; simpl.
  - by rewrite write_str_nil.
  - change (write_fmt (a :: args) s h) with ((_ ← write_str a; write_fmt args) s h).
    rewrite write_str_app. unfold mbind, M_bind.
    destruct (write_str a s h) as [[[]| | | |] [s' h']]; [apply IH|done..].
Qed.
End interface.

(** A byte-at-a-time sink is an implementation. *)
Section bytewise.
Context {S : Type} (putc : Z -> M S unit).

Lemma for_in_nil s h : for_in [] putc s h = (Ok tt, (s, h)).
Proof. done. Qed.

Lemma for_in_app a b s h :
  for_in (a ++ b) putc s h = (_ ← for_in a putc; for_in b putc) s h.
Proof.
  revert s h. induction a as [|x a IH]; intros s h; [done|].
  simpl. unfold mbind, M_bind in *.
  destruct (putc x s h) as [[[]| | | |] [s' h']]; [apply IH|done..].
Qed.
End bytewise.
