(* ===== verification/BitAccess.v ===== *)
(** * Bit fields: the [BitAccess] trait of [utils/mod.rs]

    The macro [bit_access_impl!] implements the trait for [u8], [u16] and
    [u32]; a definition here takes the width [w] of the implementing type.
    [&mut self] methods return the new value.  [field] is the reference
    meaning of a bit range, and the lemmas relate the shift-and-mask code to it
    on every range the code accepts, and to a panic on every range it refuses. *)
From Stdlib Require Import ZArith Lia Btauto.
From stdpp Require Import base tactics numbers list gmap.
From S2P Require Import Prelude.
From S2P Require Import Machine.

(** The widths the macro is applied to. *)
Class BitAccess (w : Z) := bit_access_impl : w = 8 \/ w = 16 \/ w = 32.
#[export] Instance BitAccess_u8 : BitAccess 8.
Proof. unfold BitAccess. lia. Qed.
#[export] Instance BitAccess_u16 : BitAccess 16.
Proof. unfold BitAccess. lia. Qed.
#[export] Instance BitAccess_u32 : BitAccess 32.
Proof. unfold BitAccess. lia. Qed.

(** [core::ops::Bound], [RangeBounds] and [Range<usize>]. *)
Inductive Bound :=
  | Included (value : Z)
  | Excluded (value : Z)
  | Unbounded.

#[export] Instance Bound_eq_dec : EqDecision Bound.
Proof. solve_decision. Defined.

Record RangeBounds := MkRangeBounds { start_bound : Bound; end_bound : Bound }.

Record Range := MkRange { start : Z; end_ : Z }.

(** [a..b] and [a..=b]. *)
Definition range_exclusive (a b : Z) : RangeBounds := MkRangeBounds (Included a) (Excluded b).
Definition range_inclusive (a b : Z) : RangeBounds := MkRangeBounds (Included a) (Included b).

Section code.
Context `{Platform}.
Implicit Types w x bit value : Z.

Definition to_regular_range (generic_range : RangeBounds) (bit_length : Z) : result Range :=
  start ← match start_bound generic_range with
          | Excluded value => add 32 value 1
          | Included value => Ok value
          | Unbounded => Ok 0
          end;
  end_ ← match end_bound generic_range with
         | Excluded value => Ok value
         | Included value => add 32 value 1
         | Unbounded => Ok bit_length
         end;
  Ok (MkRange start end_).

Definition get_bit w x bit : result bool :=
  _ ← assert (bit <? w);
  m ← shl w 1 bit;
  Ok (negb (Z.land x m =? 0)).

Definition check_range w (r : Range) : result unit :=
  _ ← assert (start r <? w);
  _ ← assert (end_ r <=? w);
  assert (start r <? end_ r).

Definition get_bits w x (range : RangeBounds) : result Z :=
  r ← to_regular_range range w;
  _ ← check_range w r;
  (* shift away high bits *)
  n ← sub 32 w (end_ r);
  bits ← shl w x n;
  bits ← shr w bits n;
  (* shift away low bits *)
  shr w bits (start r).

Definition set_bit w x bit (value : bool) : result Z :=
  _ ← assert (bit <? w);
  m ← shl w 1 bit;
  Ok (if value then Z.lor x m else Z.land x (not_w w m)).

Definition set_bits w x (range : RangeBounds) value : result Z :=
  r ← to_regular_range range w;
  _ ← check_range w r;
  len ← sub 32 (end_ r) (start r);
  n ← sub 32 w len;
  fit ← shl w value n;
  fit ← shr w fit n;
  _ ← assert (fit =? value);
  k ← sub 32 w (end_ r);
  b ← shl w (not_w w 0) k;
  b ← shr w b k;
  b ← shr w b (start r);
  b ← shl w b (start r);
  let bitmask := not_w w b in
  v ← shl w value (start r);
  Ok (Z.lor (Z.land x bitmask) v).
End code.

(** ** Reference meaning *)

(** Bits [s..e) of [x], and [x] with those bits replaced by [v]. *)
Definition field (x s e : Z) : Z := wrap (e - s) (Z.shiftr x s).

Definition with_field (x s e v : Z) : Z :=
  Z.lor (Z.ldiff x (Z.shiftl (Z.ones (e - s)) s)) (Z.shiftl v s).

(** The ranges the code accepts. *)
Definition valid_range (w s e : Z) : Prop := 0 <= s /\ s < e /\ e <= w.

#[export] Instance valid_range_dec w s e : Decision (valid_range w s e).
Proof. unfold valid_range. apply _. Defined.

#[export] Hint Rewrite Z.ldiff_spec : bits.
#[export] Hint Rewrite Z.testbit_ones_nonneg using lia : bits.

Section reference.
Implicit Types w x s e v i : Z.

Lemma testbit_field x s e i :
  0 <= s <= e -> 0 <= i -> Z.testbit (field x s e) i = (i <? e - s) && Z.testbit x (i + s).
Proof. intros. unfold field. by rewrite testbit_wrap, Z.shiftr_spec by lia. Qed.

Lemma testbit_with_field x s e v i :
  0 <= s <= e -> v ∈u (e - s) -> 0 <= i ->
  Z.testbit (with_field x s e v) i =
    if decide (s <= i < e) then Z.testbit v (i - s) else Z.testbit x i.
Proof.
  intros ? Hv ?. unfold with_field. autorewrite with bits.
  case_decide; repeat (bits_case; simpl); rewrite ?Z.testbit_ones_nonneg by lia;
    repeat (bits_case; simpl); rewrite ?andb_false_r, ?andb_true_r, ?orb_false_r; try done.
  by rewrite (testbit_uint_high (e - s) v), orb_false_r by (done || lia).
Qed.

Lemma uint_field x s e : s <= e -> field x s e ∈u (e - s).
Proof. intros. apply uint_wrap. lia. Qed.

Lemma with_field_nonneg x s e v : 0 <= x -> 0 <= v -> 0 <= with_field x s e v.
Proof.
  intros. unfold with_field. apply Z.lor_nonneg. split.
  - apply Z.ldiff_nonneg. by left.
  - by apply Z.shiftl_nonneg.
Qed.

Lemma uint_with_field w x s e v :
  valid_range w s e -> x ∈u w -> v ∈u (e - s) -> with_field x s e v ∈u w.
Proof.
  intros (?&?&?) Hx Hv. apply uint_testbit; [lia|by apply with_field_nonneg; [apply Hx|apply Hv]|].
  intros i ?. rewrite testbit_with_field by (done || lia).
  rewrite decide_False by lia. apply (testbit_uint_high w); done || lia.
Qed.

Lemma field_with_field x s e v :
  0 <= s <= e -> v ∈u (e - s) -> field (with_field x s e v) s e = v.
Proof.
  intros ? Hv. apply Z.bits_inj'. intros i ?.
  rewrite testbit_field, testbit_with_field by (done || lia).
  destruct (Z.ltb_spec i (e - s)); simpl.
  - rewrite decide_True by lia. f_equal. lia.
  - by rewrite (testbit_uint_high (e - s) v) by (done || lia).
Qed.

Lemma field_with_field_disjoint x s e v s' e' :
  0 <= s <= e -> 0 <= s' <= e' -> v ∈u (e - s) -> e' <= s \/ e <= s' ->
  field (with_field x s e v) s' e' = field x s' e'.
Proof.
  intros ?? Hv ?. apply Z.bits_inj'. intros i ?.
  rewrite !testbit_field, testbit_with_field by (done || lia).
  destruct (Z.ltb_spec i (e' - s')); simpl; [|done]. by rewrite decide_False by lia.
Qed.

Lemma with_field_field x s e : 0 <= s <= e -> with_field x s e (field x s e) = x.
Proof.
  intros ?. apply Z.bits_inj'. intros i ?.
  rewrite testbit_with_field by (try apply uint_field; lia).
  case_decide; [|done]. rewrite testbit_field by lia.
  destruct (Z.ltb_spec (i - s) (e - s)); [|lia]. simpl. f_equal. lia.
Qed.

Lemma with_field_twice x s e v v' :
  0 <= s <= e -> v ∈u (e - s) -> v' ∈u (e - s) ->
  with_field (with_field x s e v) s e v' = with_field x s e v'.
Proof.
  intros ? Hv Hv'. apply Z.bits_inj'. intros i ?.
  rewrite !testbit_with_field by (done || lia). by case_decide.
Qed.

(** The arithmetic reading of a field. *)
Lemma field_div_mod x s e : 0 <= s <= e -> field x s e = (x / 2 ^ s) mod 2 ^ (e - s).
Proof. intros. unfold field, wrap. by rewrite Z.shiftr_div_pow2 by lia. Qed.
End reference.

(** ** The code computes the reference *)
Section correct.
Context `{Platform} (w : Z) `{!BitAccess w}.
Implicit Types x s e v bit : Z.

Lemma width_bounds : 8 <= w <= 32.
Proof using BitAccess0. destruct bit_access_impl; lia. Qed.

Lemma uint_w_32 x : 0 <= x <= w -> x ∈u 32.
Proof using BitAccess0.
  pose proof width_bounds. intros. split; [lia|].
  apply Z.le_lt_trans with 32; [lia|done].
Qed.

(** *** Single bits *)

Lemma land_one_bit x bit :
  0 <= bit < w -> negb (Z.land x (wrap w (Z.shiftl 1 bit)) =? 0) = Z.testbit x bit.
Proof using BitAccess0.
  pose proof width_bounds. intros. destruct (Z.testbit x bit) eqn:Hb.
  - apply negb_true_iff, Z.eqb_neq. intros Hz.
    assert (Z.testbit (Z.land x (wrap w (Z.shiftl 1 bit))) bit = true) as Ht.
    { autorewrite with bits. rewrite Hb. by repeat (bits_case; simpl). }
    by rewrite Hz, Z.bits_0 in Ht.
  - apply negb_false_iff, Z.eqb_eq, Z.bits_inj'. intros i ?.
    autorewrite with bits.
    repeat (bits_case; simpl); rewrite ?andb_false_r; try done.
    by replace i with bit by lia; rewrite Hb.
Qed.

Lemma get_bit_spec x bit : 0 <= bit < w -> get_bit w x bit = Ok (Z.testbit x bit).
Proof using BitAccess0.
  intros. unfold get_bit.
  ok_step assert_ok by (apply Z.ltb_lt; lia). ok_step shl_ok by lia.
  by rewrite land_one_bit by lia.
Qed.

Lemma get_bit_panics x bit : w <= bit -> get_bit w x bit = Panic AssertFailed.
Proof using.
  intros. unfold get_bit. rewrite assert_fail; [done|]. by apply Z.ltb_ge.
Qed.

Lemma set_bit_spec x bit b :
  0 <= bit < w -> x ∈u w ->
  set_bit w x bit b = Ok (with_field x bit (bit + 1) (Z.b2z b)).
Proof using BitAccess0.
  pose proof width_bounds. intros ? Hx. unfold set_bit.
  ok_step assert_ok by (apply Z.ltb_lt; lia). ok_step shl_ok by lia.
  assert (Z.b2z b ∈u (bit + 1 - bit)).
  { replace (bit + 1 - bit) with 1 by lia. destruct b; unfold uint; simpl; lia. }
  f_equal. apply Z.bits_inj'. intros i ?. rewrite testbit_with_field by (done || lia).
  destruct b; autorewrite with bits; case_decide; repeat (bits_case; simpl);
    rewrite ?andb_false_r, ?andb_true_r, ?orb_false_r, ?orb_true_r; try done; try lia;
    try (replace (i - bit) with 0 by lia; done);
    by rewrite (testbit_uint_high w x) by (done || lia).
Qed.

(** *** Ranges *)

Lemma check_range_ok s e :
  valid_range w s e -> check_range w (MkRange s e) = Ok tt.
Proof using.
  intros (?&?&?). unfold check_range; simpl.
  by rewrite !assert_ok by (apply Z.ltb_lt || apply Z.leb_le; lia).
Qed.

Lemma check_range_fail s e :
  0 <= s -> ~ valid_range w s e -> check_range w (MkRange s e) = Panic AssertFailed.
Proof using.
  unfold valid_range, check_range; simpl. intros ? Hn.
  destruct (Z.ltb_spec s w); simpl; [|done].
  destruct (Z.leb_spec e w); simpl; [|done].
  destruct (Z.ltb_spec s e); simpl; [lia|done].
Qed.

Lemma get_bits_spec x range s e :
  x ∈u w -> to_regular_range range w = Ok (MkRange s e) -> valid_range w s e ->
  get_bits w x range = Ok (field x s e).
Proof using BitAccess0.
  pose proof width_bounds. intros Hx Hr Hv. unfold get_bits.
  ok_step Hr. ok_step check_range_ok by done.
  destruct Hv as (?&?&?); cbn [start end_].
  ok_step sub_ok by (apply uint_w_32; lia).
  ok_step shl_ok by lia. ok_step shr_ok by lia. rewrite shr_ok by lia.
  rewrite shiftl_shiftr_wrap by (done || lia). f_equal.
  apply Z.bits_inj'. intros i ?. rewrite testbit_field by lia.
  autorewrite with bits. by repeat (bits_case; simpl).
Qed.

Lemma get_bits_panics x range s e :
  0 <= s -> to_regular_range range w = Ok (MkRange s e) -> ~ valid_range w s e ->
  get_bits w x range = Panic AssertFailed.
Proof using.
  intros ? Hr ?. unfold get_bits. by rewrite Hr, result_bind_ok, check_range_fail.
Qed.

(** The mask of [set_bits] keeps exactly the bits outside the range. *)
Lemma set_bits_mask s e :
  valid_range w s e ->
  not_w w (wrap w (Z.shiftl (Z.shiftr (Z.shiftr (wrap w (Z.shiftl (not_w w 0) (w - e)))
    (w - e)) s) s)) = Z.ldiff (Z.ones w) (Z.shiftl (Z.ones (e - s)) s).
Proof using BitAccess0.
  pose proof width_bounds. intros (?&?&?).
  rewrite shiftl_shiftr_wrap by (try apply uint_not_w; lia).
  apply Z.bits_inj'. intros i ?. autorewrite with bits.
  repeat (bits_case; simpl); try done; autorewrite with bits;
    repeat (bits_case; simpl); try done; lia.
Qed.

Lemma value_fits v len :
  0 < len <= w -> v ∈u w ->
  (Z.shiftr (wrap w (Z.shiftl v (w - len))) (w - len) =? v) = bool_decide (v ∈u len).
Proof using BitAccess0.
  intros ? Hv. rewrite shiftl_shiftr_wrap by (done || lia). case_bool_decide as Hf.
  - apply Z.eqb_eq. by apply wrap_small.
  - apply Z.eqb_neq. intros He. apply Hf. rewrite <- He. apply uint_wrap. lia.
Qed.

Lemma set_bits_run x range s e v :
  x ∈u w -> v ∈u w -> to_regular_range range w = Ok (MkRange s e) -> valid_range w s e ->
  set_bits w x range v =
    if decide (v ∈u (e - s)) then Ok (with_field x s e v) else Panic AssertFailed.
Proof using BitAccess0.
  pose proof width_bounds. intros Hx Hv Hr Hval. unfold set_bits.
  ok_step Hr. ok_step check_range_ok by done.
  pose proof Hval as (?&?&?); cbn [start end_].
  do 2 (ok_step sub_ok by (apply uint_w_32; lia)).
  ok_step shl_ok by lia. ok_step shr_ok by lia.
  rewrite value_fits by (done || lia).
  case_decide as Hf; [|by fail_step assert_fail; apply bool_decide_eq_false].
  ok_step assert_ok by (by apply bool_decide_eq_true).
  ok_step sub_ok by (apply uint_w_32; lia).
  ok_step shl_ok by lia. do 2 (ok_step shr_ok by lia). do 2 (ok_step shl_ok by lia).
  f_equal. rewrite set_bits_mask by done.
  apply Z.bits_inj'. intros i ?. rewrite testbit_with_field by (done || lia).
  autorewrite with bits. case_decide; repeat (bits_case; simpl);
    autorewrite with bits; repeat (bits_case; simpl);
    rewrite ?andb_false_r, ?andb_true_r, ?orb_false_r; try done; try lia.
  all: rewrite ?(testbit_uint_high w x), ?(testbit_uint_high (e - s) v), ?orb_false_r
    by (done || lia); done.
Qed.
End correct.

(** The range a [RangeBounds] denotes, in unbounded arithmetic. *)
Definition denotes (r : RangeBounds) (w : Z) : Z * Z :=
  (match start_bound r with Excluded v => v + 1 | Included v => v | Unbounded => 0 end,
   match end_bound r with Excluded v => v | Included v => v + 1 | Unbounded => w end).

Definition bound_usize (b : Bound) : Prop :=
  match b with Included v | Excluded v => v ∈u 32 | Unbounded => True end.

Section outcomes.
Context `{Platform} (w : Z) `{!BitAccess w}.

Lemma to_regular_range_denotes r :
  bound_usize (start_bound r) -> bound_usize (end_bound r) ->
  start_bound r ≠ Excluded (2 ^ 32 - 1) -> end_bound r ≠ Included (2 ^ 32 - 1) ->
  to_regular_range r w = Ok (MkRange (denotes r w).1 (denotes r w).2).
Proof using.
  destruct r as [sb eb]; cbn [start_bound end_bound]. intros Hs He Hs' He'.
  assert (forall v, v ∈u 32 -> v ≠ 2 ^ 32 - 1 -> add 32 v 1 = Ok (v + 1)) as Hadd.
  { intros v [??] ?. apply add_ok. split; lia. }
  unfold to_regular_range, denotes; cbn [start_bound end_bound].
  destruct sb, eb; rewrite ?Hadd by (done || congruence); done.
Qed.

(** [a..=usize::MAX]: the increment panics in debug builds and wraps to an
    empty range in release builds; either way the access panics. *)
Lemma inclusive_max_refused r :
  bound_usize (start_bound r) -> end_bound r = Included (2 ^ 32 - 1) ->
  is_panic (r ← to_regular_range r w; check_range w r) = true.
Proof using BitAccess0.
  pose proof (width_bounds w). destruct r as [sb eb]; cbn [start_bound end_bound].
  intros Hs ->. unfold to_regular_range; cbn [start_bound end_bound].
  assert (add 32 (2 ^ 32 - 1) 1 = Panic Overflow \/ add 32 (2 ^ 32 - 1) 1 = Ok 0) as He.
  { unfold add, arith. rewrite decide_False by (unfold uint; lia).
    destruct overflow_checks; [by left|by right]. }
  assert (forall v, 0 <= v -> is_panic (check_range w (MkRange v 0)) = true) as Hc.
  { intros v ?. rewrite check_range_fail; unfold valid_range; lia || done. }
  assert (forall v, v ∈u 32 -> (exists p, add 32 v 1 = Panic p) \/
    exists v', 0 <= v' /\ add 32 v 1 = Ok v') as Ha.
  { intros v [??]. unfold add, arith. case_decide as Hv; [right|].
    - exists (v + 1). split; [lia|done].
    - destruct overflow_checks; [left; by eexists|right].
      eexists; split; [|done]. apply (uint_wrap 32); lia. }
  destruct sb as [v|v|]; cbn.
  - destruct He as [-> | ->]; [done|]. cbn. apply Hc, Hs.
  - destruct (Ha v Hs) as [[p ->] | (v' & ? & ->)]; [done|].
    cbn. destruct He as [-> | ->]; [done|]. by apply Hc.
  - destruct He as [-> | ->]; [done|]. by apply Hc.
Qed.

Lemma bits_refused r x v :
  is_panic (r ← to_regular_range r w; check_range w r) = true ->
  is_panic (get_bits w x r) = true /\ is_panic (set_bits w x r v) = true.
Proof using.
  unfold get_bits, set_bits. destruct (to_regular_range r w) as [rg| | | |]; try done; cbn.
  intros Hp. by split; apply result_bind_is_panic.
Qed.
End outcomes.

(** ** Properties *)
Section properties.
Context `{Platform}.

(** C16: Writing a bit field that fits and reading the same range back gives
    the value written, the word stays within its width, and every disjoint
    range reads as it did before. *)
Theorem set_bits_get_bits (w x v s e : Z) (range : RangeBounds) :
  BitAccess w -> x ∈u w -> v ∈u (e - s) ->
  to_regular_range range w = Ok (MkRange s e) -> valid_range w s e ->
  exists x', set_bits w x range v = Ok x' /\ x' ∈u w /\
    get_bits w x' range = Ok v /\
    forall range' s' e', to_regular_range range' w = Ok (MkRange s' e') ->
      valid_range w s' e' -> e' <= s \/ e <= s' ->
      get_bits w x' range' = get_bits w x range'.
Proof.
  intros Hw Hx Hv Hr Hval. pose proof Hval as (?&?&?).
  assert (v ∈u w) by (eapply uint_mono; [|done]; lia).
  exists (with_field x s e v). erewrite set_bits_run, decide_True by done.
  assert (with_field x s e v ∈u w) by by apply uint_with_field.
  split_and!; try done.
  - erewrite get_bits_spec by done. by rewrite field_with_field by (done || lia).
  - intros range' s' e' Hr' Hval' Hd. pose proof Hval' as (?&?&?).
    erewrite !get_bits_spec by done.
    by rewrite field_with_field_disjoint by (done || lia).
Qed.

(** C38: For all bounds a [usize] can hold (a start excluding [usize::MAX]
    aside), [get_bits] and [set_bits] return exactly on the non-empty ranges
    inside the word, with the value arithmetic gives; [set_bits] refuses a
    value wider than the range; every other range panics, in both build
    profiles. *)
Theorem bit_range_outcomes (w x v s e : Z) (range : RangeBounds) :
  BitAccess w -> x ∈u w -> v ∈u w ->
  bound_usize (start_bound range) -> bound_usize (end_bound range) ->
  start_bound range ≠ Excluded (2 ^ 32 - 1) -> denotes range w = (s, e) ->
  if decide (valid_range w s e) then
    get_bits w x range = Ok ((x / 2 ^ s) mod 2 ^ (e - s)) /\
    set_bits w x range v =
      (if decide (v < 2 ^ (e - s)) then Ok (with_field x s e v) else Panic AssertFailed)
  else is_panic (get_bits w x range) = true /\ is_panic (set_bits w x range v) = true.
Proof.
  intros Hw Hx Hv Hs He Hs' Hd. pose proof (width_bounds w).
  destruct (decide (end_bound range = Included (2 ^ 32 - 1))) as [Hmax|Hmax].
  { rewrite decide_False; [by apply bits_refused, inclusive_max_refused|].
    unfold denotes in Hd. rewrite Hmax in Hd. unfold valid_range.
    intros (?&?&?). simplify_eq. lia. }
  pose proof (to_regular_range_denotes w range Hs He Hs' Hmax) as Hr.
  rewrite Hd in Hr; cbn in Hr. case_decide as Hval.
  - pose proof Hval as (?&?&?). erewrite get_bits_spec, set_bits_run by done.
    rewrite field_div_mod by lia. split; [done|].
    destruct (decide (v < 2 ^ (e - s))).
    + rewrite decide_True; [done|]. split; [apply Hv|done].
    + rewrite decide_False; [done|]. by intros [??].
  - apply bits_refused. rewrite Hr; cbn.
    rewrite check_range_fail; [done| |done].
    destruct range as [[] ?]; unfold denotes in Hd; cbn in Hd; simplify_eq;
      cbn in Hs; try destruct Hs; lia.
Qed.
End properties.

Lemma set_bits_get_bits_witness :
  exists x', @set_bits (constant_platform true 0) 16 0xffff (range_inclusive 13 14) 1 = Ok x'
    /\ @get_bits (constant_platform true 0) 16 x' (range_inclusive 13 14) = Ok 1.
Proof.
  destruct (@set_bits_get_bits (constant_platform true 0) 16 0xffff 1 13 15
    (range_inclusive 13 14)) as (x' & H1 & _ & H2 & _);
    [right; left; reflexivity|split; [lia|reflexivity]|split; [lia|reflexivity]
    |reflexivity|unfold valid_range; lia|].
  exists x'. split; [exact H1|exact H2].
Defined.

Lemma bit_range_outcomes_witness :
  @get_bits (constant_platform false 0) 32 0xabcd1234 (range_inclusive 12 31)
    = Ok ((0xabcd1234 / 2 ^ 12) mod 2 ^ (32 - 12)).
Proof.
  pose proof (@bit_range_outcomes (constant_platform false 0) 32 0xabcd1234 1 12 32
    (range_inclusive 12 31)) as Hw.
  destruct (decide (valid_range 32 12 32)) as [Hv|Hv]; [|exfalso; apply Hv; unfold valid_range; lia].
  apply Hw; [right; right; reflexivity|split; [lia|reflexivity]|split; [lia|reflexivity]
    |split; [lia|reflexivity]|split; [lia|reflexivity]|discriminate|reflexivity].
Defined.
