(* ===== verification/X86.v ===== *)
(** * CPU access: [arch/x86/mod.rs]

    Port I/O, the registers the kernel reads, [lidt]/[sti], privilege levels
    and segment selectors.  [cti] is left out: its asm string is no x86
    instruction (the mnemonic is [cli]). *)
From Stdlib Require Import ZArith Lia String.
From stdpp Require Import base tactics numbers list gmap.
From S2P Require Import Prelude.
From S2P Require Import Machine.
From S2P Require Import Fmt.
From S2P Require Import BitAccess.

(** ** Ports and registers *)
Section cpu.
Context `{Platform} {S : Type}.

Definition inb (port : Z) : M S Z := fun s h =>
  let v := port_in (trace h) port in (Ok v, (s, log_io (In port v) h)).

Definition outb (port data : Z) : M S unit := modify_hw (log_io (Out port data)).

Definition cr3 : M S Z := h ← hw; mret (reg_cr3 h).
Definition esp : M S Z := h ← hw; mret (reg_esp h).
Definition sti : M S unit := modify_hw (set_if true).

(** The code segment register, as a selector. *)
Definition get_cs : M S Z := h ← hw; mret (reg_cs h).

Lemma wp_inb port (Q : Z -> S -> Hw -> Prop) s h :
  wp (inb port) Q s h <->
    let v := port_in (trace h) port in Q v s (log_io (In port v) h).
Proof. done. Qed.

Lemma wp_outb port data (Q : unit -> S -> Hw -> Prop) s h :
  wp (outb port data) Q s h <-> Q tt s (log_io (Out port data) h).
Proof. done. Qed.
End cpu.

#[export] Hint Rewrite @wp_inb @wp_outb : wp.

Record DescriptorTablePointer := MkDTP { limit : Z; base : Z }.

Definition lidt {S} (idt : DescriptorTablePointer) : M S unit :=
  modify_hw (set_idtr (base idt, limit idt)).

(** ** Privilege levels *)
Inductive PrivilegeLevel := Ring0 | Ring1 | Ring2 | Ring3.

#[export] Instance PrivilegeLevel_eq_dec : EqDecision PrivilegeLevel.
Proof. solve_decision. Defined.

(** [rpl as u16]. *)
Definition privilege_as_u16 (p : PrivilegeLevel) : Z :=
  match p with Ring0 => 0 | Ring1 => 1 | Ring2 => 2 | Ring3 => 3 end.

Definition from_u16 (value : Z) : result PrivilegeLevel :=
  match value with
  | 0 => Ok Ring0
  | 1 => Ok Ring1
  | 2 => Ok Ring2
  | 3 => Ok Ring3
  | _ => Panic Explicit
  end.

Lemma from_as_u16 p : from_u16 (privilege_as_u16 p) = Ok p.
Proof. by destruct p. Qed.

Lemma privilege_two_bits p : privilege_as_u16 p ∈u 2.
Proof. destruct p; split; cbn; lia. Qed.

Lemma from_u16_two_bits v : v ∈u 2 -> exists p, from_u16 v = Ok p /\ privilege_as_u16 p = v.
Proof.
  intros [??]. assert (v = 0 \/ v = 1 \/ v = 2 \/ v = 3) as Hv by (change (2 ^ 2) with 4 in *; lia).
  destruct Hv as [-> | [-> | [-> | ->]]]; eexists; split; reflexivity.
Qed.

(** ** Segment selectors: [SegmentSelector(pub u16)] *)
Section selector.
Context `{Platform}.

Definition selector_new (index : Z) (rpl : PrivilegeLevel) : result Z :=
  i ← shl 16 index 3; Ok (Z.lor i (privilege_as_u16 rpl)).

Definition selector_index (sel : Z) : result Z := shr 16 sel 3.

Definition selector_rpl (sel : Z) : result PrivilegeLevel :=
  v ← get_bits 16 sel (range_exclusive 0 2); from_u16 v.

Definition selector_set_rpl (sel : Z) (rpl : PrivilegeLevel) : result Z :=
  set_bits 16 sel (range_exclusive 0 2) (privilege_as_u16 rpl).

(** [impl fmt::Debug]: the text written. *)
Definition privilege_fmt (p : PrivilegeLevel) : list Z :=
  match p with
  | Ring0 => bs "Ring0" | Ring1 => bs "Ring1" | Ring2 => bs "Ring2" | Ring3 => bs "Ring3"
  end.

Definition selector_fmt (sel : Z) : result (list Z) :=
  i ← selector_index sel;
  r ← selector_rpl sel;
  Ok (debug_struct (bs "SegmentSelector") [(bs "index", display i); (bs "rpl", privilege_fmt r)]).

Lemma selector_rpl_field sel :
  sel ∈u 16 -> selector_rpl sel = (from_u16 (field sel 0 2)).
Proof.
  intros Hs. unfold selector_rpl.
  by ok_step (get_bits_spec 16 sel (range_exclusive 0 2) 0 2) by (done || (unfold valid_range; lia)).
Qed.

Lemma selector_set_rpl_field sel p :
  sel ∈u 16 -> selector_set_rpl sel p = Ok (with_field sel 0 2 (privilege_as_u16 p)).
Proof.
  intros Hs. pose proof (privilege_two_bits p) as Hp. unfold selector_set_rpl.
  rewrite (set_bits_run 16 sel (range_exclusive 0 2) 0 2), decide_True; try done.
  eapply uint_mono; [|done]; lia.
Qed.

Lemma field_of_lor_shift a b n :
  0 <= n -> b ∈u n -> field (Z.lor (Z.shiftl a n) b) 0 n = b.
Proof.
  intros ? Hb. apply Z.bits_inj'. intros i ?. rewrite testbit_field by lia.
  replace (i + 0) with i by lia. replace (n - 0) with n by lia.
  destruct (Z.ltb_spec i n); simpl.
  - rewrite Z.lor_spec, testbit_shiftl by lia. by destruct (Z.leb_spec n i); [lia|].
  - by rewrite (testbit_uint_high n b) by (done || lia).
Qed.

Lemma selector_new_value index p :
  index ∈u 13 ->
  selector_new index p = Ok (Z.lor (Z.shiftl index 3) (privilege_as_u16 p)) /\
  Z.lor (Z.shiftl index 3) (privilege_as_u16 p) ∈u 16.
Proof.
  intros [??]. assert (Z.shiftl index 3 ∈u 16).
  { rewrite Z.shiftl_mul_pow2 by lia. split; lia. }
  assert (privilege_as_u16 p ∈u 16)
    by (eapply uint_mono; [|apply privilege_two_bits]; lia).
  split; [|by apply uint_lor].
  unfold selector_new. ok_step shl_ok by lia. by rewrite wrap_small.
Qed.

Lemma selector_new_accessors index p :
  let s := Z.lor (Z.shiftl index 3) (privilege_as_u16 p) in
  s ∈u 16 ->
  Z.testbit s 2 = false /\ selector_index s = Ok index /\ selector_rpl s = Ok p.
Proof.
  intros s Hs. pose proof (privilege_two_bits p) as Hp. subst s. split_and!.
  - autorewrite with bits. by rewrite (testbit_uint_high 2 (privilege_as_u16 p)) by (done || lia).
  - unfold selector_index. rewrite shr_ok by lia. f_equal. apply Z.bits_inj'. intros i ?.
    autorewrite with bits. rewrite (testbit_uint_high 2 (privilege_as_u16 p)) by (done || lia).
    destruct (Z.leb_spec 3 (i + 3)); [|lia]. rewrite orb_false_r. simpl. f_equal. lia.
  - rewrite selector_rpl_field by done.
    replace (Z.shiftl index 3) with (Z.shiftl (Z.shiftl index 1) 2)
      by (rewrite Z.shiftl_shiftl by lia; done).
    rewrite field_of_lor_shift by (done || lia). apply from_as_u16.
Qed.

Lemma selector_set_rpl_accessors sel q :
  let s' := with_field sel 0 2 (privilege_as_u16 q) in
  sel ∈u 16 ->
  s' ∈u 16 /\ selector_rpl s' = Ok q /\ selector_index s' = selector_index sel /\
  Z.testbit s' 2 = Z.testbit sel 2.
Proof.
  intros s' Hs. pose proof (privilege_two_bits q) as Hq. subst s'.
  assert (with_field sel 0 2 (privilege_as_u16 q) ∈u 16)
    by (apply uint_with_field; unfold valid_range; done || lia).
  split_and!; try done.
  - rewrite selector_rpl_field, field_with_field by (done || lia). apply from_as_u16.
  - unfold selector_index. rewrite !shr_ok by lia. f_equal. apply Z.bits_inj'. intros i ?.
    rewrite !Z.shiftr_spec, testbit_with_field by (done || lia).
    by rewrite decide_False by lia.
  - rewrite testbit_with_field by (done || lia). by rewrite decide_False by lia.
Qed.

Lemma selector_rpl_total sel :
  sel ∈u 16 -> exists r, selector_rpl sel = Ok r /\ privilege_as_u16 r = sel mod 4.
Proof.
  intros Hs. rewrite selector_rpl_field by done.
  destruct (from_u16_two_bits (field sel 0 2)) as (r & Hr & He);
    [by apply (uint_field sel 0 2)|].
  exists r. split; [done|]. rewrite He, field_div_mod by lia. by rewrite Z.div_1_r.
Qed.

(** Selectors: a table index below 2^13 and a privilege level survive
    [new] and its accessors, and [new] selects the GDT; [rpl] is total on
    every 16-bit selector; [set_rpl] replaces the level and nothing else. *)
Theorem selector_fields (index sel : Z) (p q : PrivilegeLevel) :
  index ∈u 13 -> sel ∈u 16 ->
  (exists s, selector_new index p = Ok s /\ s ∈u 16 /\ Z.testbit s 2 = false /\
     selector_index s = Ok index /\ selector_rpl s = Ok p) /\
  (exists r, selector_rpl sel = Ok r /\ privilege_as_u16 r = sel mod 4) /\
  (exists s', selector_set_rpl sel q = Ok s' /\ s' ∈u 16 /\ selector_rpl s' = Ok q /\
     selector_index s' = selector_index sel /\ Z.testbit s' 2 = Z.testbit sel 2).
Proof.
  intros Hi Hs. destruct (selector_new_value index p Hi).
  split_and!; [eauto using selector_new_accessors|by apply selector_rpl_total|].
  rewrite selector_set_rpl_field by done. eauto using selector_set_rpl_accessors.
Qed.
End selector.

Lemma selector_fields_witness :
  exists s, @selector_new (constant_platform true 0) 1 Ring0 = Ok s /\
    @selector_index (constant_platform true 0) s = Ok 1.
Proof.
  destruct (@selector_fields (constant_platform true 0) 1 0x13 Ring0 Ring3)
    as ((s & H1 & _ & _ & H2 & _) & _); [split; [lia|reflexivity]|split; [lia|reflexivity]|].
  exists s. split; [exact H1|exact H2].
Defined.
