(* ===== verification/Pic.v ===== *)
(** * Interrupt controllers and timer: [arch/x86/pic.rs]

    [pic_init] and [pit_configure_channel] as sequences of port writes, and
    what those writes mean to the devices: [pic8259] is the initialisation
    protocol of one 8259A chip (ICW1 on the control port opens it, ICW2 to ICW4
    follow on the data port, after that the data port is the mask), and
    [pit_program] reads back one channel-programming sequence of the 8254. *)
From Stdlib Require Import ZArith Lia.
From stdpp Require Import base tactics numbers list gmap.
From S2P Require Import Prelude.
From S2P Require Import Machine.
From S2P Require Import X86.

Definition PIC0_CTRL : Z := 0x20.
Definition PIC0_DATA : Z := 0x21.
Definition PIC1_CTRL : Z := 0xa0.
Definition PIC1_DATA : Z := 0xa1.

Definition PIT_PORT_CONTROL : Z := 0x43.
Definition PIT_PORT_COUNTER_OFFSET_TO_CHANNEL : Z := 0x40.
Definition PIT_HZ : Z := 1193180.

Section code.
Context `{Platform} {S : Type}.

Definition pic_init : M S unit :=
  _ ← outb PIC0_DATA 0xff;
  _ ← outb PIC1_DATA 0xff;
  (* Initialize master. *)
  _ ← outb PIC0_CTRL 0x11;
  _ ← outb PIC0_DATA 0x20;
  _ ← outb PIC0_DATA 0x04;
  _ ← outb PIC0_DATA 0x01;
  (* Initialize slave. *)
  _ ← outb PIC1_CTRL 0x11;
  _ ← outb PIC1_DATA 0x28;
  _ ← outb PIC1_DATA 0x02;
  _ ← outb PIC1_DATA 0x01;
  (* Unmask all interrupts. *)
  _ ← outb PIC0_DATA 0x00;
  outb PIC1_DATA 0x00.

(** The counter value for a frequency, a [u16]. *)
Definition pit_count (frequency : Z) : result Z :=
  if frequency <? 19 then Ok 0
  else if frequency >? PIT_HZ then Ok 2
  else
    half ← div frequency 2;
    n ← add 32 PIT_HZ half;
    c ← div n frequency;
    Ok (wrap 16 c).

Definition pit_configure_channel (channel mode frequency : Z) : M S unit :=
  _ ← lift (assert ((channel =? 0) || (channel =? 2)));
  _ ← lift (assert ((mode =? 2) || (mode =? 3)));
  count ← lift (pit_count frequency);
  ch ← lift (shl 16 channel 6);
  md ← lift (shl 16 mode 1);
  _ ← outb PIT_PORT_CONTROL (wrap 8 (Z.lor (Z.lor ch 0x30) md));
  port ← lift (add 16 PIT_PORT_COUNTER_OFFSET_TO_CHANNEL channel);
  _ ← outb port (wrap 8 count);
  port ← lift (add 16 PIT_PORT_COUNTER_OFFSET_TO_CHANNEL channel);
  hi ← lift (shr 16 count 8);
  outb port (wrap 8 hi).
End code.

(** ** What the devices make of it *)

(** One 8259A: what the next write to its data port means, and what has been
    programmed. *)
Inductive icw_state := Ready | Icw2 (icw1 : Z) | Icw3 (icw1 : Z) | Icw4.

Record pic8259 := MkPic {
  expects : icw_state;
  vector_base : Z;
  cascade : Z;
  mode8086 : bool;
  imr : Z                        (** interrupt mask *)
}.

Definition pic_ctrl_write (v : Z) (p : pic8259) : pic8259 :=
  if Z.testbit v 4
  then MkPic (Icw2 v) (vector_base p) (cascade p) false 0
  else p.                        (* OCW2 / OCW3: no effect on the programming *)

Definition after_icw3 (icw1 : Z) : icw_state := if Z.testbit icw1 0 then Icw4 else Ready.

Definition pic_data_write (v : Z) (p : pic8259) : pic8259 :=
  match expects p with
  | Icw2 icw1 =>
      MkPic (if Z.testbit icw1 1 then after_icw3 icw1 else Icw3 icw1)
        (Z.land v 0xf8) (cascade p) (mode8086 p) (imr p)
  | Icw3 icw1 => MkPic (after_icw3 icw1) (vector_base p) v (mode8086 p) (imr p)
  | Icw4 => MkPic Ready (vector_base p) (cascade p) (Z.testbit v 0) (imr p)
  | Ready => MkPic Ready (vector_base p) (cascade p) (mode8086 p) v
  end.

(** The chip at control port [ctrl] (its data port is the next one). *)
Definition pic_event (ctrl : Z) (p : pic8259) (e : io_event) : pic8259 :=
  match e with
  | Out port v =>
      if port =? ctrl then pic_ctrl_write v p
      else if port =? ctrl + 1 then pic_data_write v p else p
  | In _ _ => p
  end.

Definition pic_after (ctrl : Z) (es : list io_event) (p : pic8259) : pic8259 :=
  fold_left (pic_event ctrl) es p.

(** The writes that reach the chips. *)
Definition to_pic (e : io_event) : bool :=
  match e with
  | Out p _ => (p =? PIC0_CTRL) || (p =? PIC0_DATA) || (p =? PIC1_CTRL) || (p =? PIC1_DATA)
  | In _ _ => false
  end.

Definition pic_writes (es : list io_event) : list io_event := List.filter to_pic es.

Lemma pic_writes_app es es' : pic_writes (es ++ es') = pic_writes es ++ pic_writes es'.
Proof. apply List.filter_app. Qed.

(** The vector raised for line [irq] (0 to 7 on the master, 8 to 15 on the
    slave). *)
Definition irq_vector (master slave : pic8259) (irq : Z) : Z :=
  if irq <? 8 then vector_base master + irq else vector_base slave + (irq - 8).

(** One programming of an 8254 channel: (channel, mode, count) when the three
    writes are a control word with low/high byte access and the two halves on
    the counter port of the channel it names. *)
Definition pit_program (es : list io_event) : option (Z * Z * Z) :=
  match es with
  | [Out 0x43 cw; Out p lo; Out p' hi] =>
      let channel := Z.shiftr cw 6 in
      if decide (Z.land (Z.shiftr cw 4) 3 = 3 /\ p = 0x40 + channel /\ p' = p)
      then Some (channel, Z.land (Z.shiftr cw 1) 7, lo + 256 * hi)
      else None
  | _ => None
  end.

(** ** Lemmas and properties *)
Section pit.
Context `{Platform}.

Lemma small_uint16 x : 1 <= x <= 62799 -> x ∈u 16.
Proof. split; [lia|change (2 ^ 16) with 65536; lia]. Qed.

Lemma pit_count_quotient f :
  19 <= f <= PIT_HZ ->
  pit_count f = Ok ((PIT_HZ + f / 2) / f) /\ 1 <= (PIT_HZ + f / 2) / f <= 62799.
Proof.
  unfold PIT_HZ. intros ?.
  assert (1 <= (1193180 + f / 2) / f <= 62799) as Hq
    by (Z.to_euclidean_division_equations; nia).
  split; [|done]. unfold pit_count, PIT_HZ.
  destruct (Z.ltb_spec f 19); [lia|]. rewrite Z.gtb_ltb.
  destruct (Z.ltb_spec 1193180 f); [lia|].
  ok_step div_ok by done. ok_step add_ok by (split; [zlia|change (2 ^ 32) with 4294967296; zlia]).
  ok_step div_ok by lia. rewrite wrap_small; [done|].
  revert Hq. generalize ((1193180 + f / 2) / f). by apply small_uint16.
Qed.

Lemma pit_count_low f : 0 <= f < 19 -> pit_count f = Ok 0.
Proof. intros. unfold pit_count. by destruct (Z.ltb_spec f 19); [|lia]. Qed.

Lemma pit_count_high f : PIT_HZ < f -> pit_count f = Ok 2.
Proof.
  unfold PIT_HZ, pit_count. intros. destruct (Z.ltb_spec f 19); [lia|].
  rewrite Z.gtb_ltb. unfold PIT_HZ. by destruct (Z.ltb_spec 1193180 f); [|lia].
Qed.

Lemma pit_count_total f : f ∈u 32 -> exists c, pit_count f = Ok c /\ c ∈u 16.
Proof.
  intros [??]. destruct (decide (f < 19)); [|destruct (decide (f <= PIT_HZ))].
  - exists 0. split; [by apply pit_count_low|split; lia].
  - destruct (pit_count_quotient f); [lia|]. eexists; split; [done|].
    by apply small_uint16.
  - exists 2. split; [apply pit_count_high; lia|split; lia].
Qed.

(** C33: For every frequency the timer hardware supports (19 Hz to [PIT_HZ])
    the count is [PIT_HZ / frequency] rounded to the nearest integer and fits
    16 bits without truncation; below it is 0 (65536 to the device) and above
    it is 2; but it is 1, which the code itself calls illegal in mode 2,
    exactly for 795454 Hz to [PIT_HZ]. *)
Theorem pit_count_spec (f : Z) :
  f ∈u 32 ->
  exists c, pit_count f = Ok c /\ c ∈u 16 /\
    (f < 19 -> c = 0) /\
    (19 <= f <= PIT_HZ -> 1 <= c /\ - f <= 2 * (c * f - PIT_HZ) <= f) /\
    (PIT_HZ < f -> c = 2) /\
    (c = 1 <-> 795454 <= f <= PIT_HZ).
Proof.
  intros Hf. destruct (pit_count_total f Hf) as (c & Hc & Hc16).
  exists c. split_and!; try done.
  - intros. rewrite pit_count_low in Hc by (split; [apply Hf|done]). by simplify_eq.
  - intros Hr. destruct (pit_count_quotient f Hr) as [Hq [Hc1 _]].
    rewrite (result_det _ _ _ Hc Hq). split; [done|].
    unfold PIT_HZ in *. Z.to_euclidean_division_equations; nia.
  - intros. rewrite pit_count_high in Hc by done. by simplify_eq.
  - unfold PIT_HZ in *. destruct (decide (f < 19)); [|destruct (decide (f <= 1193180))].
    + rewrite pit_count_low in Hc by (split; [apply Hf|done]). simplify_eq. lia.
    + destruct (pit_count_quotient f) as [Hq _]; [unfold PIT_HZ; lia|].
      rewrite (result_det _ _ _ Hc Hq).
      unfold PIT_HZ. split; intros; Z.to_euclidean_division_equations; nia.
    + rewrite pit_count_high in Hc by (unfold PIT_HZ; lia). simplify_eq. lia.
Qed.
End pit.

Section devices.
Context `{Platform} {S : Type}.
Implicit Types (s : S) (h : Hw).

(** Whatever state the two 8259A chips are in, the writes of [pic_init]
    leave both ready, in 8086 mode, cascaded on line 2, with every line
    unmasked, and lines 0 to 15 raise vectors 0x20 to 0x2f, clear of the CPU
    exceptions. *)
Theorem pic_init_programs s h (p0 p1 : pic8259) :
  exists es, pic_init s h = (Ok tt, (s, log_ios es h)) /\
    let master := pic_after PIC0_CTRL es p0 in
    let slave := pic_after PIC1_CTRL es p1 in
    master = MkPic Ready 0x20 0x04 true 0 /\ slave = MkPic Ready 0x28 0x02 true 0 /\
    forall irq, 0 <= irq < 16 ->
      irq_vector master slave irq = 0x20 + irq /\ 32 <= irq_vector master slave irq < 48.
Proof.
  exists [Out PIC0_DATA 0xff; Out PIC1_DATA 0xff;
     Out PIC0_CTRL 0x11; Out PIC0_DATA 0x20; Out PIC0_DATA 0x04; Out PIC0_DATA 0x01;
     Out PIC1_CTRL 0x11; Out PIC1_DATA 0x28; Out PIC1_DATA 0x02; Out PIC1_DATA 0x01;
     Out PIC0_DATA 0x00; Out PIC1_DATA 0x00].
  split; [done|]. cbv zeta.
  match goal with |- ?m = _ /\ ?s = _ /\ _ =>
    assert (m = MkPic Ready 0x20 0x04 true 0) as -> by reflexivity;
    assert (s = MkPic Ready 0x28 0x02 true 0) as -> by reflexivity end.
  split_and!; [done|done|]. intros irq ?.
  unfold irq_vector; cbn [vector_base]. destruct (Z.ltb_spec irq 8); lia.
Qed.

Lemma pit_control_word channel mode :
  (channel = 0 \/ channel = 2) -> (mode = 2 \/ mode = 3) ->
  exists cw, wrap 8 (Z.lor (Z.lor (wrap 16 (Z.shiftl channel 6)) 0x30)
                       (wrap 16 (Z.shiftl mode 1))) = cw /\
    Z.shiftr cw 6 = channel /\ Z.land (Z.shiftr cw 4) 3 = 3 /\
    Z.land (Z.shiftr cw 1) 7 = mode.
Proof. intros [-> | ->] [-> | ->]; eexists; split_and!; reflexivity. Qed.

Lemma count_halves c : c ∈u 16 -> wrap 8 c + 256 * wrap 8 (Z.shiftr c 8) = c.
Proof.
  intros [??]. unfold wrap. rewrite Z.shiftr_div_pow2 by lia.
  change (2 ^ 8) with 256. change (2 ^ 16) with 65536 in *. zlia.
Qed.

(** C32: [pit_configure_channel] refuses other channels and modes before
    touching the device; otherwise its three writes program exactly the
    requested channel and mode with the count for the frequency. *)
Theorem pit_configure_channel_spec s h (channel mode f : Z) :
  channel ∈u 16 -> mode ∈u 16 -> f ∈u 32 ->
  if decide ((channel = 0 \/ channel = 2) /\ (mode = 2 \/ mode = 3)) then
    exists es c, pit_configure_channel channel mode f s h = (Ok tt, (s, log_ios es h)) /\
      pit_count f = Ok c /\ pit_program es = Some (channel, mode, c)
  else pit_configure_channel channel mode f s h = (Panic AssertFailed, (s, h)).
Proof.
  intros Hch Hmd Hf. destruct (pit_count_total f Hf) as (c & Hc & Hc16).
  case_decide as Hok.
  - destruct Hok as [Hc2 Hm2]. destruct (pit_control_word channel mode Hc2 Hm2)
      as (cw & Hcw & Hw1 & Hw2 & Hw3).
    assert (add 16 PIT_PORT_COUNTER_OFFSET_TO_CHANNEL channel = Ok (0x40 + channel)) as Hp.
    { apply add_ok. destruct Hc2 as [-> | ->]; by split. }
    exists [Out 0x43 cw; Out (0x40 + channel) (wrap 8 c);
            Out (0x40 + channel) (wrap 8 (Z.shiftr c 8))], c.
    split_and!; [|done|].
    + unfold pit_configure_channel.
      run_lift assert_ok by (destruct Hc2 as [-> | ->]; done).
      run_lift assert_ok by (destruct Hm2 as [-> | ->]; done).
      run_lift Hc. run_lift shl_ok by lia. run_lift shl_ok by lia. rewrite Hcw.
      run_step eq_refl. run_lift Hp. run_step eq_refl. run_lift Hp.
      run_lift shr_ok by lia. done.
    + unfold pit_program. rewrite decide_True by (by rewrite Hw1).
      by rewrite Hw1, Hw3, count_halves.
  - unfold pit_configure_channel.
    destruct (decide (channel = 0 \/ channel = 2)) as [Hc2|Hc2].
    + run_lift assert_ok by (destruct Hc2 as [-> | ->]; done).
      apply run_bind_panic. unfold lift. rewrite assert_fail; [done|].
      apply orb_false_iff; split; apply Z.eqb_neq; intros ->; apply Hok; auto.
    + apply run_bind_panic. unfold lift. rewrite assert_fail; [done|].
      apply orb_false_iff; split; apply Z.eqb_neq; intros ->; apply Hc2; auto.
Qed.
End devices.

Lemma pit_count_spec_witness :
  exists c, @pit_count (constant_platform true 0) 200 = Ok c /\ - 200 <= 2 * (c * 200 - PIT_HZ) <= 200.
Proof.
  destruct (@pit_count_spec (constant_platform true 0) 200) as (c & H1 & _ & _ & H2 & _);
    [split; [lia|reflexivity]|].
  exists c. split; [exact H1|]. apply H2. unfold PIT_HZ. lia.
Defined.

Lemma pit_configure_channel_spec_witness :
  let h := MkHw ∅ [] [] 8 0 0 None false in
  exists es, pit_configure_channel (H := constant_platform true 0) 0 2 200 tt h =
      (Ok tt, (tt, log_ios es h)) /\ pit_program es = Some (0, 2, 5966).
Proof.
  intros h. pose proof (@pit_configure_channel_spec (constant_platform true 0) unit tt
    h 0 2 200) as Hw.
  rewrite decide_True in Hw by (split; left; reflexivity).
  destruct Hw as (es & c & Hrun & Hc & Hes);
    [split; [lia|reflexivity]|split; [lia|reflexivity]|split; [lia|reflexivity]|].
  exists es. split; [exact Hrun|]. vm_compute in Hc. injection Hc as <-. exact Hes.
Defined.
