(* ===== verification/Serial.v ===== *)
(** * The serial console: [io/serial.rs]

    The port addresses, [init], the polled [send]/[send_raw]/[receive] and the
    [fmt::Write] implementation.  [wait_for!] is [spin_until] with the
    platform's poll budget; [thr_ready] is the device behaviour under which the
    budget is enough.  [uart] reads the programming of [init] back from the
    port writes. *)
From Stdlib Require Import ZArith Lia.
From stdpp Require Import base tactics numbers list gmap.
From S2P Require Import Prelude.
From S2P Require Import Machine.
From S2P Require Import X86.
From S2P Require Import Fmt.

Definition INPUT_FULL : Z := 1.
Definition OUTPUT_EMPTY : Z := Z.shiftl 1 5.

(** [struct SerialPort(u16)]: the base port. *)
Record SerialPort := MkSerialPort { port_base : Z }.

Section code.
Context `{Platform} {S : Type}.
Implicit Types self : SerialPort.

Definition port_data self : Z := port_base self.
Definition port_int_en self : result Z := add 16 (port_base self) 1.
Definition port_fifo_ctrl self : result Z := add 16 (port_base self) 2.
Definition port_line_ctrl self : result Z := add 16 (port_base self) 3.
Definition port_modem_ctrl self : result Z := add 16 (port_base self) 4.
Definition port_line_sts self : result Z := add 16 (port_base self) 5.

Definition serial_new (base : Z) : SerialPort := MkSerialPort base.

Definition serial_init self : M S unit :=
  (* Disable interrupts *)
  p ← lift (port_int_en self); _ ← outb p 0x00;
  (* Enable DLAB *)
  p ← lift (port_line_ctrl self); _ ← outb p 0x80;
  (* Set maximum speed to 38400 bps by configuring DLL and DLM *)
  _ ← outb (port_data self) 0x03;
  p ← lift (port_int_en self); _ ← outb p 0x00;
  (* Disable DLAB and set data word length to 8 bits *)
  p ← lift (port_line_ctrl self); _ ← outb p 0x03;
  (* Enable FIFO, clear TX/RX queues and set interrupt watermark at 14 bytes *)
  p ← lift (port_fifo_ctrl self); _ ← outb p 0xc7;
  (* Mark data terminal ready, signal request to send, enable output #2 *)
  p ← lift (port_modem_ctrl self); _ ← outb p 0x0b;
  (* Enable interrupts *)
  p ← lift (port_int_en self); outb p 0x01.

Definition line_sts self : M S Z := p ← lift (port_line_sts self); inb p.

(** [wait_for!(self.line_sts().0 & flag == flag)]. *)
Definition wait_for self (flag : Z) : M S unit :=
  spin_until spin_fuel (sts ← line_sts self; mret (Z.land sts flag =? flag)).

Definition send self (data : Z) : M S unit :=
  if (data =? 8) || (data =? 0x7f) then
    _ ← wait_for self OUTPUT_EMPTY;
    _ ← outb (port_data self) 8;
    _ ← wait_for self OUTPUT_EMPTY;
    _ ← outb (port_data self) 32;
    _ ← wait_for self OUTPUT_EMPTY;
    outb (port_data self) 8
  else
    _ ← wait_for self OUTPUT_EMPTY;
    outb (port_data self) data.

Definition send_raw self (data : Z) : M S unit :=
  _ ← wait_for self OUTPUT_EMPTY;
  outb (port_data self) data.

Definition receive self : M S Z :=
  _ ← wait_for self INPUT_FULL;
  inb (port_data self).

Definition serial_default : M S SerialPort :=
  let serial := serial_new 0x3f8 in
  _ ← serial_init serial;
  mret serial.
End code.

(** [impl fmt::Write for SerialPort]. *)
Definition serial_write_str `{Platform} (s : list Z) : M SerialPort unit :=
  for_in s (fun byte => self ← get; send self byte).

#[export] Instance SerialPort_FmtWrite `{Platform} : FmtWrite SerialPort := {
  write_str := serial_write_str;
  write_str_nil := for_in_nil _;
  write_str_app := for_in_app _
}.

(** ** Reference: what goes over the wire *)

(** The bytes written to the data port by a run, in order. *)
Fixpoint data_outs (base : Z) (es : list io_event) : list Z :=
  match es with
  | [] => []
  | Out p v :: es' => if p =? base then v :: data_outs base es' else data_outs base es'
  | In _ _ :: es' => data_outs base es'
  end.

(** Every write goes to the data port, directly after a line-status read that
    showed the transmit holding register empty; [ready] says that the event
    before [es] was such a read. *)
Fixpoint guarded (base : Z) (ready : bool) (es : list io_event) : bool :=
  match es with
  | [] => true
  | In p v :: es' => guarded base ((p =? base + 5) && Z.testbit v 5) es'
  | Out p v :: es' => (p =? base) && ready && guarded base false es'
  end.

(** A byte as sent: backspace and delete become backspace, blank, backspace. *)
Definition encode (b : Z) : list Z :=
  if (b =? 8) || (b =? 0x7f) then [8; 32; 8] else [b].

(** The answers to [n] successive reads of a port, from the trace [tr] on. *)
Fixpoint answers `{Platform} (port : Z) (n : nat) (tr : list io_event) : list Z :=
  match n with
  | O => []
  | S n' => let v := port_in tr port in v :: answers port n' (In port v :: tr)
  end.

(** The device raises the status flag within the poll budget, whatever
    happened before. *)
Class Responsive `{Platform} (port flag : Z) :=
  responsive : forall tr, Exists (fun v => Z.land v flag = flag) (answers port spin_fuel tr).

(** ** The protocol *)
(** [m] writes [bytes] under the protocol: in any hardware state it returns or
    exhausts the poll budget, it never panics, it touches nothing but the
    ports, every data write is guarded, and what it wrote is [bytes], or a
    prefix when the device stopped responding. *)
Definition sends `{Platform} {S} (base : Z) (m : M S unit) (bytes : list Z) (s : S) : Prop :=
  forall h, exists r es, m s h = (r, (s, log_ios es h)) /\
    guarded base false es = true /\
    ((r = Ok tt /\ data_outs base es = bytes) \/
     (r = Hang /\ data_outs base es `prefix_of` bytes)) /\
    (Responsive (base + 5) OUTPUT_EMPTY -> r = Ok tt).

Section protocol.
Context `{Platform} {S : Type}.
Implicit Types (self : SerialPort) (s : S) (h : Hw).

Lemma poll_run self flag fuel s h :
  port_base self + 5 ∈u 16 ->
  exists r n,
    spin_until fuel (sts ← line_sts self; mret (Z.land sts flag =? flag)) s h =
      (r, (s, log_ios (map (In (port_base self + 5))
             (answers (port_base self + 5) n (trace h))) h)) /\
    ((r = Ok tt /\ exists vs v, answers (port_base self + 5) n (trace h) = vs ++ [v] /\
        Z.land v flag = flag) \/
     (r = Hang /\ n = fuel /\
      Forall (fun v => Z.land v flag ≠ flag) (answers (port_base self + 5) n (trace h)))).
Proof.
  intros Hp. revert h. induction fuel as [|fuel IH]; intros h.
  - exists Hang, O. split; [done|]. right. by split_and!.
  - set (p := port_base self + 5) in *. set (v := port_in (trace h) p).
    assert (port_line_sts self = Ok p) as Hport by by apply add_ok.
    destruct (IH (log_io (In p v) h)) as (r & n & Hrun & Hr). simpl in Hrun, Hr.
    assert (forall (k : Z -> M S bool), (sts ← line_sts self; k sts) s h = k v s (log_io (In p v) h)) as Hsts.
    { intros k. unfold line_sts, mbind, M_bind, lift. by rewrite Hport. }
    cbn [spin_until]. destruct (decide (Z.land v flag = flag)) as [Hv|Hv].
    + exists (Ok tt), 1%nat. split; [|left; split; [done|by exists [], v]].
      eapply run_bind_eq; [rewrite Hsts; unfold mret, M_ret; done|cbv beta].
      by rewrite Hv, Z.eqb_refl.
    + exists r, (Datatypes.S n). split.
      * eapply run_bind_eq; [rewrite Hsts; unfold mret, M_ret; done|cbv beta].
        apply Z.eqb_neq in Hv as ->. exact Hrun.
      * destruct Hr as [(-> & vs & v' & Hvs & Hv')|(-> & -> & Hall)]; [left|right].
        -- split; [done|]. exists (v :: vs), v'. split; [|done]. cbn. by f_equal.
        -- split_and!; [done|done|]. cbn. by constructor.
Qed.

(** A wait is a run of status reads; it ends ready or runs out of polls. *)
Lemma wait_for_run self flag s h :
  port_base self + 5 ∈u 16 ->
  exists r vs, wait_for self flag s h =
      (r, (s, log_ios (map (In (port_base self + 5)) vs) h)) /\
    ((r = Ok tt /\ exists vs' v, vs = vs' ++ [v] /\ Z.land v flag = flag) \/ r = Hang) /\
    (Responsive (port_base self + 5) flag -> r = Ok tt).
Proof.
  intros Hp. destruct (poll_run self flag spin_fuel s h Hp) as (r & n & Hrun & Hr).
  exists r, (answers (port_base self + 5) n (trace h)). split; [exact Hrun|].
  split; [destruct Hr as [?|(? & ?)]; auto|].
  intros Hresp. destruct Hr as [[? _]|(_ & -> & Hall)]; [done|].
  destruct (Exists_not_Forall (fun v => Z.land v flag ≠ flag)
    (answers (port_base self + 5) spin_fuel (trace h))); [|done].
  eapply Exists_impl; [apply Hresp|]. by intros v ? ?.
Qed.

(** *** Guarded segments compose *)

Lemma guarded_mono base es : guarded base false es = true -> guarded base true es = true.
Proof. destruct es as [|[p v|p v] es]; simpl; [done|done|]. by rewrite andb_false_r. Qed.

Lemma guarded_app base r es es' :
  guarded base r es = true -> guarded base false es' = true ->
  guarded base r (es ++ es') = true.
Proof.
  revert r. induction es as [|[p v|p v] es IH]; intros r; simpl; intros H1 H2.
  - destruct r; [by apply guarded_mono|done].
  - by apply IH.
  - apply andb_true_iff in H1 as [-> ?]. by apply IH.
Qed.

Lemma guarded_reads base vs r : guarded base r (map (In (base + 5)) vs) = true.
Proof. revert r. induction vs; intros; simpl; auto. Qed.

Lemma guarded_poll_out base vs v b :
  Z.land v OUTPUT_EMPTY = OUTPUT_EMPTY ->
  guarded base false (map (In (base + 5)) (vs ++ [v]) ++ [Out base b]) = true.
Proof.
  intros Hv. assert (Z.testbit v 5 = true) as Hb.
  { assert (Z.testbit (Z.land v OUTPUT_EMPTY) 5 = true) as Ht by by rewrite Hv.
    rewrite Z.land_spec in Ht. by apply andb_true_iff in Ht as [? _]. }
  generalize false. induction vs as [|x vs IH]; intros r; cbn [app map guarded]; [|apply IH].
  by rewrite !Z.eqb_refl, Hb.
Qed.

Lemma data_outs_app base es es' :
  data_outs base (es ++ es') = data_outs base es ++ data_outs base es'.
Proof.
  induction es as [|[p v|p v] es IH]; simpl; [done|done|]. rewrite IH.
  by destruct (p =? base).
Qed.

Lemma data_outs_reads base vs : data_outs base (map (In (base + 5)) vs) = [].
Proof. by induction vs. Qed.

(** *** Sends compose *)

Lemma sends_bind base (m m' : M S unit) bytes bytes' s :
  sends base m bytes s -> sends base m' bytes' s ->
  sends base (_ ← m; m') (bytes ++ bytes') s.
Proof.
  intros Hm Hm' h. destruct (Hm h) as (r & es & Hrun & Hg & Hr & Hresp).
  destruct Hr as [[-> Ho]|[-> Ho]].
  - destruct (Hm' (log_ios es h)) as (r' & es' & Hrun' & Hg' & Hr' & Hresp').
    exists r', (es ++ es'). split_and!; [|by apply guarded_app| |done].
    + rewrite (run_bind _ _ _ _ _ _ _ Hrun), Hrun'. by rewrite log_ios_app.
    + rewrite data_outs_app, Ho. destruct Hr' as [[-> ->]|[-> ?]]; [by left|right].
      split; [done|]. by apply prefix_app.
  - exists Hang, es. split_and!; [|done| |by intros ?%Hresp].
    + unfold mbind, M_bind. by rewrite Hrun.
    + right. split; [done|]. by apply prefix_app_r.
Qed.

Lemma sends_poll_out self b s :
  port_base self + 5 ∈u 16 ->
  sends (port_base self) (_ ← wait_for self OUTPUT_EMPTY; outb (port_data self) b) [b] s.
Proof.
  intros Hp h. destruct (wait_for_run self OUTPUT_EMPTY s h Hp)
    as (r & vs & Hrun & [(-> & vs' & v & -> & Hv)| ->] & Hresp).
  - exists (Ok tt), (map (In (port_base self + 5)) (vs' ++ [v]) ++ [Out (port_base self) b]).
    split_and!; [|by apply guarded_poll_out|left; split; [done|]|done].
    + rewrite (run_bind _ _ _ _ _ _ _ Hrun). by rewrite log_ios_app.
    + rewrite data_outs_app, data_outs_reads. simpl. by rewrite Z.eqb_refl.
  - exists Hang, (map (In (port_base self + 5)) vs).
    split_and!; [|by apply guarded_reads|right; split; [done|]|by intros ?%Hresp].
    + unfold mbind, M_bind. by rewrite Hrun.
    + rewrite data_outs_reads. apply prefix_nil.
Qed.

Lemma sends_ext base (m m' : M S unit) bytes s :
  (forall h, m s h = m' s h) -> sends base m bytes s -> sends base m' bytes s.
Proof. intros He Hm h. rewrite <- He. apply Hm. Qed.

Lemma sends_poll_seq self b m bytes s :
  port_base self + 5 ∈u 16 -> sends (port_base self) m bytes s ->
  sends (port_base self)
    (_ ← wait_for self OUTPUT_EMPTY; _ ← outb (port_data self) b; m) (b :: bytes) s.
Proof.
  intros Hp Hm.
  apply (sends_ext _ (_ ← (_ ← wait_for self OUTPUT_EMPTY; outb (port_data self) b); m)).
  - intros h. apply bind_assoc.
  - apply (sends_bind _ _ _ [b]); [by apply sends_poll_out|done].
Qed.

Lemma sends_send self b s :
  port_base self + 5 ∈u 16 -> sends (port_base self) (send self b) (encode b) s.
Proof.
  intros Hp. unfold send, encode. destruct ((b =? 8) || (b =? 0x7f)).
  - by repeat apply sends_poll_seq; try apply sends_poll_out.
  - by apply sends_poll_out.
Qed.
End protocol.

(** ** What [init] programs into the UART *)

(** The 16550 registers as the writes leave them; offset 0 and 1 address the
    divisor latch while bit 7 of the line control register is set. *)
Record uart := MkUart {
  divisor_low : Z; divisor_high : Z; int_enable : Z;
  fifo_ctrl : Z; line_ctrl : Z; modem_ctrl : Z;
  transmitted : list Z
}.

Definition uart_write (off v : Z) (u : uart) : uart :=
  let dlab := Z.testbit (line_ctrl u) 7 in
  match off with
  | 0 => if dlab
         then MkUart v (divisor_high u) (int_enable u) (fifo_ctrl u) (line_ctrl u)
                (modem_ctrl u) (transmitted u)
         else MkUart (divisor_low u) (divisor_high u) (int_enable u) (fifo_ctrl u)
                (line_ctrl u) (modem_ctrl u) (transmitted u ++ [v])
  | 1 => if dlab
         then MkUart (divisor_low u) v (int_enable u) (fifo_ctrl u) (line_ctrl u)
                (modem_ctrl u) (transmitted u)
         else MkUart (divisor_low u) (divisor_high u) v (fifo_ctrl u) (line_ctrl u)
                (modem_ctrl u) (transmitted u)
  | 2 => MkUart (divisor_low u) (divisor_high u) (int_enable u) v (line_ctrl u)
           (modem_ctrl u) (transmitted u)
  | 3 => MkUart (divisor_low u) (divisor_high u) (int_enable u) (fifo_ctrl u) v
           (modem_ctrl u) (transmitted u)
  | 4 => MkUart (divisor_low u) (divisor_high u) (int_enable u) (fifo_ctrl u) (line_ctrl u)
           v (transmitted u)
  | _ => u
  end.

Definition uart_event (base : Z) (u : uart) (e : io_event) : uart :=
  match e with Out p v => uart_write (p - base) v u | In _ _ => u end.

Definition uart_after (base : Z) (es : list io_event) (u : uart) : uart :=
  fold_left (uart_event base) es u.

Definition baud (u : uart) : Z := 115200 / (divisor_low u + 256 * divisor_high u).

Section properties.
Context `{Platform}.

Definition init_events (base : Z) : list io_event :=
  [Out (base + 1) 0x00; Out (base + 3) 0x80; Out base 0x03; Out (base + 1) 0x00;
   Out (base + 3) 0x03; Out (base + 2) 0xc7; Out (base + 4) 0x0b; Out (base + 1) 0x01].

Lemma port_ok base k : base + 5 ∈u 16 -> 0 <= base -> 0 <= k <= 5 -> add 16 base k = Ok (base + k).
Proof. intros [??] ??. apply add_ok. split; lia. Qed.

Lemma serial_init_run {S} base (s : S) h :
  base + 5 ∈u 16 -> 0 <= base ->
  serial_init (serial_new base) s h = (Ok tt, (s, log_ios (init_events base) h)).
Proof.
  intros Hb H0. unfold serial_init, port_int_en, port_line_ctrl, port_fifo_ctrl,
    port_modem_ctrl, port_data, serial_new; cbn [port_base].
  run_lift (port_ok base 1) by (done || lia). run_step eq_refl.
  run_lift (port_ok base 3) by (done || lia). run_step eq_refl. run_step eq_refl.
  run_lift (port_ok base 1) by (done || lia). run_step eq_refl.
  run_lift (port_ok base 3) by (done || lia). run_step eq_refl.
  run_lift (port_ok base 2) by (done || lia). run_step eq_refl.
  run_lift (port_ok base 4) by (done || lia). run_step eq_refl.
  run_lift (port_ok base 1) by (done || lia). done.
Qed.

Lemma uart_step base e es u u' z :
  uart_event base u e = u' -> fold_left (uart_event base) es u' = z ->
  fold_left (uart_event base) (e :: es) u = z.
Proof. intros <-. done. Qed.

Lemma uart_after_init base u :
  uart_after base (init_events base) u =
    MkUart 3 0 0x01 0xc7 0x03 0x0b (transmitted u).
Proof.
  unfold uart_after, init_events. destruct u as [dl dh ie fc lc mc tx].
  destruct (Z.testbit lc 7) eqn:E;
    (eapply uart_step; [unfold uart_event, uart_write;
       rewrite Z.add_simpl_l; cbn [line_ctrl]; rewrite E; cbn; reflexivity|]).
  all: repeat (eapply uart_step; [unfold uart_event; rewrite ?Z.add_simpl_l, ?Z.sub_diag;
    cbn; reflexivity|]).
  all: reflexivity.
Qed.

(** What is sent under the protocol is what the UART transmits, once its divisor
    latch is closed. *)
Lemma uart_after_guarded base es r u :
  Z.testbit (line_ctrl u) 7 = false -> guarded base r es = true ->
  uart_after base es u = MkUart (divisor_low u) (divisor_high u) (int_enable u) (fifo_ctrl u)
    (line_ctrl u) (modem_ctrl u) (transmitted u ++ data_outs base es).
Proof.
  revert r u. induction es as [|[p v|p v] es IH]; intros r u Hd Hg; cbn [guarded data_outs] in *.
  - rewrite app_nil_r. by destruct u.
  - by eapply (IH _ u).
  - apply andb_true_iff in Hg as [[Hp _]%andb_true_iff Hg]. rewrite Hp.
    apply Z.eqb_eq in Hp as ->. unfold uart_after. cbn [fold_left uart_event]. rewrite Z.sub_diag.
    cbn [uart_write]. rewrite Hd. etransitivity; [by eapply IH|]. cbn. by rewrite <- app_assoc.
Qed.

(** C18: The default serial port is COM1, and whatever the UART's registers
    held before, its initialisation leaves it at 38400 baud, 8 data bits, no
    parity, one stop bit, divisor latch closed, FIFO on with a 14-byte
    watermark, receive interrupts enabled, with nothing transmitted. *)
Theorem serial_default_programs {S} (s : S) h (u : uart) :
  exists es, serial_default s h = (Ok (MkSerialPort 0x3f8), (s, log_ios es h)) /\
    let u' := uart_after 0x3f8 es u in
    baud u' = 38400 /\ line_ctrl u' = 0x03 /\ fifo_ctrl u' = 0xc7 /\
    modem_ctrl u' = 0x0b /\ int_enable u' = 0x01 /\ transmitted u' = transmitted u.
Proof.
  exists (init_events 0x3f8). split.
  - unfold serial_default. erewrite run_bind; [reflexivity|].
    by apply serial_init_run.
  - cbv zeta. by rewrite uart_after_init.
Qed.

Lemma serial_write_str_sends s self :
  port_base self + 5 ∈u 16 ->
  sends (port_base self) (serial_write_str s) (concat (map encode s)) self.
Proof.
  intros Hp. unfold serial_write_str. induction s as [|b s IH].
  - intros h. exists (Ok tt), []. split_and!; try done. by left.
  - simpl. apply sends_bind; [|done]. eapply sends_ext; [|by apply sends_send].
    done.
Qed.

(** C17: Writing a string to the serial port never panics and never
    overruns the transmitter: each data byte directly follows a status read
    that showed it empty.  If the device answers within the poll budget, the
    bytes sent are exactly the string with backspace and delete sent as
    backspace-blank-backspace; if it stops answering, a prefix of them was
    sent and the call spins. *)
Theorem serial_write_str_spec (s : list Z) (self : SerialPort) h :
  port_base self + 5 ∈u 16 ->
  exists r es, serial_write_str s self h = (r, (self, log_ios es h)) /\
    guarded (port_base self) false es = true /\
    ((r = Ok tt /\ data_outs (port_base self) es = concat (map encode s)) \/
     (r = Hang /\ data_outs (port_base self) es `prefix_of` concat (map encode s))) /\
    (Responsive (port_base self + 5) OUTPUT_EMPTY -> r = Ok tt).
Proof. intros Hp. by apply serial_write_str_sends. Qed.

(** [send_raw] sends the byte as it is, once the transmitter was seen empty. *)
Theorem serial_send_raw_spec {S} (self : SerialPort) (b : Z) (s : S) :
  port_base self + 5 ∈u 16 -> sends (port_base self) (send_raw self b) [b] s.
Proof. apply sends_poll_out. Qed.

(** [receive] on a responsive device returns the byte read from the data
    port right after a status read that showed one waiting. *)
Theorem serial_receive_spec {S} (self : SerialPort) (s : S) h :
  port_base self + 5 ∈u 16 -> Responsive (port_base self + 5) INPUT_FULL ->
  exists v vs sts, v ∈u 8 /\ Z.testbit sts 0 = true /\
    receive self s h = (Ok v, (s, log_ios (map (In (port_base self + 5)) vs ++
      [In (port_base self + 5) sts; In (port_base self) v]) h)).
Proof.
  intros Hp Hresp. destruct (wait_for_run self INPUT_FULL s h Hp)
    as (r & vs & Hrun & [(-> & vs' & v & -> & Hv)| ->] & Hok);
    [|by specialize (Hok Hresp)].
  eexists _, vs', v. split_and!.
  - apply port_in_byte.
  - assert (Z.testbit (Z.land v INPUT_FULL) 0 = true) as Ht by by rewrite Hv.
    rewrite Z.land_spec in Ht. by apply andb_true_iff in Ht as [? _].
  - unfold receive. rewrite (run_bind _ _ _ _ _ _ _ Hrun). unfold inb, port_data.
    rewrite map_app, !log_ios_app. reflexivity.
Qed.
End properties.

(** A UART whose transmitter is always empty and receiver always full. *)
Lemma always_ready checks port flag :
  flag = OUTPUT_EMPTY \/ flag = INPUT_FULL -> @Responsive (constant_platform checks 0x21) port flag.
Proof. intros [-> | ->] tr; constructor; reflexivity. Qed.

Lemma serial_write_str_spec_witness :
  let P := constant_platform true 0x21 in let h := MkHw ∅ [] [] 8 0 0 None false in
  exists es, @serial_write_str P [72; 8] (MkSerialPort 0x3f8) h =
    (Ok tt, (MkSerialPort 0x3f8, log_ios es h)) /\ data_outs 0x3f8 es = [72; 8; 32; 8].
Proof.
  intros P h. destruct (@serial_write_str_spec P [72; 8] (MkSerialPort 0x3f8) h)
    as (r & es & Hrun & _ & Hr & Hresp); [split; [vm_compute; discriminate|reflexivity]|].
  pose proof (Hresp (always_ready true _ _ (or_introl eq_refl))) as Hok. subst r.
  destruct Hr as [[_ Ho]|[Hh _]]; [|discriminate Hh].
  exists es. split; [exact Hrun|exact Ho].
Defined.

Lemma serial_receive_spec_witness :
  let P := constant_platform true 0x21 in let h := MkHw ∅ [] [] 8 0 0 None false in
  exists v h', @receive P unit (MkSerialPort 0x3f8) tt h = (Ok v, (tt, h')).
Proof.
  intros P h. destruct (@serial_receive_spec P unit (MkSerialPort 0x3f8) tt h)
    as (v & vs & sts & _ & _ & Hrun);
    [split; [vm_compute; discriminate|reflexivity]|exact (always_ready true _ _ (or_intror eq_refl))|].
  exists v. eexists. exact Hrun.
Defined.
