(* ===== verification/Vga.v ===== *)
(** * The VGA text console: [io/vga.rs]

    The text buffer is [screen] of the hardware state: 25 rows of 80 cells, a
    cell being the bytes of a [ScreenChar] in memory order.  [putc] and its
    helpers are the code; [putc_ref] is the terminal it implements, on the
    column and the rows alone; [crtc] reads the hardware cursor back from the
    port writes. *)
From Stdlib Require Import ZArith Lia.
From stdpp Require Import base tactics numbers list gmap.
From S2P Require Import Prelude.
From S2P Require Import Machine.
From S2P Require Import X86.
From S2P Require Import Fmt.

(** ** Data *)

Inductive Color :=
  | Black | Blue | Green | Cyan | Red | Magenta | Brown | LightGray
  | DarkGray | LightBlue | LightGreen | LightCyan | LightRed | Pink | Yellow | White.

#[export] Instance Color_eq_dec : EqDecision Color.
Proof. solve_decision. Defined.

Definition color_as_u8 (c : Color) : Z :=
  match c with
  | Black => 0 | Blue => 1 | Green => 2 | Cyan => 3 | Red => 4 | Magenta => 5
  | Brown => 6 | LightGray => 7 | DarkGray => 8 | LightBlue => 9 | LightGreen => 10
  | LightCyan => 11 | LightRed => 12 | Pink => 13 | Yellow => 14 | White => 15
  end.

(** [struct ColorCode(u8)]. *)
Definition color_code_new `{Platform} (foreground background : Color) : result Z :=
  b ← shl 8 (color_as_u8 background) 4;
  Ok (Z.lor b (color_as_u8 foreground)).

Record ScreenChar := MkScreenChar { ascii_character : Z; color_code : Z }.

(** A cell of the text buffer holds a [ScreenChar] as its two bytes. *)
Definition cell (c : ScreenChar) : Z * Z := (ascii_character c, color_code c).

Definition BUFFER_HEIGHT : Z := 25.
Definition BUFFER_WIDTH : Z := 80.

Record VgaBuffer := MkVgaBuffer { col_pos : Z; cur_color : Z }.

(** ** The text buffer *)
Section buffer.
Context {S : Type}.

(** [buf.chars[row][col].write(c)]. *)
Definition write_cell (row col : Z) (c : ScreenChar) : M S unit := fun s h =>
  match screen h !! Z.to_nat row with
  | Some r =>
      if decide (Z.to_nat col < length r)%nat
      then (Ok tt, (s, set_screen (<[Z.to_nat row := <[Z.to_nat col := cell c]> r]> (screen h)) h))
      else (Panic OutOfBounds, (s, h))
  | None => (Panic OutOfBounds, (s, h))
  end.

(** [slice.copy_within(start..end, dest)]. *)
Definition slice_copy_within {A} (l : list A) (start end_ dest : Z) : result (list A) :=
  if decide (start <= end_ /\ end_ <= Z.of_nat (length l) /\
             dest <= Z.of_nat (length l) - (end_ - start))
  then let n := Z.to_nat (end_ - start) in
       Ok (take (Z.to_nat dest) l ++ take n (drop (Z.to_nat start) l)
           ++ drop (Z.to_nat dest + n) l)
  else Panic OutOfBounds.

(** [buf.chars.copy_within(start..end, dest)] and the same on one row. *)
Definition rows_copy_within (start end_ dest : Z) : M S unit :=
  h ← hw;
  rows ← lift (slice_copy_within (screen h) start end_ dest);
  modify_hw (set_screen rows).

Definition row_copy_within (row start end_ dest : Z) : M S unit :=
  h ← hw;
  match screen h !! Z.to_nat row with
  | Some r =>
      r' ← lift (slice_copy_within r start end_ dest);
      modify_hw (set_screen (<[Z.to_nat row := r']> (screen h)))
  | None => lift (Panic OutOfBounds)
  end.
End buffer.

(** ** The code *)
Section code.
Context `{Platform}.

Definition enable_cursor {S} (cursor_start cursor_end : Z) : M S unit :=
  _ ← outb 0x3D4 0x0A;
  v ← inb 0x3D5;
  _ ← outb 0x3D5 (Z.lor (Z.land v 0xC0) cursor_start);
  _ ← outb 0x3D4 0x0B;
  v ← inb 0x3D5;
  outb 0x3D5 (Z.lor (Z.land v 0xE0) cursor_end).

Definition update_cursor {S} (height width : Z) : M S unit :=
  p ← lift (mul 32 height BUFFER_WIDTH);
  pos ← lift (add 32 p width);
  _ ← outb 0x3D4 0x0F;
  _ ← outb 0x3D5 (wrap 8 (Z.land pos 0xFF));
  _ ← outb 0x3D4 0x0E;
  hi ← lift (shr 32 pos 8);
  outb 0x3D5 (wrap 8 (Z.land hi 0xFF)).

Definition disable_cursor {S} : M S unit :=
  _ ← outb 0x3D4 0x0A;
  outb 0x3D5 0x20.

Definition vga_new : result VgaBuffer :=
  c ← color_code_new White Black;
  Ok (MkVgaBuffer 0 c).

Definition clear_row (row : Z) : M VgaBuffer unit :=
  self ← get;
  let blank := MkScreenChar 32 (cur_color self) in
  for_each 0 BUFFER_WIDTH (fun col => write_cell row col blank).

Definition new_line : M VgaBuffer unit :=
  _ ← for_each 1 BUFFER_HEIGHT (fun row =>
        dest ← lift (sub 32 row 1);
        rows_copy_within row (row + 1) dest);
  _ ← clear_row (BUFFER_HEIGHT - 1);
  self ← get;
  _ ← put (MkVgaBuffer 0 (cur_color self));
  self ← get;
  update_cursor (BUFFER_HEIGHT - 1) (col_pos self).

Definition putc (c : Z) : M VgaBuffer unit :=
  self ← get;
  if c =? 10 then new_line
  else if c =? 13 then
    _ ← put (MkVgaBuffer 0 (cur_color self));
    update_cursor (BUFFER_HEIGHT - 1) 0
  else if c =? 8 then
    if decide (col_pos self > 0) then
      p ← lift (sub 32 (col_pos self) 1);
      _ ← write_cell (BUFFER_HEIGHT - 1) p (MkScreenChar 32 (cur_color self));
      p ← lift (sub 32 (col_pos self) 1);
      _ ← put (MkVgaBuffer p (cur_color self));
      update_cursor (BUFFER_HEIGHT - 1) p
    else mret tt
  else if c =? 0x7f then
    p ← lift (add 32 (col_pos self) 1);
    _ ← row_copy_within (BUFFER_HEIGHT - 1) p BUFFER_WIDTH (col_pos self);
    write_cell (BUFFER_HEIGHT - 1) (BUFFER_WIDTH - 1) (MkScreenChar 32 (cur_color self))
  else
    _ ← write_cell (BUFFER_HEIGHT - 1) (col_pos self) (MkScreenChar c (cur_color self));
    if decide (col_pos self = BUFFER_WIDTH - 1) then new_line
    else
      p ← lift (add 32 (col_pos self) 1);
      _ ← put (MkVgaBuffer p (cur_color self));
      update_cursor (BUFFER_HEIGHT - 1) p.

Definition write_bytes (s : list Z) : M VgaBuffer unit := for_in s putc.

Definition clear : M VgaBuffer unit :=
  self ← get;
  let blank := MkScreenChar 32 (cur_color self) in
  modify_hw (fun h => set_screen
    (map (fun _ => replicate (Z.to_nat BUFFER_WIDTH) (cell blank)) (screen h)) h).

(** [impl fmt::Write for VgaBuffer] and [impl Default]. *)
Definition vga_write_str (s : list Z) : M VgaBuffer unit := write_bytes s.
Definition vga_default {S} : M S VgaBuffer := lift vga_new.
End code.

#[export] Instance VgaBuffer_FmtWrite `{Platform} : FmtWrite VgaBuffer := {
  write_str := vga_write_str;
  write_str_nil := for_in_nil _;
  write_str_app := for_in_app _
}.

(** ** The terminal it implements *)

Definition blank_cell (color : Z) : Z * Z := (32, color).
Definition blank_row (color : Z) : list (Z * Z) := replicate 80 (blank_cell color).

(** All rows move up one, a blank row enters at the bottom. *)
Definition scroll (color : Z) (rows : list (list (Z * Z))) : list (list (Z * Z)) :=
  tail rows ++ [blank_row color].

Definition on_bottom (f : list (Z * Z) -> list (Z * Z)) : list (list (Z * Z)) -> list (list (Z * Z)) :=
  alter f 24%nat.

(** One byte, on (column, rows). *)
Definition putc_ref (color c : Z) (st : Z * list (list (Z * Z))) : Z * list (list (Z * Z)) :=
  let '(col, rows) := st in
  if c =? 10 then (0, scroll color rows)
  else if c =? 13 then (0, rows)
  else if c =? 8 then
    if decide (0 < col) then (col - 1, on_bottom <[Z.to_nat (col - 1) := blank_cell color]> rows)
    else (col, rows)
  else if c =? 0x7f then
    (col, on_bottom (fun r => take (Z.to_nat col) r ++ drop (S (Z.to_nat col)) r ++ [blank_cell color]) rows)
  else
    let rows' := on_bottom <[Z.to_nat col := (c, color)]> rows in
    if decide (col = 79) then (0, scroll color rows') else (col + 1, rows').

(** The geometry: 25 rows of 80 cells, the column inside the row. *)
Definition rows_ok (rows : list (list (Z * Z))) : Prop :=
  length rows = 25%nat /\ Forall (fun r => length r = 80%nat) rows.
Definition col_ok (col : Z) : Prop := 0 <= col < 80.
Definition vga_ok (self : VgaBuffer) (h : Hw) : Prop :=
  col_ok (col_pos self) /\ rows_ok (screen h).

(** The CRT controller: an index written to 0x3D4 selects a register, data at
    0x3D5 is written to it.  Registers 0x0E and 0x0F are the high and low byte
    of the cursor's cell, 0x0A and 0x0B its first and last scan line, with the
    bit that hides it. *)
Record crtc := MkCrtc { crtc_index : Z; crtc_reg : Z -> Z }.

Definition crtc_event (e : io_event) (c : crtc) : crtc :=
  match e with
  | Out 0x3D4 v => MkCrtc v (crtc_reg c)
  | Out 0x3D5 v => MkCrtc (crtc_index c) (fun i => if i =? crtc_index c then wrap 8 v else crtc_reg c i)
  | _ => c
  end.

(** The registers after a trace (newest event first), from [c0] on. *)
Definition crtc_after (tr : list io_event) (c0 : crtc) : crtc := foldr crtc_event c0 tr.

Definition cursor_cell (c : crtc) : Z := 256 * crtc_reg c 0x0E + crtc_reg c 0x0F.
Definition cursor_shown (c : crtc) : bool := negb (Z.testbit (crtc_reg c 0x0A) 5).
Definition cursor_lines (c : crtc) : Z * Z := (crtc_reg c 0x0A mod 32, crtc_reg c 0x0B mod 32).

(** A controller whose registers read back. *)
Class ReadsBack `{Platform} (c0 : crtc) : Prop := {
  reads_back : forall tr, port_in tr 0x3D5 = crtc_reg (crtc_after tr c0) (crtc_index (crtc_after tr c0))
}.

(** The writes that move the hardware cursor to a column of the bottom row,
    and the bytes that cause them. *)
Definition cursor_events (col : Z) : list io_event :=
  [Out 0x3D4 0x0F; Out 0x3D5 ((1920 + col) mod 256);
   Out 0x3D4 0x0E; Out 0x3D5 ((1920 + col) / 256)].

Definition moves_cursor (c col : Z) : bool :=
  negb ((c =? 0x7f) || ((c =? 8) && (col =? 0))).

(** ** Lemmas: the buffer primitives *)
Section primitives.
Context `{Platform} {S : Type}.
Implicit Types (s : S) (h : Hw).

Lemma set_screen_same h : set_screen (screen h) h = h.
Proof. by destruct h. Qed.

Lemma set_screen_twice r r' h : set_screen r (set_screen r' h) = set_screen r h.
Proof. done. Qed.

Lemma set_screen_log_ios r es h : set_screen r (log_ios es h) = log_ios es (set_screen r h).
Proof. by rewrite !log_ios_spec. Qed.

Lemma wp_write_cell row col c (Q : unit -> S -> Hw -> Prop) s h r :
  screen h !! Z.to_nat row = Some r -> (Z.to_nat col < length r)%nat ->
  Q tt s (set_screen (<[Z.to_nat row := <[Z.to_nat col := cell c]> r]> (screen h)) h) ->
  wp (write_cell row col c) Q s h.
Proof. intros Hr Hc HQ. unfold wp, write_cell. by rewrite Hr, decide_True. Qed.

(** Copying one element to the slot before it. *)
Lemma slice_copy_one {A} (l : list A) (i : nat) x :
  l !! Datatypes.S i = Some x ->
  slice_copy_within l (Z.of_nat (Datatypes.S i)) (Z.of_nat (Datatypes.S i) + 1)
    (Z.of_nat (Datatypes.S i) - 1) = Ok (<[i := x]> l).
Proof.
  intros Hx. pose proof (lookup_lt_Some _ _ _ Hx). unfold slice_copy_within.
  rewrite decide_True by lia. f_equal.
  replace (Z.to_nat (Z.of_nat (Datatypes.S i) - 1)) with i by lia.
  replace (Z.to_nat (Z.of_nat (Datatypes.S i) + 1 - Z.of_nat (Datatypes.S i))) with 1%nat by lia.
  rewrite Nat2Z.id, insert_take_drop by lia. f_equal.
  by rewrite Nat.add_1_r, (drop_S _ _ _ Hx).
Qed.

(** Shifting the tail of a row left by one. *)
Lemma slice_copy_left {A} (l : list A) (i : nat) :
  (i < length l)%nat ->
  slice_copy_within l (Z.of_nat i + 1) (Z.of_nat (length l)) (Z.of_nat i) =
    Ok (take i l ++ drop (Datatypes.S i) l ++ drop (length l - 1) l).
Proof.
  intros Hi. unfold slice_copy_within. rewrite decide_True by lia.
  replace (Z.to_nat (Z.of_nat i + 1)) with (Datatypes.S i) by lia.
  rewrite Nat2Z.id, (take_ge (drop _ _)) by (rewrite length_drop; lia).
  do 3 f_equal; f_equal; lia.
Qed.

Lemma update_cursor_run col s h :
  col_ok col ->
  update_cursor (BUFFER_HEIGHT - 1) col s h =
    (Ok tt, (s, log_ios (cursor_events col) h)).
Proof.
  intros Hc. unfold col_ok in Hc. unfold update_cursor, BUFFER_HEIGHT, BUFFER_WIDTH.
  run_lift (mul_ok 32 (25 - 1) 80) by (split; [lia|reflexivity]).
  run_lift add_ok by (split; [lia|change (2 ^ 32) with 4294967296; lia]).
  run_step eq_refl. run_step eq_refl. run_step eq_refl. run_lift shr_ok by lia.
  change ((25 - 1) * 80) with 1920. unfold outb, modify_hw.
  assert (wrap 8 (Z.land (1920 + col) 0xFF) = (1920 + col) mod 256) as ->.
  { rewrite (Z.land_ones _ 8) by lia. unfold wrap. apply Z.mod_mod. done. }
  assert (wrap 8 (Z.land (Z.shiftr (1920 + col) 8) 0xFF) = (1920 + col) / 256) as ->.
  { rewrite (Z.land_ones _ 8), Z.shiftr_div_pow2 by lia. unfold wrap.
    rewrite Z.mod_mod by done. apply Z.mod_small.
    change (2 ^ 8) with 256. split; zlia. }
  done.
Qed.

(** The cursor after an update is the cell of the column. *)
Lemma update_cursor_crtc col c0 tr :
  col_ok col -> cursor_cell (crtc_after (rev (cursor_events col) ++ tr) c0) = 1920 + col.
Proof.
  unfold col_ok, crtc_after, cursor_events. intros Hc. cbn -[Z.modulo Z.div wrap]. unfold cursor_cell.
  cbn -[Z.modulo Z.div Z.mul Z.add wrap]. change (2 ^ 8) with 256. unfold wrap. change (2 ^ 8) with 256.
  rewrite Z.mod_mod, (Z.mod_small (_ / 256)) by zlia. pose proof (Z.div_mod (1920 + col) 256). lia.
Qed.

Lemma cursor_events_shape col c0 tr i :
  i ≠ 0x0E -> i ≠ 0x0F ->
  crtc_reg (crtc_after (rev (cursor_events col) ++ tr) c0) i = crtc_reg (crtc_after tr c0) i.
Proof.
  intros. unfold crtc_after, cursor_events. cbn -[Z.modulo Z.div Z.eqb].
  by rewrite !(proj2 (Z.eqb_neq i _)).
Qed.
End primitives.

Lemma length_tail {A} (l : list A) : length (tail l) = (length l - 1)%nat.
Proof. destruct l; simpl; lia. Qed.

(** ** Lemmas: scrolling *)
Section scrolling.
Context `{Platform}.

Lemma rows_shift_loop self h :
  rows_ok (screen h) ->
  wp (for_each 1 BUFFER_HEIGHT (fun row =>
        dest ← lift (sub 32 row 1); rows_copy_within row (row + 1) dest))
    (fun _ (self' : VgaBuffer) (h' : Hw) => self' = self /\ exists last, length last = 80%nat /\
       h' = set_screen (tail (screen h) ++ [last]) h) self h.
Proof.
  intros [Hlen Hwid].
  apply (wp_for_each (fun i (self' : VgaBuffer) (h' : Hw) => self' = self /\ exists rows,
    h' = set_screen rows h /\ length rows = 25%nat /\
    forall j, rows !! j = if decide (Z.of_nat j + 1 < i) then screen h !! S j else screen h !! j)).
  - done.
  - split; [done|]. exists (screen h). rewrite set_screen_same. split_and!; [done..|].
    intros j. by rewrite decide_False by lia.
  - intros i s1 h1 Hi (-> & rows & -> & Hl & Hrows).
    unfold BUFFER_HEIGHT in Hi. destruct (Z_of_nat_complete (i - 1)) as [n Hn]; [lia|].
    assert (i = Z.of_nat (S n)) as -> by lia.
    destruct (lookup_lt_is_Some_2 rows (S n)) as [x Hx]; [lia|].
    wp_ok sub_ok; [split; [lia|change (2 ^ 32) with 4294967296; lia]|].
    unfold rows_copy_within. wp_simp.
    eapply wp_lift_ok; [by apply (slice_copy_one rows n x)|]. wp_simp.
    split; [done|]. eexists. split_and!; [done|by rewrite length_insert|].
    intros j. rewrite list_lookup_insert.
    destruct (decide (n = j /\ (n < length rows)%nat)) as [[-> ?]|Hne].
    + rewrite decide_True by lia. rewrite <- Hx, Hrows. by rewrite decide_False by lia.
    + rewrite Hrows. destruct (decide (n = j)) as [->|]; [exfalso; lia|].
      do 2 case_decide; (done || exfalso; lia).
  - intros s1 h1 (-> & rows & -> & Hl & Hrows). split; [done|].
    destruct (lookup_lt_is_Some_2 (screen h) 24%nat) as [last Hlast]; [lia|].
    exists last. split; [by eapply Forall_lookup_1 in Hwid|]. f_equal. apply list_eq. intros j.
    rewrite Hrows. unfold BUFFER_HEIGHT. case_decide.
    + rewrite lookup_app_l by (rewrite length_tail; lia). by rewrite lookup_tail.
    + destruct (decide (j = 24%nat)) as [->|].
      * rewrite lookup_app_r by (rewrite length_tail; lia).
        rewrite length_tail, Hlen. done.
      * rewrite !lookup_ge_None_2; [done|rewrite length_app, length_tail; simpl; lia|lia].
Qed.

Lemma clear_row_run self h r :
  screen h !! 24%nat = Some r -> length r = 80%nat ->
  wp (clear_row (BUFFER_HEIGHT - 1))
    (fun _ (self' : VgaBuffer) (h' : Hw) => self' = self /\
       h' = set_screen (<[24%nat := blank_row (cur_color self)]> (screen h)) h) self h.
Proof.
  intros Hr Hlen. unfold clear_row. wp_simp.
  pose proof (lookup_lt_Some _ _ _ Hr).
  apply (wp_for_each (fun i (self' : VgaBuffer) (h' : Hw) => self' = self /\
    h' = set_screen (<[24%nat := replicate (Z.to_nat i) (blank_cell (cur_color self))
                                 ++ drop (Z.to_nat i) r]> (screen h)) h)).
  - done.
  - split; [done|]. simpl. rewrite drop_0. by rewrite list_insert_id, set_screen_same.
  - intros i s1 h1 Hi [-> ->]. unfold BUFFER_WIDTH in Hi.
    eapply wp_write_cell; simpl.
    + by apply list_lookup_insert_eq.
    + rewrite length_app, length_replicate, length_drop. lia.
    + split; [done|]. rewrite set_screen_twice. f_equal. change (Z.to_nat (25 - 1)) with 24%nat.
      rewrite list_insert_insert_eq. f_equal.
      rewrite insert_app_r_alt by (rewrite length_replicate; lia).
      rewrite length_replicate, Nat.sub_diag.
      replace (Z.to_nat (i + 1)) with (S (Z.to_nat i)) by lia.
      rewrite replicate_S_end, <- app_assoc. f_equal.
      destruct (lookup_lt_is_Some_2 r (Z.to_nat i)) as [x Hx]; [lia|].
      by rewrite (drop_S _ _ _ Hx).
  - intros s1 h1 [-> ->]. split; [done|]. do 2 f_equal.
    rewrite drop_ge by (rewrite Hlen; done). by rewrite app_nil_r.
Qed.

Lemma rows_ok_scroll color rows : rows_ok rows -> rows_ok (scroll color rows).
Proof.
  intros [Hl Hwid]. unfold scroll. split.
  - rewrite length_app, length_tail. simpl. lia.
  - apply Forall_app. split; [by apply Forall_tail|]. constructor; [|done].
    apply length_replicate.
Qed.

Lemma new_line_run self h :
  rows_ok (screen h) ->
  wp new_line (fun _ (self' : VgaBuffer) (h' : Hw) => self' = MkVgaBuffer 0 (cur_color self) /\
    h' = log_ios (cursor_events 0)
           (set_screen (scroll (cur_color self) (screen h)) h)) self h.
Proof.
  intros Hok. unfold new_line. wp_simp.
  eapply wp_mono; [by apply rows_shift_loop|]. intros _ s1 h1 (-> & last & Hlast & ->).
  destruct Hok as [Hlen _]. wp_simp.
  assert (length (tail (screen h)) = 24%nat) as Ht by (rewrite length_tail; lia).
  eapply wp_mono.
  { apply (clear_row_run _ _ last); [|done]. simpl.
    by rewrite lookup_app_r, Ht by lia. }
  intros _ s1 h1 [-> ->]. wp_simp. eapply wp_run. do 3 eexists.
  split; [by apply (update_cursor_run 0)|]. split; [done|].
  do 2 f_equal. rewrite set_screen_twice. f_equal. unfold scroll.
  rewrite insert_app_r_alt by lia. by rewrite Ht.
Qed.
End scrolling.

(** ** [putc] implements the terminal *)
Section refinement.
Context `{Platform}.
Implicit Types (self : VgaBuffer) (h : Hw) (rows : list (list (Z * Z))).

Lemma on_bottom_insert f rows r :
  rows !! 24%nat = Some r -> <[24%nat := f r]> rows = on_bottom f rows.
Proof.
  intros Hr. pose proof (lookup_lt_Some _ _ _ Hr). unfold on_bottom.
  apply list_eq. intros j. destruct (decide (j = 24%nat)) as [->|].
  - rewrite list_lookup_insert_eq by done. by rewrite list_lookup_alter_eq, Hr.
  - by rewrite list_lookup_insert_ne, list_lookup_alter_ne by done.
Qed.

Lemma rows_ok_bottom rows : rows_ok rows ->
  exists r, rows !! 24%nat = Some r /\ length r = 80%nat.
Proof.
  intros [Hl Hwid]. destruct (lookup_lt_is_Some_2 rows 24%nat) as [r Hr]; [lia|].
  exists r. split; [done|]. by eapply Forall_lookup_1 in Hwid.
Qed.

Lemma rows_ok_on_bottom f rows :
  rows_ok rows -> (forall r, length r = 80%nat -> length (f r) = 80%nat) ->
  rows_ok (on_bottom f rows).
Proof.
  intros [Hl Hwid] Hf. split; [by unfold on_bottom; rewrite length_alter|].
  apply Forall_alter; [done|]. intros r Hr Hlen. by apply Hf.
Qed.

Lemma putc_ref_ok color c col rows :
  col_ok col -> rows_ok rows ->
  col_ok (putc_ref color c (col, rows)).1 /\ rows_ok (putc_ref color c (col, rows)).2.
Proof.
  unfold col_ok. intros Hc Hr. unfold putc_ref.
  repeat (case_match || case_decide); simpl; split; try lia; try done;
    try apply rows_ok_scroll; try done; apply rows_ok_on_bottom; try done;
    intros r Hlen; rewrite ?length_insert; try done.
  rewrite !length_app, length_take, length_drop. simpl. lia.
Qed.

(** The effect of one byte: the terminal's step, the colour kept, and the
    cursor writes. *)
Definition putc_post (c : Z) self h (self' : VgaBuffer) (h' : Hw) : Prop :=
  let st := putc_ref (cur_color self) c (col_pos self, screen h) in
  self' = MkVgaBuffer st.1 (cur_color self) /\
  h' = log_ios (if moves_cursor c (col_pos self) then cursor_events st.1 else [])
         (set_screen st.2 h).

Lemma wp_move_cursor color col Q h :
  col_ok col ->
  Q tt (MkVgaBuffer col color) (log_ios (cursor_events col) h) ->
  wp (update_cursor (BUFFER_HEIGHT - 1) col) Q (MkVgaBuffer col color) h.
Proof.
  intros Hc HQ. apply wp_run. do 3 eexists. split; [by apply update_cursor_run|done].
Qed.

Lemma wp_bottom_write col c (Q : unit -> VgaBuffer -> Hw -> Prop) self h :
  rows_ok (screen h) -> 0 <= col < 80 ->
  Q tt self (set_screen (on_bottom <[Z.to_nat col := cell c]> (screen h)) h) ->
  wp (write_cell (BUFFER_HEIGHT - 1) col c) Q self h.
Proof.
  intros Hok Hc HQ. destruct (rows_ok_bottom _ Hok) as (r & Hr & Hlen).
  eapply wp_write_cell; [exact Hr|lia|]. change (Z.to_nat (BUFFER_HEIGHT - 1)) with 24%nat.
  by rewrite (on_bottom_insert _ _ _ Hr).
Qed.

Lemma putc_delete self h :
  vga_ok self h -> wp (putc 0x7f) (fun _ => putc_post 0x7f self h) self h.
Proof.
  intros [Hc Hok]. unfold putc, col_ok in *. wp_simp.
  destruct (rows_ok_bottom _ Hok) as (r & Hr & Hlen).
  wp_ok add_ok; [split; [lia|change (2 ^ 32) with 4294967296; lia]|].
  wp_simp. unfold row_copy_within. wp_simp.
  change (Z.to_nat (BUFFER_HEIGHT - 1)) with 24%nat. rewrite Hr.
  destruct (Z_of_nat_complete (col_pos self)) as [i Hi]; [lia|].
  wp_simp. eapply wp_lift_ok.
  { change BUFFER_WIDTH with (Z.of_nat 80). rewrite <- Hlen, Hi. apply slice_copy_left. lia. }
  wp_simp. rewrite Hlen.
  eapply wp_write_cell; change (Z.to_nat (BUFFER_HEIGHT - 1)) with 24%nat;
    change (Z.to_nat (BUFFER_WIDTH - 1)) with 79%nat; simpl.
  - apply list_lookup_insert_eq. by eapply lookup_lt_Some.
  - rewrite !length_app, length_take, !length_drop, Hlen. lia.
  - unfold putc_post; simpl. split; [by destruct self|]. rewrite set_screen_twice. f_equal.
    rewrite list_insert_insert_eq.
    rewrite <- (on_bottom_insert _ _ _ Hr). f_equal. rewrite Hi, Nat2Z.id.
    assert (length (take i r) = i) by (rewrite length_take; lia).
    assert (length (drop (S i) r) = 79 - i)%nat by (rewrite length_drop; lia).
    rewrite !insert_app_r_alt by lia.
    do 2 f_equal. destruct (drop 79 r) as [|x [|y l]] eqn:Hd;
      apply (f_equal length) in Hd; rewrite length_drop, Hlen in Hd; simpl in Hd; try lia.
    by replace (79 - length (take i r) - length (drop (S i) r))%nat with 0%nat by lia.
Qed.

Lemma putc_run c self h :
  vga_ok self h -> wp (putc c) (fun _ => putc_post c self h) self h.
Proof.
  destruct (decide (c = 0x7f)) as [->|Hdel]; [apply putc_delete|].
  intros [Hc Hok]. unfold col_ok in Hc. unfold putc, putc_post, putc_ref, moves_cursor.
  rewrite !(proj2 (Z.eqb_neq c 0x7f)) by done. wp_simp.
  destruct (Z.eqb_spec c 10) as [->|?]; [by eapply wp_mono; [apply new_line_run|]|].
  destruct (Z.eqb_spec c 13) as [->|?].
  { wp_simp. apply wp_move_cursor; [unfold col_ok; lia|done]. }
  destruct (Z.eqb_spec c 8) as [->|?].
  - destruct (Z.eqb_spec (col_pos self) 0) as [H0|H0].
    { rewrite !decide_False by lia. simpl. destruct self; by rewrite set_screen_same. }
    rewrite !decide_True by lia.
    assert (sub 32 (col_pos self) 1 = Ok (col_pos self - 1)) as Hsub.
    { apply sub_ok. split; [lia|change (2 ^ 32) with 4294967296; lia]. }
    wp_ok Hsub. wp_simp. apply wp_bottom_write; [done|lia|].
    wp_ok Hsub. wp_simp. apply wp_move_cursor; [unfold col_ok; lia|done].
  - wp_simp. apply wp_bottom_write; [done|lia|].
    change (BUFFER_WIDTH - 1) with 79. case_decide as H79.
    + eapply wp_mono; [apply new_line_run|].
      { simpl. apply rows_ok_on_bottom; [done|]. intros. by rewrite length_insert. }
      intros [] self' h' [-> ->]. done.
    + wp_ok add_ok; [split; [lia|change (2 ^ 32) with 4294967296; lia]|].
      wp_simp. apply wp_move_cursor; [unfold col_ok; lia|done].
Qed.
End refinement.

(** ** Texts *)
Section texts.
Context `{Platform}.
Implicit Types (self : VgaBuffer) (h : Hw) (rows : list (list (Z * Z))) (s : list Z).

Definition text_ref (color : Z) s (st : Z * list (list (Z * Z))) : Z * list (list (Z * Z)) :=
  fold_left (fun st c => putc_ref color c st) s st.

(** The hardware cursor is on the cell of the next character. *)
Definition tracks (c0 : crtc) self h : Prop :=
  cursor_cell (crtc_after (trace h) c0) = 1920 + col_pos self.

(** No register changed but the cursor's cell. *)
Definition same_shape (c0 : crtc) h h' : Prop := forall i, i ≠ 0x0E -> i ≠ 0x0F ->
  crtc_reg (crtc_after (trace h') c0) i = crtc_reg (crtc_after (trace h) c0) i.

(** The ports of the CRT controller. *)
Definition crtc_port (e : io_event) : Prop :=
  match e with Out p _ => p = 0x3D4 \/ p = 0x3D5 | In _ _ => False end.

Lemma cursor_events_ports col : Forall crtc_port (cursor_events col).
Proof. unfold cursor_events. repeat (apply Forall_cons; split; [cbn; lia|]). by apply Forall_nil. Qed.

Lemma putc_post_spec c self h self' h' :
  vga_ok self h -> putc_post c self h self' h' ->
  (col_pos self', screen h') = putc_ref (cur_color self) c (col_pos self, screen h) /\
  cur_color self' = cur_color self /\ vga_ok self' h' /\
  (exists es, Forall crtc_port es /\ h' = log_ios es (set_screen (screen h') h)) /\
  forall c0, (moves_cursor c (col_pos self) = true \/ tracks c0 self h -> tracks c0 self' h') /\
    same_shape c0 h h'.
Proof.
  intros [Hc Hok] [-> ->]. destruct (putc_ref_ok (cur_color self) c _ _ Hc Hok) as [Hc' Hok'].
  destruct (putc_ref (cur_color self) c (col_pos self, screen h)) as [col' rows'] eqn:Hst.
  cbn [fst snd] in *. unfold vga_ok, tracks, same_shape.
  set (es := if moves_cursor c (col_pos self) then cursor_events col' else []).
  rewrite log_ios_spec. cbn [trace screen col_pos cur_color mem set_screen]. split_and!; try done.
  - exists es. split; [|by rewrite log_ios_spec]. subst es.
    case_match; [apply cursor_events_ports|constructor].
  - intros c0. subst es. split; [intros Ht|intros i ? ?; case_match; [by apply cursor_events_shape|done]].
    destruct (moves_cursor c (col_pos self)) eqn:Hm.
    + by apply update_cursor_crtc.
    + destruct Ht as [Ht|Ht]; [done|]. cbn [rev app].
      rewrite Ht. f_equal.
      unfold moves_cursor in Hm. apply negb_false_iff, orb_true_iff in Hm. unfold putc_ref in Hst.
      destruct Hm as [->%Z.eqb_eq|[->%Z.eqb_eq Hz%Z.eqb_eq]%andb_true_iff];
        simpl in Hst; [by simplify_eq|].
      rewrite decide_False in Hst by lia. by simplify_eq.
Qed.

Lemma write_str_run s self h :
  vga_ok self h ->
  wp (vga_write_str s) (fun _ self' h' =>
    (col_pos self', screen h') = text_ref (cur_color self) s (col_pos self, screen h) /\
    cur_color self' = cur_color self /\ vga_ok self' h' /\
    (exists es, Forall crtc_port es /\ h' = log_ios es (set_screen (screen h') h)) /\
    forall c0, (tracks c0 self h -> tracks c0 self' h') /\ same_shape c0 h h') self h.
Proof.
  unfold vga_write_str, write_bytes.
  revert self h. induction s as [|c s IH]; intros self h Hok; simpl.
  - apply wp_ret. split_and!; try done. exists []. simpl. by rewrite set_screen_same.
  - wp_simp. eapply wp_mono; [by apply putc_run|]. intros [] s1 h1 Hpost.
    destruct (putc_post_spec _ _ _ _ _ Hok Hpost) as (Hst & Hcol & Hok1 & (es1 & Hp1 & He1) & Ht1).
    eapply wp_mono; [by apply IH|]. intros [] s2 h2 (Hst2 & Hcol2 & Hok2 & (es2 & Hp2 & He2) & Ht2).
    split_and!; [|congruence|done| |].
    + by rewrite Hst2, Hcol, Hst.
    + exists (es1 ++ es2). split; [by apply Forall_app|]. rewrite He2, He1 at 1.
      by rewrite set_screen_log_ios, set_screen_twice, log_ios_app.
    + intros c0. destruct (Ht1 c0) as [Ht1' Hs1], (Ht2 c0) as [Ht2' Hs2].
      split; [intros Ht; apply Ht2', Ht1'; by right|]. intros i ? ?. by rewrite Hs2, Hs1.
Qed.

(** *** Printable text *)

Definition printable (c : Z) : Prop := c ≠ 10 /\ c ≠ 13 /\ c ≠ 8 /\ c ≠ 0x7f.

Lemma putc_ref_printable color c col rows :
  printable c -> 0 <= col < 79 ->
  putc_ref color c (col, rows) = (col + 1, on_bottom <[Z.to_nat col := (c, color)]> rows).
Proof.
  intros (?&?&?&?) ?. unfold putc_ref.
  rewrite !(proj2 (Z.eqb_neq c _)) by done. by rewrite decide_False by lia.
Qed.

Lemma text_ref_printable color s (i : nat) rows :
  Forall printable s -> (i + length s <= 79)%nat ->
  text_ref color s (Z.of_nat i, rows) =
    (Z.of_nat (i + length s), on_bottom (list_inserts i (map (fun c => (c, color)) s)) rows).
Proof.
  intros Hs. revert i rows. induction Hs as [|c s Hc Hs IH]; intros i rows Hl;
    cbn [length map list_inserts] in *.
  - rewrite Nat.add_0_r. cbn. f_equal. symmetry. by apply list_alter_id.
  - unfold text_ref in *. cbn [fold_left]. rewrite putc_ref_printable by (done || lia).
    rewrite Z.add_1_r, <- Nat2Z.inj_succ, IH by lia. f_equal; [lia|].
    unfold on_bottom. rewrite list_alter_alter_eq. apply list_alter_ext; [|done].
    intros r _. simpl. rewrite Nat2Z.id.
    (* inserting the first cell before or after the others *)
    by rewrite list_insert_inserts_lt by lia.
Qed.

Lemma list_inserts_blank color (cells : list (Z * Z)) :
  (length cells <= 80)%nat ->
  list_inserts 0 cells (blank_row color) = cells ++ replicate (80 - length cells) (blank_cell color).
Proof.
  intros Hl. apply list_eq. intros j.
  destruct (decide (j < length cells)%nat).
  - rewrite lookup_app_l by done.
    rewrite list_lookup_inserts by (unfold blank_row; rewrite ?length_replicate; lia).
    by rewrite Nat.sub_0_r.
  - rewrite list_lookup_inserts_ge by lia. rewrite lookup_app_r by lia. unfold blank_row.
    destruct (decide (j < 80)%nat).
    + by rewrite !lookup_replicate_2 by lia.
    + by rewrite !lookup_ge_None_2 by (rewrite length_replicate; lia).
Qed.

Lemma println_ref color s (first : list (Z * Z)) mid :
  length mid = 23%nat -> Forall printable s -> (length s <= 79)%nat ->
  text_ref color (s ++ [10]) (0, first :: mid ++ [blank_row color]) =
    (0, mid ++ [map (fun c => (c, color)) s ++ replicate (80 - length s) (blank_cell color);
                blank_row color]).
Proof.
  intros Hm Hs Hl. unfold text_ref. rewrite fold_left_app.
  pose proof (text_ref_printable color s 0 (first :: mid ++ [blank_row color]) Hs Hl) as Ht.
  unfold text_ref in Ht. change (Z.of_nat 0) with 0 in Ht. rewrite Ht. cbn [fold_left].
  unfold putc_ref, scroll, on_bottom. simpl.
  match goal with |- context [list_alter ?f 23%nat ?l] =>
    change (list_alter f 23%nat l) with (alter f 23%nat l) end.
  rewrite alter_app_r_alt by lia.
  rewrite Hm. simpl. rewrite list_inserts_blank by (rewrite length_map; lia).
  by rewrite length_map, <- app_assoc.
Qed.
End texts.

Section properties.
Context `{Platform}.
Implicit Types (self : VgaBuffer) (h : Hw) (s : list Z).

(** C7: The console is the terminal: writing any bytes to a console whose
    screen is 25 by 80 and whose column is on the row never panics, leaves
    the column and the screen that [putc_ref] gives byte by byte (new line,
    carriage return, backspace, delete, wrap-around, scrolling), keeps the
    colour and the geometry, and changes nothing else but the CRT controller's
    ports. *)
Theorem vga_refines_terminal s self h :
  vga_ok self h ->
  exists self' h' es, vga_write_str s self h = (Ok tt, (self', h')) /\
    (col_pos self', screen h') =
      fold_left (fun st c => putc_ref (cur_color self) c st) s (col_pos self, screen h) /\
    cur_color self' = cur_color self /\ vga_ok self' h' /\
    Forall crtc_port es /\ h' = log_ios es (set_screen (screen h') h).
Proof.
  intros Hok. pose proof (proj1 (wp_run _ _ _ _) (write_str_run s self h Hok))
    as ([] & self' & h' & Hrun & Hst & Hcol & Hok' & (es & Hports & Hes) & _).
  by exists self', h', es.
Qed.

(** The hardware cursor stays on the cell of the next character: every
    byte that moves the column reprograms it, and no text loses it. *)
Theorem vga_cursor_tracks (c0 : crtc) c s self h :
  vga_ok self h -> tracks c0 self h \/ moves_cursor c (col_pos self) = true ->
  exists self' h', vga_write_str (c :: s) self h = (Ok tt, (self', h')) /\
    tracks c0 self' h'.
Proof.
  intros Hok Ht. pose proof (proj1 (wp_run _ _ _ _) (putc_run c self h Hok))
    as ([] & s1 & h1 & Hrun & Hpost).
  destruct (putc_post_spec _ _ _ _ _ Hok Hpost) as (_ & _ & Hok1 & _ & Ht1).
  pose proof (proj1 (wp_run _ _ _ _) (write_str_run s s1 h1 Hok1))
    as ([] & s2 & h2 & Hrun2 & _ & _ & _ & _ & Ht2).
  exists s2, h2. split.
  - unfold vga_write_str, write_bytes. simpl. by rewrite (run_bind _ _ _ _ _ _ _ Hrun).
  - apply Ht2, Ht1. tauto.
Qed.

(** Turning the cursor on and off, on a controller whose registers read back. *)
Definition on_cursor_ports (h h' : Hw) : Prop :=
  exists es, Forall (fun e => match e with Out p _ => p = 0x3D4 \/ p = 0x3D5 | In p _ => p = 0x3D5 end) es /\
    h' = log_ios es h.

Lemma low_lines v m x : 0 <= x < 32 -> Z.land m 31 = 0 -> wrap 8 (Z.lor (Z.land v m) x) mod 32 = x.
Proof.
  intros Hx Hm. unfold wrap. rewrite Z.mod_mod_divide by by exists 8.
  change 32 with (2 ^ 5). rewrite <- Z.land_ones by lia. rewrite Z.land_lor_distr_l, <- Z.land_assoc. change (Z.ones 5) with 31. rewrite Hm, Z.land_0_r.
  change 31 with (Z.ones 5). rewrite Z.land_ones by lia. by apply Z.mod_small.
Qed.

Lemma enable_cursor_run {S} c0 `{!ReadsBack c0} first last (s : S) h :
  0 <= first < 32 -> 0 <= last < 32 ->
  exists h', enable_cursor first last s h = (Ok tt, (s, h')) /\ on_cursor_ports h h' /\
    let c := crtc_after (trace h) c0 in let c' := crtc_after (trace h') c0 in
    cursor_shown c' = true /\ cursor_lines c' = (first, last) /\
    forall i, i ≠ 0x0A -> i ≠ 0x0B -> crtc_reg c' i = crtc_reg c i.
Proof.
  intros Hfirst Hlast. eexists. split; [reflexivity|]. cbn [log_io trace]. split.
  { eexists [_; _; _; _; _; _]. split; [|reflexivity]. repeat (apply Forall_cons; split; [cbn; tauto|]). done. }
  rewrite !reads_back. unfold crtc_after, cursor_shown, cursor_lines.
  cbn -[wrap Z.modulo Z.testbit Z.lor Z.land Z.eqb]. change (0x0B =? 0x0A) with false. change (0x0A =? 0x0B) with false.
  rewrite !Z.eqb_refl. split_and!.
  - apply negb_true_iff. rewrite testbit_wrap, Z.lor_spec, Z.land_spec by lia. rewrite (testbit_uint_high 5 first) by (done || lia).
    by rewrite andb_false_r.
  - by rewrite !low_lines.
  - intros i ? ?. by rewrite !(proj2 (Z.eqb_neq i _)).
Qed.

Lemma disable_cursor_run {S} c0 (s : S) h :
  exists h', disable_cursor s h = (Ok tt, (s, h')) /\ on_cursor_ports h h' /\
    let c := crtc_after (trace h) c0 in let c' := crtc_after (trace h') c0 in
    cursor_shown c' = false /\ forall i, i ≠ 0x0A -> crtc_reg c' i = crtc_reg c i.
Proof.
  eexists. split; [reflexivity|]. split.
  { eexists [_; _]. split; [|reflexivity]. repeat (apply Forall_cons; split; [cbn; tauto|]). done. }
  split; [done|]. intros i ?. cbn -[Z.eqb]. by rewrite (proj2 (Z.eqb_neq i _)).
Qed.

(** C36: The hardware cursor, from the controller's registers: [enable_cursor]
    shows it with the scan lines asked for, text moves it, to the cell of the
    next character, and never changes its shape, and [disable_cursor] hides
    it where it is.  Enabling and disabling touch nothing but the controller. *)
Theorem vga_cursor_life c0 first last c text self h :
  ReadsBack c0 -> vga_ok self h -> 0 <= first < 32 -> 0 <= last < 32 ->
  tracks c0 self h \/ moves_cursor c (col_pos self) = true ->
  exists h1 self2 h2 h3, enable_cursor first last self h = (Ok tt, (self, h1)) /\
    vga_write_str (c :: text) self h1 = (Ok tt, (self2, h2)) /\
    disable_cursor self2 h2 = (Ok tt, (self2, h3)) /\
    on_cursor_ports h h1 /\ on_cursor_ports h2 h3 /\
    let on := crtc_after (trace h2) c0 in let off := crtc_after (trace h3) c0 in
    cursor_shown on = true /\ cursor_lines on = (first, last) /\ cursor_cell on = 1920 + col_pos self2 /\
    cursor_shown off = false /\ cursor_cell off = 1920 + col_pos self2.
Proof.
  intros Hread Hok Hfirst Hlast Ht.
  destruct (enable_cursor_run c0 first last self h Hfirst Hlast) as (h1 & Hrun1 & Hp1 & Hshown & Hlines & Hregs1).
  assert (vga_ok self h1) as Hok1 by (destruct Hp1 as (es & _ & ->); unfold vga_ok; by rewrite log_ios_spec).
  destruct (proj1 (wp_run _ _ _ _) (putc_run c self h1 Hok1)) as ([] & s1 & h1' & Hrunc & Hpost).
  destruct (putc_post_spec _ _ _ _ _ Hok1 Hpost) as (_ & _ & Hok2 & _ & Ht1).
  destruct (proj1 (wp_run _ _ _ _) (write_str_run text s1 h1' Hok2)) as ([] & s2 & h2 & Hrun2 & _ & _ & _ & _ & Ht2).
  destruct (disable_cursor_run c0 s2 h2) as (h3 & Hrun3 & Hp3 & Hhidden & Hregs3).
  destruct (Ht1 c0) as [Htr1 Hs1], (Ht2 c0) as [Htr2 Hs2].
  assert (tracks c0 s2 h2) as Htr.
  { apply Htr2, Htr1. destruct Ht as [Ht|]; [right|by left].
    unfold tracks, cursor_cell in *. by rewrite !Hregs1. }
  exists h1, s2, h2, h3. cbv zeta. split_and!; try done.
  - unfold vga_write_str, write_bytes in *. simpl. by rewrite (run_bind _ _ _ _ _ _ _ Hrunc).
  - unfold cursor_shown in *. by rewrite Hs2, Hs1.
  - unfold cursor_lines in *. by rewrite !Hs2, !Hs1.
  - unfold tracks, cursor_cell in *. by rewrite !Hregs3.
Qed.

(** [println!] of up to 79 printable bytes on a fresh bottom row: the
    text ends up, in the current colour and padded with blanks, on the row
    above a new blank bottom row, the other rows move up by one, and the
    column is 0 again. *)
Theorem vga_println s self h (first : list (Z * Z)) mid :
  vga_ok self h -> col_pos self = 0 ->
  screen h = first :: mid ++ [blank_row (cur_color self)] ->
  Forall printable s -> (length s <= 79)%nat ->
  exists h', vga_write_str (s ++ [10]) self h = (Ok tt, (self, h')) /\
    screen h' = mid ++
      [map (fun c => (c, cur_color self)) s
         ++ replicate (80 - length s) (blank_cell (cur_color self));
       blank_row (cur_color self)].
Proof.
  intros Hok H0 Hscr Hs Hl. pose proof Hok as [_ [Hlen _]].
  assert (length mid = 23%nat) as Hm.
  { rewrite Hscr in Hlen. simpl in Hlen. rewrite length_app in Hlen. simpl in Hlen. lia. }
  pose proof (proj1 (wp_run _ _ _ _) (write_str_run (s ++ [10]) self h Hok))
    as ([] & self' & h' & Hrun & Hst & Hcol & _).
  rewrite H0, Hscr, println_ref in Hst by done. injection Hst as Hc Hsc.
  exists h'. split; [|done]. rewrite Hrun. do 3 f_equal.
  destruct self, self'; simpl in *; congruence.
Qed.

Lemma vga_clear_blanks self h :
  rows_ok (screen h) ->
  clear self h = (Ok tt, (self, set_screen (replicate 25 (blank_row (cur_color self))) h)).
Proof.
  intros [Hl _]. change (replicate 25 (blank_row (cur_color self)))
    with (replicate 25%nat (blank_row (cur_color self))). rewrite <- Hl.
  unfold clear. erewrite run_bind; [|done]. unfold modify_hw. do 3 f_equal.
  change (Z.to_nat BUFFER_WIDTH) with 80%nat. clear Hl.
  induction (screen h) as [|r rows IH]; simpl; [done|]. by rewrite <- IH.
Qed.

Lemma color_code_nibbles f b :
  exists c, color_code_new f b = Ok c /\ c ∈u 8 /\
    c mod 16 = color_as_u8 f /\ c / 16 = color_as_u8 b.
Proof. destruct f, b; eexists; split_and!; (reflexivity || by vm_compute). Qed.

Lemma vga_new_value : vga_new = Ok (MkVgaBuffer 0 0x0f).
Proof. done. Qed.
End properties.

(** A blank screen, with the console of [VgaBuffer::new]. *)
Definition blank_screen : list (list (Z * Z)) := replicate 25 (blank_row 0x0f).
Definition example_hw : Hw := MkHw ∅ blank_screen [] 8 0 0 None false.
Definition example_vga : VgaBuffer := MkVgaBuffer 0 0x0f.

Lemma vga_refines_terminal_witness :
  exists self' h', @vga_write_str (constant_platform true 0) [72; 105; 8; 10] example_vga example_hw
      = (Ok tt, (self', h')) /\ (screen h' !! 23%nat ≫= fun r => r !! 0%nat) = Some (72, 0x0f).
Proof.
  destruct (@vga_refines_terminal (constant_platform true 0) [72; 105; 8; 10] example_vga example_hw)
    as (self' & h' & es & Hrun & Hst & _).
  - split; [split; [vm_compute; discriminate|reflexivity]|].
    split; [reflexivity|]. repeat (constructor; [reflexivity|]). constructor.
  - exists self', h'. split; [exact Hrun|].
    change (screen h') with (snd (col_pos self', screen h')). rewrite Hst. reflexivity.
Defined.

Lemma example_vga_ok : vga_ok example_vga example_hw.
Proof.
  split; [split; [vm_compute; discriminate|reflexivity]|].
  split; [reflexivity|]. repeat (constructor; [reflexivity|]). constructor.
Qed.

Lemma vga_cursor_tracks_witness :
  exists self' h', @vga_write_str (constant_platform true 0) [72; 0x7f] example_vga example_hw
      = (Ok tt, (self', h')) /\ tracks (MkCrtc 0 (fun _ => 0)) self' h'.
Proof.
  apply (@vga_cursor_tracks (constant_platform true 0) (MkCrtc 0 (fun _ => 0)) 72 [0x7f] example_vga example_hw).
  - exact example_vga_ok.
  - right. reflexivity.
Defined.

(** A controller that starts with all registers 0 and reads back. *)
Definition dark : crtc := MkCrtc 0 (fun _ => 0).

Lemma crtc_bytes tr i : crtc_reg (crtc_after tr dark) i ∈u 8.
Proof.
  revert i. induction tr as [|e tr IH]; intros i; [by split|].
  assert (forall e c, (forall i, crtc_reg c i ∈u 8) -> crtc_reg (crtc_event e c) i ∈u 8) as Hev; [|by apply Hev].
  intros [|p v] c Hc; cbn [crtc_event]; [apply Hc|].
  repeat case_match; cbn [crtc_reg]; try apply Hc. case_match; [by apply uint_wrap|apply Hc].
Qed.

Definition crtc_platform : Platform :=
  {| overflow_checks := true; spin_fuel := 10;
     port_in := fun tr _ => let c := crtc_after tr dark in crtc_reg c (crtc_index c);
     port_in_byte := fun tr _ => crtc_bytes tr _ |}.

Lemma crtc_platform_reads : @ReadsBack crtc_platform dark.
Proof. by split. Qed.

(** A block cursor, a letter, the cursor off again. *)
Lemma vga_cursor_life_witness :
  exists h1 self2 h2 h3, @enable_cursor crtc_platform _ 0 15 example_vga example_hw = (Ok tt, (example_vga, h1)) /\
    @vga_write_str crtc_platform [72] example_vga h1 = (Ok tt, (self2, h2)) /\
    @disable_cursor _ self2 h2 = (Ok tt, (self2, h3)) /\
    cursor_lines (crtc_after (trace h2) dark) = (0, 15) /\ cursor_shown (crtc_after (trace h3) dark) = false.
Proof.
  destruct (@vga_cursor_life crtc_platform dark 0 15 72 [] example_vga example_hw)
    as (h1 & self2 & h2 & h3 & H1 & H2 & H3 & _ & _ & _ & Hl & _ & Hs & _).
  - exact crtc_platform_reads.
  - exact example_vga_ok.
  - lia.
  - lia.
  - right. reflexivity.
  - exists h1, self2, h2, h3. split; [exact H1|]. split; [exact H2|]. split; [exact H3|]. split; [exact Hl|exact Hs].
Defined.

Lemma vga_println_witness :
  exists h', @vga_write_str (constant_platform true 0) ([72; 105] ++ [10]) example_vga example_hw
      = (Ok tt, (example_vga, h')) /\
    screen h' !! 23%nat = Some ([(72, 0x0f); (105, 0x0f)] ++ replicate 78 (blank_cell 0x0f)).
Proof.
  destruct (@vga_println (constant_platform true 0) [72; 105] example_vga example_hw
    (blank_row 0x0f) (replicate 23 (blank_row 0x0f))) as (h' & Hrun & Hs).
  - exact example_vga_ok.
  - reflexivity.
  - reflexivity.
  - repeat constructor; discriminate.
  - simpl. lia.
  - exists h'. split; [exact Hrun|]. rewrite Hs. reflexivity.
Defined.
