(* ===== verification/Preempt.v ===== *)
(** * Interrupts inside a print

    Interrupts are enabled while [main] prints its report, and the keyboard
    handler prints on the same console: [get_mut] hands out a second reference
    to it.  [putc_char] is the last arm of [VgaBuffer::putc] ([io/vga.rs]) with
    the points at which an interrupt may run made explicit; without interrupts
    it is [putc].  The race theorem shows that the column can leave the row.
    [putc_src] is all of [putc] with every use of a field an access of its own,
    in source order: what [Steps] and [Interleave] lay out. *)
From Stdlib Require Import ZArith Lia.
From stdpp Require Import base tactics numbers list gmap.
From S2P Require Import Prelude.
From S2P Require Import Machine.
From S2P Require Import Vga.

(** What runs at each interrupt point: before the arm, after the cell is
    written, after the column was tested, and before the cursor is moved. *)
Record windows := MkWindows {
  at_start : M VgaBuffer unit;
  after_write : M VgaBuffer unit;
  after_test : M VgaBuffer unit;
  before_cursor : M VgaBuffer unit
}.

Definition quiet : windows := MkWindows (mret tt) (mret tt) (mret tt) (mret tt).

Section code.
Context `{Platform}.

(** The arm for ordinary bytes: every use of [self.col_pos] reads it anew. *)
Definition putc_char (w : windows) (c : Z) : M VgaBuffer unit :=
  _ ← at_start w;
  self ← get;
  _ ← write_cell (BUFFER_HEIGHT - 1) (col_pos self) (MkScreenChar c (cur_color self));
  _ ← after_write w;
  self ← get;
  if decide (col_pos self = BUFFER_WIDTH - 1) then
    _ ← after_test w;
    new_line
  else
    _ ← after_test w;
    self ← get;
    p ← lift (add 32 (col_pos self) 1);
    _ ← put (MkVgaBuffer p (cur_color self));
    _ ← before_cursor w;
    self ← get;
    update_cursor (BUFFER_HEIGHT - 1) (col_pos self).

(** [self.col_pos = p]. *)
Definition set_col (p : Z) : M VgaBuffer unit :=
  self ← get; put (MkVgaBuffer p (cur_color self)).

(** [putc] in source order: every use of [self.col_pos] and [self.cur_color]
    reads it anew. *)
Definition putc_src (c : Z) : M VgaBuffer unit :=
  if c =? 10 then new_line
  else if c =? 13 then
    _ ← set_col 0;
    self ← get;
    update_cursor (BUFFER_HEIGHT - 1) (col_pos self)
  else if c =? 8 then
    self ← get;
    if decide (col_pos self > 0) then
      self ← get;
      p ← lift (sub 32 (col_pos self) 1);
      self ← get;
      _ ← write_cell (BUFFER_HEIGHT - 1) p (MkScreenChar 32 (cur_color self));
      self ← get;
      p ← lift (sub 32 (col_pos self) 1);
      _ ← set_col p;
      self ← get;
      update_cursor (BUFFER_HEIGHT - 1) (col_pos self)
    else mret tt
  else if c =? 0x7f then
    self ← get;
    p ← lift (add 32 (col_pos self) 1);
    self ← get;
    _ ← row_copy_within (BUFFER_HEIGHT - 1) p BUFFER_WIDTH (col_pos self);
    self ← get;
    write_cell (BUFFER_HEIGHT - 1) (BUFFER_WIDTH - 1) (MkScreenChar 32 (cur_color self))
  else
    self ← get;
    let col := col_pos self in
    self ← get;
    _ ← write_cell (BUFFER_HEIGHT - 1) col (MkScreenChar c (cur_color self));
    self ← get;
    if decide (col_pos self = BUFFER_WIDTH - 1) then new_line
    else
      self ← get;
      p ← lift (add 32 (col_pos self) 1);
      _ ← set_col p;
      self ← get;
      update_cursor (BUFFER_HEIGHT - 1) (col_pos self).
End code.

(** What a handler may do to the console: [keeps] leaves it usable, and
    [keeps_room] besides does not move it to the last column. *)
Definition keeps (m : M VgaBuffer unit) : Prop :=
  forall self h, vga_ok self h -> wp m (fun _ self' h' => vga_ok self' h') self h.

Definition keeps_room (m : M VgaBuffer unit) : Prop :=
  forall self h, vga_ok self h ->
    wp m (fun _ self' h' => vga_ok self' h' /\ (col_pos self < 79 -> col_pos self' < 79)) self h.

(** The bytes that take the column back on to the row: backspace, new line,
    carriage return. *)
Definition recovers (c : Z) : Prop := c = 8 \/ c = 10 \/ c = 13.

#[export] Instance recovers_dec c : Decision (recovers c).
Proof. unfold recovers. apply _. Defined.

Section lemmas.
Context `{Platform}.
Implicit Types (self : VgaBuffer) (h : Hw) (c k : Z).

Lemma write_cell_state {S} row col ch (s : S) h r s' h' :
  write_cell row col ch s h = (r, (s', h')) -> s' = s.
Proof. unfold write_cell. repeat case_match; by intros [= _ <- _]. Qed.

Lemma row_copy_state {S} row st en dest (s : S) h r s' h' :
  row_copy_within row st en dest s h = (r, (s', h')) -> s' = s.
Proof.
  unfold row_copy_within, hw, mbind, M_bind, lift, modify_hw.
  repeat case_match; intros [= _ <- _]; by simplify_eq.
Qed.

(** Without interrupts, reading a field anew makes no difference. *)
Lemma putc_src_quiet c self h : putc_src c self h = putc c self h.
Proof.
  unfold putc_src, putc, set_col. unfold mbind, M_bind, get, put, lift, mret, M_ret.
  destruct (c =? 10); [done|]. destruct (c =? 13); [done|]. destruct (c =? 8).
  { case_decide; [|done]. destruct (sub 32 (col_pos self) 1) as [p| | | |] eqn:Hp; try done.
    destruct (write_cell _ p _ self h) as [[[]| | | |] [s' h']] eqn:Hw; try done.
    apply write_cell_state in Hw as ->. by rewrite Hp. }
  destruct (c =? 127).
  { destruct (add 32 (col_pos self) 1) as [p| | | |]; try done.
    destruct (row_copy_within _ p _ _ self h) as [[[]| | | |] [s' h']] eqn:Hw; try done.
    by apply row_copy_state in Hw as ->. }
  destruct (write_cell _ _ _ self h) as [[[]| | | |] [s' h']] eqn:Hw; try done.
  apply write_cell_state in Hw as ->. case_decide; [done|].
  by destruct (add 32 (col_pos self) 1).
Qed.

Lemma putc_ordinary self h c :
  printable c ->
  putc c self h =
    (_ ← write_cell (BUFFER_HEIGHT - 1) (col_pos self) (MkScreenChar c (cur_color self));
     if decide (col_pos self = BUFFER_WIDTH - 1) then new_line
     else
       p ← lift (add 32 (col_pos self) 1);
       _ ← put (MkVgaBuffer p (cur_color self));
       update_cursor (BUFFER_HEIGHT - 1) p) self h.
Proof.
  intros (?&?&?&?). unfold putc. rewrite (run_bind get _ self h self self h eq_refl).
  by rewrite !(proj2 (Z.eqb_neq c _)) by done.
Qed.

(** A column outside the row: nothing can be written there. *)
Lemma write_off_row {S} col ch (s : S) h :
  rows_ok (screen h) -> 80 <= col -> write_cell (BUFFER_HEIGHT - 1) col ch s h = (Panic OutOfBounds, (s, h)).
Proof.
  intros Hok Hc. unfold write_cell. destruct (rows_ok_bottom _ Hok) as (r & Hr & Hlen).
  change (Z.to_nat (BUFFER_HEIGHT - 1)) with 24%nat. rewrite Hr, decide_False by lia. done.
Qed.

Lemma keeps_ret : keeps (mret tt).
Proof. intros self h Hok. by wp_simp. Qed.

Lemma keeps_room_ret : keeps_room (mret tt).
Proof. intros self h Hok. by wp_simp. Qed.

Lemma keeps_putc c : keeps (putc c).
Proof.
  intros self h Hok. eapply wp_mono; [by apply putc_run|].
  intros [] s' h' Hpost. by destruct (putc_post_spec _ _ _ _ _ Hok Hpost) as (_ & _ & ? & _).
Qed.

(** The end of the arm, from any usable console with room on the row. *)
Lemma putc_char_advance w self h :
  vga_ok self h -> col_pos self < 79 -> keeps (before_cursor w) ->
  wp (p ← lift (add 32 (col_pos self) 1);
      _ ← put (MkVgaBuffer p (cur_color self));
      _ ← before_cursor w;
      self ← get;
      update_cursor (BUFFER_HEIGHT - 1) (col_pos self)) (fun _ self' h' => vga_ok self' h') self h.
Proof.
  intros [Hcol Hok] Hlt Hw. unfold col_ok in Hcol.
  wp_ok add_ok; [split; [lia|change (2 ^ 32) with 4294967296; lia]|]. wp_simp.
  eapply wp_mono; [apply Hw; split; [unfold col_ok; simpl; lia|done]|].
  intros [] s' h' [Hc' Hok']. wp_simp.
  apply wp_run. do 3 eexists. split; [by apply update_cursor_run|].
  split; [done|]. by rewrite log_ios_spec.
Qed.

Lemma update_cursor_80 {S} (s : S) h :
  exists es, update_cursor (BUFFER_HEIGHT - 1) 80 s h = (Ok tt, (s, log_ios es h)).
Proof. exists [Out 0x3D4 0x0F; Out 0x3D5 (2000 mod 256); Out 0x3D4 0x0E; Out 0x3D5 (2000 / 256)]. done. Qed.

(** With the column at 80, off the row, three bytes bring it back; all others
    panic and change nothing. *)
Lemma putc_off_row c self h :
  rows_ok (screen h) -> col_pos self = 80 -> ~ recovers c -> putc c self h = (Panic OutOfBounds, (self, h)).
Proof.
  intros Hok Hcol Hc. unfold recovers in Hc. unfold putc. rewrite (run_bind get _ self h self self h eq_refl), Hcol.
  destruct (Z.eqb_spec c 10); [lia|]. destruct (Z.eqb_spec c 13); [lia|]. destruct (Z.eqb_spec c 8); [lia|].
  destruct (c =? 127).
  - run_lift add_ok by (split; [lia|reflexivity]). apply run_bind_panic.
    unfold row_copy_within, hw. destruct (rows_ok_bottom _ Hok) as (r & Hr & Hlen).
    change (Z.to_nat (BUFFER_HEIGHT - 1)) with 24%nat.
    eapply run_bind_eq; [reflexivity|]. cbv beta. rewrite Hr. apply run_bind_panic.
    unfold lift, slice_copy_within. by rewrite decide_False by (unfold BUFFER_WIDTH; lia).
  - apply run_bind_panic. by apply write_off_row.
Qed.

Lemma crtc_cursor col : Forall crtc_port (cursor_events col).
Proof. repeat constructor; cbn; lia. Qed.

Lemma putc_recovers c self h :
  rows_ok (screen h) -> col_pos self = 80 -> recovers c ->
  exists self' es rows, putc c self h = (Ok tt, (self', log_ios es (set_screen rows h))) /\
    col_ok (col_pos self') /\ rows_ok rows /\ cur_color self' = cur_color self /\ Forall crtc_port es.
Proof.
  intros Hok Hcol Hc.
  enough (wp (putc c) (fun _ self' h' => exists es rows, h' = log_ios es (set_screen rows h) /\
    col_ok (col_pos self') /\ rows_ok rows /\ cur_color self' = cur_color self /\ Forall crtc_port es) self h) as Hwp.
  { apply wp_run in Hwp as ([] & self' & h' & Hrun & es & rows & -> & ?). eauto. }
  unfold putc. wp_simp. rewrite Hcol. destruct Hc as [-> | [-> | ->]]; cbn.
  - wp_ok sub_ok; [split; [lia|reflexivity]|]. wp_simp. apply wp_bottom_write; [done|lia|].
    wp_ok sub_ok; [split; [lia|reflexivity]|]. wp_simp. apply wp_move_cursor; [unfold col_ok; lia|].
    eexists _, _. split_and!; [reflexivity|unfold col_ok; cbn; lia| |done|apply crtc_cursor].
    apply rows_ok_on_bottom; [done|]. intros. by rewrite length_insert.
  - eapply wp_mono; [by apply new_line_run|]. intros [] s' h' [-> ->].
    eexists _, _. split_and!; [reflexivity|by unfold col_ok|by apply rows_ok_scroll|done|apply crtc_cursor].
  - wp_simp. apply wp_move_cursor; [by unfold col_ok|].
    eexists _, (screen h). split_and!; [by rewrite set_screen_same|by unfold col_ok|done|done|apply crtc_cursor].
Qed.
End lemmas.

(** ** Properties *)
Section properties.
Context `{Platform}.
Implicit Types (self : VgaBuffer) (h : Hw) (c k : Z).

(** The arm with its interrupt points is the code: without interrupts it
    is [putc] on every byte the arm is for. *)
Theorem putc_char_quiet c self h : printable c -> putc_char quiet c self h = putc c self h.
Proof.
  intros Hc. rewrite putc_ordinary by done. unfold putc_char; cbn [at_start after_write after_test before_cursor quiet].
  unfold mbind, M_bind, get, put, lift, mret, M_ret.
  destruct (write_cell _ _ _ self h) as [[[]| | | |] [s' h']] eqn:Hw; try done.
  apply write_cell_state in Hw as ->. case_decide; [done|].
  destruct (add 32 (col_pos self) 1); done.
Qed.

(** Where an interrupt may print: handlers that leave the console usable
    may run before the arm, between the write and the test and before the
    cursor is moved without harm; only between the test of the column and its
    increment must they also stay off the last column.  Then the arm never
    panics and leaves a usable console. *)
Theorem putc_interrupts_safe w c self h :
  vga_ok self h -> keeps (at_start w) -> keeps (after_write w) -> keeps_room (after_test w) ->
  keeps (before_cursor w) ->
  exists self' h', putc_char w c self h = (Ok tt, (self', h')) /\ vga_ok self' h'.
Proof.
  intros Hok Hs Hw Ht Hb.
  enough (wp (putc_char w c) (fun _ self' h' => vga_ok self' h') self h) as Hwp.
  { apply wp_run in Hwp as ([] & self' & h' & ? & ?). eauto. }
  unfold putc_char. apply wp_bind. eapply wp_mono; [by apply Hs|]. intros [] s1 h1 [Hc1 Hok1]. wp_simp.
  apply wp_bottom_write; [done|exact Hc1|]. wp_simp. eapply wp_mono.
  { apply Hw. split; [done|]. cbn. apply rows_ok_on_bottom; [done|]. intros. by rewrite length_insert. }
  intros [] s2 h2 Hok2. wp_simp. unfold BUFFER_WIDTH. case_decide as Hcol; wp_simp.
  - eapply wp_mono; [by apply Ht|]. intros [] s3 h3 [[Hc3 Hok3] _].
    eapply wp_mono; [by apply new_line_run|]. intros [] s4 h4 [-> ->].
    split; [unfold col_ok; simpl; lia|]. rewrite log_ios_spec. by apply rows_ok_scroll.
  - eapply wp_mono; [by apply Ht|]. intros [] s3 h3 [Hok3 Hroom]. wp_simp.
    pose proof (putc_char_advance w s3 h3 Hok3) as Hend. unfold keeps in *.
    destruct Hok2 as [Hc2 _]. unfold col_ok in Hc2.
    specialize (Hend ltac:(lia) Hb). by autorewrite with wp in Hend.
Qed.

(** C40: The race: with the column two cells before the end of the row, a key
    press between the test of the column and its increment makes both prints
    increment it, so the column is 80, off the row; the next ordinary byte, by
    [main] or by the keyboard handler, panics with an index out of bounds. *)
Theorem putc_race_panics c k d self h :
  printable c -> printable k -> printable d -> rows_ok (screen h) -> col_pos self = 78 ->
  let race := MkWindows (mret tt) (mret tt) (putc k) (mret tt) in
  exists h', putc_char race c self h = (Ok tt, (MkVgaBuffer 80 (cur_color self), h')) /\
    rows_ok (screen h') /\ exists h2,
    putc d (MkVgaBuffer 80 (cur_color self)) h' = (Panic OutOfBounds, (MkVgaBuffer 80 (cur_color self), h2)).
Proof.
  intros Hc Hk Hd Hok H78 race.
  assert (wp (putc_char race c) (fun _ s' h' => s' = MkVgaBuffer 80 (cur_color self) /\ rows_ok (screen h'))
    self h) as Hwp.
  { unfold putc_char; cbn [at_start after_write after_test before_cursor race]. wp_simp.
    apply wp_bottom_write; [done|lia|]. wp_simp. rewrite H78, decide_False by done. wp_simp.
    set (h1 := set_screen _ h). assert (rows_ok (screen h1)) as Hok1.
    { cbn. apply rows_ok_on_bottom; [done|]. intros. by rewrite length_insert. }
    eapply wp_mono; [apply putc_run; split; [unfold col_ok; lia|done]|].
    intros [] s2 h2 Hpost.
    assert (vga_ok self h1) as Hv by (split; [unfold col_ok; lia|done]).
    destruct (putc_post_spec _ _ _ _ _ Hv Hpost) as (Hst & Hcol & [_ Hok2] & _).
    rewrite H78, putc_ref_printable in Hst by (done || lia). injection Hst as Hc2 Hs2.
    wp_simp. rewrite Hc2. eapply wp_lift_ok; [apply add_ok; split; [lia|done]|]. wp_simp.
    destruct (update_cursor_80 (MkVgaBuffer 80 (cur_color s2)) h2) as (es & Hrun).
    apply wp_run. do 3 eexists. split; [exact Hrun|]. split; [by rewrite Hcol|].
    rewrite log_ios_spec. exact Hok2. }
  apply wp_run in Hwp as ([] & s' & h' & Hrun & -> & Hok'). exists h'. split_and!; [done|done|].
  exists h'. rewrite putc_ordinary by done. apply run_bind_panic. by apply write_off_row.
Qed.
End properties.

Lemma putc_char_quiet_witness :
  @putc_char (constant_platform true 0) quiet 65 example_vga Vga.example_hw =
    @putc (constant_platform true 0) 65 example_vga Vga.example_hw.
Proof. apply (@putc_char_quiet (constant_platform true 0)). repeat split; discriminate. Defined.

(** Three keys around the write of a character near the end of the row. *)
Lemma putc_interrupts_safe_witness :
  exists self' h', @putc_char (constant_platform true 0)
      (MkWindows (@putc (constant_platform true 0) 66) (@putc (constant_platform true 0) 67) (mret tt)
         (@putc (constant_platform true 0) 10)) 65
      (MkVgaBuffer 78 0x0f) Vga.example_hw = (Ok tt, (self', h')) /\ vga_ok self' h'.
Proof.
  apply (@putc_interrupts_safe (constant_platform true 0)).
  - split; [by vm_compute|exact (proj2 example_vga_ok)].
  - apply keeps_putc.
  - apply keeps_putc.
  - apply keeps_room_ret.
  - apply keeps_putc.
Defined.

Lemma putc_race_panics_witness :
  exists h', @putc_char (constant_platform true 0)
      (MkWindows (mret tt) (mret tt) (@putc (constant_platform true 0) 66) (mret tt)) 65
      (MkVgaBuffer 78 0x0f) Vga.example_hw = (Ok tt, (MkVgaBuffer 80 0x0f, h')).
Proof.
  destruct (@putc_race_panics (constant_platform true 0) 65 66 67 (MkVgaBuffer 78 0x0f) Vga.example_hw)
    as (h' & Hrun & _).
  - repeat split; discriminate.
  - repeat split; discriminate.
  - repeat split; discriminate.
  - exact (proj2 example_vga_ok).
  - reflexivity.
  - exists h'. exact Hrun.
Defined.
