(* ===== verification/Singleton.v ===== *)
(** * Lazily initialised globals: [utils/singleton.rs]

    The first half is the code as one CPU runs it: [init], [get_mut] and
    [drop], with the singleton a field of the global state (a [Lens]) and
    [T::default()] a computation on the whole state.  The second half is the
    protocol as concurrent contexts see it: one step per atomic access of
    [init], in a sequentially consistent interleaving, with a ghost counter of
    the runs of [T::default()]. *)
From Stdlib Require Import ZArith Lia.
From stdpp Require Import base tactics numbers list gmap relations.
From S2P Require Import Prelude.
From S2P Require Import Machine.

Definition SINGLE_UNINIT : Z := 0.
Definition SINGLE_INITING : Z := 1.
Definition SINGLE_INITED : Z := 2.

(** [inited] is the atomic byte, [data] the [MaybeUninit<T>]. *)
Record Singleton (T : Type) := MkSingleton { inited : Z; data : option T }.
Arguments MkSingleton {T} _ _.
Arguments inited {T} _.
Arguments data {T} _.

Definition UNINIT {T} : Singleton T := MkSingleton SINGLE_UNINIT None.

(** [Singleton::default]. *)
Definition singleton_default {T} : Singleton T := MkSingleton SINGLE_UNINIT None.

Lemma singleton_default_UNINIT T : singleton_default (T := T) = UNINIT.
Proof. done. Qed.

(** ** The code, on one CPU *)
Section code.
Context `{Platform} {G T : Type} (l : Lens G (Singleton T)) (default : M G T).

(** [compare_exchange]: [inl] is [Ok], [inr] is [Err], with the old value. *)
Definition compare_exchange (current new : Z) : M G (Z + Z) :=
  g ← get;
  let s := view l g in
  if inited s =? current
  then _ ← put (over l (MkSingleton new (data s)) g); mret (inl (inited s))
  else mret (inr (inited s)).

Definition load : M G Z := g ← get; mret (inited (view l g)).

Definition store (v : Z) : M G unit :=
  g ← get; put (over l (MkSingleton v (data (view l g))) g).

Definition write_data (t : T) : M G unit :=
  g ← get; put (over l (MkSingleton (inited (view l g)) (Some t)) g).

Definition initialise : M G unit :=
  t ← default;
  _ ← write_data t;
  store SINGLE_INITED.

Fixpoint init_loop (fuel : nat) : M G unit :=
  match fuel with
  | O => lift Hang
  | S fuel' =>
      stat ← compare_exchange SINGLE_UNINIT SINGLE_INITING;
      match stat with
      | inl _ => _ ← initialise; init_loop fuel'
      | inr v =>
          if v =? SINGLE_INITED then mret tt
          else if v =? SINGLE_UNINIT then init_loop fuel'
          else if v =? SINGLE_INITING then
            _ ← spin_until spin_fuel (v ← load; mret (negb (v =? SINGLE_INITING)));
            init_loop fuel'
          else _ ← initialise; init_loop fuel'
      end
  end.

Definition init : M G unit :=
  _ ← init_loop spin_fuel;
  v ← load;
  lift (assert (v =? SINGLE_INITED)).

(** [m] on the initialised data behind the cell. *)
Definition with_data {A} (m : M T A) : M G A := fun g h =>
  let s := view l g in
  match data s with
  | Some t =>
      let '(r, (t', h')) := m t h in
      (r, (over l (MkSingleton (inited s) (Some t')) g, h'))
  | None => (Undefined, (g, h))
  end.

(** The method call [SINGLETON.get_mut().m(..)]; [get] and [deref] are the
    same on the model's state. *)
Definition get_mut {A} (m : M T A) : M G A :=
  _ ← init; with_data m.

(** [Drop::drop], with [drop_value] the destructor of [T]. *)
Definition drop (drop_value : T -> M G unit) : M G unit :=
  v ← load;
  if negb (v =? SINGLE_INITED) then
    g ← get;
    match data (view l g) with
    | Some t => drop_value t
    | None => lift Undefined
    end
  else mret tt.
End code.

(** ** The protocol between concurrent contexts *)

(** Where a context is in [init]: at the compare-exchange, in the inner spin
    loop, before [T::default()] and its write, before the final store, at the
    assertion, or past [init] with access to the data. *)
Inductive pc := AtCas | AtSpin | AtDefault | AtStore | AtCheck | AtUse | Crashed.

#[export] Instance pc_eq_dec : EqDecision pc.
Proof. solve_decision. Defined.

Record shared (T : Type) := MkShared {
  s_inited : Z;
  s_data : option T;
  s_runs : nat                 (** ghost: evaluations of [T::default()] *)
}.
Arguments MkShared {T} _ _ _.
Arguments s_inited {T} _.
Arguments s_data {T} _.
Arguments s_runs {T} _.

(** One atomic access by a context at [p]; [v] is what [T::default()] would
    return if this is the access that evaluates it. *)
Definition thread_step {T} (v : T) (p : pc) (sh : shared T) : pc * shared T :=
  match p with
  | AtCas =>
      if s_inited sh =? SINGLE_UNINIT
      then (AtDefault, MkShared SINGLE_INITING (s_data sh) (s_runs sh))
      else if s_inited sh =? SINGLE_INITED then (AtCheck, sh)
      else if s_inited sh =? SINGLE_INITING then (AtSpin, sh)
      else (AtDefault, sh)
  | AtSpin => if s_inited sh =? SINGLE_INITING then (AtSpin, sh) else (AtCas, sh)
  | AtDefault => (AtStore, MkShared (s_inited sh) (Some v) (S (s_runs sh)))
  | AtStore => (AtCas, MkShared SINGLE_INITED (s_data sh) (s_runs sh))
  | AtCheck => if s_inited sh =? SINGLE_INITED then (AtUse, sh) else (Crashed, sh)
  | AtUse => (AtUse, sh)
  | Crashed => (Crashed, sh)
  end.

Record system (T : Type) := MkSystem { pcs : list pc; sh : shared T }.
Arguments MkSystem {T} _ _.
Arguments pcs {T} _.
Arguments sh {T} _.

(** The [k]-th context takes its next access. *)
Definition sys_step {T} (v : T) (k : nat) (st : system T) : system T :=
  match pcs st !! k with
  | Some p => let '(p', sh') := thread_step v p (sh st) in MkSystem (<[k := p']> (pcs st)) sh'
  | None => st
  end.

Definition step {T} (st st' : system T) : Prop := exists v k, st' = sys_step v k st.

(** [n] contexts that all call [init] on a fresh singleton. *)
Definition start {T} (n : nat) : system T :=
  MkSystem (replicate n AtCas) (MkShared SINGLE_UNINIT None 0).

Definition reachable {T} (n : nat) (st : system T) : Prop := rtc step (start n) st.

(** ** Lemmas: one CPU *)
Section sequential.
Context `{Platform} {G T : Type} (l : Lens G (Singleton T)) `{!LensLaws l} (default : M G T).
Implicit Types (g : G) (h : Hw).

Lemma compare_exchange_run current new g h :
  compare_exchange l current new g h =
    if inited (view l g) =? current
    then (Ok (inl (inited (view l g))), (over l (MkSingleton new (data (view l g))) g, h))
    else (Ok (inr (inited (view l g))), (g, h)).
Proof using. unfold compare_exchange, get, mbind, M_bind. by case_match. Qed.

Lemma load_run g h : load l g h = (Ok (inited (view l g)), (g, h)).
Proof using. done. Qed.

Lemma init_loop_inited fuel g h :
  inited (view l g) = SINGLE_INITED -> init_loop l default (S fuel) g h = (Ok tt, (g, h)).
Proof using.
  intros Hi. cbn [init_loop].
  eapply run_bind_eq; [rewrite compare_exchange_run, Hi; reflexivity|done].
Qed.

Lemma init_inited g h :
  inited (view l g) = SINGLE_INITED -> (0 < spin_fuel)%nat ->
  init l default g h = (Ok tt, (g, h)).
Proof using.
  intros Hi Hf. unfold init. destruct spin_fuel as [|fuel]; [lia|].
  run_step init_loop_inited; [done|]. run_step load_run. by rewrite Hi.
Qed.

Lemma initialise_run t g g' h h' s :
  default g h = (Ok t, (g', h')) -> view l g' = MkSingleton SINGLE_INITING s ->
  initialise l default g h = (Ok tt, (over l (MkSingleton SINGLE_INITED (Some t)) g', h')).
Proof using LensLaws0.
  intros Hd Hs. unfold initialise. run_step Hd.
  unfold write_data, store, get, put, mbind, M_bind. by rewrite view_over, over_over.
Qed.

Lemma get_mut_inited {A} (m : M T A) t g h :
  view l g = MkSingleton SINGLE_INITED (Some t) -> (0 < spin_fuel)%nat ->
  get_mut l default m g h =
    let '(r, (t', h')) := m t h in
    (r, (over l (MkSingleton SINGLE_INITED (Some t')) g, h')).
Proof using.
  intros Hv Hf. unfold get_mut.
  erewrite run_bind by (apply init_inited; [by rewrite Hv|done]).
  unfold with_data. by rewrite Hv.
Qed.

(** First use: [T::default()] runs on the state marked [INITING], and its
    value is published before the method runs. *)
Lemma get_mut_first {A} (m : M T A) t s g g' h h' :
  view l g = UNINIT -> (1 < spin_fuel)%nat ->
  default (over l (MkSingleton SINGLE_INITING None) g) h = (Ok t, (g', h')) ->
  view l g' = MkSingleton SINGLE_INITING s ->
  get_mut l default m g h =
    let '(r, (t', h2)) := m t h' in
    (r, (over l (MkSingleton SINGLE_INITED (Some t')) g', h2)).
Proof using LensLaws0.
  intros Hv Hf Hd Hs. unfold get_mut.
  assert (init l default g h = (Ok tt, (over l (MkSingleton SINGLE_INITED (Some t)) g', h'))) as Hi.
  { unfold init. destruct spin_fuel as [|[|fuel]]; [lia|lia|].
    eapply run_bind_eq.
    - cbn [init_loop]. eapply run_bind_eq; [rewrite compare_exchange_run, Hv; reflexivity|].
      eapply run_bind_eq; [by eapply initialise_run|].
      apply init_loop_inited. by rewrite view_over.
    - run_step load_run. by rewrite view_over. }
  erewrite run_bind by exact Hi. unfold with_data. rewrite view_over; cbn.
  destruct (m t h') as [r [t' h2]]. by rewrite over_over.
Qed.

(** A call made while [T::default()] of the same singleton is running (from
    [default] itself, or from an interrupt handler on the same CPU) spins. *)
Lemma spin_on_initing fuel g h :
  inited (view l g) = SINGLE_INITING ->
  spin_until fuel (v ← load l; mret (negb (v =? SINGLE_INITING))) g h = (Hang, (g, h)).
Proof using.
  intros Hi. induction fuel as [|fuel IH]; [done|]. cbn [spin_until].
  eapply run_bind_eq; [run_step load_run; rewrite Hi; reflexivity|exact IH].
Qed.

Lemma run_bind_hang {S A B} (m : M S A) (k : A -> M S B) s h sh' :
  m s h = (Hang, sh') -> (m ≫= k) s h = (Hang, sh').
Proof using. unfold mbind, M_bind. by intros ->. Qed.

Lemma get_mut_initing {A} (m : M T A) g h :
  inited (view l g) = SINGLE_INITING -> get_mut l default m g h = (Hang, (g, h)).
Proof using.
  intros Hi. unfold get_mut, init. do 2 apply run_bind_hang.
  destruct spin_fuel as [|fuel] eqn:Hf at 1; [done|]. cbn [init_loop].
  eapply run_bind_eq; [rewrite compare_exchange_run, Hi; reflexivity|].
  apply run_bind_hang. by apply spin_on_initing.
Qed.
End sequential.

(** ** Lemmas: the protocol *)
Section protocol.
Context {T : Type}.
Implicit Types (st : system T) (n : nat).

(** The three phases a reachable system goes through. *)
Inductive inv st : Prop :=
  | Inv_uninit :
      s_inited (sh st) = SINGLE_UNINIT -> s_data (sh st) = None -> s_runs (sh st) = 0%nat ->
      (forall i p, pcs st !! i = Some p -> p = AtCas) -> inv st
  | Inv_initing k :
      s_inited (sh st) = SINGLE_INITING ->
      (pcs st !! k = Some AtDefault /\ s_data (sh st) = None /\ s_runs (sh st) = 0%nat \/
       pcs st !! k = Some AtStore /\ is_Some (s_data (sh st)) /\ s_runs (sh st) = 1%nat) ->
      (forall i p, i ≠ k -> pcs st !! i = Some p -> p = AtCas \/ p = AtSpin) -> inv st
  | Inv_inited :
      s_inited (sh st) = SINGLE_INITED -> is_Some (s_data (sh st)) -> s_runs (sh st) = 1%nat ->
      (forall i p, pcs st !! i = Some p -> p = AtCas \/ p = AtSpin \/ p = AtCheck \/ p = AtUse) ->
      inv st.

Lemma inv_start n : inv (start n).
Proof.
  apply Inv_uninit; try done. intros i p. simpl.
  by intros [-> _]%lookup_replicate.
Qed.

(** A step on context [k] and the lookups after it. *)
Lemma lookup_after (l : list pc) k p' i p :
  <[k := p']> l !! i = Some p -> (i = k /\ p = p') \/ (i ≠ k /\ l !! i = Some p).
Proof.
  rewrite list_lookup_insert. case_decide as Hd; [|intros Hp].
  - destruct Hd as [-> _]. intros [= ->]. by left.
  - destruct (decide (k = i)) as [->|]; [|by right].
    right. exfalso. apply Hd. split; [done|]. by eapply lookup_lt_Some.
Qed.

Lemma inv_step st st' : inv st -> step st st' -> inv st'.
Proof.
  intros Hinv (v & k & ->). unfold sys_step.
  destruct (pcs st !! k) as [p|] eqn:Hp; [|done].
  pose proof (lookup_lt_Some _ _ _ Hp) as Hk.
  destruct Hinv as [Hi Hd Hr Hpcs|k' Hi Hw Hpcs|Hi Hd Hr Hpcs].
  - rewrite (Hpcs _ _ Hp). simpl. rewrite Hi; simpl. apply (Inv_initing _ k); simpl; [done| |].
    + left. by rewrite list_lookup_insert_eq.
    + intros i q Hne Hq. left. destruct (lookup_after _ _ _ _ _ Hq) as [[? _]|[_ ?]]; [done|].
      by eapply Hpcs.
  - destruct (decide (k = k')) as [->|Hne].
    + destruct Hw as [(Hk' & Hd & Hr)|(Hk' & Hd & Hr)]; simplify_eq; simpl.
      * apply (Inv_initing _ k'); simpl; [done| |].
        -- right. rewrite list_lookup_insert_eq, Hr by done. eauto.
        -- intros i q Hne Hq. destruct (lookup_after _ _ _ _ _ Hq) as [[? _]|[_ ?]]; [done|].
           by eapply Hpcs.
      * apply Inv_inited; simpl; [done..|]. intros i q Hq.
        destruct (lookup_after _ _ _ _ _ Hq) as [[_ ->]|[? Hq']]; [by left|].
        destruct (Hpcs _ _ ltac:(done) Hq'); auto.
    + assert (exists p', (p' = AtCas \/ p' = AtSpin) /\
        (let '(p0, sh') := thread_step v p (sh st) in MkSystem (<[k:=p0]> (pcs st)) sh')
          = MkSystem (<[k:=p']> (pcs st)) (sh st)) as (p' & Hp' & ->).
      { exists AtSpin. destruct (Hpcs _ _ Hne Hp) as [-> | ->]; simpl; rewrite Hi; simpl; auto. }
      apply (Inv_initing _ k'); simpl; [done| |].
      * by rewrite list_lookup_insert_ne by done.
      * intros i q Hne' Hq. destruct (lookup_after _ _ _ _ _ Hq) as [[_ ->]|[_ ?]]; [done|].
        by eapply Hpcs.
  - assert (exists p', (p' = AtCas \/ p' = AtSpin \/ p' = AtCheck \/ p' = AtUse) /\
        (let '(p0, sh') := thread_step v p (sh st) in MkSystem (<[k:=p0]> (pcs st)) sh')
          = MkSystem (<[k:=p']> (pcs st)) (sh st)) as (p' & Hp' & ->).
    { destruct (Hpcs _ _ Hp) as [-> | [-> | [-> | ->]]]; simpl; rewrite ?Hi; simpl;
        eexists; (split; [|reflexivity]); auto. }
    apply Inv_inited; simpl; try done. intros i q Hq.
    destruct (lookup_after _ _ _ _ _ Hq) as [[_ ->]|[_ ?]]; [done|]. by eapply Hpcs.
Qed.

Lemma inv_reachable n st : reachable n st -> inv st.
Proof.
  intros Hr. pose proof (inv_start n) as Hs. revert Hs. unfold reachable in Hr.
  induction Hr as [|st1 st2 st3 Hstep _ IH]; [done|]. intros Hi.
  by apply IH, (inv_step st1).
Qed.
End protocol.

(** ** Consequences of the invariant *)

Definition critical (p : pc) : Prop := p = AtDefault \/ p = AtStore.

Lemma inv_exclusive {T} (st : system T) : inv st ->
  forall i j p q, pcs st !! i = Some p -> pcs st !! j = Some q -> critical p -> critical q -> i = j.
Proof.
  unfold critical. intros [Hi Hd Hr Hpcs|k Hi Hw Hpcs|Hi Hd Hr Hpcs] i j p q Hp Hq Hcp Hcq.
  - apply Hpcs in Hp as ->. by destruct Hcp.
  - assert (forall i p, pcs st !! i = Some p -> critical p -> i = k) as Hcrit.
    { intros i' p' Hp' Hc. destruct (decide (i' = k)) as [|Hne]; [done|].
      destruct (Hpcs _ _ Hne Hp') as [-> | ->]; by destruct Hc. }
    by rewrite (Hcrit i p), (Hcrit j q).
  - destruct (Hpcs _ _ Hp) as [-> | [-> | [-> | ->]]]; by destruct Hcp.
Qed.

Lemma inv_no_crash {T} (st : system T) i : inv st -> pcs st !! i ≠ Some Crashed.
Proof.
  intros [Hi Hd Hr Hpcs|k Hi Hw Hpcs|Hi Hd Hr Hpcs] Hp.
  - by apply Hpcs in Hp.
  - destruct (decide (i = k)) as [->|Hne]; [destruct Hw as [(Hk & _)|(Hk & _)]; congruence|].
    by destruct (Hpcs _ _ Hne Hp).
  - by destruct (Hpcs _ _ Hp) as [?|[?|[?|?]]].
Qed.

Lemma inv_runs {T} (st : system T) : inv st -> (s_runs (sh st) <= 1)%nat.
Proof. intros [Hi Hd -> Hpcs|k Hi [(_ & _ & ->)|(_ & _ & ->)] Hpcs|Hi Hd -> Hpcs]; lia. Qed.

Lemma inv_use {T} (st : system T) i : inv st -> pcs st !! i = Some AtUse ->
  s_inited (sh st) = SINGLE_INITED /\ is_Some (s_data (sh st)) /\ s_runs (sh st) = 1%nat.
Proof.
  intros [Hi Hd Hr Hpcs|k Hi Hw Hpcs|Hi Hd Hr Hpcs] Hp; [by apply Hpcs in Hp| |done].
  destruct (decide (i = k)) as [->|Hne]; [destruct Hw as [(Hk & _)|(Hk & _)]; congruence|].
  by destruct (Hpcs _ _ Hne Hp).
Qed.

(** ** Progress of the protocol *)

(** Accesses a context still has to make, at most, not counting idle turns of
    the inner spin loop; it depends on whether the value is published. *)
Definition weight (published : bool) (p : pc) : nat :=
  match p with
  | AtCas => if published then 2 else 5
  | AtSpin => if published then 3 else 4
  | AtDefault => 4
  | AtStore => 3
  | AtCheck => 1
  | AtUse | Crashed => 0
  end.

Definition published {T} (st : system T) : bool := s_inited (sh st) =? SINGLE_INITED.

Definition remaining {T} (st : system T) : nat :=
  sum_list_with (weight (published st)) (pcs st).

Section progress.
Context {T : Type}.
Implicit Types (st : system T).

Lemma sum_list_with_insert (f : pc -> nat) l k p p' :
  l !! k = Some p ->
  (sum_list_with f (<[k := p']> l) + f p = sum_list_with f l + f p')%nat.
Proof.
  revert k. induction l as [|q l IH]; intros [|k] Hk; simplify_eq/=; [lia|].
  specialize (IH _ Hk). lia.
Qed.

Lemma sum_list_with_le (f g : pc -> nat) l :
  (forall p, p ∈ l -> f p <= g p)%nat -> (sum_list_with f l <= sum_list_with g l)%nat.
Proof.
  induction l as [|q l IH]; intros Hfg; simpl; [lia|].
  pose proof (Hfg q ltac:(left)). pose proof (IH ltac:(intros; apply Hfg; by right)). lia.
Qed.

Lemma sum_list_with_bound (f : pc -> nat) b l :
  (forall p, f p <= b)%nat -> (sum_list_with f l <= b * length l)%nat.
Proof. intros Hf. induction l as [|q l IH]; simpl; [lia|]. specialize (Hf q). lia. Qed.

Lemma remaining_bound st : (remaining st <= 5 * length (pcs st))%nat.
Proof.
  apply sum_list_with_bound. intros []; simpl; try case_match; lia.
Qed.

Lemma length_reachable n st : reachable n st -> length (pcs st) = n.
Proof.
  unfold reachable. intros Hr.
  assert (length (pcs (start (T := T) n)) = n) as Hs by apply length_replicate.
  revert Hs. induction Hr as [|st1 st2 st3 (v & k & ->) _ IH]; [done|]. intros Hs. apply IH.
  unfold sys_step. case_match; [|done]. case_match. simpl. by rewrite length_insert.
Qed.

(** A step that changes the phase to published lowers the weight of every
    other context that is not already past the loop. *)
Lemma remaining_step st v k :
  inv st -> sys_step v k st = st \/ (remaining (sys_step v k st) < remaining st)%nat.
Proof.
  intros Hinv. unfold sys_step. destruct (pcs st !! k) as [p|] eqn:Hp; [|by left].
  unfold remaining.
  assert (forall p', sum_list_with (weight (published st)) (<[k := p']> (pcs st))
     + weight (published st) p =
     sum_list_with (weight (published st)) (pcs st) + weight (published st) p')%nat as Hsum
    by (intros; by apply sum_list_with_insert).
  unfold published in *.
  destruct Hinv as [Hi Hd Hr Hpcs|k' Hi Hw Hpcs|Hi Hd Hr Hpcs]; rewrite Hi in *.
  - pose proof (Hpcs _ _ Hp) as ->. right. simpl. rewrite Hi. simpl.
    specialize (Hsum AtDefault). cbn in Hsum |- *. lia.
  - destruct (decide (k = k')) as [->|Hne].
    + right. destruct Hw as [(Hk' & _)|(Hk' & _)]; simplify_eq; simpl.
      * rewrite Hi.
        specialize (Hsum AtStore). cbn in Hsum |- *. lia.
      * pose proof (sum_list_with_insert (weight true) (pcs st) k' _ AtCas Hk') as Ht.
        assert (sum_list_with (weight true) (pcs st) <=
                sum_list_with (weight false) (pcs st))%nat as Hle
          by (apply sum_list_with_le; intros [] _; simpl; lia).
        cbn in Ht |- *. lia.
    + destruct (Hpcs _ _ Hne Hp) as [-> | ->]; simpl; rewrite Hi; simpl.
      * right. rewrite Hi. specialize (Hsum AtSpin). cbn in Hsum |- *. lia.
      * left. destruct st as [l s]; simpl in *. by rewrite list_insert_id.
  - destruct (Hpcs _ _ Hp) as [-> | [-> | [-> | ->]]]; simpl; rewrite ?Hi; simpl; rewrite ?Hi; simpl.
    + right. specialize (Hsum AtCheck). cbn in Hsum |- *. lia.
    + right. specialize (Hsum AtCas). cbn in Hsum |- *. lia.
    + right. specialize (Hsum AtUse). cbn in Hsum |- *. lia.
    + left. destruct st as [l s]; simpl in *. by rewrite list_insert_id.
Qed.

(** Some context can move as long as one has not finished. *)
Lemma enabled st v i p :
  inv st -> pcs st !! i = Some p -> p ≠ AtUse -> exists k, sys_step v k st ≠ st.
Proof.
  assert (forall k q, pcs st !! k = Some q -> (thread_step v q (sh st)).1 ≠ q ->
    sys_step v k st ≠ st) as Hmove.
  { intros k q Hq Hneq Heq. unfold sys_step in Heq. rewrite Hq in Heq.
    destruct (thread_step v q (sh st)) as [q' s'] eqn:Hts. simpl in Hneq.
    apply (f_equal pcs) in Heq. simpl in Heq. apply Hneq.
    pose proof (list_lookup_insert_eq (pcs st) k q' (lookup_lt_Some _ _ _ Hq)) as Hl.
    rewrite Heq, Hq in Hl. by injection Hl. }
  intros [Hi Hd Hr Hpcs|k' Hi Hw Hpcs|Hi Hd Hr Hpcs] Hp Hne.
  - exists i. apply (Hmove i p Hp). rewrite (Hpcs _ _ Hp). simpl. by rewrite Hi.
  - exists k'. destruct Hw as [(Hk' & _)|(Hk' & _)]; by apply (Hmove k' _ Hk').
  - exists i. apply (Hmove i p Hp).
    destruct (Hpcs _ _ Hp) as [-> | [-> | [-> | ->]]]; simpl; rewrite ?Hi; done.
Qed.

(** Hence a schedule of at most [remaining st] accesses finishes everyone. *)
Lemma finishing_schedule st (v : T) :
  inv st -> exists st', rtc step st st' /\
    forall i p, pcs st' !! i = Some p -> p = AtUse.
Proof.
  remember (remaining st) as m eqn:Hm. revert st Hm.
  induction (lt_wf m) as [m _ IH]; intros st -> Hinv.
  destruct (decide (Forall (.= AtUse) (pcs st))) as [Hall|Hn].
  - exists st. split; [done|]. intros i p Hp. by eapply Forall_lookup_1 in Hall.
  - apply not_Forall_Exists, Exists_exists in Hn as (p & Hin & Hne); [|apply _].
    apply list_elem_of_lookup in Hin as [i Hi]. destruct (enabled st v i p Hinv Hi Hne) as [k Hk].
    destruct (remaining_step st v k Hinv) as [?|Hlt]; [done|].
    assert (step st (sys_step v k st)) as Hstep by by exists v, k.
    destruct (IH _ Hlt _ eq_refl (inv_step _ _ Hinv Hstep)) as (st' & Hr & Hdone).
    exists st'. split; [|done]. by eapply rtc_l.
Qed.
End progress.

(** ** Properties *)

(** C8: However any number of contexts interleave in [init], at most one at a
    time is between winning the compare-exchange and the final store,
    [T::default()] is evaluated at most once, the assertion after the loop
    never fails, and whoever gets past [init] finds initialised data. *)
Theorem singleton_init_once {T} (n : nat) (st : system T) :
  reachable n st ->
  (forall i j p q, pcs st !! i = Some p -> pcs st !! j = Some q ->
     critical p -> critical q -> i = j) /\
  (s_runs (sh st) <= 1)%nat /\
  (forall i, pcs st !! i ≠ Some Crashed) /\
  (forall i, pcs st !! i = Some AtUse ->
     s_inited (sh st) = SINGLE_INITED /\ is_Some (s_data (sh st)) /\ s_runs (sh st) = 1%nat).
Proof.
  intros Hinv%inv_reachable.
  split_and!; [by apply inv_exclusive|by apply inv_runs|intros i; by apply inv_no_crash|].
  intros i Hi. by apply (inv_use _ i).
Qed.

(** Once published, the value is never replaced: no access of [init]
    changes the flag or the data again, so all contexts use the same value. *)
Theorem singleton_published_stable {T} (n : nat) (st st' : system T) :
  reachable n st -> s_inited (sh st) = SINGLE_INITED -> rtc step st st' -> sh st' = sh st.
Proof.
  intros Hr Hi Hs. pose proof (inv_reachable _ _ Hr) as Hinv. clear Hr.
  induction Hs as [|st1 st2 st3 (v & k & ->) _ IH]; [done|].
  assert (sh (sys_step v k st1) = sh st1) as Heq.
  { unfold sys_step. destruct (pcs st1 !! k) as [p|] eqn:Hp; [|done].
    destruct Hinv as [Hi' _ _ _|k' Hi' _ _|_ _ _ Hpcs]; [by rewrite Hi in Hi'..|].
    destruct (Hpcs _ _ Hp) as [-> | [-> | [-> | ->]]]; simpl; rewrite ?Hi; done. }
  rewrite <- Heq. apply IH; [by rewrite Heq|]. eapply inv_step; [done|]. by exists v, k.
Qed.

(** C29: Initialisation makes progress: from every reachable state each access
    either is an idle turn of the spin loop or lowers a bound of five accesses
    per context, some access is not idle until every context is past [init],
    and a schedule exists that gets all of them there. *)
Theorem singleton_progress {T} (n : nat) (v : T) (st : system T) :
  reachable n st ->
  (remaining st <= 5 * n)%nat /\
  (forall k, sys_step v k st = st \/ (remaining (sys_step v k st) < remaining st)%nat) /\
  (forall i p, pcs st !! i = Some p -> p ≠ AtUse -> exists k, sys_step v k st ≠ st) /\
  exists st', rtc step st st' /\ forall i p, pcs st' !! i = Some p -> p = AtUse.
Proof.
  intros Hr. pose proof (inv_reachable _ _ Hr) as Hinv.
  pose proof (remaining_bound st) as Hb. rewrite (length_reachable _ _ Hr) in Hb.
  split_and!; [done|intros k; by apply remaining_step|intros i p; by apply enabled|].
  by apply finishing_schedule.
Qed.

Section sequential_properties.
Context `{Platform} {G T : Type}.

(** On one CPU, the first [get_mut] evaluates [T::default()] once, with
    the flag at INITING, and runs the method on its value; the next call runs
    on what the first left, without evaluating [T::default()] again. *)
Theorem get_mut_initialises_once {A B} (l : Lens G (Singleton T)) (default : M G T)
    (m : M T A) (m' : M T B) t t1 s a g g1 h h1 h2 :
  LensLaws l -> (1 < spin_fuel)%nat -> view l g = UNINIT ->
  default (over l (MkSingleton SINGLE_INITING None) g) h = (Ok t, (g1, h1)) ->
  view l g1 = MkSingleton SINGLE_INITING s ->
  m t h1 = (Ok a, (t1, h2)) ->
  get_mut l default m g h = (Ok a, (over l (MkSingleton SINGLE_INITED (Some t1)) g1, h2)) /\
  (_ ← get_mut l default m; get_mut l default m') g h =
    let '(r, (t2, h3)) := m' t1 h2 in
    (r, (over l (MkSingleton SINGLE_INITED (Some t2)) g1, h3)).
Proof.
  intros Hl Hf Hv Hd Hs Hm.
  assert (get_mut l default m g h
    = (Ok a, (over l (MkSingleton SINGLE_INITED (Some t1)) g1, h2))) as Hfirst.
  { erewrite get_mut_first by done. by rewrite Hm. }
  split; [done|]. rewrite (run_bind _ _ _ _ _ _ _ Hfirst).
  rewrite (get_mut_inited l default m' t1) by (by rewrite ?view_over || lia).
  destruct (m' t1 h2) as [r [t2 h3]]. by rewrite over_over.
Qed.

(** Re-entry: a call made on the same CPU while [T::default()] of the
    same singleton is running (from inside it, or from an interrupt handler
    that preempted it) never gets in, whatever the poll budget. *)
Theorem get_mut_reentry_hangs {A} (l : Lens G (Singleton T)) (default : M G T) (m : M T A) g h :
  inited (view l g) = SINGLE_INITING -> get_mut l default m g h = (Hang, (g, h)).
Proof. apply get_mut_initing. Qed.

(** [drop] has its test the wrong way round: it runs the destructor on a
    cell that was never initialised, which is undefined behaviour, and leaks
    the value of a cell that was. *)
Theorem singleton_drop_inverted (l : Lens G (Singleton T)) (drop_value : T -> M G unit) g h :
  (view l g = UNINIT -> (drop l drop_value g h).1 = Undefined) /\
  (inited (view l g) = SINGLE_INITED -> drop l drop_value g h = (Ok tt, (g, h))).
Proof.
  split; intros Hv; unfold drop; unfold mbind at 1, M_bind; rewrite load_run, Hv; cbn; [|done].
  unfold get, mbind, M_bind. by rewrite Hv.
Qed.
End sequential_properties.

(** *** Witnesses *)

(** Two contexts: the first initialises, the second waits and then uses. *)
Definition two_contexts : system Z :=
  fold_left (fun st k => sys_step 7 k st) [0; 1; 0; 0; 0; 1; 1; 0]%nat (start 2).

Lemma sys_step_reachable {T} n (v : T) k st : reachable n st -> reachable n (sys_step v k st).
Proof. intros Hr. eapply rtc_r; [exact Hr|]. by exists v, k. Qed.

Lemma two_contexts_reachable : reachable 2 two_contexts.
Proof.
  unfold two_contexts. generalize [0; 1; 0; 0; 0; 1; 1; 0]%nat. intros ks.
  assert (reachable 2 (start (T := Z) 2)) as Hr by apply rtc_refl. revert Hr.
  generalize (start (T := Z) 2). induction ks as [|k ks IH]; intros st Hr; [done|].
  simpl. by apply IH, sys_step_reachable.
Qed.

Lemma singleton_init_once_witness :
  pcs two_contexts = [AtUse; AtCheck] /\ is_Some (s_data (sh two_contexts)).
Proof.
  split; [reflexivity|].
  destruct (singleton_init_once 2 two_contexts two_contexts_reachable) as (_ & _ & _ & Huse).
  apply (Huse 0%nat). reflexivity.
Defined.

Lemma singleton_published_stable_witness :
  sh (sys_step 9 1 two_contexts) = sh two_contexts.
Proof.
  apply (singleton_published_stable 2 two_contexts _ two_contexts_reachable).
  - reflexivity.
  - apply rtc_once. exists 9, 1%nat. reflexivity.
Defined.

Lemma singleton_progress_witness :
  exists st', rtc step two_contexts st' /\ forall i p, pcs st' !! i = Some p -> p = AtUse.
Proof. apply (singleton_progress 2 5 two_contexts two_contexts_reachable). Defined.

(** A global state that is the cell alone. *)
Definition whole (T : Type) : Lens T T := MkLens (fun g => g) (fun t _ => t).

#[export] Instance whole_laws T : LensLaws (whole T).
Proof. by constructor. Qed.

Lemma get_mut_initialises_once_witness :
  let P := constant_platform true 0 in
  let h := MkHw ∅ [] [] 8 0 0 None false in
  get_mut (H := P) (whole (Singleton Z)) (mret (M := M (Singleton Z)) 41) (x ← get; put (x + 1)) UNINIT h =
    (Ok tt, (MkSingleton SINGLE_INITED (Some 42), h)).
Proof.
  intros P h.
  apply (get_mut_initialises_once (H := constant_platform true 0) (whole (Singleton Z)) (mret (M := M (Singleton Z)) 41)
    (x ← get; put (x + 1)) (mret (M := M Z) tt) 41 42 None tt UNINIT (MkSingleton SINGLE_INITING None) h h h
    (whole_laws _)); [simpl; lia|reflexivity..].
Defined.

Lemma get_mut_reentry_hangs_witness :
  let P := constant_platform true 0 in
  let h := MkHw ∅ [] [] 8 0 0 None false in
  let cell := whole (Singleton Z) in
  (get_mut (H := P) cell (mret 0) (mret (M := M Z) tt) (MkSingleton SINGLE_INITING None) h).1 = Hang.
Proof.
  intros P h cell.
  rewrite (get_mut_reentry_hangs (H := P) cell (mret 0) (mret tt)
    (MkSingleton SINGLE_INITING None) h); reflexivity.
Defined.

Lemma singleton_drop_inverted_witness :
  let h := MkHw ∅ [] [] 8 0 0 None false in
  let cell := whole (Singleton Z) in let drop_value (_ : Z) : M (Singleton Z) unit := lift (Panic Explicit) in
  (drop cell drop_value UNINIT h).1 = Undefined /\
  drop cell drop_value (MkSingleton SINGLE_INITED (Some 7)) h =
    (Ok tt, (MkSingleton SINGLE_INITED (Some 7), h)).
Proof.
  intros h cell drop_value. split.
  - apply (proj1 (singleton_drop_inverted cell drop_value UNINIT h)). reflexivity.
  - apply (proj2 (singleton_drop_inverted cell drop_value (MkSingleton SINGLE_INITED (Some 7)) h)). reflexivity.
Defined.
