(* ===== verification/Steps.v ===== *)
(** * Code as a sequence of accesses, and interrupts between them

    [M S A] runs code as a whole.  To say what an interrupt may do in the middle
    of it, code is laid out as a [prog]: a tree whose nodes are single accesses
    (a byte of memory, a port, a static) and whose edges are the values they
    return.  [Traced P m] is the layout of [m] with accesses of the kind [P]
    only; the instances build it from the way the code is written.  [preempt]
    runs a layout with an interrupt before any of its accesses, and
    [preempt_sim] relates such a run to the undisturbed one. *)
From Stdlib Require Import ZArith Lia.
From stdpp Require Import base tactics numbers list gmap.
From S2P Require Import Prelude.
From S2P Require Import Machine.
From S2P Require Import Singleton.

(** ** Layouts *)

Inductive prog (St A : Type) : Type :=
  | Ret (r : result A)
  | Act {B : Type} (m : M St B) (k : B -> prog St A).
Arguments Ret {St A} r.
Arguments Act {St A B} m k.

Fixpoint run {St A} (p : prog St A) : M St A :=
  match p with
  | Ret r => lift r
  | Act m k => b ← m; run (k b)
  end.

Fixpoint prog_bind {St A B} (p : prog St A) (f : A -> prog St B) : prog St B :=
  match p with
  | Ret (Ok a) => f a
  | Ret (Panic why) => Ret (Panic why)
  | Ret (PageFault x) => Ret (PageFault x)
  | Ret Undefined => Ret Undefined
  | Ret Hang => Ret Hang
  | Act m k => Act m (fun b => prog_bind (k b) f)
  end.

(** A layout of a method, run on the data of a singleton. *)
Fixpoint prog_data {G T A} (l : Lens G (Singleton T)) (p : prog T A) : prog G A :=
  match p with
  | Ret r => Act (with_data l (lift r)) (fun a => Ret (Ok a))
  | Act m k => Act (with_data l m) (fun b => prog_data l (k b))
  end.

(** All accesses of the layout are of the kind [P]. *)
Inductive fine {St A} (P : forall B, M St B -> Prop) : prog St A -> Prop :=
  | fine_ret r : fine P (Ret r)
  | fine_act B (m : M St B) k : P B m -> (forall b, fine P (k b)) -> fine P (Act m k).

(** [preempt handle irqs p]: the [n]-th interrupt request of [irqs] is handled
    just before the [n]-th access of [p]. *)
Fixpoint preempt {St A I} (handle : I -> M St unit) (irqs : list I) (p : prog St A) : M St A :=
  match p with
  | Ret r => lift r
  | Act m k =>
      match irqs with
      | [] => b ← m; preempt handle [] (k b)
      | i :: irqs' => _ ← handle i; b ← m; preempt handle irqs' (k b)
      end
  end.

(** The same, with the requests that are left when [p] returns. *)
Fixpoint preempt_rest {St A I} (handle : I -> M St unit) (irqs : list I) (p : prog St A) : M St (A * list I) :=
  match p with
  | Ret r => a ← lift r; mret (a, irqs)
  | Act m k =>
      match irqs with
      | [] => b ← m; preempt_rest handle [] (k b)
      | i :: irqs' => _ ← handle i; b ← m; preempt_rest handle irqs' (k b)
      end
  end.

(** The interrupted run of [p] from [s] comes through [s'] after some of its
    accesses. *)
Fixpoint passes {St A I} (handle : I -> M St unit) (irqs : list I) (p : prog St A) (s s' : St * Hw) : Prop :=
  s' = s \/
  match p with
  | Ret _ => False
  | Act m k =>
      match irqs with
      | [] => exists b s1, m s.1 s.2 = (Ok b, s1) /\ passes handle [] (k b) s1 s'
      | i :: irqs' => exists s0 b s1, handle i s.1 s.2 = (Ok tt, s0) /\ m s0.1 s0.2 = (Ok b, s1) /\
          passes handle irqs' (k b) s1 s'
      end
  end.

(** ** Code up to extensional equality *)

#[export] Instance M_equiv {St A} : Equiv (M St A) := fun m m' => forall s h, m s h = m' s h.

#[export] Instance M_equivalence {St A} : Equivalence (@equiv (M St A) _).
Proof. split; [by intros m s h|by intros m m' Hm s h|]. intros m1 m2 m3 H1 H2 s h. by rewrite H1. Qed.

#[export] Instance M_bind_proper {St A B} :
  Proper (pointwise_relation A (≡) ==> (≡) ==> (≡)) (@mbind (M St) _ A B).
Proof.
  intros k k' Hk m m' Hm s h. unfold mbind, M_bind. rewrite Hm.
  destruct (m' s h) as [[a| | | |] [s' h']]; [apply Hk|done..].
Qed.

Section equations.
Context {St : Type}.

Lemma M_bind_ret {A} (m : M St A) : (a ← m; lift (Ok a)) ≡ m.
Proof. intros s h. unfold mbind, M_bind, lift. by destruct (m s h) as [[] []]. Qed.

Lemma M_bind_assoc {A B C} (m : M St A) (k : A -> M St B) (k' : B -> M St C) :
  (m ≫= k) ≫= k' ≡ m ≫= (fun a => k a ≫= k').
Proof. intros s h. apply bind_assoc. Qed.

Lemma run_prog_bind {A B} (p : prog St A) (f : A -> prog St B) :
  run (prog_bind p f) ≡ run p ≫= (fun a => run (f a)).
Proof.
  induction p as [[]|B' m k IH]; try done. cbn [prog_bind run].
  rewrite M_bind_assoc. apply M_bind_proper; [|done]. exact IH.
Qed.

Lemma preempt_rest_fst {A I} (handle : I -> M St unit) irqs (p : prog St A) :
  preempt handle irqs p ≡ (x ← preempt_rest handle irqs p; mret x.1).
Proof.
  revert irqs. induction p as [r|B m k IH]; intros irqs; cbn [preempt preempt_rest].
  { intros s h. destruct irqs; by destruct r. }
  destruct irqs as [|i irqs]; rewrite !M_bind_assoc; (apply M_bind_proper; [|done]).
  - intros b. apply IH.
  - intros _. rewrite M_bind_assoc. apply M_bind_proper; [|done]. intros b. apply IH.
Qed.

Lemma preempt_rest_bind {A B I} (handle : I -> M St unit) irqs (p : prog St A) (f : A -> prog St B) :
  preempt_rest handle irqs (prog_bind p f) ≡
    (x ← preempt_rest handle irqs p; preempt_rest handle x.2 (f x.1)).
Proof.
  revert irqs. induction p as [[]|B' m k IH]; intros irqs; try done. cbn [prog_bind preempt_rest].
  destruct irqs as [|i irqs]; rewrite !M_bind_assoc; (apply M_bind_proper; [|done]).
  - intros b. apply IH.
  - intros _. rewrite M_bind_assoc. apply M_bind_proper; [|done]. intros b. apply IH.
Qed.

Lemma passes_here {A I} (handle : I -> M St unit) irqs (p : prog St A) s : passes handle irqs p s s.
Proof. destruct p; by left. Qed.

Lemma passes_bind_l {A B I} (handle : I -> M St unit) irqs (p : prog St A) (f : A -> prog St B) s s' :
  passes handle irqs p s s' -> passes handle irqs (prog_bind p f) s s'.
Proof.
  revert irqs s. induction p as [r|B' m k IH]; intros irqs s [->|Hp]; try apply passes_here; [done|]. right.
  destruct irqs as [|i irqs].
  - destruct Hp as (b & s1 & Hm & Hp). exists b, s1. split; [exact Hm|]. by apply IH.
  - destruct Hp as (s0 & b & s1 & Hi & Hm & Hp). exists s0, b, s1. split_and!; [exact Hi|exact Hm|]. by apply IH.
Qed.

Lemma passes_bind_r {A B I} (handle : I -> M St unit) irqs (p : prog St A) (f : A -> prog St B) s a irqs' s1 s' :
  preempt_rest handle irqs p s.1 s.2 = (Ok (a, irqs'), s1) -> passes handle irqs' (f a) s1 s' ->
  passes handle irqs (prog_bind p f) s s'.
Proof.
  revert irqs s. induction p as [r|B' m k IH]; intros irqs [t h] Hrun Hp; cbn [fst snd] in Hrun.
  { destruct r as [a0| | | |]; try done.
    assert ((Ok (a0, irqs), (t, h)) = (Ok (a, irqs'), s1)) as [= <- <- <-] by exact Hrun. exact Hp. }
  right. cbn [preempt_rest fst snd] in *. unfold mbind, M_bind in Hrun. destruct irqs as [|i irqs].
  - destruct (m t h) as [[b| | | |] [t1 h1]] eqn:Hm; try done. exists b, (t1, h1). split; [done|]. by apply IH.
  - destruct (handle i t h) as [[[]| | | |] [t0 h0]] eqn:Hi; try done.
    destruct (m t0 h0) as [[b| | | |] [t1 h1]] eqn:Hm; try done.
    exists (t0, h0), b, (t1, h1). split_and!; [done|done|]. by apply IH.
Qed.

Lemma fine_bind {A B} P (p : prog St A) (f : A -> prog St B) :
  fine P p -> (forall a, fine P (f a)) -> fine P (prog_bind p f).
Proof. intros Hp Hf. induction Hp as [[]|B' m k Hm _ IH]; cbn; try constructor; auto. Qed.

Lemma fine_mono {A} (P Q : forall B, M St B -> Prop) (p : prog St A) :
  (forall B m, P B m -> Q B m) -> fine P p -> fine Q p.
Proof. intros HPQ. induction 1; constructor; auto. Qed.
End equations.

(** Running a method piece by piece on the singleton's data. *)
Section data.
Context {G T : Type} (l : Lens G (Singleton T)) `{!LensLaws l}.

Lemma with_data_bind {A B} (m : M T A) (k : A -> M T B) :
  with_data l (m ≫= k) ≡ with_data l m ≫= (fun a => with_data l (k a)).
Proof using LensLaws0.
  intros g h. unfold mbind, M_bind, with_data at 1 2. destruct (data (view l g)) as [t|]; [|done].
  destruct (m t h) as [[a| | | |] [t' h']]; try done.
  unfold with_data. rewrite view_over. cbn [data inited].
  destruct (k a t' h') as [r [t2 h2]]. by rewrite over_over.
Qed.

#[export] Instance with_data_proper {A} : Proper ((≡) ==> (≡)) (with_data l (A := A)).
Proof using. intros m m' Hm g h. unfold with_data. destruct (data (view l g)); [|done]. by rewrite Hm. Qed.

Lemma run_prog_data {A} (p : prog T A) : run (prog_data l p) ≡ with_data l (run p).
Proof using LensLaws0.
  induction p as [r|B m k IH]; cbn [prog_data run]; [apply M_bind_ret|].
  rewrite with_data_bind. apply M_bind_proper; [|done]. exact IH.
Qed.

Lemma fine_data {A} P Q (p : prog T A) :
  (forall B (m : M T B), P B m -> Q B (with_data l m)) -> (forall r, Q A (with_data l (lift r))) ->
  fine P p -> fine Q (prog_data l p).
Proof using. intros HPQ Hr. induction 1; cbn; constructor; auto. intros b. constructor. Qed.
End data.

(** ** Layouts of code *)

Class Traced {St} (P : forall B, M St B -> Prop) {A} (m : M St A) := {
  prog_of : prog St A;
  prog_run : run prog_of ≡ m;
  prog_fine : fine P prog_of
}.
Arguments prog_of {St P A} m {_}.
Arguments prog_run {St P A} m {_}.
Arguments prog_fine {St P A} m {_}.

Section traced.
Context {St : Type} (P : forall B, M St B -> Prop).

Definition traced_access {A} (m : M St A) (Hm : P A m) : Traced P m := {|
  prog_of := Act m (fun a => Ret (Ok a));
  prog_run := M_bind_ret m;
  prog_fine := fine_act P A m _ Hm (fun a => fine_ret P (Ok a))
|}.

Definition traced_lift {A} (r : result A) : Traced P (lift r) := {|
  prog_of := Ret r;
  prog_run := fun s h => eq_refl;
  prog_fine := fine_ret P r
|}.

Definition traced_ret {A} (a : A) : Traced P (mret a) := traced_lift (Ok a).

#[program]
Definition traced_bind {A B} (m : M St A) (k : A -> M St B) (Hm : Traced P m)
    (Hk : forall a, Traced P (k a)) : Traced P (m ≫= k) := {|
  prog_of := prog_bind (prog_of m) (fun a => prog_of (k a))
|}.
Next Obligation.
  intros A B m k Hm Hk. rewrite run_prog_bind. apply M_bind_proper; [|apply prog_run].
  intros a. apply prog_run.
Qed.
Next Obligation. intros. apply fine_bind; [apply prog_fine|]. intros a. apply prog_fine. Qed.

Fixpoint traced_for_in {A} (l : list A) (body : A -> M St unit)
    (Hb : forall x, Traced P (body x)) : Traced P (for_in l body) :=
  match l with
  | [] => traced_ret tt
  | x :: l' => traced_bind (body x) _ (Hb x) (fun _ => traced_for_in l' body Hb)
  end.

Fixpoint traced_for_each_n (n : nat) (i : Z) (body : Z -> M St unit)
    (Hb : forall x, Traced P (body x)) : Traced P (for_each_n n i body) :=
  match n with
  | O => traced_ret tt
  | Datatypes.S n' =>
      traced_bind (body i) _ (Hb i) (fun _ => traced_for_each_n n' (i + 1) body Hb)
  end.

Definition traced_for_each lo hi (body : Z -> M St unit) (Hb : forall x, Traced P (body x)) :
    Traced P (for_each lo hi body) := traced_for_each_n _ lo body Hb.

Fixpoint traced_for_ret_n {R} (n : nat) (i : Z) (body : Z -> M St (option R))
    (Hb : forall x, Traced P (body x)) : Traced P (for_ret_n n i body) :=
  match n return Traced P (for_ret_n n i body) with
  | O => traced_ret None
  | Datatypes.S n' =>
      traced_bind (body i) _ (Hb i) (fun r =>
        match r return Traced P (match r with Some x => mret (Some x) | None => for_ret_n n' (i + 1) body end) with
        | Some x => traced_ret (Some x)
        | None => traced_for_ret_n n' (i + 1) body Hb
        end)
  end.

Definition traced_for_ret {R} lo hi (body : Z -> M St (option R)) (Hb : forall x, Traced P (body x)) :
    Traced P (for_ret lo hi body) := traced_for_ret_n _ lo body Hb.

Fixpoint traced_spin (fuel : nat) (cond : M St bool) (Hc : Traced P cond) : Traced P (spin_until fuel cond) :=
  match fuel with
  | O => traced_lift Hang
  | Datatypes.S fuel' =>
      traced_bind cond _ Hc (fun b =>
        if b return Traced P (if b then mret tt else spin_until fuel' cond)
        then traced_ret tt else traced_spin fuel' cond Hc)
  end.
End traced.

Definition traced_mono {St} (P Q : forall B, M St B -> Prop) {A} (m : M St A)
    (HPQ : forall B m, P B m -> Q B m) (Hm : Traced P m) : Traced Q m := {|
  prog_of := prog_of m;
  prog_run := prog_run m;
  prog_fine := fine_mono P Q _ HPQ (prog_fine m)
|}.

(** The layout of code that is the same without interrupts. *)
Definition traced_equiv {St} (P : forall B, M St B -> Prop) {A} (m m' : M St A)
    (Heq : m' ≡ m) (Hm : Traced P m') : Traced P m := {|
  prog_of := prog_of m';
  prog_run := transitivity (prog_run m') Heq;
  prog_fine := prog_fine m'
|}.

Definition traced_data {G T} (l : Lens G (Singleton T)) `{!LensLaws l} P Q {A} (m : M T A)
    (HPQ : forall B (m : M T B), P B m -> Q B (with_data l m)) (Hr : forall r, Q A (with_data l (lift r)))
    (Hm : Traced P m) : Traced Q (with_data l m) := {|
  prog_of := prog_data l (prog_of m);
  prog_run := transitivity (run_prog_data l (prog_of m)) (with_data_proper l _ _ (prog_run m));
  prog_fine := fine_data l P Q _ HPQ Hr (prog_fine m)
|}.

(** [traced] lays out code along its structure: the steps of the monad, loops
    and branches; what is left is an access ([access] hints) or code that has
    a layout ([traced] hints). *)
Create HintDb access.
Create HintDb traced.

Ltac traced_step :=
  match goal with
  | |- forall _, _ => intros ?
  | |- Traced _ (_ ≫= _) => apply traced_bind
  | |- Traced _ (mret _) => apply traced_ret
  | |- Traced _ (lift _) => apply traced_lift
  | |- Traced _ (for_in _ _) => apply traced_for_in
  | |- Traced _ (for_each _ _ _) => apply traced_for_each
  | |- Traced _ (for_ret _ _ _) => apply traced_for_ret
  | |- Traced _ (spin_until _ _) => apply traced_spin
  | |- Traced _ _ => solve [eauto with traced access nocore]
  | |- Traced _ _ => apply traced_access; solve [auto with access nocore]
  | |- Traced _ (match ?x with _ => _ end) => destruct x
  end.
Ltac traced := repeat traced_step.

(** ** Interrupted runs and undisturbed runs *)
Section preemption.
Context {St I : Type} (handle : I -> M St unit) (P : forall B, M St B -> Prop).

(** [R served σ1 σ2]: the undisturbed run is at [σ1], the interrupted one, with
    the interrupts [served] behind it, at [σ2].  Accesses keep the relation,
    handled interrupts extend [served]. *)
Context (R : list I -> St * Hw -> St * Hw -> Prop) (all : list I).

Definition in_step {A} (m : M St A) : Prop :=
  forall served s1 h1 s2 h2, R served (s1, h1) (s2, h2) ->
    exists s2' h2', m s2 h2 = ((m s1 h1).1, (s2', h2')) /\ R served (m s1 h1).2 (s2', h2').

Hypothesis accesses_in_step : forall B (m : M St B), P B m -> in_step m.
Hypothesis handled : forall served i s1 h1 s2 h2,
  R served (s1, h1) (s2, h2) -> served ++ [i] `prefix_of` all ->
  exists s2' h2', handle i s2 h2 = (Ok tt, (s2', h2')) /\ R (served ++ [i]) (s1, h1) (s2', h2').

Lemma in_step_bind {A B} (m : M St A) (k k' : A -> M St B) served s1 h1 s2 h2 :
  in_step m -> R served (s1, h1) (s2, h2) ->
  (forall a s1 h1 s2 h2, R served (s1, h1) (s2, h2) ->
    exists irqs s2' h2', k' a s2 h2 = ((k a s1 h1).1, (s2', h2')) /\
      irqs `prefix_of` all /\ R irqs (k a s1 h1).2 (s2', h2')) ->
  served `prefix_of` all ->
  exists irqs s2' h2', (m ≫= k') s2 h2 = (((m ≫= k) s1 h1).1, (s2', h2')) /\
    irqs `prefix_of` all /\ R irqs ((m ≫= k) s1 h1).2 (s2', h2').
Proof using.
  intros Hm HR Hk Hp. destruct (Hm _ _ _ _ _ HR) as (s2' & h2' & Hrun & HR').
  unfold mbind, M_bind. rewrite Hrun.
  destruct (m s1 h1) as [[a| | | |] [s1' h1']]; cbn [fst snd] in *; try by exists served, s2', h2'.
  by apply Hk.
Qed.

(** The simulation: an interrupted run gives the result of the undisturbed one
    and ends in a related state. *)
Lemma preempt_sim {A} (p : prog St A) irqs served s1 h1 s2 h2 :
  fine P p -> all = served ++ irqs -> R served (s1, h1) (s2, h2) ->
  exists served' s2' h2', preempt handle irqs p s2 h2 = ((run p s1 h1).1, (s2', h2')) /\
    served' `prefix_of` all /\ R served' (run p s1 h1).2 (s2', h2').
Proof using accesses_in_step handled.
  intros Hfine. revert irqs served s1 h1 s2 h2.
  induction Hfine as [r|B m k Hm _ IH]; intros irqs served s1 h1 s2 h2 Hall HR.
  { exists served, s2, h2. split_and!; [by destruct irqs|by exists irqs|done]. }
  destruct irqs as [|i irqs]; cbn [preempt run].
  - eapply in_step_bind; [by apply accesses_in_step|done| |by exists []].
    intros b ? ? ? ? HR'. by eapply IH.
  - assert (all = (served ++ [i]) ++ irqs) as Hall' by (by rewrite <- app_assoc).
    destruct (handled served i s1 h1 s2 h2 HR) as (s3 & h3 & Hi & HR'); [by exists irqs|].
    rewrite (run_bind _ _ _ _ _ _ _ Hi).
    eapply in_step_bind; [by apply accesses_in_step|done| |by exists irqs].
    intros b ? ? ? ? HR2. by eapply IH.
Qed.
End preemption.
