(* ===== verification/Loader.v ===== *)
(** * What the boot loader left in memory: [loader.rs]

    The kernel size, the number of entries of the BIOS memory map and the map
    itself, at fixed addresses.  A [&MemLayout] is the address of its 20 bytes;
    the slice is the list of those addresses.  [bytes_at] and [le_bytes]
    describe memory contents; they are shared by everything that reads
    structured memory. *)
From Stdlib Require Import ZArith Lia.
From stdpp Require Import base tactics numbers list gmap.
From S2P Require Import Prelude.
From S2P Require Import Machine.

Definition KERNEL_VADDR_BASE : Z := 0xc0000000.
Definition KERNEL_STACK_PADDR : Z := 0x7c00.
Definition KERNEL_PLACE_BEGIN_PADDR : Z := 0x20000.
Definition SEGMENT_KERNEL_CODE : Z := 0x8.

(** [size_of::<MemLayout>()], a packed struct of [u64], [u64] and [u32]. *)
Definition MEMLAYOUT_SIZE : Z := 20.

Section code.
Context {S : Type}.

Definition get_kernel_size : M S Z := load_le 4 0xc0020200.

Definition get_memlayout_buflen : M S Z := load_le 4 0xc0020204.

Definition get_memlayout : M S (list Z) :=
  n ← get_memlayout_buflen;
  mret (map (fun i => 0xc0020208 + MEMLAYOUT_SIZE * i) (seqZ 0 n)).
End code.

(** ** Structured memory *)

Fixpoint le_bytes (n : nat) (v : Z) : list Z :=
  match n with
  | O => []
  | S n' => v mod 256 :: le_bytes n' (v / 256)
  end.

Definition bytes_at (h : Hw) (a : Z) (bytes : list Z) : Prop :=
  forall i b, bytes !! i = Some b -> mem h !! (a + Z.of_nat i) = Some b.

Section memory.
Context {S : Type}.

Lemma length_le_bytes n v : length (le_bytes n v) = n.
Proof. revert v. induction n as [|n IH]; intros v; simpl; [done|]. by rewrite IH. Qed.

Lemma bytes_at_cons h a b bytes :
  bytes_at h a (b :: bytes) <-> mem h !! a = Some b /\ bytes_at h (a + 1) bytes.
Proof.
  unfold bytes_at. split.
  - intros Hb. split; [by rewrite <- (Hb 0%nat b eq_refl), Z.add_0_r|].
    intros i c Hc. rewrite <- (Hb (Datatypes.S i) c Hc). f_equal. lia.
  - intros [H0 Hb] [|i] c Hc; simpl in Hc; simplify_eq; [by rewrite Z.add_0_r|].
    rewrite <- (Hb i c Hc). f_equal. lia.
Qed.

Lemma bytes_at_app h a bytes bytes' :
  bytes_at h a (bytes ++ bytes') <->
  bytes_at h a bytes /\ bytes_at h (a + Z.of_nat (length bytes)) bytes'.
Proof.
  revert a. induction bytes as [|b bytes IH]; intros a; simpl.
  - rewrite Z.add_0_r. split; [|tauto]. intros Hb. split; [|done]. intros i c Hc. done.
  - rewrite !bytes_at_cons, IH. replace (a + 1 + Z.of_nat (length bytes))
      with (a + Z.of_nat (Datatypes.S (length bytes))) by lia. tauto.
Qed.

Lemma load_le_run n a v (s : S) h :
  bytes_at h a (le_bytes n v) -> 0 <= v < 256 ^ Z.of_nat n ->
  load_le n a s h = (Ok v, (s, h)).
Proof.
  revert a v. induction n as [|n IH]; intros a v Hb Hv.
  - assert (v = 0) as -> by (change (256 ^ Z.of_nat 0) with 1 in Hv; lia). done.
  - cbn [le_bytes] in Hb. apply bytes_at_cons in Hb as [H0 Hb]. cbn [load_le].
    run_step run_load8; [done|]. rewrite Nat2Z.inj_succ, Z.pow_succ_r in Hv by lia.
    eapply run_bind_eq; [apply IH; [done|]|].
    + split; [zlia|]. apply Z.div_lt_upper_bound; lia.
    + unfold mret, M_ret. do 3 f_equal. pose proof (Z.div_mod v 256). lia.
Qed.

(** Storing a value leaves its bytes, and all other bytes, in place. *)
Lemma store_le_run n a v (s : S) h :
  (forall x, a <= x < a + Z.of_nat n -> is_Some (mem h !! x)) ->
  exists m, store_le n a v s h = (Ok tt, (s, set_mem m h)) /\
    bytes_at (set_mem m h) a (le_bytes n v) /\
    (forall x, ~ (a <= x < a + Z.of_nat n) -> m !! x = mem h !! x).
Proof.
  revert a v h. induction n as [|n IH]; intros a v h Hm.
  { exists (mem h). split_and!; [by destruct h|by intros [|?] ? ?|done]. }
  cbn [store_le le_bytes].
  destruct (IH (a + 1) (v / 256) (set_mem (<[a := v mod 256]> (mem h)) h)) as (m & Hrun & Hb & Hout).
  { intros x Hx. cbn. rewrite lookup_insert_ne by lia. apply Hm. lia. }
  exists m. split_and!.
  - run_step run_store8; [apply Hm; lia|]. rewrite Hrun. done.
  - apply bytes_at_cons. split; [|exact Hb]. cbn. rewrite Hout by lia. apply lookup_insert_eq.
  - intros x Hx. rewrite Hout by lia. apply lookup_insert_ne. lia.
Qed.
End memory.

(** Memory contents to evaluate definitions on. *)
Fixpoint mem_of (a : Z) (bytes : list Z) : gmap Z Z :=
  match bytes with
  | [] => ∅
  | b :: bytes' => <[a := b]> (mem_of (a + 1) bytes')
  end.

Lemma lookup_mem_of a bytes i : mem_of a bytes !! (a + Z.of_nat i) = bytes !! i.
Proof.
  revert a i. induction bytes as [|b bytes IH]; intros a i; simpl; [by rewrite lookup_empty|].
  destruct i as [|i]; [by rewrite Z.add_0_r, lookup_insert_eq|].
  rewrite lookup_insert_ne by lia. simpl. rewrite <- (IH (a + 1) i). f_equal. lia.
Qed.

Lemma lookup_mem_of_lt a bytes x : x < a -> mem_of a bytes !! x = None.
Proof.
  revert a. induction bytes as [|b bytes IH]; intros a Hx; simpl; [apply lookup_empty|].
  rewrite lookup_insert_ne by lia. apply IH. lia.
Qed.

Lemma lookup_mem_of_ge a bytes x : a + Z.of_nat (length bytes) <= x -> mem_of a bytes !! x = None.
Proof.
  revert a. induction bytes as [|b bytes IH]; intros a Hx; [apply lookup_empty|]. cbn in Hx |- *.
  rewrite lookup_insert_ne by lia. apply IH. lia.
Qed.

Lemma bytes_at_mem_of h a bytes m :
  bytes_at (set_mem (mem_of a bytes ∪ m) h) a bytes.
Proof.
  intros i b Hb. simpl. apply lookup_union_Some_l. by rewrite lookup_mem_of.
Qed.
