(* ===== verification/MemMap.v ===== *)
(** * The memory map: [mm/mod.rs]

    The packed [MemLayout] entries, [available_mem_size] and [pg_round_down].
    The reference for the size is [cnt]: the number of addresses that lie in
    some usable region at or above 1 MiB. *)
From Stdlib Require Import ZArith Lia String Sorting.Sorted.
From stdpp Require Import base tactics numbers list gmap.
From S2P Require Import Prelude.
From S2P Require Import Machine.
From S2P Require Import Fmt.
From S2P Require Import Loader.

Inductive MemLayoutKind :=
  | Usable | Reserved | ACPIReclaimableMemory | ACPINVSMemory | BadMemory.

#[export] Instance MemLayoutKind_eq_dec : EqDecision MemLayoutKind.
Proof. solve_decision. Defined.

(** Membership in a list written with [++] and [::]. *)
Ltac list_member := rewrite ?elem_of_app, ?elem_of_cons, ?elem_of_nil in *; tauto.

(** The [u32] discriminants. *)
Definition kind_as_u32 (k : MemLayoutKind) : Z :=
  match k with
  | Usable => 1 | Reserved => 2 | ACPIReclaimableMemory => 3 | ACPINVSMemory => 4
  | BadMemory => 5
  end.

Definition kind_of_u32 (v : Z) : option MemLayoutKind :=
  match v with
  | 1 => Some Usable
  | 2 => Some Reserved
  | 3 => Some ACPIReclaimableMemory
  | 4 => Some ACPINVSMemory
  | 5 => Some BadMemory
  | _ => None
  end.

Section code.
Context `{Platform} {S : Type}.

(** The accessors of the packed struct at address [self]: unaligned reads of
    its fields.  Reading a discriminant the enum does not have is undefined
    behaviour. *)
Definition addr (self : Z) : M S Z := load_le 8 self.
Definition len (self : Z) : M S Z := load_le 8 (self + 8).
Definition kind (self : Z) : M S MemLayoutKind :=
  v ← load_le 4 (self + 16);
  match kind_of_u32 v with
  | Some k => mret k
  | None => lift Undefined
  end.

(** [impl Debug for MemLayout]: the text written. *)
Definition kind_fmt (k : MemLayoutKind) : list Z :=
  match k with
  | Usable => bs "Usable"
  | Reserved => bs "Reserved"
  | ACPIReclaimableMemory => bs "ACPIReclaimableMemory"
  | ACPINVSMemory => bs "ACPINVSMemory"
  | BadMemory => bs "BadMemory"
  end.

Definition memlayout_fmt (self : Z) : M S (list Z) :=
  a ← addr self;
  l ← len self;
  k ← kind self;
  mret (debug_struct (bs "MemLayout")
    [(bs "addr", bs "0x" ++ lower_hex a); (bs "len", bs "0x" ++ lower_hex l);
     (bs "kind", kind_fmt k)]).

(** The loop of [available_mem_size], with its two variables. *)
Fixpoint available_loop (mems : list Z) (last_end size : Z) : M S Z :=
  match mems with
  | [] => mret size
  | mem :: mems' =>
      k ← kind mem;
      go ← (if decide (k = Usable) then a ← addr mem; mret (0x100000 <=? a) else mret false);
      if (go : bool) then
        a ← addr mem;
        last_end ← (if last_end <? a then addr mem else mret last_end);
        a ← addr mem;
        l ← len mem;
        this_end ← lift (add 64 a l);
        d ← lift (sub 64 this_end last_end);
        size ← lift (add 64 size d);
        available_loop mems' this_end size
      else available_loop mems' last_end size
  end.

Definition available_mem_size : M S Z :=
  mems ← get_memlayout;
  available_loop mems 0 0.
End code.

(** [addr & (!((1 << 12) - 1))]. *)
Definition pg_round_down `{Platform} (addr : Z) : result Z :=
  one ← shl 32 1 12;
  m ← sub 32 one 1;
  Ok (Z.land addr (not_w 32 m)).

(** ** The map as a value *)

Record region := MkRegion { r_addr : Z; r_len : Z; r_kind : MemLayoutKind }.

Definition r_end (r : region) : Z := r_addr r + r_len r.

Definition region_ok (r : region) : Prop := r_addr r ∈u 64 /\ r_len r ∈u 64.

Definition region_bytes (r : region) : list Z :=
  le_bytes 8 (r_addr r) ++ le_bytes 8 (r_len r) ++ le_bytes 4 (kind_as_u32 (r_kind r)).

(** Memory holds the map the loader built: the entry count and the entries. *)
Definition holds_map (h : Hw) (rs : list region) : Prop :=
  bytes_at h 0xc0020204 (le_bytes 4 (Z.of_nat (length rs)) ++ concat (map region_bytes rs)) /\
  Z.of_nat (length rs) ∈u 32 /\ Forall region_ok rs.

(** The regions that count. *)
Definition counted (r : region) : bool :=
  bool_decide (r_kind r = Usable) && (0x100000 <=? r_addr r).

(** The loop on the map as a value, in 64-bit arithmetic. *)
Fixpoint available_ref `{Platform} (rs : list region) (last_end size : Z) : result Z :=
  match rs with
  | [] => Ok size
  | r :: rs' =>
      if counted r then
        let last_end := if last_end <? r_addr r then r_addr r else last_end in
        this_end ← add 64 (r_addr r) (r_len r);
        d ← sub 64 this_end last_end;
        size ← add 64 size d;
        available_ref rs' this_end size
      else available_ref rs' last_end size
  end.

Section reading.
Context `{Platform} {S : Type}.
Implicit Types (s : S) (h : Hw) (r : region).

Lemma kind_roundtrip k : kind_of_u32 (kind_as_u32 k) = Some k.
Proof. by destruct k. Qed.

Lemma length_region_bytes r : length (region_bytes r) = 20%nat.
Proof. unfold region_bytes. by rewrite !length_app, !length_le_bytes. Qed.

(** The accessors read a region back. *)
Lemma accessors_run r a s h :
  region_ok r -> bytes_at h a (region_bytes r) ->
  addr a s h = (Ok (r_addr r), (s, h)) /\ len a s h = (Ok (r_len r), (s, h)) /\
  kind a s h = (Ok (r_kind r), (s, h)).
Proof.
  intros [Ha Hl] Hb. unfold region_bytes in Hb. rewrite !bytes_at_app, !length_le_bytes in Hb.
  destruct Hb as (Hba & Hbl & Hbk). split_and!.
  - by apply load_le_run.
  - by apply load_le_run.
  - unfold kind. replace (a + Z.of_nat 8 + Z.of_nat 8) with (a + 16) in Hbk by lia.
    eapply run_bind_eq; [eapply load_le_run; [done|]|by rewrite kind_roundtrip].
    destruct (r_kind r); split; done.
Qed.

Definition region_ptrs (base : Z) (rs : list region) : list Z :=
  map (fun i => base + MEMLAYOUT_SIZE * i) (seqZ 0 (Z.of_nat (length rs))).

Lemma region_ptrs_cons base r rs :
  region_ptrs base (r :: rs) = base :: region_ptrs (base + MEMLAYOUT_SIZE) rs.
Proof.
  unfold region_ptrs. cbn [length]. rewrite seqZ_cons by lia. cbn [map].
  rewrite Z.mul_0_r, Z.add_0_r. f_equal.
  replace (Z.pred (Z.of_nat (Datatypes.S (length rs)))) with (Z.of_nat (length rs)) by lia.
  change (Z.succ 0) with (0 + 1). rewrite <- (fmap_add_seqZ 1 0).
  rewrite <- list_fmap_compose. apply list_fmap_ext. intros i x _. simpl.
  unfold MEMLAYOUT_SIZE. lia.
Qed.

Lemma get_memlayout_run rs s h :
  holds_map h rs -> get_memlayout s h = (Ok (region_ptrs 0xc0020208 rs), (s, h)).
Proof.
  intros (Hb & Hl & _). apply bytes_at_app in Hb as [Hb _].
  unfold get_memlayout, get_memlayout_buflen.
  eapply run_bind_eq; [by apply load_le_run|done].
Qed.

Lemma available_loop_run rs base le sz s h :
  Forall region_ok rs -> bytes_at h base (concat (map region_bytes rs)) ->
  available_loop (region_ptrs base rs) le sz s h = (available_ref rs le sz, (s, h)).
Proof.
  intros Hok. revert base le sz. induction Hok as [|r rs Hr Hok IH]; intros base le sz Hb; [done|].
  rewrite region_ptrs_cons. cbn [map concat] in Hb. rewrite bytes_at_app, length_region_bytes in Hb.
  destruct Hb as [Hbr Hb]. destruct (accessors_run r base s h Hr Hbr) as (Ha & Hl & Hk).
  cbn [available_loop available_ref]. run_step Hk. unfold counted.
  case_bool_decide; cbn [andb].
  - rewrite decide_True by done. eapply run_bind_eq; [run_step Ha; done|].
    destruct (0x100000 <=? r_addr r); [|by apply IH].
    run_step Ha. eapply run_bind_eq with (a := if le <? r_addr r then r_addr r else le).
    { by destruct (le <? r_addr r). }
    run_step Ha. run_step Hl.
    do 3 (apply run_bind_pure; intros ? _). by apply IH.
  - rewrite decide_False by done. run_step eq_refl. by apply IH.
Qed.

Lemma available_mem_size_run rs s h :
  holds_map h rs -> available_mem_size s h = (available_ref rs 0 0, (s, h)).
Proof.
  intros Hm. unfold available_mem_size. run_step get_memlayout_run; [done|].
  destruct Hm as (Hb & _ & Hok). apply bytes_at_app in Hb as [_ Hb].
  rewrite length_le_bytes in Hb. by apply available_loop_run.
Qed.
End reading.

(** ** The size is the number of usable addresses *)

Definition in_region (r : region) (a : Z) : bool :=
  counted r && (r_addr r <=? a) && (a <? r_end r).

Definition covered (rs : list region) (a : Z) : bool := existsb (fun r => in_region r a) rs.

(** Starts and ends do not decrease along the counted regions: sorted, and no
    region nested inside an earlier one. *)
Definition in_order (r r' : region) : Prop := r_addr r <= r_addr r' /\ r_end r <= r_end r'.

Definition map_sorted (rs : list region) : Prop :=
  StronglySorted in_order (List.filter counted rs).

Section counting.
Context `{Platform}.
Implicit Types (r : region) (rs : list region).

(** Counting from [le] on: the part of the first region beyond [le], and what
    the others cover beyond its end. *)
Lemma cnt_first r rs le B :
  counted r = true -> 0 <= le <= r_end r -> r_addr r <= r_end r -> r_end r <= B ->
  Forall (fun r' => counted r' = true -> r_addr r <= r_addr r') rs ->
  cnt (covered (r :: rs)) le B =
    (r_end r - Z.max le (r_addr r)) + cnt (covered rs) (r_end r) B.
Proof.
  intros Hc ??? Hall. rewrite (cnt_split _ le (r_end r) B) by lia. f_equal.
  - rewrite (cnt_split _ le (Z.max le (r_addr r)) (r_end r)) by lia.
    rewrite (cnt_ext _ (fun _ => false)), cnt_const by
      (try (intros a ?; unfold covered; rewrite <- not_true_iff_false, existsb_exists;
        intros (r' & Hin & Hr'); unfold in_region in Hr';
        apply andb_true_iff in Hr' as [[Hc' Ha']%andb_true_iff Hb'];
        apply Z.leb_le in Ha'; apply Z.ltb_lt in Hb';
        destruct Hin as [->|Hin]; [lia|];
        rewrite List.Forall_forall in Hall; specialize (Hall _ Hin Hc')); lia).
    rewrite (cnt_ext _ (fun _ => true)), cnt_const; [lia|lia|].
    intros a ?. unfold covered, existsb. rewrite orb_true_iff. left.
    unfold in_region. rewrite Hc. simpl.
    destruct (Z.leb_spec (r_addr r) a); [|lia]. by destruct (Z.ltb_spec a (r_end r)); [|lia].
  - apply cnt_ext. intros a ?. unfold covered. cbn [existsb].
    replace (in_region r a) with false; [done|]. symmetry. unfold in_region.
    apply andb_false_iff. right. apply Z.ltb_ge. lia.
Qed.

Lemma available_ref_spec rs le sz B :
  map_sorted rs ->
  Forall (fun r => counted r = true -> region_ok r /\ le <= r_end r <= B) rs ->
  0 <= le <= B -> B < 2 ^ 64 -> 0 <= sz -> sz + (B - le) < 2 ^ 64 ->
  available_ref rs le sz = Ok (sz + cnt (covered rs) le B).
Proof.
  revert le sz. induction rs as [|r rs IH]; intros le sz Hs Hall Hle HB Hsz Hb; simpl.
  - rewrite (cnt_ext _ (fun _ => false)), cnt_const by (done || lia). f_equal. lia.
  - unfold map_sorted in Hs. cbn [List.filter] in Hs. apply Forall_cons in Hall as [Hr Hall].
    destruct (counted r) eqn:Hc.
    + destruct (Hr eq_refl) as [[[??] [??]] Hend]. apply StronglySorted_inv in Hs as [Hs Hord].
      assert (forall r', r' ∈ rs -> counted r' = true -> in_order r r') as Hin.
      { intros r' Hr' Hc'. rewrite Stdlib.Lists.List.Forall_forall in Hord. apply Hord.
        apply filter_In. split; [by apply list_elem_of_In|done]. }
      rewrite (cnt_first r rs le B); try (unfold r_end in *; lia); [|done|].
      2: { apply Forall_forall. intros r' Hr' Hc'. by apply Hin. }
      set (le' := if le <? r_addr r then r_addr r else le).
      assert (le' = Z.max le (r_addr r)) as Hle' by (subst le'; destruct (Z.ltb_spec le (r_addr r)); lia).
      assert (r_addr r + r_len r = r_end r) as He by done. unfold r_end in Hend.
      ok_step add_ok by (split; lia). ok_step sub_ok by (rewrite Hle'; split; lia).
      ok_step add_ok by (rewrite Hle'; split; lia). rewrite He, Hle'.
      rewrite IH; [f_equal; lia|done| |lia..].
      apply Forall_forall. intros r' Hr' Hc'. rewrite Forall_forall in Hall.
      destruct (Hall r' Hr' Hc') as [? [??]]. split; [done|]. split; [|done].
      by apply Hin.
    + rewrite IH; [|done..]. do 2 f_equal. apply cnt_ext. intros a _. unfold covered.
      cbn [existsb]. unfold in_region at 2. by rewrite Hc.
Qed.

(** No usable address below 1 MiB counts. *)
Lemma covered_low rs a : a < 0x100000 -> covered rs a = false.
Proof.
  intros Ha. apply not_true_iff_false. unfold covered. rewrite existsb_exists. intros (r & _ & Hr).
  unfold in_region, counted in Hr. apply andb_true_iff in Hr as [[[_ Hc]%andb_true_iff Hl]%andb_true_iff _].
  apply Z.leb_le in Hc, Hl. lia.
Qed.

(** The usable memory starts at 1 MiB and has no hole. *)
Definition contiguous rs : Prop :=
  forall x y, 0x100000 <= x <= y -> covered rs y = true -> covered rs x = true.

Lemma cnt_covered rs B :
  0x100000 <= B -> cnt (covered rs) 0 B = cnt (covered rs) 0x100000 B.
Proof.
  intros HB. rewrite (cnt_split _ 0 0x100000 B) by lia.
  rewrite (cnt_ext _ (fun _ => false) 0), cnt_const; [done|lia|]. intros; apply covered_low; lia.
Qed.

Lemma cnt_covered_low rs B : 0 <= B <= 0x100000 -> cnt (covered rs) 0 B = 0.
Proof.
  intros HB. rewrite (cnt_ext _ (fun _ => false)), cnt_const by (lia || (intros; apply covered_low; lia)). done.
Qed.

(** Then the first [n] bytes from 1 MiB on are usable, for every [n] up to the count. *)
Lemma contiguous_covered rs B n x :
  0 <= B -> contiguous rs -> n <= cnt (covered rs) 0 B -> 0x100000 <= x < 0x100000 + n -> covered rs x = true.
Proof.
  intros HB Hcon Hn Hx. destruct (covered rs x) eqn:Hc; [done|]. exfalso.
  destruct (Z.le_gt_cases 0x100000 B); [|rewrite cnt_covered_low in Hn by lia; lia].
  rewrite cnt_covered in Hn by done. destruct (Z.le_gt_cases B x).
  - pose proof (cnt_bounds (covered rs) 0x100000 B ltac:(lia)). lia.
  - rewrite (cnt_split _ 0x100000 x B) in Hn by lia.
    rewrite (cnt_ext _ (fun _ => false) x), cnt_const in Hn; [|lia|].
    + pose proof (cnt_bounds (covered rs) 0x100000 x ltac:(lia)). lia.
    + intros y Hy. apply not_true_iff_false. intros Hcy. rewrite (Hcon x y) in Hc; [done|lia|done].
Qed.

Lemma covered_spec rs a :
  covered rs a = true <-> exists r, r ∈ rs /\ counted r = true /\ r_addr r <= a < r_end r.
Proof.
  unfold covered. rewrite existsb_exists. unfold in_region. split.
  - intros (r & Hr%list_elem_of_In & [[Hc Hl%Z.leb_le]%andb_true_iff Hu%Z.ltb_lt]%andb_true_iff). by exists r.
  - intros (r & Hr%list_elem_of_In & Hc & Hl & Hu). exists r. split; [done|]. rewrite Hc. cbn.
    apply andb_true_iff. by rewrite Z.leb_le, Z.ltb_lt.
Qed.

(** Only the counted regions matter. *)
Lemma available_ref_filter rs le sz : available_ref rs le sz = available_ref (List.filter counted rs) le sz.
Proof.
  revert le sz. induction rs as [|r rs IH]; intros le sz; [done|]. cbn [List.filter].
  destruct (counted r) eqn:Hc; cbn [available_ref]; rewrite Hc; [|by apply IH].
  destruct (add 64 _ _); cbn; try done. destruct (sub 64 _ _); cbn; try done. by destruct (add 64 _ _); cbn.
Qed.

Lemma covered_filter rs a : covered (List.filter counted rs) a = covered rs a.
Proof.
  apply eq_true_iff_eq. rewrite !covered_spec. split; intros (r & Hr & Hc & Ha); exists r; (split; [|done]).
  - by apply list_elem_of_In, filter_In in Hr as [Hr%list_elem_of_In _].
  - apply list_elem_of_In, filter_In. by apply list_elem_of_In in Hr.
Qed.

(** One counted region from [le] on. *)
Lemma available_ref_step r rs le sz :
  counted r = true -> region_ok r -> 0 <= le <= r_end r -> r_end r < 2 ^ 64 -> 0 <= sz ->
  sz + (r_end r - le) < 2 ^ 64 ->
  available_ref (r :: rs) le sz = available_ref rs (r_end r) (sz + (r_end r - Z.max le (r_addr r))).
Proof.
  intros Hc [[??] [??]] Hle He Hsz Hb. cbn [available_ref]. rewrite Hc.
  set (le' := if le <? r_addr r then r_addr r else le).
  assert (le' = Z.max le (r_addr r)) as Hle' by (subst le'; destruct (Z.ltb_spec le (r_addr r)); lia).
  unfold r_end in *. ok_step add_ok by (split; lia). ok_step sub_ok by (rewrite Hle'; split; lia).
  ok_step add_ok by (rewrite Hle'; split; lia). by rewrite Hle'.
Qed.

(** A sorted run of regions up to [r1]. *)
Lemma available_ref_prefix pre r1 rest le sz :
  Forall (fun r => counted r = true /\ region_ok r /\ le <= r_end r) (pre ++ [r1]) ->
  StronglySorted in_order (pre ++ [r1]) -> 0 <= le -> r_end r1 < 2 ^ 64 -> 0 <= sz ->
  sz + (r_end r1 - le) < 2 ^ 64 ->
  available_ref (pre ++ r1 :: rest) le sz =
    available_ref rest (r_end r1) (sz + cnt (covered (pre ++ [r1])) le (r_end r1)).
Proof.
  revert le sz. induction pre as [|r pre IH]; intros le sz Hall Hs Hle He Hsz Hb; cbn [app] in *.
  - apply Forall_cons in Hall as [(Hc & Hok & Hend) _]. rewrite available_ref_step by (done || lia).
    do 2 f_equal. destruct Hok as [[??] [??]].
    rewrite (cnt_first r1 [] le (r_end r1)); [|done|lia|unfold r_end; lia|lia|done].
    rewrite (cnt_ext _ (fun _ => false)), cnt_const by (done || lia). lia.
  - apply Forall_cons in Hall as [(Hc & Hok & Hend) Hall]. apply StronglySorted_inv in Hs as [Hs Hord].
    rewrite Stdlib.Lists.List.Forall_forall in Hord.
    assert (in_order r r1) as [_ Hr1] by (apply Hord, in_app_iff; right; by left).
    rewrite available_ref_step by (done || lia). destruct Hok as [[??] [??]].
    rewrite IH; try done; try lia.
    + f_equal. rewrite (cnt_first r (pre ++ [r1]) le (r_end r1)); [lia|done|lia|unfold r_end; lia|lia|].
      apply Forall_forall. intros r' Hr' _. apply Hord. by apply list_elem_of_In.
    + apply Forall_forall. intros r' Hr'. rewrite Forall_forall in Hall. destruct (Hall r' Hr') as (? & ? & _).
      split_and!; [done|done|]. apply Hord. by apply list_elem_of_In.
    + unfold r_end in *. lia.
Qed.

(** *** A region nested in the one before it *)

Lemma map_sorted_counted rs :
  (forall r, r ∈ rs -> counted r = true) -> map_sorted rs -> StronglySorted in_order rs.
Proof.
  intros Hc. unfold map_sorted. enough (List.filter counted rs = rs) as -> by done.
  induction rs as [|r rs IH]; [done|]. cbn. rewrite Hc by by left. f_equal. apply IH. intros ? ?. apply Hc. by right.
Qed.

Lemma sorted_last pre r1 r : StronglySorted in_order (pre ++ [r1]) -> r ∈ pre ++ [r1] -> r_end r <= r_end r1.
Proof.
  induction pre as [|r0 pre IH]; cbn [app]; intros Hs Hr.
  - apply list_elem_of_singleton in Hr as ->. lia.
  - apply StronglySorted_inv in Hs as [Hs Hord]. apply elem_of_cons in Hr as [->|Hr]; [|by apply IH].
    rewrite Stdlib.Lists.List.Forall_forall in Hord. apply Hord, in_app_iff. right. by left.
Qed.

Lemma nested_step r1 r2 post sz :
  counted r2 = true -> region_ok r1 -> region_ok r2 -> r_addr r1 <= r_addr r2 -> r_end r2 < r_end r1 ->
  r_end r1 < 2 ^ 64 -> r_end r1 - r_end r2 <= sz < 2 ^ 64 ->
  available_ref (r2 :: post) (r_end r1) sz =
    if overflow_checks then Panic Overflow else available_ref post (r_end r2) (sz - (r_end r1 - r_end r2)).
Proof.
  intros Hc [[??] [??]] [[??] [??]] Ha He Hb Hsz. cbn [available_ref]. rewrite Hc.
  destruct (Z.ltb_spec (r_end r1) (r_addr r2)) as [|_]; [unfold r_end in *; lia|].
  unfold r_end in *. ok_step add_ok by (split; lia).
  unfold sub, arith at 1. rewrite decide_False by (unfold uint; lia).
  destruct overflow_checks eqn:Hoc; [done|]. cbn. unfold add, arith.
  assert (wrap 64 (r_addr r2 + r_len r2 - (r_addr r1 + r_len r1)) =
    r_addr r2 + r_len r2 - (r_addr r1 + r_len r1) + 2 ^ 64) as ->.
  { unfold wrap. symmetry. apply (Z.mod_unique_pos _ _ (-1)); lia. }
  rewrite decide_False by (unfold uint; lia). rewrite Hoc. cbn. f_equal. unfold wrap.
  symmetry. apply (Z.mod_unique_pos _ _ 1); lia.
Qed.

(** The outer region covers what lies behind the inner one. *)
Lemma nested_tail pre r1 r2 :
  counted r1 = true -> r_addr r1 <= r_addr r2 -> 0 <= r_addr r2 <= r_end r2 -> r_end r2 < r_end r1 ->
  (forall a, r_end r2 <= a < r_end r1 -> covered (pre ++ [r1]) a = true) /\
  r_end r1 - r_end r2 <= cnt (covered (pre ++ [r1])) 0 (r_end r1) <= r_end r1.
Proof.
  intros Hc Ha Hr2 He.
  assert (forall a, r_end r2 <= a < r_end r1 -> covered (pre ++ [r1]) a = true) as Htail.
  { intros a Hra. apply covered_spec. exists r1. split; [list_member|]. split; [done|lia]. }
  split; [exact Htail|]. rewrite (cnt_split _ 0 (r_end r2) (r_end r1)) by lia.
  rewrite (cnt_ext _ (fun _ => true) (r_end r2)), cnt_const by (lia || auto).
  pose proof (cnt_bounds (covered (pre ++ [r1])) 0 (r_end r2) ltac:(lia)). lia.
Qed.

Lemma nested_count pre r1 r2 post B :
  (forall r, r ∈ pre -> r_end r <= r_end r1) -> (forall r, r ∈ post -> r_addr r2 <= r_addr r) ->
  counted r1 = true -> 0 <= r_addr r1 <= r_addr r2 -> r_addr r2 <= r_end r2 -> r_end r2 < r_end r1 <= B ->
  let all := covered (pre ++ r1 :: r2 :: post) in
  cnt (covered (pre ++ [r1])) 0 (r_end r1) - (r_end r1 - r_end r2) + cnt (covered post) (r_end r2) B =
    cnt all 0 B - cnt (fun a => negb (covered post a)) (r_end r2) (r_end r1).
Proof.
  intros Hpre Hpost Hc1 Ha Hr2 He all.
  destruct (nested_tail pre r1 r2) as [Htail _]; [done|lia..|].
  assert (forall a, covered (pre ++ [r1]) a = true -> all a = true) as Hmore.
  { intros a (r & Hr & Hra)%covered_spec. apply covered_spec. exists r. split; [list_member|done]. }
  rewrite (cnt_split (covered (pre ++ [r1])) 0 (r_end r2) (r_end r1)), (cnt_split all 0 (r_end r2) B),
    (cnt_split all (r_end r2) (r_end r1) B), (cnt_split (covered post) (r_end r2) (r_end r1) B) by lia.
  rewrite (cnt_ext (covered (pre ++ [r1])) (fun _ => true) (r_end r2)), (cnt_ext all (fun _ => true) (r_end r2)),
    !cnt_const by (lia || auto).
  rewrite (cnt_ext all (covered (pre ++ [r1])) 0 (r_end r2)); cycle 1.
  { intros a Hra. apply eq_true_iff_eq. split; [|apply Hmore]. intros (r & Hr & Hc & Hl)%covered_spec.
    apply elem_of_app in Hr as [Hr|[->|[->|Hr]%elem_of_cons]%elem_of_cons]; apply covered_spec;
      [exists r; split; [list_member|done]|exists r1..]; (split; [list_member|]); (split; [done|]); [lia..|].
    specialize (Hpost r Hr). lia. }
  rewrite (cnt_ext all (covered post) (r_end r1) B); cycle 1.
  { intros a Hra. apply eq_true_iff_eq. unfold all. rewrite !covered_spec. split; intros (r & Hr & Hc & Hl); exists r; (split; [|done]).
    - apply elem_of_app in Hr as [Hr|[->|[->|Hr]%elem_of_cons]%elem_of_cons]; [|lia..|done].
      specialize (Hpre r Hr). lia.
    - list_member. }
  pose proof (cnt_negb (covered post) (r_end r2) (r_end r1) ltac:(lia)). lia.
Qed.
End counting.

Section size_run.
Context `{Platform} {S : Type}.
Implicit Types (s : S) (h : Hw) (rs : list region).

Lemma available_mem_size_ok rs s h (B : Z) :
  holds_map h rs -> map_sorted rs -> 0 <= B < 2 ^ 64 ->
  Forall (fun r => counted r = true -> r_end r <= B) rs ->
  available_mem_size s h = (Ok (cnt (covered rs) 0 B), (s, h)).
Proof.
  intros Hm Hs HB Hends. pose proof Hm as (_ & _ & Hok).
  rewrite (available_mem_size_run rs) by done.
  rewrite (available_ref_spec rs 0 0 B); try done; try lia.
  apply Forall_forall. intros r Hr Hc. rewrite Forall_forall in Hok, Hends.
  destruct (Hok r Hr) as [[??] [??]]. split; [by split|]. split; [unfold r_end; lia|].
  by apply Hends.
Qed.
End size_run.

(** ** Properties *)
Section properties.
Context `{Platform} {S : Type}.
Implicit Types (s : S) (h : Hw) (rs : list region).

(** The map the loader wrote is the map the kernel reads: there is one
    pointer per entry, in order, and the packed accessors of each return the
    address, length and kind that were encoded, without touching the
    state. *)
Theorem memlayout_roundtrip rs s h :
  holds_map h rs ->
  exists ptrs, get_memlayout s h = (Ok ptrs, (s, h)) /\ length ptrs = length rs /\
    forall i r, rs !! i = Some r -> exists p, ptrs !! i = Some p /\
      addr p s h = (Ok (r_addr r), (s, h)) /\ len p s h = (Ok (r_len r), (s, h)) /\
      kind p s h = (Ok (r_kind r), (s, h)).
Proof.
  intros Hm. exists (region_ptrs 0xc0020208 rs). split; [by apply get_memlayout_run|].
  destruct Hm as (Hb & _ & Hok). apply bytes_at_app in Hb as [_ Hb].
  rewrite length_le_bytes in Hb.
  change (0xc0020204 + Z.of_nat 4) with 0xc0020208 in Hb. revert Hb. generalize 0xc0020208.
  induction Hok as [|r rs Hr Hok IH]; intros base Hb; [done|].
  rewrite region_ptrs_cons. cbn [map concat length] in *.
  rewrite bytes_at_app, length_region_bytes in Hb. destruct Hb as [Hbr Hb].
  destruct (IH _ Hb) as [Hl Hi]. split; [by f_equal|].
  intros [|i] r' Hr'; simplify_eq/=; [|by apply Hi].
  exists base. split; [done|]. by apply accessors_run.
Qed.

(** C19: On a map whose usable regions above 1 MiB are sorted and not nested
    and end below 2^64, [available_mem_size] never overflows and is the
    number of addresses that lie in some usable region at or above 1 MiB:
    overlaps are counted once, holes and lower memory not at all. *)
Theorem available_mem_size_counts rs s h (B : Z) :
  holds_map h rs -> map_sorted rs -> 0 <= B < 2 ^ 64 ->
  Forall (fun r => counted r = true -> r_end r <= B) rs ->
  available_mem_size s h = (Ok (cnt (covered rs) 0 B), (s, h)).
Proof. apply available_mem_size_ok. Qed.

(** C37: Nesting breaks the count.  On any map whose counted regions [pre ++ r1]
    are in order and whose next one, [r2], ends before [r1] does, whatever
    regions follow, a debug build panics: the subtraction overflows.  In a
    release build, with the regions from [r2] on in order, the result is
    short of the number of usable addresses by exactly those between the ends of
    [r2] and [r1] that no later region covers. *)
Theorem available_mem_size_nested rs pre r1 r2 post s h (B : Z) :
  holds_map h rs -> List.filter counted rs = pre ++ r1 :: r2 :: post ->
  map_sorted (pre ++ [r1]) -> r_addr r1 <= r_addr r2 -> r_end r2 < r_end r1 ->
  0 <= B < 2 ^ 64 -> Forall (fun r => counted r = true -> r_end r <= B) rs ->
  if overflow_checks then available_mem_size s h = (Panic Overflow, (s, h))
  else map_sorted (r2 :: post) ->
    available_mem_size s h =
      (Ok (cnt (covered rs) 0 B - cnt (fun a => negb (covered post a)) (r_end r2) (r_end r1)), (s, h)).
Proof.
  intros Hm Hf Hs1 Ha He HB Hends. pose proof Hm as (_ & _ & Hok).
  rewrite (available_mem_size_run rs), available_ref_filter, Hf by done.
  assert (forall r, r ∈ pre ++ r1 :: r2 :: post -> counted r = true /\ region_ok r /\ r_end r <= B) as Hall.
  { intros r Hr. rewrite <- Hf in Hr. apply list_elem_of_In, filter_In in Hr as [Hr%list_elem_of_In Hc].
    rewrite Forall_forall in Hok, Hends. auto. }
  apply map_sorted_counted in Hs1; [|intros r Hr; apply Hall; list_member].
  assert (forall r, r ∈ pre ++ [r1] -> counted r = true /\ region_ok r /\ 0 <= r_end r /\ r_end r <= r_end r1) as Hpre.
  { intros r Hr. destruct (Hall r) as (Hc & Hr_ok & _); [list_member|]. split_and!; [done|done| |].
    - destruct Hr_ok as [[??] [??]]. unfold r_end. lia.
    - by eapply sorted_last. }
  destruct (Hall r1) as (Hc1 & Hok1 & Hb1); [list_member|]. destruct (Hall r2) as (Hc2 & Hok2 & _); [list_member|].
  rewrite available_ref_prefix; [|apply Forall_forall; intros r Hr; destruct (Hpre r Hr) as (?&?&?&_); done|done|lia..].
  assert (0 <= r_addr r1 /\ r_addr r2 <= r_end r2) as [? ?] by (destruct Hok1 as [[??] _], Hok2 as [_ [??]]; unfold r_end; lia).
  destruct (nested_tail pre r1 r2) as [_ Htail]; [done|lia..|].
  rewrite Z.add_0_l, nested_step by (done || lia). destruct overflow_checks; [done|]. intros Hs2.
  pose proof Hs2 as Hs3. unfold map_sorted in Hs3. cbn [List.filter] in Hs3. rewrite Hc2 in Hs3.
  apply StronglySorted_inv in Hs3 as [Hs3 _].
  apply map_sorted_counted in Hs2; [|intros r Hr; apply Hall; list_member].
  apply StronglySorted_inv in Hs2 as [_ Hord]. rewrite Stdlib.Lists.List.Forall_forall in Hord.
  assert (forall r, r ∈ post -> in_order r2 r) as Hpost by (intros r Hr; by apply Hord, list_elem_of_In).
  rewrite (available_ref_spec post (r_end r2) _ B Hs3); [|apply Forall_forall; intros r Hr _|lia..].
  - do 2 f_equal. rewrite (nested_count pre r1 r2 post B); [|intros r Hr; apply Hpre; list_member|by intros r []%Hpost|done|lia..].
    f_equal. apply cnt_ext. intros a _. by rewrite <- Hf, covered_filter.
  - destruct (Hall r) as (_ & ? & ?); [list_member|]. split_and!; [done|by apply Hpost|done].
Qed.

Lemma pg_round_down_run (a : Z) : a ∈u 32 -> pg_round_down a = Ok (a / 4096 * 4096).
Proof.
  intros Ha. unfold pg_round_down. ok_step shl_ok by lia. change (wrap 32 (Z.shiftl 1 12)) with 4096.
  ok_step sub_ok by (split; lia). f_equal.
  assert (Z.land a (not_w 32 (4096 - 1)) = Z.shiftl (Z.shiftr a 12) 12) as ->.
  { change (4096 - 1) with (Z.ones 12). apply Z.bits_inj'. intros i ?.
    autorewrite with bits. destruct (Z.leb_spec 12 i); simpl.
    - rewrite Z.shiftr_spec, Z.sub_add by lia. rewrite Z.ones_spec_high by lia. simpl.
      destruct (Z.ltb_spec i 32); simpl; [by rewrite andb_true_r|].
      rewrite andb_false_r. by rewrite (testbit_uint_high 32 a) by (done || lia).
    - rewrite Z.ones_spec_low by lia. simpl. by rewrite !andb_false_r. }
  by rewrite Z.shiftl_mul_pow2, Z.shiftr_div_pow2 by lia.
Qed.

(** [pg_round_down] is the largest page boundary at or below the
    address. *)
Theorem pg_round_down_spec (a : Z) :
  a ∈u 32 ->
  exists p, pg_round_down a = Ok p /\ p mod 4096 = 0 /\ p <= a < p + 4096.
Proof. intros Ha. exists (a / 4096 * 4096). split; [by apply pg_round_down_run|]. zlia. Qed.
End properties.

(** A machine with 640 KiB low memory, a hole, 31 MiB of memory from 1 MiB on,
    and an overlapping second report of its last MiB. *)
Definition example_map : list region :=
  [MkRegion 0 0xa0000 Usable; MkRegion 0xf0000 0x10000 Reserved;
   MkRegion 0x100000 0x1f00000 Usable; MkRegion 0x1f00000 0x100000 Usable].

Definition map_hw (rs : list region) : Hw :=
  set_mem (mem_of 0xc0020204 (le_bytes 4 (Z.of_nat (length rs)) ++ concat (map region_bytes rs)) ∪ ∅)
    (MkHw ∅ [] [] 8 0 0 None false).

Lemma map_hw_holds rs :
  Z.of_nat (length rs) ∈u 32 -> Forall region_ok rs -> holds_map (map_hw rs) rs.
Proof. intros Hl Hok. split; [apply bytes_at_mem_of|by split]. Qed.

Lemma example_map_holds : holds_map (map_hw example_map) example_map.
Proof.
  apply map_hw_holds; [by split|]. repeat constructor; vm_compute; (discriminate || reflexivity).
Qed.

(** More memory above the map leaves it in place. *)
Lemma holds_map_extend h rs p bytes :
  holds_map h rs ->
  0xc0020204 + Z.of_nat (length (le_bytes 4 (Z.of_nat (length rs)) ++ concat (map region_bytes rs))) <= p ->
  holds_map (set_mem (mem_of p bytes ∪ mem h) h) rs.
Proof.
  intros [Hb Hrest] Hp. split; [|done]. intros i b Hi. cbn [mem set_mem].
  rewrite lookup_union_r; [by apply Hb|]. apply lookup_mem_of_lt.
  apply lookup_lt_Some in Hi. lia.
Qed.

Lemma memlayout_roundtrip_witness :
  exists ptrs p, get_memlayout tt (map_hw example_map) = (Ok ptrs, (tt, map_hw example_map)) /\
    ptrs !! 1%nat = Some p /\ kind p tt (map_hw example_map) = (Ok Reserved, (tt, map_hw example_map)).
Proof.
  destruct (@memlayout_roundtrip unit example_map tt (map_hw example_map) example_map_holds)
    as (ptrs & Hrun & _ & Hi).
  destruct (Hi 1%nat (MkRegion 0xf0000 0x10000 Reserved) eq_refl) as (p & Hp & _ & _ & Hk).
  exists ptrs, p. split; [exact Hrun|]. split; [exact Hp|exact Hk].
Defined.

Lemma available_mem_size_counts_witness :
  @available_mem_size (constant_platform true 0) unit tt (map_hw example_map) =
    (Ok (cnt (covered example_map) 0 0x2000000), (tt, map_hw example_map)).
Proof.
  apply (@available_mem_size_counts (constant_platform true 0) unit example_map tt _ 0x2000000).
  - exact example_map_holds.
  - vm_compute. repeat constructor; discriminate.
  - split; [lia|reflexivity].
  - repeat constructor; vm_compute; discriminate.
Defined.

(** From 1 MiB to 10 MiB, inside it from 2 to 3 MiB, and from 4 to 12 MiB. *)
Definition outer_region : region := MkRegion 0x100000 0x900000 Usable.
Definition inner_region : region := MkRegion 0x200000 0x100000 Usable.
Definition later_region : region := MkRegion 0x400000 0x800000 Usable.
Definition nested_map : list region := [MkRegion 0 0xa0000 Usable; outer_region; inner_region; later_region].

Lemma nested_map_holds : holds_map (map_hw nested_map) nested_map.
Proof.
  apply map_hw_holds; [split; [lia|reflexivity]|].
  repeat constructor; vm_compute; (discriminate || reflexivity).
Qed.

Lemma nested_map_bound : Forall (fun r => counted r = true -> r_end r <= 0xc00000) nested_map.
Proof. repeat constructor; vm_compute; discriminate. Qed.

Lemma one_region_sorted r : map_sorted [r].
Proof. unfold map_sorted. cbn. destruct (counted r); by repeat constructor. Qed.

Lemma nested_later_sorted : map_sorted [inner_region; later_region].
Proof. vm_compute. repeat constructor; discriminate. Qed.

(** The debug build panics; the release build loses 3 to 4 MiB. *)
Lemma available_mem_size_nested_witness :
  @available_mem_size (constant_platform true 0) unit tt (map_hw nested_map) =
    (Panic Overflow, (tt, map_hw nested_map)) /\
  @available_mem_size (constant_platform false 0) unit tt (map_hw nested_map) =
    (Ok (cnt (covered nested_map) 0 0xc00000 -
         cnt (fun a => negb (covered [later_region] a)) (r_end inner_region) (r_end outer_region)),
     (tt, map_hw nested_map)).
Proof.
  split.
  - apply (@available_mem_size_nested (constant_platform true 0) unit nested_map [] outer_region inner_region
      [later_region] tt (map_hw nested_map) 0xc00000).
    + exact nested_map_holds.
    + reflexivity.
    + apply one_region_sorted.
    + vm_compute. discriminate.
    + reflexivity.
    + split; [lia|reflexivity].
    + exact nested_map_bound.
  - apply (@available_mem_size_nested (constant_platform false 0) unit nested_map [] outer_region inner_region
      [later_region] tt (map_hw nested_map) 0xc00000).
    + exact nested_map_holds.
    + reflexivity.
    + apply one_region_sorted.
    + vm_compute. discriminate.
    + reflexivity.
    + split; [lia|reflexivity].
    + exact nested_map_bound.
    + exact nested_later_sorted.
Defined.

Lemma pg_round_down_spec_witness :
  exists p, @pg_round_down (constant_platform true 0) 0xc000eff4 = Ok p /\ p mod 4096 = 0.
Proof.
  destruct (@pg_round_down_spec (constant_platform true 0) 0xc000eff4) as (p & H1 & H2 & _);
    [split; [lia|reflexivity]|].
  exists p. split; [exact H1|exact H2].
Defined.
