(* ===== verification/Bitmap.v ===== *)
(** * The page bitmap: [BitMap] of [mm/page.rs]

    One bit per page in raw memory, read and written through a raw pointer.
    [bm_rep] ties the bytes in memory to a bit function and [bm_frame] says
    that nothing outside the bitmap changed; [contains_ref], [find_ref] and
    [fits] specify the searches.  Every operation is run against them, the
    assertions that fail included. *)
From Stdlib Require Import ZArith Lia.
From stdpp Require Import base tactics numbers list gmap.
From S2P Require Import Prelude.
From S2P Require Import Machine.
From S2P Require Import BitAccess.

Record BitMap := MkBitMap { data_ptr : Z; size : Z }.

(** ** The bitmap *)
Section bitmap.
Context `{Platform} {S : Type}.
Implicit Types (self : BitMap) (idx start len : Z) (val : bool).

Definition bitmap_new (data_ptr size : Z) : M S BitMap :=
  n ← lift (add 32 size 7);
  len ← lift (div n 8);
  _ ← write_bytes_at data_ptr 0 len;
  mret (MkBitMap data_ptr size).

(** The byte of bit [idx], read and written through [data_ptr.offset]. *)
Definition byte_addr self idx : Z := ptr_offset (data_ptr self) (idx / 8).

Definition test self idx : M S bool :=
  _ ← lift (assert (idx <? size self));
  elem ← load8 (byte_addr self idx);
  m ← lift (shl 8 1 (idx mod 8));
  mret (negb (Z.land elem m =? 0)).

Definition clear self idx : M S unit :=
  _ ← lift (assert (idx <? size self));
  val ← load8 (byte_addr self idx);
  m ← lift (shl 8 1 (idx mod 8));
  store8 (byte_addr self idx) (Z.land val (not_w 8 m)).

Definition mark self idx : M S unit :=
  _ ← lift (assert (idx <? size self));
  val ← load8 (byte_addr self idx);
  m ← lift (shl 8 1 (idx mod 8));
  store8 (byte_addr self idx) (Z.lor val m).

Definition flip self idx : M S unit :=
  _ ← lift (assert (idx <? size self));
  val ← load8 (byte_addr self idx);
  m ← lift (shl 8 1 (idx mod 8));
  store8 (byte_addr self idx) (Z.lxor val m).

Definition flips self idx len : M S unit :=
  for_each 0 len (fun i => j ← lift (add 32 idx i); flip self j).

Definition set_ self idx val : M S unit :=
  _ ← lift (assert (idx <? size self));
  if val then mark self idx else clear self idx.

Definition sets self idx len val : M S unit :=
  for_each 0 len (fun i => j ← lift (add 32 idx i); set_ self j val).

Definition contains self start len val : M S bool :=
  r ← for_ret 0 len (fun i =>
        j ← lift (add 32 start i);
        b ← test self j;
        mret (if Bool.eqb b val then Some true else None));
  mret (match r with Some b => b | None => false end).

Definition find self start len val : M S (option Z) :=
  for_ret start (size self) (fun i =>
    c ← contains self i len (negb val);
    mret (if negb c then Some i else None)).

Definition all self start len : M S bool :=
  c ← contains self start len false;
  mret (negb c).

Definition any self start len : M S bool := contains self start len true.
End bitmap.

(** ** Bits in memory *)

(** The bitmap's bytes are mapped and its bits are [f], up to [size]. *)
Definition bm_rep (b : BitMap) (f : Z -> bool) (h : Hw) : Prop :=
  forall i, 0 <= i < size b -> exists v, mem h !! (data_ptr b + i / 8) = Some v /\ v ∈u 8 /\
    Z.testbit v (i mod 8) = f i.

(** The bitmap is inside the 32-bit address space. *)
Definition bm_wf (b : BitMap) : Prop :=
  0 <= data_ptr b /\ 0 <= size b < 2 ^ 32 /\ data_ptr b + (size b + 7) / 8 <= 2 ^ 32.

(** Only the bitmap's own bytes differ between [h] and [h']. *)
Definition bm_frame (b : BitMap) (h h' : Hw) : Prop :=
  exists m, h' = set_mem m h /\
    forall a, ~ (data_ptr b <= a < data_ptr b + (size b + 7) / 8) -> m !! a = mem h !! a.

(** Bit functions that agree on the bitmap. *)
Definition bits_eq (n : Z) (f g : Z -> bool) : Prop := forall i, 0 <= i < n -> f i = g i.

#[export] Instance bits_eq_equiv n : Equivalence (bits_eq n).
Proof.
  split; [by intros f i|intros f g Hfg i ?; by rewrite Hfg|].
  intros f g k H1 H2 i ?. by rewrite H1, H2.
Qed.

#[export] Instance bm_rep_proper b :
  Proper (bits_eq (size b) ==> eq ==> iff) (bm_rep b).
Proof.
  intros f g Hfg h _ <-. split; intros Hr i Hi; destruct (Hr i Hi) as (v & ? & ? & Hv);
    exists v; [rewrite <- Hfg by done|rewrite Hfg by done]; done.
Qed.

(** Flipping one bit, and a run of [len] bits from [i]. *)
Definition flip_bit (i : Z) (f : Z -> bool) (j : Z) : bool := if decide (j = i) then negb (f j) else f j.

Definition flip_run (i len : Z) (f : Z -> bool) (j : Z) : bool :=
  if decide (i <= j < i + len) then negb (f j) else f j.

Section bits.
Context `{Platform} {S : Type}.
Implicit Types (b : BitMap) (f : Z -> bool) (s : S) (h : Hw).

Lemma bm_frame_refl b h : bm_frame b h h.
Proof. exists (mem h). by destruct h. Qed.

Lemma bm_frame_trans b h1 h2 h3 : bm_frame b h1 h2 -> bm_frame b h2 h3 -> bm_frame b h1 h3.
Proof.
  intros (m & -> & Hm) (m' & -> & Hm'). exists m'. split; [done|].
  intros a Ha. simpl in Hm'. by rewrite Hm', Hm.
Qed.

Lemma byte_addr_wf b i : bm_wf b -> 0 <= i < size b -> byte_addr b i = data_ptr b + i / 8.
Proof.
  intros (?&?&?) ?. unfold byte_addr, ptr_offset. apply wrap_small. split; zlia.
Qed.

Lemma bit_mask i : 0 <= i -> shl 8 1 (i mod 8) = Ok (wrap 8 (Z.shiftl 1 (i mod 8))).
Proof. intros. apply shl_ok. zlia. Qed.

Lemma idx_assert b i : 0 <= i < size b -> assert (i <? size b) = Ok tt.
Proof. intros. apply assert_ok, Z.ltb_lt. lia. Qed.

Lemma idx_assert_fail b i : size b <= i -> assert (i <? size b) = Panic AssertFailed.
Proof. intros. by apply assert_fail, Z.ltb_ge. Qed.

Lemma test_run b f i s h :
  bm_wf b -> bm_rep b f h -> 0 <= i < size b -> test b i s h = (Ok (f i), (s, h)).
Proof.
  intros Hwf Hr Hi. destruct (Hr i Hi) as (v & Hv & Hv8 & Hb). unfold test.
  run_lift idx_assert by done. run_step run_load8; [by rewrite byte_addr_wf|].
  run_lift bit_mask by lia. rewrite (land_one_bit 8) by zlia. by rewrite Hb.
Qed.

Lemma test_out b i s h : size b <= i -> test b i s h = (Panic AssertFailed, (s, h)).
Proof.
  intros Hi. unfold test. apply run_bind_panic. unfold lift. by rewrite idx_assert_fail.
Qed.

(** One read-modify-write of the byte of bit [i]: the operation on the byte
    determines the bits, and nothing outside the bitmap changes. *)
Lemma update_byte b f g i v v' s h :
  bm_wf b -> bm_rep b f h -> 0 <= i < size b ->
  mem h !! (data_ptr b + i / 8) = Some v -> v' ∈u 8 ->
  (forall k, 0 <= k < 8 -> Z.testbit v' k = if decide (k = i mod 8) then g i else Z.testbit v k) ->
  (forall j, 0 <= j < size b -> j ≠ i -> g j = f j) ->
  exists h', store8 (byte_addr b i) v' s h = (Ok tt, (s, h')) /\ bm_rep b g h' /\ bm_frame b h h'.
Proof.
  intros Hwf Hr Hi Hv Hv8 Hbits Hg. exists (set_mem (<[data_ptr b + i / 8 := v']> (mem h)) h).
  split_and!.
  - rewrite byte_addr_wf by done. by apply run_store8.
  - intros j Hj. simpl. destruct (decide (j / 8 = i / 8)) as [He|He].
    + exists v'. rewrite He, lookup_insert_eq. split_and!; [done..|].
      rewrite Hbits by zlia. destruct (decide (j = i)) as [->|Hne]; [by rewrite decide_True|].
      rewrite decide_False by zlia. rewrite Hg by done.
      destruct (Hr j Hj) as (w & Hw & _ & Hb). rewrite He, Hv in Hw. by simplify_eq.
    + rewrite lookup_insert_ne by lia. rewrite Hg by (done || congruence). by apply Hr.
  - exists (<[data_ptr b + i / 8 := v']> (mem h)). split; [done|]. intros a Ha.
    apply lookup_insert_ne. intros <-. apply Ha. zlia.
Qed.

Lemma testbit_one_mask i k :
  0 <= i -> 0 <= k < 8 ->
  Z.testbit (wrap 8 (Z.shiftl 1 (i mod 8))) k = bool_decide (k = i mod 8).
Proof.
  intros. pose proof (Z.mod_pos_bound i 8). autorewrite with bits.
  case_bool_decide; repeat (bits_case; simpl); done || lia.
Qed.
End bits.

(** ** The bitmap operations *)
Section bitmap_ops.
Context `{Platform} {S : Type}.
Implicit Types (b : BitMap) (f : Z -> bool) (s : S) (h : Hw).

(** What an update of bit [i] to [v] does. *)
Definition set_bit_fn (i : Z) (v : bool) (f : Z -> bool) (j : Z) : bool :=
  if decide (j = i) then v else f j.

Ltac byte_update := intros k Hk; rewrite ?Z.lxor_spec, ?Z.lor_spec, testbit_one_mask by lia;
  case_decide; case_bool_decide; try done; simplify_eq.

Lemma flip_ok b f i s h :
  bm_wf b -> bm_rep b f h -> 0 <= i < size b ->
  exists h', flip b i s h = (Ok tt, (s, h')) /\ bm_rep b (flip_bit i f) h' /\ bm_frame b h h'.
Proof.
  intros Hwf Hr Hi. destruct (Hr i Hi) as (v & Hv & Hv8 & Hb).
  destruct (update_byte b f (flip_bit i f) i v (Z.lxor v (wrap 8 (Z.shiftl 1 (i mod 8)))) s h)
    as (h' & Hrun & Hr' & Hf); try done.
  - auto with width zarith.
  - unfold flip_bit. byte_update.
    + rewrite decide_True, Hb by done. by rewrite xorb_true_r.
    + by rewrite xorb_false_r.
  - intros j _ Hne. unfold flip_bit. by rewrite decide_False.
  - exists h'. split; [|done]. unfold flip. run_lift idx_assert by done.
    run_step run_load8; [by rewrite byte_addr_wf|]. by run_lift bit_mask by lia.
Qed.

Lemma mark_ok b f i s h :
  bm_wf b -> bm_rep b f h -> 0 <= i < size b ->
  exists h', mark b i s h = (Ok tt, (s, h')) /\ bm_rep b (set_bit_fn i true f) h' /\ bm_frame b h h'.
Proof.
  intros Hwf Hr Hi. destruct (Hr i Hi) as (v & Hv & Hv8 & Hb).
  destruct (update_byte b f (set_bit_fn i true f) i v (Z.lor v (wrap 8 (Z.shiftl 1 (i mod 8)))) s h)
    as (h' & Hrun & Hr' & Hf); try done.
  - auto with width zarith.
  - unfold set_bit_fn. byte_update.
    + rewrite decide_True by done. by rewrite orb_true_r.
    + by rewrite orb_false_r.
  - intros j _ Hne. unfold set_bit_fn. by rewrite decide_False.
  - exists h'. split; [|done]. unfold mark. run_lift idx_assert by done.
    run_step run_load8; [by rewrite byte_addr_wf|]. by run_lift bit_mask by lia.
Qed.

Lemma clear_ok b f i s h :
  bm_wf b -> bm_rep b f h -> 0 <= i < size b ->
  exists h', clear b i s h = (Ok tt, (s, h')) /\ bm_rep b (set_bit_fn i false f) h' /\ bm_frame b h h'.
Proof.
  intros Hwf Hr Hi. destruct (Hr i Hi) as (v & Hv & Hv8 & Hb).
  destruct (update_byte b f (set_bit_fn i false f) i v
    (Z.land v (not_w 8 (wrap 8 (Z.shiftl 1 (i mod 8))))) s h) as (h' & Hrun & Hr' & Hf); try done.
  - apply uint_land; [lia|done|]. apply (uint_not_w 8). lia.
  - intros k Hk. unfold set_bit_fn. rewrite Z.land_spec, testbit_not_w, testbit_one_mask by lia.
    destruct (Z.ltb_spec k 8); [|lia]. case_decide; case_bool_decide; try done; simpl.
    + rewrite decide_True by done. by rewrite andb_false_r.
    + by rewrite andb_true_r.
  - intros j _ Hne. unfold set_bit_fn. by rewrite decide_False.
  - exists h'. split; [|done]. unfold clear. run_lift idx_assert by done.
    run_step run_load8; [by rewrite byte_addr_wf|]. by run_lift bit_mask by lia.
Qed.

(** [set] is [mark] or [clear]. *)
Lemma set_ok b f i v s h :
  bm_wf b -> bm_rep b f h -> 0 <= i < size b ->
  exists h', set_ b i v s h = (Ok tt, (s, h')) /\ bm_rep b (set_bit_fn i v f) h' /\ bm_frame b h h'.
Proof.
  intros Hwf Hr Hi.
  destruct v; [destruct (mark_ok b f i s h) as (h' & Hrun & ?)|
               destruct (clear_ok b f i s h) as (h' & Hrun & ?)]; try done; exists h';
    (split; [|done]); unfold set_; run_lift idx_assert by done; done.
Qed.

Lemma add_ok_wf b i k :
  bm_wf b -> 0 <= i -> 0 <= k -> i + k < size b -> add 32 i k = Ok (i + k).
Proof. intros (_ & [_ ?] & _) ???. apply add_ok. split; lia. Qed.

(** A loop that updates the bits [i..i+len) one by one, each by [upd]. *)
Lemma wp_bit_loop b (op : Z -> M S unit) (upd : Z -> (Z -> bool) -> Z -> bool)
    (run : Z -> Z -> (Z -> bool) -> Z -> bool) f i len s h :
  bm_wf b -> bm_rep b f h -> 0 <= i -> 0 <= len -> i + len <= size b ->
  (forall j f s h, bm_rep b f h -> 0 <= j < size b ->
     exists h', op j s h = (Ok tt, (s, h')) /\ bm_rep b (upd j f) h' /\ bm_frame b h h') ->
  (forall f, bits_eq (size b) (run i 0 f) f) ->
  (forall k f, 0 <= k < len -> bits_eq (size b) (upd (i + k) (run i k f)) (run i (k + 1) f)) ->
  exists h', for_each 0 len (fun k => j ← lift (add 32 i k); op j) s h = (Ok tt, (s, h')) /\
    bm_rep b (run i len f) h' /\ bm_frame b h h'.
Proof.
  intros Hwf Hr Hi Hlen Hb Hop H0 Hs.
  assert (wp (for_each 0 len (fun k => j ← lift (add 32 i k); op j))
    (fun _ s' h' => s' = s /\ bm_rep b (run i len f) h' /\ bm_frame b h h') s h) as Hwp.
  { apply (wp_for_each (fun k (s' : S) h' => s' = s /\ bm_rep b (run i k f) h' /\ bm_frame b h h')).
    - done.
    - split_and!; [done|by rewrite H0|apply bm_frame_refl].
    - intros k s1 h1 Hk (-> & Hr1 & Hf1). wp_ok (add_ok_wf b); [done|lia..|].
      destruct (Hop (i + k) (run i k f) s h1 Hr1) as (h2 & Hrun & Hr2 & Hf2); [lia|].
      apply wp_run. exists tt, s, h2. split_and!; [done|done| |by eapply bm_frame_trans].
      by rewrite <- Hs by lia.
    - auto. }
  apply wp_run in Hwp as ([] & s' & h' & Hrun & -> & ? & ?). by exists h'.
Qed.

Lemma flips_ok b f i len s h :
  bm_wf b -> bm_rep b f h -> 0 <= i -> 0 <= len -> i + len <= size b ->
  exists h', flips b i len s h = (Ok tt, (s, h')) /\ bm_rep b (flip_run i len f) h' /\
    bm_frame b h h'.
Proof.
  intros Hwf Hr Hi Hlen Hb. apply (wp_bit_loop b (flip b) flip_bit flip_run f); try done.
  - intros. by apply flip_ok.
  - intros g j _. unfold flip_run. by rewrite decide_False by lia.
  - intros k g Hk j _. unfold flip_bit, flip_run.
    repeat case_decide; try done; try lia; by rewrite ?negb_involutive.
Qed.

Definition set_run (v : bool) (i len : Z) (f : Z -> bool) (j : Z) : bool :=
  if decide (i <= j < i + len) then v else f j.

Lemma sets_ok b f i len v s h :
  bm_wf b -> bm_rep b f h -> 0 <= i -> 0 <= len -> i + len <= size b ->
  exists h', sets b i len v s h = (Ok tt, (s, h')) /\ bm_rep b (set_run v i len f) h' /\
    bm_frame b h h'.
Proof.
  intros Hwf Hr Hi Hlen Hb.
  apply (wp_bit_loop b (fun j => set_ b j v) (fun j => set_bit_fn j v) (set_run v) f); try done.
  - intros. by apply set_ok.
  - intros g j _. unfold set_run. by rewrite decide_False by lia.
  - intros k g Hk j _. unfold set_bit_fn, set_run. repeat case_decide; done || lia.
Qed.
End bitmap_ops.

(** ** Runs of bits *)
Section run_theorem.
Context `{Platform} {S : Type}.
Implicit Types (b : BitMap) (f : Z -> bool) (s : S) (h : Hw).

Lemma flip_out b i s h : size b <= i -> flip b i s h = (Panic AssertFailed, (s, h)).
Proof.
  intros. apply run_bind_panic. unfold lift. by rewrite idx_assert_fail.
Qed.

(** [flips] on a run: inside the bitmap exactly the bits of the run are
    inverted; a run that leaves the bitmap inverts the bits up to the end and
    then fails the assertion of [flip]; the memory outside the bitmap's bytes
    is untouched in both cases. *)
Theorem bitmap_flips_spec b f (i len : Z) s h :
  bm_wf b -> bm_rep b f h -> 0 <= i <= size b -> 0 <= len ->
  exists h', flips b i len s h =
      (if decide (i + len <= size b) then Ok tt else Panic AssertFailed, (s, h')) /\
    bm_rep b (flip_run i len f) h' /\ bm_frame b h h'.
Proof.
  intros Hwf Hr Hi Hlen. case_decide as Hfit; [apply flips_ok; done || lia|].
  destruct (flips_ok b f i (size b - i) s h) as (h' & Hrun & Hr' & Hf); [done..|lia|lia|lia|].
  exists h'. split_and!; [| |done].
  - unfold flips in *. eapply for_each_panic; [|exact Hrun|]; [lia|].
    pose proof Hwf as (_ & [_ ?] & _). run_lift add_ok by (split; lia). apply flip_out. lia.
  - assert (bits_eq (size b) (flip_run i (size b - i) f) (flip_run i len f)) as <-; [|done].
    intros j ?. unfold flip_run. repeat case_decide; done || lia.
Qed.
End run_theorem.

(** ** The search *)

(** [contains] on a bit function: the first position of [start..start+n) that
    holds [val] ends it, the first one outside the bitmap panics. *)
Fixpoint contains_ref (f : Z -> bool) (size : Z) (val : bool) (start : Z) (n : nat) : result bool :=
  match n with
  | O => Ok false
  | S n' =>
      if start <? size then
        if Bool.eqb (f start) val then Ok true else contains_ref f size val (start + 1) n'
      else Panic AssertFailed
  end.

Fixpoint find_ref (f : Z -> bool) (size : Z) (val : bool) (len : Z) (i : Z) (n : nat) : result (option Z) :=
  match n with
  | O => Ok None
  | S n' =>
      c ← contains_ref f size (negb val) i (Z.to_nat len);
      if negb c then Ok (Some i) else find_ref f size val len (i + 1) n'
  end.

(** The run [i..i+len) lies in the bitmap and all its bits are [val]. *)
Definition fits (f : Z -> bool) (size : Z) (val : bool) (i len : Z) : Prop :=
  forall j, i <= j < i + len -> j < size /\ f j = val.

Section search.
Context `{Platform} {S : Type}.
Implicit Types (b : BitMap) (f : Z -> bool) (s : S) (h : Hw).

Lemma contains_loop b f (val : bool) start n i s h :
  bm_wf b -> bm_rep b f h -> 0 <= start -> 0 <= i -> start + i < 2 ^ 32 ->
  for_ret_n n i (fun i => j ← lift (add 32 start i); t ← test b j;
      mret (if Bool.eqb t val then Some true else None)) s h =
    (c ← contains_ref f (size b) val (start + i) n; Ok (if (c : bool) then Some true else None), (s, h)).
Proof.
  intros Hwf Hr Hs. revert i. induction n as [|n IH]; intros i Hi Hb; [done|].
  cbn [for_ret_n contains_ref].
  destruct (Z.ltb_spec (start + i) (size b)).
  - eapply run_bind_eq.
    { run_lift add_ok by (split; lia). run_step test_run; [done..|lia|]. done. }
    destruct (Bool.eqb (f (start + i)) val); [done|].
    pose proof Hwf as (_ & [_ ?] & _).
    rewrite IH by lia. by rewrite Z.add_assoc.
  - apply run_bind_panic. run_lift add_ok by (split; lia).
    apply run_bind_panic. by apply test_out.
Qed.

Lemma contains_run b f val start len s h :
  bm_wf b -> bm_rep b f h -> 0 <= start < 2 ^ 32 ->
  contains b start len val s h = (contains_ref f (size b) val start (Z.to_nat len), (s, h)).
Proof.
  intros Hwf Hr Hs. unfold contains, for_ret. rewrite Z.sub_0_r.
  unfold mbind at 1, M_bind at 1. rewrite (contains_loop b f) by (done || lia).
  rewrite Z.add_0_r. destruct (contains_ref f (size b) val start (Z.to_nat len)) as [[]| | | |]; done.
Qed.

Lemma find_run b f val start len s h :
  bm_wf b -> bm_rep b f h -> 0 <= start ->
  find b start len val s h =
    (find_ref f (size b) val len start (Z.to_nat (size b - start)), (s, h)).
Proof.
  intros Hwf Hr Hs. unfold find, for_ret. pose proof Hwf as (_ & [_ Hsz] & _).
  assert (start + Z.of_nat (Z.to_nat (size b - start)) <= Z.max start (size b)) as Hn by lia.
  revert Hn. generalize (Z.to_nat (size b - start)) as n. intros n. revert start Hs.
  induction n as [|n IH]; intros i Hs Hn; [done|].
  cbn [for_ret_n find_ref]. unfold mbind at 1, M_bind at 1.
  unfold mbind at 1, M_bind at 1. rewrite (contains_run b f) by (done || lia).
  destruct (contains_ref f (size b) (negb val) i (Z.to_nat len)) as [[]| | | |]; try done.
  cbn. apply IH; lia.
Qed.
End search.

(** ** What the search finds *)
Section search_spec.
Implicit Types (f : Z -> bool).

(** The three ways [contains] ends: a position with [val] before any panic, a
    run of [negb val], or a run of [negb val] that leaves the bitmap. *)
Lemma contains_ref_cases f size val start n :
  match contains_ref f size val start n with
  | Ok true => exists k, start <= k < start + Z.of_nat n /\ k < size /\ f k = val
  | Ok false => fits f size (negb val) start (Z.of_nat n)
  | Panic p => p = AssertFailed /\ size < start + Z.of_nat n /\
      (forall k, start <= k < size -> f k = negb val)
  | _ => False
  end.
Proof.
  revert start. induction n as [|n IH]; intros start; cbn [contains_ref].
  { intros j ?. lia. }
  destruct (Z.ltb_spec start size); [|split_and!; [done|lia|intros; lia]].
  destruct (Bool.eqb (f start) val) eqn:Hv.
  { exists start. split_and!; [lia..|]. by apply eqb_prop. }
  apply eqb_false_iff in Hv. assert (f start = negb val) as Hn by (by destruct (f start), val).
  specialize (IH (start + 1)). destruct contains_ref as [[]|p| | |]; try done.
  - destruct IH as (k & ? & ? & ?). exists k. split_and!; [lia..|done].
  - intros j ?. destruct (decide (j = start)) as [->|]; [done|]. apply IH. lia.
  - destruct IH as (-> & ? & Hk). split_and!; [done|lia|]. intros k ?.
    destruct (decide (k = start)) as [->|]; [done|]. apply Hk. lia.
Qed.

Lemma find_ref_cases f size val len i n :
  0 <= len -> i + Z.of_nat n = size ->
  match find_ref f size val len i n with
  | Ok (Some r) => i <= r < size /\ fits f size val r len /\
      (forall j, i <= j < r -> ~ fits f size val j len)
  | Ok None => (forall j, i <= j < size -> ~ fits f size val j len) /\
      (i < size -> f (size - 1) = negb val)
  | Panic p => p = AssertFailed /\ i < size /\ f (size - 1) = val /\
      (forall j, i <= j < size -> ~ fits f size val j len)
  | _ => False
  end.
Proof.
  intros Hlen. revert i. induction n as [|n IH]; intros i Hi; cbn [find_ref].
  { split; intros; lia. }
  pose proof (contains_ref_cases f size (negb val) i (Z.to_nat len)) as Hc.
  rewrite Z2Nat.id, negb_involutive in Hc by done.
  destruct contains_ref as [[]|p| | |]; try done; cbn.
  - destruct Hc as (k & Hk & Hks & Hf).
    assert (~ fits f size val i len) as Hno.
    { intros Hfit. destruct (Hfit k) as [_ ?]; [lia|]. by destruct (f k), val. }
    specialize (IH (i + 1) ltac:(lia)).
    destruct find_ref as [[r|]|p| | |]; try done.
    + destruct IH as (? & ? & Hl). split_and!; [lia..|done|]. intros j ?.
      destruct (decide (j = i)) as [->|]; [done|]. apply Hl. lia.
    + destruct IH as (Hl & Hlast). split.
      * intros j ?. destruct (decide (j = i)) as [->|]; [done|]. apply Hl. lia.
      * intros _. destruct (decide (k = size - 1)) as [->|]; [done|]. apply Hlast. lia.
    + destruct IH as (-> & ? & ? & Hl). split_and!; [done|lia|done|]. intros j ?.
      destruct (decide (j = i)) as [->|]; [done|]. apply Hl. lia.
  - split_and!; [lia..|done|intros; lia].
  - destruct Hc as (-> & Hout & Hv). split_and!; [done|lia|apply Hv; lia|].
    intros j ? Hfit. destruct (Hfit (Z.max j size)) as [? _]; lia.
Qed.
End search_spec.

Section find_theorem.
Context `{Platform} {S : Type}.

(** C28: [BitMap::find] is a first-fit search: it returns the least start whose
    run of [len] bits is [val]; [None] only if no run exists and the search
    range is empty or its last bit is not [val]; and it fails an assertion
    exactly when no run exists but the bitmap ends in [val] (the inner
    [test] runs off its end, where [None] is meant).  It never writes. *)
Theorem bitmap_find_first_fit (b : BitMap) (f : Z -> bool) (val : bool) (start len : Z) (s : S) (h : Hw) :
  bm_wf b -> bm_rep b f h -> 0 <= start <= size b -> 0 <= len ->
  exists r, find b start len val s h = (r, (s, h)) /\
    match r with
    | Ok (Some i) => start <= i < size b /\ fits f (size b) val i len /\
        (forall j, start <= j < i -> ~ fits f (size b) val j len)
    | Ok None => (forall j, start <= j < size b -> ~ fits f (size b) val j len) /\
        (start < size b -> f (size b - 1) = negb val)
    | Panic p => p = AssertFailed /\ start < size b /\ f (size b - 1) = val /\
        (forall j, start <= j < size b -> ~ fits f (size b) val j len)
    | _ => False
    end.
Proof.
  intros Hwf Hr Hs Hl. eexists. split; [by apply find_run; [..|lia]|].
  apply find_ref_cases; lia.
Qed.
End find_theorem.

(** A ten-page bitmap at 0x1000 with pages 0, 1 and 4 in use. *)
Definition example_bitmap : BitMap := MkBitMap 0x1000 10.
Definition example_bits (i : Z) : bool := (i =? 0) || (i =? 1) || (i =? 4).
Definition example_page_hw : Hw := MkHw {[ 0x1000 := 0x13; 0x1001 := 0 ]} [] [] 0x8 0 0 None false.

Lemma example_bitmap_wf : bm_wf example_bitmap.
Proof. unfold bm_wf. split_and!; by vm_compute. Qed.

Lemma example_bitmap_rep : bm_rep example_bitmap example_bits example_page_hw.
Proof.
  intros i Hi. simpl in Hi.
  assert (i ∈ [0;1;2;3;4;5;6;7;8;9]) as Hin by (rewrite !elem_of_cons, elem_of_nil; lia).
  repeat (apply elem_of_cons in Hin as [->|Hin]; [eexists; by vm_compute|]). by apply elem_of_nil in Hin.
Qed.

Example find_two : fst (find (H := constant_platform true 0) example_bitmap 0 2 false tt example_page_hw) = Ok (Some 2).
Proof. by vm_compute. Qed.
Example find_six : fst (find (H := constant_platform true 0) example_bitmap 0 6 false tt example_page_hw) = Panic AssertFailed.
Proof. by vm_compute. Qed.

Lemma bitmap_find_first_fit_witness :
  exists r, find (H := constant_platform true 0) example_bitmap 0 3 false tt example_page_hw =
    (r, (tt, example_page_hw)) /\ r = Ok (Some 5).
Proof.
  destruct (@bitmap_find_first_fit (constant_platform true 0) unit example_bitmap example_bits false 0 3 tt
    example_page_hw example_bitmap_wf example_bitmap_rep ltac:(by vm_compute) ltac:(lia)) as (r & Hr & _).
  exists r. split; [exact Hr|]. vm_compute in Hr. congruence.
Defined.

Lemma bitmap_flips_spec_witness :
  exists h', flips (H := constant_platform true 0) example_bitmap 8 5 tt example_page_hw =
    (Panic AssertFailed, (tt, h')) /\ bm_rep example_bitmap (flip_run 8 5 example_bits) h'.
Proof.
  destruct (@bitmap_flips_spec (constant_platform true 0) unit example_bitmap example_bits 8 5 tt
    example_page_hw example_bitmap_wf example_bitmap_rep ltac:(by vm_compute) ltac:(lia))
    as (h' & Hrun & Hr & _).
  exists h'. split; [exact Hrun|exact Hr].
Defined.
