(* ===== verification/Page.v ===== *)
(** * The page allocator: [PageAllocator] of [mm/page.rs]

    First-fit allocation of runs of pages over the bitmap of [Bitmap],
    releasing them, and building the allocator from the memory map.  [pa_wf]
    is the allocator's invariant, [freeable] the exact condition under which
    [free_page] does not panic. *)
From Stdlib Require Import ZArith Lia.
From stdpp Require Import base tactics numbers list gmap.
From S2P Require Import Prelude.
From S2P Require Import Machine.
From S2P Require Import BitAccess.
From S2P Require Import Bitmap.
From S2P Require Import Loader.
From S2P Require Import MemMap.

Record PageAllocator := MkPageAllocator { bitmap : BitMap; base_addr : Z }.

(** ** The allocator *)
Section allocator.
Context `{Platform}.

Definition get_page (cnt : Z) : M PageAllocator (option Z) :=
  self ← get;
  r ← find (bitmap self) 0 cnt false;
  match r with
  | Some avl_page =>
      _ ← flips (bitmap self) avl_page cnt;
      off ← lift (mul 32 avl_page 4096);
      p ← lift (add 32 (base_addr self) off);
      mret (Some p)
  | None => mret None
  end.

Definition free_page (page cnt : Z) : M PageAllocator unit :=
  self ← get;
  r ← lift (rem page 4096);
  _ ← lift (assert (r =? 0));
  off ← lift (sub 32 page (base_addr self));
  pidx ← lift (div off 4096);
  a ← all (bitmap self) pidx cnt;
  _ ← lift (assert a);
  flips (bitmap self) pidx cnt.

(** [PageAllocator::default]: the bitmap sits at the first managed address,
    the pages after it. *)
Definition page_allocator_default {S} : M S PageAllocator :=
  m ← available_mem_size;
  let memsize := wrap 32 m in
  pagecnt ← lift (div memsize 4096);
  n ← lift (add 32 pagecnt 7);
  bitmap_size ← lift (div n 8);
  n ← lift (add 32 bitmap_size 4095);
  bitmap_pages ← lift (div n 4096);
  avl_pages ← lift (sub 32 pagecnt bitmap_pages);
  b ← bitmap_new 0xc0100000 avl_pages;
  off ← lift (mul 32 bitmap_pages 4096);
  base ← lift (add 32 0xc0100000 off);
  mret (MkPageAllocator b base).
End allocator.

(** ** The allocator's contract *)

(** The bitmap is usable, and the pages it manages are page-aligned and inside
    the 32-bit address space. *)
Definition pa_wf (a : PageAllocator) : Prop :=
  bm_wf (bitmap a) /\ 0 <= base_addr a /\ base_addr a mod 4096 = 0 /\
  base_addr a + size (bitmap a) * 4096 <= 2 ^ 32.

(** The address of page [i], and the page of an address. *)
Definition page_at (a : PageAllocator) (i : Z) : Z := base_addr a + i * 4096.
Definition page_of (a : PageAllocator) (p : Z) : Z := (p - base_addr a) / 4096.

Lemma page_of_at a i : page_of a (page_at a i) = i.
Proof. unfold page_of, page_at. rewrite Z.add_simpl_l. by apply Z.div_mul. Qed.

Lemma page_at_aligned a i : pa_wf a -> page_at a i mod 4096 = 0.
Proof. intros (_ & _ & Hb & _). unfold page_at. by rewrite Z_mod_plus_full. Qed.

Lemma page_at_of a p : pa_wf a -> p mod 4096 = 0 -> page_at a (page_of a p) = p.
Proof.
  intros (_ & _ & Hb & _) Hp. unfold page_at, page_of.
  enough ((p - base_addr a) mod 4096 = 0) as Hd by (pose proof (Z.div_mod (p - base_addr a) 4096); lia).
  by rewrite Zminus_mod, Hp, Hb.
Qed.

Lemma flip_run_cancel i len f n : bits_eq n (flip_run i len (flip_run i len f)) f.
Proof. intros j _. unfold flip_run. case_decide; by rewrite ?negb_involutive. Qed.

(** What [free_page] accepts: page-aligned, in the managed area, all in use. *)
Definition freeable (a : PageAllocator) (f : Z -> bool) (page cnt : Z) : Prop :=
  page mod 4096 = 0 /\ base_addr a <= page /\ fits f (size (bitmap a)) true (page_of a page) cnt.

Section allocator_runs.
Context `{Platform}.
Implicit Types (a : PageAllocator) (f : Z -> bool) (h : Hw).

Lemma page_at_ok a i :
  pa_wf a -> 0 <= i < size (bitmap a) ->
  mul 32 i 4096 = Ok (i * 4096) /\ add 32 (base_addr a) (i * 4096) = Ok (page_at a i).
Proof. intros (?&?&?&?) ?. split; [apply mul_ok|apply add_ok]; split; lia. Qed.

Lemma get_page_some a f cnt i h :
  pa_wf a -> bm_rep (bitmap a) f h -> 0 <= cnt -> 0 <= i < size (bitmap a) ->
  fits f (size (bitmap a)) false i cnt ->
  find_ref f (size (bitmap a)) false cnt 0 (Z.to_nat (size (bitmap a))) = Ok (Some i) ->
  exists h', get_page cnt a h = (Ok (Some (page_at a i)), (a, h')) /\
    bm_rep (bitmap a) (flip_run i cnt f) h' /\ bm_frame (bitmap a) h h'.
Proof.
  intros Hwf Hr Hc Hi Hfit Hfind. pose proof Hwf as (Hb & _).
  assert (i + cnt <= size (bitmap a)) as Hle.
  { destruct (decide (cnt = 0)); [lia|]. destruct (Hfit (i + cnt - 1)); lia. }
  destruct (flips_ok (bitmap a) f i cnt a h) as (h' & Hrun & Hr' & Hfr); [done..|lia|lia|done|].
  exists h'. split; [|done]. unfold get_page. run_step eq_refl.
  eapply run_bind_eq; [by rewrite (find_run _ f), Z.sub_0_r, Hfind|]. run_step Hrun.
  destruct (page_at_ok a i Hwf Hi) as [Hm Ha].
  by run_lift Hm; run_lift Ha.
Qed.

Lemma get_page_none a f cnt r h :
  pa_wf a -> bm_rep (bitmap a) f h -> (forall i, r ≠ Ok (Some i)) ->
  find_ref f (size (bitmap a)) false cnt 0 (Z.to_nat (size (bitmap a))) = r ->
  get_page cnt a h = (r ≫= (fun _ => Ok None), (a, h)).
Proof.
  intros (Hb & _) Hr Hne Hfind. unfold get_page, mbind at 1, M_bind at 1. cbn.
  unfold mbind at 1, M_bind at 1. rewrite (find_run _ f) by (done || lia).
  rewrite Z.sub_0_r, Hfind. destruct r as [[i|]| | | |]; try done. by destruct (Hne i).
Qed.
End allocator_runs.

Section free_runs.
Context `{Platform}.
Implicit Types (a : PageAllocator) (f : Z -> bool) (h : Hw).

Lemma aligned_assert p :
  rem p 4096 = Ok (p mod 4096) /\ assert (p mod 4096 =? 0) = if decide (p mod 4096 = 0) then Ok tt else Panic AssertFailed.
Proof.
  split; [by apply rem_ok|]. by destruct (Z.eqb_spec (p mod 4096) 0); case_decide.
Qed.

(** [all] never writes, and accepts exactly the runs in use. *)
Lemma all_run {S} b f start len (s : S) h :
  bm_wf b -> bm_rep b f h -> 0 <= start < 2 ^ 32 -> 0 <= len ->
  exists r, all b start len s h = (r, (s, h)) /\
    match r with
    | Ok true => fits f (size b) true start len
    | Ok false | Panic AssertFailed => ~ fits f (size b) true start len
    | _ => False
    end.
Proof.
  intros Hwf Hr Hs Hl. eexists. split.
  { unfold all, mbind, M_bind. rewrite (contains_run _ f) by done.
    instantiate (1 := c ← contains_ref f (size b) false start (Z.to_nat len); Ok (negb c)).
    by destruct contains_ref as [[]| | | |]. }
  pose proof (contains_ref_cases f (size b) false start (Z.to_nat len)) as Hc.
  rewrite Z2Nat.id in Hc by done. destruct (decide (len = 0)) as [->|]; [done|].
  destruct contains_ref as [[]|p| | |]; try done; cbn.
  - intros Hfit. destruct Hc as (k & Hk & _ & Hf). destruct (Hfit k Hk). congruence.
  - destruct Hc as (-> & Hlt & _). intros Hfit.
    destruct (Hfit (start + len - 1)); lia.
Qed.

Lemma free_page_ok a f page cnt h :
  pa_wf a -> bm_rep (bitmap a) f h -> page ∈u 32 -> 1 <= cnt -> freeable a f page cnt ->
  exists h', free_page page cnt a h = (Ok tt, (a, h')) /\
    bm_rep (bitmap a) (flip_run (page_of a page) cnt f) h' /\ bm_frame (bitmap a) h h'.
Proof.
  intros Hwf Hr [Hp Hp'] Hc (Hal & Hle & Hfit). pose proof Hwf as (Hb & Hba & _).
  assert (0 <= page_of a page) as H0 by (apply Z.div_pos; lia).
  assert (page_of a page + cnt <= size (bitmap a)) as Hsz
    by (destruct (Hfit (page_of a page + cnt - 1)); lia).
  destruct (flips_ok (bitmap a) f (page_of a page) cnt a h) as (h' & Hrun & ? & ?);
    [done..|lia|done|].
  exists h'. split; [|done]. unfold free_page. run_step eq_refl.
  destruct (aligned_assert page) as [Hrem Has]. run_lift Hrem.
  run_lift (eq_trans Has (decide_True _ _ Hal)).
  run_lift sub_ok by (split; lia). run_lift div_ok by done.
  destruct (all_run (bitmap a) f (page_of a page) cnt a h) as (r & Hall & Hcase);
    [done..|destruct Hb as (_ & [_ ?] & _); lia|lia|].
  destruct r as [[]|[]| | |]; try done. run_step Hall. by run_lift assert_ok.
Qed.

Lemma free_page_fail a f page cnt h :
  pa_wf a -> bm_rep (bitmap a) f h -> page ∈u 32 -> 1 <= cnt -> ~ freeable a f page cnt ->
  exists p, free_page page cnt a h = (Panic p, (a, h)).
Proof.
  intros Hwf Hr [Hp Hp'] Hc Hno. pose proof Hwf as (Hb & Hba & _ & Hend).
  pose proof Hb as (_ & [Hsz _] & _).
  unfold free_page. setoid_rewrite (run_bind get _ a h a a h eq_refl).
  destruct (aligned_assert page) as [Hrem Has].
  setoid_rewrite (run_bind_lift _ _ a h _ Hrem).
  destruct (decide (page mod 4096 = 0)) as [Hal|Hal];
    [|eexists; apply run_bind_panic; unfold lift; by rewrite Has].
  setoid_rewrite (run_bind_lift _ _ a h _ Has).
  assert (sub 32 page (base_addr a) = Panic Overflow \/
    exists off, sub 32 page (base_addr a) = Ok off /\ 0 <= off < 2 ^ 32 /\
      ~ fits f (size (bitmap a)) true (off / 4096) cnt) as [Hs|(off & Hs & Hoff & Hnf)].
  { unfold sub, arith. destruct (decide (base_addr a <= page)).
    - rewrite decide_True by (split; lia). right. eexists. split; [done|]. split; [lia|].
      intros Hf. by apply Hno.
    - rewrite decide_False by (unfold uint; lia). destruct overflow_checks; [by left|right].
      assert (wrap 32 (page - base_addr a) = page - base_addr a + 2 ^ 32) as ->
        by (symmetry; apply (Z.mod_unique_pos _ _ (-1)); lia).
      eexists. split; [done|]. split; [lia|]. intros Hf.
      assert (size (bitmap a) <= (page - base_addr a + 2 ^ 32) / 4096)
        by (apply Z.div_le_lower_bound; lia).
      destruct (Hf ((page - base_addr a + 2 ^ 32) / 4096)); lia. }
  { eexists. apply run_bind_panic. unfold lift. by rewrite Hs. }
  setoid_rewrite (run_bind_lift _ _ a h _ Hs).
  setoid_rewrite (run_bind_lift _ _ a h _ (div_ok _ 4096 ltac:(done))).
  destruct (all_run (bitmap a) f (off / 4096) cnt a h) as (r & Hall & Hcase); [done..|zlia|lia|].
  destruct r as [[]|p| | |]; try done.
  - setoid_rewrite (run_bind _ _ _ _ _ _ _ Hall). eexists. by apply run_bind_panic.
  - eexists. by apply run_bind_panic.
Qed.
End free_runs.

Section get_cases.
Context `{Platform}.
Implicit Types (a : PageAllocator) (f : Z -> bool) (h : Hw).

Lemma get_page_cases a f cnt h :
  pa_wf a -> bm_rep (bitmap a) f h -> 0 <= cnt ->
  exists r h', get_page cnt a h = (r, (a, h')) /\ bm_frame (bitmap a) h h' /\
    match r with
    | Ok (Some p) => exists i, p = page_at a i /\ p mod 4096 = 0 /\ p ∈u 32 /\
        0 <= i < size (bitmap a) /\ fits f (size (bitmap a)) false i cnt /\
        (forall j, 0 <= j < i -> ~ fits f (size (bitmap a)) false j cnt) /\
        bm_rep (bitmap a) (flip_run i cnt f) h'
    | Ok None | Panic AssertFailed => h' = h /\
        (forall j, 0 <= j < size (bitmap a) -> ~ fits f (size (bitmap a)) false j cnt)
    | _ => False
    end.
Proof.
  intros Hwf Hr Hc. pose proof Hwf as (Hb & ? & ? & ?). pose proof Hb as (_ & [? _] & _).
  pose proof (find_ref_cases f (size (bitmap a)) false cnt 0 (Z.to_nat (size (bitmap a))) Hc
    ltac:(lia)) as Hcase.
  destruct find_ref as [[i|]|p| | |] eqn:Hfind; try done.
  - destruct Hcase as (Hi & Hfit & Hfirst).
    destruct (get_page_some a f cnt i h) as (h' & Hrun & Hr' & Hfr); try done.
    exists (Ok (Some (page_at a i))), h'. split_and!; [done..|]. exists i.
    assert (page_at a i ∈u 32) by (unfold page_at; split; lia).
    split_and!; try done; try lia. by apply page_at_aligned.
  - exists (Ok None), h. split; [by rewrite (get_page_none a f cnt (Ok None))|].
    split; [apply bm_frame_refl|]. split; [done|apply Hcase].
  - destruct Hcase as (-> & _ & _ & Hno). exists (Panic AssertFailed), h.
    split; [by rewrite (get_page_none a f cnt (Panic AssertFailed))|].
    split; [apply bm_frame_refl|done].
Qed.
End get_cases.

(** ** Properties of the allocator *)
Section allocator_properties.
Context `{Platform}.
Implicit Types (a : PageAllocator) (f : Z -> bool) (h : Hw).

(** C2: [get_page] allocates first-fit: a returned address is a page boundary
    of the managed area, its [cnt] pages are inside the area and were free, no
    earlier run of [cnt] pages was, and exactly these pages become used.
    Otherwise no run of free pages exists and nothing changes: it returns
    [None], or panics when the bitmap ends in a free page.  Nothing outside
    the bitmap is written in any case. *)
Theorem get_page_spec a f cnt h :
  pa_wf a -> bm_rep (bitmap a) f h -> 0 <= cnt ->
  exists r h', get_page cnt a h = (r, (a, h')) /\ bm_frame (bitmap a) h h' /\
    match r with
    | Ok (Some p) => exists i, p = page_at a i /\ p mod 4096 = 0 /\ p ∈u 32 /\
        0 <= i < size (bitmap a) /\ fits f (size (bitmap a)) false i cnt /\
        (forall j, 0 <= j < i -> ~ fits f (size (bitmap a)) false j cnt) /\
        bm_rep (bitmap a) (flip_run i cnt f) h'
    | Ok None | Panic AssertFailed => h' = h /\
        (forall j, 0 <= j < size (bitmap a) -> ~ fits f (size (bitmap a)) false j cnt)
    | _ => False
    end.
Proof. apply get_page_cases. Qed.

(** C3: [free_page] releases exactly a run that is in use: if the address is
    a page boundary inside the managed area and its [cnt] pages are all used,
    they become free and nothing else changes; a misaligned or foreign
    address, a run past the end or a double free panics before any write, in
    both build profiles. *)
Theorem free_page_spec a f page cnt h :
  pa_wf a -> bm_rep (bitmap a) f h -> page ∈u 32 -> 1 <= cnt ->
  (freeable a f page cnt ->
    exists h', free_page page cnt a h = (Ok tt, (a, h')) /\
      bm_rep (bitmap a) (flip_run (page_of a page) cnt f) h' /\ bm_frame (bitmap a) h h') /\
  (~ freeable a f page cnt -> exists p, free_page page cnt a h = (Panic p, (a, h))).
Proof.
  intros. split; intros; [by apply free_page_ok|by apply (free_page_fail a f)].
Qed.

(** Allocating and freeing cancel: freeing what [get_page] returned
    succeeds and restores every bit, and freeing it once more panics. *)
Theorem get_free_roundtrip a f cnt p h h1 :
  pa_wf a -> bm_rep (bitmap a) f h -> 1 <= cnt ->
  get_page cnt a h = (Ok (Some p), (a, h1)) ->
  exists h2, free_page p cnt a h1 = (Ok tt, (a, h2)) /\ bm_rep (bitmap a) f h2 /\
    bm_frame (bitmap a) h h2 /\ exists q, free_page p cnt a h2 = (Panic q, (a, h2)).
Proof.
  intros Hwf Hr Hc Hrun. pose proof Hwf as (Hb & ? & ? & ?). pose proof Hb as (_ & [? _] & _).
  pose proof (find_ref_cases f (size (bitmap a)) false cnt 0 (Z.to_nat (size (bitmap a)))
    ltac:(lia) ltac:(lia)) as Hcase.
  destruct find_ref as [[i|]|q| | |] eqn:Hfind; try done;
    try (pose proof (fun Hne => get_page_none a f cnt _ h Hwf Hr Hne Hfind) as Hn;
         by rewrite Hn in Hrun).
  destruct Hcase as (Hi & Hfit & _).
  destruct (get_page_some a f cnt i h) as (h' & Hrun' & Hr1 & Hf1); try done; [lia|].
  rewrite Hrun' in Hrun. simplify_eq.
  assert (page_at a i ∈u 32) as Hu by (unfold page_at; split; lia).
  pose proof (page_at_aligned a i Hwf) as Hal.
  assert (freeable a (flip_run i cnt f) (page_at a i) cnt) as Hfree.
  { split_and!; [done|unfold page_at; lia|]. rewrite page_of_at. intros j Hj.
    destruct (Hfit j Hj) as [? Hfj]. split; [done|]. unfold flip_run.
    by rewrite decide_True, Hfj by lia. }
  destruct (free_page_ok a _ _ cnt h1 Hwf Hr1 Hu ltac:(lia) Hfree) as (h2 & Hrun2 & Hr2 & Hf2).
  rewrite page_of_at, flip_run_cancel in Hr2. exists h2.
  split_and!; [done..|by eapply bm_frame_trans|].
  apply (free_page_fail a f); try done. intros (_ & _ & Hused).
  rewrite page_of_at in Hused. destruct (Hfit i), (Hused i); try lia. congruence.
Qed.
End allocator_properties.

(** The example bitmap, managing ten pages from 16 KiB on. *)
Definition example_pa : PageAllocator := MkPageAllocator example_bitmap 0x4000.

Lemma example_pa_wf : pa_wf example_pa.
Proof. split; [apply example_bitmap_wf|]. split_and!; by vm_compute. Qed.

Lemma get_page_spec_witness :
  exists h', get_page (H := constant_platform true 0) 2 example_pa example_page_hw =
    (Ok (Some 0x6000), (example_pa, h')) /\ bm_frame example_bitmap example_page_hw h'.
Proof.
  destruct (@get_page_spec (constant_platform true 0) example_pa example_bits 2 example_page_hw
    example_pa_wf example_bitmap_rep ltac:(lia)) as (r & h' & Hr & Hf & _).
  exists h'. split; [|exact Hf]. rewrite Hr. vm_compute in Hr. congruence.
Defined.

Lemma example_freeable : freeable example_pa example_bits 0x4000 2.
Proof.
  split; [done|]. split; [by vm_compute|]. change (page_of example_pa 0x4000) with 0.
  intros j Hj. assert (j = 0 \/ j = 1) as [-> | ->] by lia; by vm_compute.
Qed.

Lemma free_page_spec_witness :
  (exists h', free_page (H := constant_platform false 0) 0x4000 2 example_pa example_page_hw =
    (Ok tt, (example_pa, h'))) /\
  (exists p, free_page (H := constant_platform false 0) 0x3000 1 example_pa example_page_hw =
    (Panic p, (example_pa, example_page_hw))).
Proof.
  split.
  - destruct (@free_page_spec (constant_platform false 0) example_pa example_bits 0x4000 2 example_page_hw
      example_pa_wf example_bitmap_rep ltac:(by vm_compute) ltac:(lia)) as [Hok _].
    destruct (Hok example_freeable) as (h' & Hrun & _). exists h'. exact Hrun.
  - destruct (@free_page_spec (constant_platform false 0) example_pa example_bits 0x3000 1 example_page_hw
      example_pa_wf example_bitmap_rep ltac:(by vm_compute) ltac:(lia)) as [_ Hno].
    apply Hno. intros (_ & Hle & _). by vm_compute in Hle.
Defined.

Lemma get_free_roundtrip_witness :
  exists h1 h2, get_page (H := constant_platform true 0) 2 example_pa example_page_hw =
      (Ok (Some 0x6000), (example_pa, h1)) /\
    free_page (H := constant_platform true 0) 0x6000 2 example_pa h1 = (Ok tt, (example_pa, h2)).
Proof.
  eexists.
  edestruct (@get_free_roundtrip (constant_platform true 0) example_pa example_bits 2 0x6000 example_page_hw)
    as (h2 & Hrun & _); [apply example_pa_wf|apply example_bitmap_rep|lia|vm_compute; reflexivity|].
  exists h2. split; [vm_compute; reflexivity|exact Hrun].
Defined.

(** ** Starting the allocator *)

Definition mapped (h : Hw) (p n : Z) : Prop := forall x, p <= x < p + n -> is_Some (mem h !! x).

Section allocator_default.
Context `{Platform} {S : Type}.
Implicit Types (s : S) (h : Hw).

Lemma write_bytes_ok p v n s h :
  0 <= p -> 0 <= n -> p + n <= 2 ^ 32 -> mapped h p n ->
  exists m, write_bytes_at p v n s h = (Ok tt, (s, set_mem m h)) /\
    (forall x, p <= x < p + n -> m !! x = Some v) /\
    (forall x, ~ (p <= x < p + n) -> m !! x = mem h !! x).
Proof.
  intros Hp Hn Hb Hmap.
  assert (wp (write_bytes_at p v n) (fun _ s' h' => s' = s /\ exists m, h' = set_mem m h /\
    (forall x, p <= x < p + n -> m !! x = Some v) /\
    (forall x, ~ (p <= x < p + n) -> m !! x = mem h !! x)) s h) as Hwp.
  { apply (wp_for_each (fun i (s' : S) h' => s' = s /\ exists m, h' = set_mem m h /\
      (forall x, p <= x < p + i -> m !! x = Some v) /\
      (forall x, ~ (p <= x < p + i) -> m !! x = mem h !! x))).
    - done.
    - split; [done|]. exists (mem h). split_and!; [by destruct h|intros; lia|done].
    - intros i s1 h1 Hi (-> & m & -> & Hin & Hout).
      assert (ptr_offset p i = p + i) as -> by (apply wrap_small; split; lia).
      apply wp_store8; simpl; [rewrite Hout by lia; apply Hmap; lia|].
      split; [done|]. exists (<[p + i := v]> m). split_and!; [done|..]; intros x Hx.
      + destruct (decide (x = p + i)) as [->|]; [apply lookup_insert_eq|].
        rewrite lookup_insert_ne by done. apply Hin. lia.
      + rewrite lookup_insert_ne by lia. apply Hout. lia.
    - auto. }
  apply wp_run in Hwp as ([] & s' & h' & Hrun & -> & m & -> & ? & ?). by exists m.
Qed.

Lemma bitmap_new_ok p n s h :
  let b := MkBitMap p n in
  bm_wf b -> n + 7 < 2 ^ 32 -> mapped h p ((n + 7) / 8) ->
  exists h', bitmap_new p n s h = (Ok b, (s, h')) /\ bm_rep b (fun _ => false) h' /\ bm_frame b h h'.
Proof.
  intros b (Hp & [Hn _] & Hend) Hb Hmap. simpl in *.
  destruct (write_bytes_ok p 0 ((n + 7) / 8) s h) as (m & Hrun & Hin & Hout); [done|zlia|done..|].
  exists (set_mem m h). split_and!.
  - unfold bitmap_new. run_lift add_ok by (split; lia). run_lift div_ok by done. by run_step Hrun.
  - intros i Hi. simpl in *. exists 0. split_and!; [apply Hin; zlia|done|apply Z.bits_0].
  - by exists m.
Qed.

(** The whole pages of [memsize], the pages the bitmap takes of them, and the
    allocator over the rest. *)
Definition bitmap_pages_of (memsize : Z) : Z := ((memsize / 4096 + 7) / 8 + 4095) / 4096.
Definition allocator_of (memsize : Z) : PageAllocator :=
  MkPageAllocator (MkBitMap 0xc0100000 (memsize / 4096 - bitmap_pages_of memsize))
    (0xc0100000 + bitmap_pages_of memsize * 4096).

Lemma bitmap_pages_bounds n :
  0 <= n < 2 ^ 32 ->
  0 <= bitmap_pages_of n <= 32 /\ bitmap_pages_of n <= n / 4096 < 2 ^ 20 /\
  (n / 4096 + 7) / 8 <= bitmap_pages_of n * 4096.
Proof. intros. unfold bitmap_pages_of. split_and!; zlia. Qed.

Lemma allocator_of_wf n :
  0 <= n <= 0x3ff00000 -> pa_wf (allocator_of n).
Proof.
  intros Hn. destruct (bitmap_pages_bounds n) as (? & [? ?] & ?); [lia|].
  split; [|split_and!; simpl; [lia|by rewrite Z_mod_plus_full|zlia]].
  split_and!; simpl; [lia..|]. zlia.
Qed.

Lemma page_allocator_default_run m s h :
  available_mem_size s h = (Ok m, (s, h)) ->
  mapped h 0xc0100000 (bitmap_pages_of (wrap 32 m) * 4096) ->
  exists h', page_allocator_default s h = (Ok (allocator_of (wrap 32 m)), (s, h')) /\
    bm_rep (bitmap (allocator_of (wrap 32 m))) (fun _ => false) h' /\
    bm_frame (bitmap (allocator_of (wrap 32 m))) h h'.
Proof.
  intros Hm Hmap. pose proof (uint_wrap 32 m ltac:(lia)) as Hn.
  destruct (bitmap_pages_bounds (wrap 32 m) Hn) as ([H0 Hp] & [Hle Hpg] & Hsz).
  set (n := wrap 32 m) in *. remember (n / 4096) as pgs eqn:Hpgs.
  assert (0 <= pgs) by lia. unfold allocator_of. rewrite <- Hpgs.
  destruct (bitmap_new_ok 0xc0100000 (pgs - bitmap_pages_of n) s h) as (h' & Hrun & Hr & Hf).
  - split_and!; simpl; zlia.
  - lia.
  - intros x Hx. apply Hmap. zlia.
  - exists h'. split; [|done]. unfold page_allocator_default. run_step Hm. fold n.
    run_lift div_ok by done. rewrite <- Hpgs. run_lift add_ok by (split; lia). run_lift div_ok by done.
    run_lift add_ok by (split; zlia). run_lift div_ok by done.
    assert (((pgs + 7) / 8 + 4095) / 4096 = bitmap_pages_of n) as -> by by rewrite Hpgs.
    run_lift sub_ok by (split; lia). run_step Hrun.
    run_lift mul_ok by (split; lia). by run_lift add_ok by (split; lia).
Qed.

(** C20: [PageAllocator::default] on a well-formed memory map: it never
    overflows, clears the whole bitmap (every page free) and writes nothing
    else; bitmap pages and managed pages together are the whole pages of the
    counted memory, reduced to 32 bits; the bitmap lies below the first managed
    page, and the managed pages end within that much memory from 1 MiB on.  Where
    that memory is, the allocator does not ask: the managed pages are usable
    memory on a map that starts at 1 MiB and has no hole ([Holes] is about the
    others).  The result satisfies the allocator's invariant when the memory fits
    below the top of the address space (at most 1 GiB - 1 MiB). *)
Theorem page_allocator_default_spec rs B s h :
  holds_map h rs -> map_sorted rs -> 0 <= B < 2 ^ 64 ->
  Forall (fun r => counted r = true -> r_end r <= B) rs ->
  let n := wrap 32 (cnt (covered rs) 0 B) in
  mapped h 0xc0100000 (bitmap_pages_of n * 4096) ->
  exists a h', page_allocator_default s h = (Ok a, (s, h')) /\
    bm_rep (bitmap a) (fun _ => false) h' /\ bm_frame (bitmap a) h h' /\
    (base_addr a - 0xc0100000) / 4096 + size (bitmap a) = n / 4096 /\
    data_ptr (bitmap a) + (size (bitmap a) + 7) / 8 <= base_addr a /\
    base_addr a + size (bitmap a) * 4096 <= 0xc0100000 + n /\
    (n <= 0x3ff00000 -> pa_wf a) /\
    (contiguous rs -> forall x, base_addr a <= 0xc0000000 + x < base_addr a + size (bitmap a) * 4096 ->
      covered rs x = true).
Proof.
  intros Hm Hs HB Hends n Hmap.
  assert (available_mem_size s h = (Ok (cnt (covered rs) 0 B), (s, h))) as Hav
    by by apply available_mem_size_ok.
  destruct (page_allocator_default_run _ s h Hav Hmap) as (h' & Hrun & Hr & Hf).
  fold n in Hrun, Hr, Hf.
  pose proof (uint_wrap 32 (cnt (covered rs) 0 B) ltac:(lia)) as Hn. fold n in Hn.
  destruct (bitmap_pages_bounds n Hn) as (? & [? ?] & ?).
  exists (allocator_of n), h'. split_and!; [done..| | | | |]; simpl.
  - rewrite Z.add_simpl_l, Z.div_mul by done. lia.
  - zlia.
  - zlia.
  - intros. apply allocator_of_wf. split; [apply Hn|done].
  - intros Hcon x Hx. assert (0 <= cnt (covered rs) 0 B) as Hc by (apply cnt_bounds; lia).
    apply (contiguous_covered rs B n); [lia|done|by apply Z.mod_le|zlia].
Qed.
End allocator_default.

(** The memory map of the example machine with its first managed page mapped. *)
Definition boot_hw : Hw :=
  set_mem (mem_of 0xc0100000 (repeat 0xaa 4096) ∪ mem (map_hw example_map)) (map_hw example_map).

Lemma mapped_mem_of h a bytes m :
  mapped (set_mem (mem_of a bytes ∪ m) h) a (Z.of_nat (length bytes)).
Proof.
  intros x Hx. simpl. destruct (lookup_lt_is_Some_2 bytes (Z.to_nat (x - a))) as [v Hv]; [lia|].
  exists v. apply lookup_union_Some_l. rewrite <- Hv, <- (lookup_mem_of a). f_equal. lia.
Qed.

Lemma boot_hw_holds : holds_map boot_hw example_map.
Proof. apply holds_map_extend; [exact example_map_holds|by vm_compute]. Qed.

Lemma example_size : wrap 32 (cnt (covered example_map) 0 0x2000000) = 0x1f00000.
Proof.
  enough (cnt (covered example_map) 0 0x2000000 = 0x1f00000) as -> by done.
  assert (@available_mem_size (constant_platform true 0) unit tt (map_hw example_map) =
    (Ok 0x1f00000, (tt, map_hw example_map))) as Hrun by by vm_compute.
  rewrite (available_mem_size_ok example_map tt _ 0x2000000) in Hrun.
  - revert Hrun. generalize (cnt (covered example_map) 0 0x2000000). by intros ? [= ->].
  - exact example_map_holds.
  - vm_compute. repeat constructor; discriminate.
  - split; [lia|reflexivity].
  - repeat constructor; vm_compute; discriminate.
Qed.

Lemma example_contiguous : contiguous example_map.
Proof.
  intros x y Hx (r & Hr & Hc & Hy)%covered_spec.
  assert (y < 0x2000000) as Hy'.
  { unfold example_map in Hr. rewrite !elem_of_cons, elem_of_nil in Hr. unfold r_end in Hy.
    destruct Hr as [-> | [-> | [-> | [-> | []]]]]; cbn in Hy; lia. }
  apply covered_spec. exists (MkRegion 0x100000 0x1f00000 Usable). split; [|split; [done|unfold r_end in *; cbn in *; lia]].
  unfold example_map. rewrite !elem_of_cons. tauto.
Qed.

Lemma page_allocator_default_spec_witness :
  exists a h', page_allocator_default (H := constant_platform true 0) tt boot_hw = (Ok a, (tt, h')) /\
    pa_wf a /\ (base_addr a - 0xc0100000) / 4096 + size (bitmap a) = 7936 /\
    bm_rep (bitmap a) (fun _ => false) h' /\
    forall x, base_addr a <= 0xc0000000 + x < base_addr a + size (bitmap a) * 4096 -> covered example_map x = true.
Proof.
  destruct (@page_allocator_default_spec (constant_platform true 0) unit example_map 0x2000000 tt boot_hw)
    as (a & h' & Hrun & Hr & _ & Hpages & Hbase & _ & Hwf & Hin).
  - apply boot_hw_holds.
  - vm_compute. repeat constructor; discriminate.
  - split; [lia|reflexivity].
  - repeat constructor; vm_compute; discriminate.
  - rewrite example_size. apply mapped_mem_of.
  - exists a, h'. rewrite example_size in Hpages, Hwf.
    assert (pa_wf a) as Ha by (apply Hwf; vm_compute; discriminate).
    split; [exact Hrun|]. split; [exact Ha|]. split; [exact Hpages|]. split; [exact Hr|exact (Hin example_contiguous)].
Defined.
