(* ===== verification/PageTable.v ===== *)
(** * Page-table entries: [PageTableEntry] of [mm/page.rs]

    A transparent [u32]; the accessors read its architectural fields, [Debug]
    prints them.  [pte_encode] puts an entry together from field values and is
    the reference for the accessors. *)
From Stdlib Require Import ZArith Lia String.
From stdpp Require Import base tactics numbers list gmap.
From S2P Require Import Prelude.
From S2P Require Import Machine.
From S2P Require Import BitAccess.
From S2P Require Import Fmt.

Section code.
Context `{Platform}.
Implicit Types self : Z.

Definition present self : result bool := get_bit 32 self 0.
Definition rw self : result bool := get_bit 32 self 1.
Definition is_user self : result bool := get_bit 32 self 2.
Definition write_through self : result bool := get_bit 32 self 3.
Definition cache_disable self : result bool := get_bit 32 self 4.
Definition accessed self : result bool := get_bit 32 self 5.
Definition dirty self : result bool := get_bit 32 self 6.
Definition page_attribute self : result bool := get_bit 32 self 7.
Definition global self : result bool := get_bit 32 self 8.
Definition available self : result Z := get_bits 32 self (range_inclusive 9 11).
Definition addr self : result Z :=
  v ← get_bits 32 self (range_inclusive 12 31); shl 32 v 12.

(** The text [Debug::fmt] writes. *)
Definition pte_fmt self : result (list Z) :=
  f0 ← present self; f1 ← rw self; f2 ← is_user self; f3 ← write_through self;
  f4 ← cache_disable self; f5 ← accessed self; f6 ← dirty self;
  f7 ← page_attribute self; f8 ← global self; f9 ← available self; f10 ← addr self;
  Ok (debug_struct (bs "PageTableEntry")
    [(bs "present", debug_bool f0); (bs "rw", debug_bool f1); (bs "is_user", debug_bool f2);
     (bs "write_through", debug_bool f3); (bs "cache_disable", debug_bool f4);
     (bs "accessed", debug_bool f5); (bs "dirty", debug_bool f6);
     (bs "page_attribute", debug_bool f7); (bs "global", debug_bool f8);
     (bs "available", display f9); (bs "addr", bs "0x" ++ lower_hex f10)]).
End code.

(** ** Fields *)

Record pte_fields := MkPte {
  f_present : bool; f_rw : bool; f_user : bool; f_write_through : bool; f_cache_disable : bool;
  f_accessed : bool; f_dirty : bool; f_page_attribute : bool; f_global : bool;
  f_available : Z; f_addr : Z
}.

Definition pte_ok (p : pte_fields) : Prop :=
  f_available p ∈u 3 /\ f_addr p ∈u 32 /\ f_addr p mod 4096 = 0.

(** The entry with these fields: flags in bits 0 to 8, three free bits, and the
    page address in the high bits. *)
Definition pte_encode (p : pte_fields) : Z :=
  Z.b2z (f_present p) + 2 * Z.b2z (f_rw p) + 4 * Z.b2z (f_user p) +
  8 * Z.b2z (f_write_through p) + 16 * Z.b2z (f_cache_disable p) + 32 * Z.b2z (f_accessed p) +
  64 * Z.b2z (f_dirty p) + 128 * Z.b2z (f_page_attribute p) + 256 * Z.b2z (f_global p) +
  512 * f_available p + f_addr p.

(** All accessors at once. *)
Definition pte_decode `{Platform} (e : Z) : result pte_fields :=
  f0 ← present e; f1 ← rw e; f2 ← is_user e; f3 ← write_through e; f4 ← cache_disable e;
  f5 ← accessed e; f6 ← dirty e; f7 ← page_attribute e; f8 ← global e; f9 ← available e;
  f10 ← addr e; Ok (MkPte f0 f1 f2 f3 f4 f5 f6 f7 f8 f9 f10).

Section decode.
Context `{Platform}.
Implicit Types e : Z.

Lemma available_run e : e ∈u 32 -> available e = Ok (e / 512 mod 8).
Proof.
  intros He. unfold available. rewrite (get_bits_spec 32 e _ 9 12); try done.
  by rewrite field_div_mod by lia.
Qed.

Lemma addr_run e : e ∈u 32 -> addr e = Ok (e / 4096 * 4096).
Proof.
  intros He. unfold addr. ok_step (get_bits_spec 32 e _ 12 32); try done.
  rewrite shl_ok, field_div_mod by lia. f_equal. destruct He as [??].
  rewrite Z.mod_small, Z.shiftl_mul_pow2 by (try lia; split; zlia).
  apply wrap_small. split; zlia.
Qed.

(** Bits 0 to 8 and the rest. *)
Lemma low_bits e :
  e = Z.b2z (Z.testbit e 0) + 2 * Z.b2z (Z.testbit e 1) + 4 * Z.b2z (Z.testbit e 2) +
    8 * Z.b2z (Z.testbit e 3) + 16 * Z.b2z (Z.testbit e 4) + 32 * Z.b2z (Z.testbit e 5) +
    64 * Z.b2z (Z.testbit e 6) + 128 * Z.b2z (Z.testbit e 7) + 256 * Z.b2z (Z.testbit e 8) +
    512 * (e / 512).
Proof.
  rewrite !Z.testbit_spec' by lia.
  change (2 ^ 0) with 1; change (2 ^ 1) with 2; change (2 ^ 2) with 4; change (2 ^ 3) with 8;
  change (2 ^ 4) with 16; change (2 ^ 5) with 32; change (2 ^ 6) with 64;
  change (2 ^ 7) with 128; change (2 ^ 8) with 256. zlia.
Qed.

Lemma decode_run e :
  e ∈u 32 ->
  pte_decode e = Ok (MkPte (Z.testbit e 0) (Z.testbit e 1) (Z.testbit e 2) (Z.testbit e 3)
    (Z.testbit e 4) (Z.testbit e 5) (Z.testbit e 6) (Z.testbit e 7) (Z.testbit e 8)
    (e / 512 mod 8) (e / 4096 * 4096)).
Proof.
  intros He. unfold pte_decode.
  do 9 (ok_step (get_bit_spec 32) by lia).
  ok_step available_run by done. by ok_step addr_run by done.
Qed.

Lemma b2z_range b : 0 <= Z.b2z b <= 1.
Proof. destruct b; simpl; lia. Qed.

(** A bit of an entry is its flag. *)
Lemma testbit_flag e k (b : bool) :
  0 <= k -> (e / 2 ^ k) mod 2 = Z.b2z b -> Z.testbit e k = b.
Proof. intros Hk He. apply Z.b2z_inj. by rewrite Z.testbit_spec' by done. Qed.

Lemma decode_encode p : pte_ok p -> pte_encode p ∈u 32 /\ pte_decode (pte_encode p) = Ok p.
Proof.
  destruct p as [b0 b1 b2 b3 b4 b5 b6 b7 b8 av ad].
  intros ([Hav Hav'] & [Had Had'] & Hmod); simpl in Hav, Hav', Had, Had', Hmod.
  assert (exists q, ad = 4096 * q) as [q ->].
  { exists (ad / 4096). pose proof (Z.div_mod ad 4096). lia. }
  pose proof (b2z_range b0); pose proof (b2z_range b1); pose proof (b2z_range b2);
  pose proof (b2z_range b3); pose proof (b2z_range b4); pose proof (b2z_range b5);
  pose proof (b2z_range b6); pose proof (b2z_range b7); pose proof (b2z_range b8).
  unfold pte_encode; cbn [f_present f_rw f_user f_write_through f_cache_disable f_accessed
    f_dirty f_page_attribute f_global f_available f_addr].
  match goal with |- uint 32 ?x /\ _ => set (e := x) end.
  assert (e ∈u 32) as He by (subst e; split; lia).
  split; [done|]. rewrite decode_run by done. clear Hmod He. do 2 f_equal.
  10-11: subst e; zlia.
  all: apply testbit_flag; [lia|]; subst e.
  1: change (2 ^ 0) with 1. 2: change (2 ^ 1) with 2. 3: change (2 ^ 2) with 4.
  4: change (2 ^ 3) with 8. 5: change (2 ^ 4) with 16. 6: change (2 ^ 5) with 32.
  7: change (2 ^ 6) with 64. 8: change (2 ^ 7) with 128. 9: change (2 ^ 8) with 256.
  all: zlia.
Qed.

(** C39: The accessors of a page-table entry never panic on a 32-bit entry and
    together lose nothing: decoding gives fields in range, with a page-aligned
    address, whose encoding is the entry; and every choice of fields in range
    is what decoding its encoding gives back. *)
Theorem pte_decode_encode e p :
  e ∈u 32 -> pte_ok p ->
  (exists q, pte_decode e = Ok q /\ pte_ok q /\ pte_encode q = e) /\
  pte_decode (pte_encode p) = Ok p.
Proof.
  intros He Hp. split; [|by apply decode_encode].
  rewrite decode_run by done. eexists. split; [done|]. destruct He as [??]. split.
  - split_and!; simpl; [apply (uint_wrap 3); lia|split; zlia|by rewrite Z.mod_mul].
  - unfold pte_encode; cbn [f_present f_rw f_user f_write_through f_cache_disable f_accessed
      f_dirty f_page_attribute f_global f_available f_addr].
    rewrite (low_bits e) at 12. zlia.
Qed.
End decode.

Definition example_pte : pte_fields := MkPte true true false false false true false false false 5 0x1234000.

Lemma pte_decode_encode_witness :
  (exists q, pte_decode (H := constant_platform true 0) 0x100083 = Ok q /\ pte_encode q = 0x100083) /\
  pte_decode (H := constant_platform true 0) (pte_encode example_pte) = Ok example_pte.
Proof.
  destruct (@pte_decode_encode (constant_platform true 0) 0x100083 example_pte) as [(q & Hq & _ & He) Hp].
  - split; [lia|reflexivity].
  - split; [split; [cbn; lia|reflexivity]|]. split; [split; [cbn; lia|reflexivity]|reflexivity].
  - split; [exists q; split; [exact Hq|exact He]|exact Hp].
Defined.

Example pte_fmt_example :
  pte_fmt (H := constant_platform true 0) 0x100083 =
    Ok (bs "PageTableEntry { present: true, rw: true, is_user: false, write_through: false, cache_disable: false, accessed: false, dirty: false, page_attribute: true, global: false, available: 0, addr: 0x100000 }").
Proof. by vm_compute. Qed.
