(* ===== verification/Alloc.v ===== *)
(** * The global allocator: [Allocator] of [mm/mod.rs]

    [alloc] and [dealloc] go through the [PAGE_ALLOC] singleton to a page
    manager.  What they need from it is the interface [PageManager]; the page
    allocator of [Page] implements it, and the theorems about the heap are
    proved against the interface: a history of allocations, releases and writes
    to memory outside the manager's own bytes keeps all live blocks apart. *)
From Stdlib Require Import ZArith Lia.
From stdpp Require Import base tactics numbers list gmap relations.
From S2P Require Import Prelude.
From S2P Require Import Machine.
From S2P Require Import Singleton.
From S2P Require Import Bitmap.
From S2P Require Import Page.

(** ** What the allocator needs from a page manager

    [pm_rep a h u]: in state [a] and memory [h] the used pages are those of
    [u]; [pm_base], [pm_pages]: the managed area; [pm_meta]: the addresses of
    the manager's own data. *)
Class PageManager (A : Type) `{Platform} := {
  pm_get : Z -> M A (option Z);
  pm_free : Z -> Z -> M A unit;
  pm_base : A -> Z;
  pm_pages : A -> Z;
  pm_meta : A -> Z -> Prop;
  pm_rep : A -> Hw -> (Z -> bool) -> Prop;
  pm_area : forall a h u, pm_rep a h u ->
    0 <= pm_base a /\ 0 <= pm_pages a /\ pm_base a mod 4096 = 0 /\
    pm_base a + pm_pages a * 4096 <= 2 ^ 32;
  pm_rep_ext : forall a h u u', pm_rep a h u -> bits_eq (pm_pages a) u u' -> pm_rep a h u';
  pm_apart : forall a h u x, pm_rep a h u -> pm_meta a x -> x < pm_base a;
  pm_stable : forall a h h' u, pm_rep a h u ->
    (forall x, pm_meta a x -> mem h' !! x = mem h !! x) -> pm_rep a h' u;
  pm_get_law : forall a h u cnt, pm_rep a h u -> 1 <= cnt ->
    exists r h', pm_get cnt a h = (r, (a, h')) /\
      (forall x, ~ pm_meta a x -> mem h' !! x = mem h !! x) /\
      match r with
      | Ok (Some p) => exists i, p = pm_base a + i * 4096 /\ 0 <= i /\ i + cnt <= pm_pages a /\
          (forall j, i <= j < i + cnt -> u j = false) /\ pm_rep a h' (flip_run i cnt u)
      | Ok None | Panic _ => h' = h
      | _ => False
      end;
  pm_free_law : forall a h u i cnt, pm_rep a h u -> 1 <= cnt -> 0 <= i -> i + cnt <= pm_pages a ->
    (forall j, i <= j < i + cnt -> u j = true) ->
    exists h', pm_free (pm_base a + i * 4096) cnt a h = (Ok tt, (a, h')) /\
      (forall x, ~ pm_meta a x -> mem h' !! x = mem h !! x) /\ pm_rep a h' (flip_run i cnt u)
}.

(** ** The code *)

(** [core::alloc::Layout]. *)
Record Layout := MkLayout { layout_size : Z; layout_align : Z }.

Section code.
Context `{Platform} {G A : Type} `{!PageManager A} (PAGE_ALLOC : Lens G (Singleton A))
  (default : M G A).

Definition alloc (layout : Layout) : M G Z :=
  let reqsize := layout_size layout in
  r ← get_mut PAGE_ALLOC default (
    n ← lift (add 32 reqsize 4095);
    n ← lift (div n 4096);
    pm_get n);
  match r with
  | Some p => mret p
  | None => lift (Panic UnwrapNone)
  end.

Definition dealloc (ptr : Z) (layout : Layout) : M G unit :=
  let reqsize := layout_size layout in
  get_mut PAGE_ALLOC default (
    n ← lift (add 32 reqsize 4095);
    n ← lift (div n 4096);
    pm_free ptr n).
End code.

(** A layout [GlobalAlloc] may be called with: of positive size, at most
    [isize::MAX] bytes. *)
Definition layout_ok (l : Layout) : Prop := 1 <= layout_size l <= 2 ^ 31 - 1.

Definition pages (l : Layout) : Z := (layout_size l + 4095) / 4096.

Section runs.
Context `{Platform} {G A : Type} `{!PageManager A} (PAGE_ALLOC : Lens G (Singleton A))
  `{!LensLaws PAGE_ALLOC} (default : M G A).
Implicit Types (g : G) (h : Hw) (a : A).

(** [PAGE_ALLOC] is initialised with [a]. *)
Definition ready g a : Prop := view PAGE_ALLOC g = MkSingleton SINGLE_INITED (Some a).

Lemma ready_over g a : ready g a -> over PAGE_ALLOC (MkSingleton SINGLE_INITED (Some a)) g = g.
Proof. unfold ready. intros <-. apply over_view. Qed.

Lemma pages_pos l : layout_ok l -> 1 <= pages l < 2 ^ 20.
Proof. unfold layout_ok, pages. intros. zlia. Qed.

(** The page count, then the manager. *)
Lemma pages_run {B} l (k : Z -> M A B) a h :
  layout_ok l ->
  (n ← lift (add 32 (layout_size l) 4095); n ← lift (div n 4096); k n) a h = k (pages l) a h.
Proof.
  unfold layout_ok. intros. run_lift add_ok by (split; lia). by run_lift div_ok by done.
Qed.

Lemma alloc_run l g a h r h' :
  layout_ok l -> ready g a -> (0 < spin_fuel)%nat ->
  pm_get (pages l) a h = (r, (a, h')) ->
  alloc PAGE_ALLOC default l g h =
    (o ← r; match o with Some p => Ok p | None => Panic UnwrapNone end, (g, h')).
Proof.
  intros Hl Hg Hf Hrun. unfold alloc, mbind at 1, M_bind at 1.
  rewrite (get_mut_inited _ _ _ a) by done. rewrite pages_run, Hrun, (ready_over g a) by done.
  by destruct r as [[p|]| | | |].
Qed.

Lemma dealloc_run l p g a h r h' :
  layout_ok l -> ready g a -> (0 < spin_fuel)%nat ->
  pm_free p (pages l) a h = (r, (a, h')) ->
  dealloc PAGE_ALLOC default p l g h = (r, (g, h')).
Proof.
  intros Hl Hg Hf Hrun. unfold dealloc.
  rewrite (get_mut_inited _ _ _ a) by done. by rewrite pages_run, Hrun, (ready_over g a) by done.
Qed.
End runs.

(** ** The heap

    A client that allocates, releases what it holds, and writes anywhere except
    on the manager's own data. *)

Record block := MkBlock { b_ptr : Z; b_layout : Layout }.

Section heap.
Context `{Platform} {G A : Type} `{!PageManager A} (PAGE_ALLOC : Lens G (Singleton A))
  `{!LensLaws PAGE_ALLOC} (default : M G A) (g : G) (a : A).
Implicit Types (h : Hw) (live : list block) (b : block).

Inductive heap_step : list block * Hw -> list block * Hw -> Prop :=
  | Step_alloc l p live h h' :
      layout_ok l -> alloc PAGE_ALLOC default l g h = (Ok p, (g, h')) ->
      heap_step (live, h) (MkBlock p l :: live, h')
  | Step_dealloc b live live' h h' :
      live ≡ₚ b :: live' ->
      dealloc PAGE_ALLOC default (b_ptr b) (b_layout b) g h = (Ok tt, (g, h')) ->
      heap_step (live, h) (live', h')
  | Step_write live h h' :
      (forall x, pm_meta a x -> mem h' !! x = mem h !! x) ->
      heap_step (live, h) (live, h').

Definition b_pages b : Z := pages (b_layout b).

(** Page [j] belongs to [b]. *)
Definition in_block (j : Z) b : Prop :=
  b_ptr b <= pm_base a + j * 4096 < b_ptr b + b_pages b * 4096.

#[local] Instance in_block_dec j b : Decision (in_block j b).
Proof. unfold in_block. apply _. Defined.

Definition owners (j : Z) live : nat := length (filter (in_block j) live).
Definition used live (j : Z) : bool := negb (owners j live =? 0)%nat.

Definition block_ok b : Prop :=
  layout_ok (b_layout b) /\
  exists i, b_ptr b = pm_base a + i * 4096 /\ 0 <= i /\ i + b_pages b <= pm_pages a.

Definition heap_inv (st : list block * Hw) : Prop :=
  Forall block_ok st.1 /\ (forall j, (owners j st.1 <= 1)%nat) /\ pm_rep a st.2 (used st.1).

Lemma owners_cons j b live :
  owners j (b :: live) = ((if decide (in_block j b) then 1 else 0) + owners j live)%nat.
Proof using. unfold owners. rewrite filter_cons. by case_decide. Qed.

Lemma owners_perm j live live' : live ≡ₚ live' -> owners j live = owners j live'.
Proof using. unfold owners. by intros ->. Qed.

Lemma in_block_at j b i :
  b_ptr b = pm_base a + i * 4096 -> in_block j b <-> i <= j < i + b_pages b.
Proof using. unfold in_block. intros ->. lia. Qed.

Lemma alloc_step_inv l p live h h' :
  ready PAGE_ALLOC g a -> (0 < spin_fuel)%nat -> heap_inv (live, h) -> layout_ok l ->
  alloc PAGE_ALLOC default l g h = (Ok p, (g, h')) -> heap_inv (MkBlock p l :: live, h').
Proof using LensLaws0.
  intros Hg Hf (Hok & Hown & Hrep) Hl Hrun; simpl in *. pose proof (pages_pos l Hl) as [Hp _].
  destruct (pm_get_law a h _ (pages l) Hrep Hp) as (r & h1 & Hget & _ & Hr).
  rewrite (alloc_run _ _ l g a h r h1) in Hrun by done.
  destruct r as [[q|]| | | |]; simplify_eq/=; try done. destruct Hr as (i & -> & Hi & Hend & Hfree & Hrep').
  set (b := MkBlock (pm_base a + i * 4096) l).
  assert (forall j, in_block j b <-> i <= j < i + pages l) as Hin by by intros; apply in_block_at.
  assert (forall j, in_block j b -> owners j live = 0%nat) as Hzero.
  { intros j Hj%Hin. apply Hfree in Hj. unfold used in Hj.
    by apply negb_false_iff, Nat.eqb_eq in Hj. }
  split_and!; simpl.
  - constructor; [|done]. split; [done|]. by exists i.
  - intros j. rewrite owners_cons. specialize (Hown j).
    case_decide as Hj; [rewrite (Hzero j) by done; lia|lia].
  - eapply pm_rep_ext; [exact Hrep'|]. intros j _. unfold flip_run, used.
    rewrite owners_cons. case_decide as Hj; case_decide as Hj'; rewrite Hin in Hj'; try done.
    by rewrite Hzero by by apply Hin.
Qed.

(** Releasing a live block returns, whatever else is live. *)
Lemma dealloc_step_inv b live live' h :
  ready PAGE_ALLOC g a -> (0 < spin_fuel)%nat -> heap_inv (live, h) -> live ≡ₚ b :: live' ->
  exists h', dealloc PAGE_ALLOC default (b_ptr b) (b_layout b) g h = (Ok tt, (g, h')) /\
    heap_inv (live', h').
Proof using LensLaws0.
  intros Hg Hf (Hok & Hown & Hrep) Hperm; simpl in *.
  rewrite Hperm in Hok. apply Forall_cons in Hok as [(Hl & i & Hptr & Hi & Hend) Hok].
  pose proof (pages_pos _ Hl) as [Hp _].
  assert (forall j, owners j live = ((if decide (in_block j b) then 1 else 0) + owners j live')%nat)
    as Hcount by (intros j; by rewrite (owners_perm _ _ _ Hperm), owners_cons).
  assert (forall j, in_block j b <-> i <= j < i + b_pages b) as Hin by by intros; apply in_block_at.
  assert (forall j, in_block j b -> owners j live' = 0%nat) as Hzero.
  { intros j Hj. specialize (Hown j). rewrite Hcount, decide_True in Hown by done. lia. }
  destruct (pm_free_law a h _ i (b_pages b) Hrep Hp Hi Hend) as (h' & Hrun & _ & Hrep').
  { intros j Hj%Hin. unfold used. by rewrite Hcount, decide_True. }
  exists h'. split; [apply (dealloc_run _ _ _ _ _ a); [done..|]; by rewrite Hptr|].
  split_and!; simpl; [done| |].
  - intros j. specialize (Hown j). rewrite Hcount in Hown. lia.
  - eapply pm_rep_ext; [exact Hrep'|]. intros j _. unfold flip_run, used. rewrite Hcount.
    case_decide as Hj; case_decide as Hj'; rewrite Hin in Hj'; try done.
    by rewrite Hzero by by apply Hin.
Qed.

Lemma heap_step_inv st st' :
  ready PAGE_ALLOC g a -> (0 < spin_fuel)%nat -> heap_inv st -> heap_step st st' -> heap_inv st'.
Proof using LensLaws0.
  intros Hg Hf Hinv Hstep.
  destruct Hstep as [l p live h h' Hl Hrun|b live live' h h' Hperm Hrun|live h h' Hw].
  - by eapply alloc_step_inv.
  - destruct (dealloc_step_inv b live live' h) as (h1 & Hrun' & Hinv'); try done.
    rewrite Hrun in Hrun'. by simplify_eq.
  - destruct Hinv as (? & ? & Hrep). split_and!; [done..|]. by eapply pm_stable.
Qed.

Lemma heap_inv_reachable live h0 h :
  ready PAGE_ALLOC g a -> (0 < spin_fuel)%nat -> pm_rep a h0 (fun _ => false) ->
  rtc heap_step ([], h0) (live, h) -> heap_inv (live, h).
Proof using LensLaws0.
  intros Hg Hf Hrep Hsteps. assert (heap_inv ([], h0)) as Hinv.
  { split_and!; simpl; [constructor|intros; unfold owners; simpl; lia|done]. }
  revert Hinv. induction Hsteps as [|st1 st2 st3 Hstep _ IH]; [done|]. intros Hinv.
  by apply IH, (heap_step_inv st1).
Qed.
End heap.

(** ** The page allocator implements the interface *)
Section implementation.
Context `{Platform}.
Implicit Types (a : PageAllocator) (h : Hw) (u : Z -> bool).

Definition pa_meta a (x : Z) : Prop :=
  data_ptr (bitmap a) <= x < data_ptr (bitmap a) + (size (bitmap a) + 7) / 8.

Definition pa_rep a h u : Prop :=
  pa_wf a /\ data_ptr (bitmap a) + (size (bitmap a) + 7) / 8 <= base_addr a /\ bm_rep (bitmap a) u h.

Lemma frame_meta a h h' x : bm_frame (bitmap a) h h' -> ~ pa_meta a x -> mem h' !! x = mem h !! x.
Proof using. intros (m & -> & Hm). apply Hm. Qed.

Lemma pa_area_law a h u :
  pa_rep a h u ->
  0 <= base_addr a /\ 0 <= size (bitmap a) /\ base_addr a mod 4096 = 0 /\
  base_addr a + size (bitmap a) * 4096 <= 2 ^ 32.
Proof using. intros (((? & [? ?] & ?) & ? & ? & ?) & ? & ?). done. Qed.

Lemma pa_stable_law a h h' u :
  pa_rep a h u -> (forall x, pa_meta a x -> mem h' !! x = mem h !! x) -> pa_rep a h' u.
Proof using.
  intros (Hwf & Hap & Hr) Hm. split_and!; [done..|]. intros i Hi.
  rewrite Hm by (unfold pa_meta; zlia). by apply Hr.
Qed.

Lemma pa_get_law a h u cnt :
  pa_rep a h u -> 1 <= cnt ->
  exists r h', get_page cnt a h = (r, (a, h')) /\
    (forall x, ~ pa_meta a x -> mem h' !! x = mem h !! x) /\
    match r with
    | Ok (Some p) => exists i, p = base_addr a + i * 4096 /\ 0 <= i /\ i + cnt <= size (bitmap a) /\
        (forall j, i <= j < i + cnt -> u j = false) /\ pa_rep a h' (flip_run i cnt u)
    | Ok None | Panic _ => h' = h
    | _ => False
    end.
Proof using.
  intros (Hwf & Hap & Hr) Hc.
  destruct (get_page_cases a u cnt h) as (r & h' & Hrun & Hf & Hcase); [done..|lia|].
  exists r, h'. split; [done|]. split; [intros; by eapply frame_meta|].
  destruct r as [[p|]|[]| | |]; try done; try apply Hcase.
  destruct Hcase as (i & -> & _ & _ & Hi & Hfit & _ & Hr'). exists i.
  split_and!; [done|lia|destruct (Hfit (i + cnt - 1)); lia|apply Hfit|]. by split_and!.
Qed.

Lemma pa_free_law a h u i cnt :
  pa_rep a h u -> 1 <= cnt -> 0 <= i -> i + cnt <= size (bitmap a) ->
  (forall j, i <= j < i + cnt -> u j = true) ->
  exists h', free_page (base_addr a + i * 4096) cnt a h = (Ok tt, (a, h')) /\
    (forall x, ~ pa_meta a x -> mem h' !! x = mem h !! x) /\ pa_rep a h' (flip_run i cnt u).
Proof using.
  intros (Hwf & Hap & Hr) Hc Hi Hend Hused. pose proof Hwf as (_ & ? & ? & ?).
  change (base_addr a + i * 4096) with (page_at a i).
  destruct (free_page_ok a u (page_at a i) cnt h) as (h' & Hrun & Hr' & Hf); try done.
  - unfold page_at. split; lia.
  - split_and!; [by apply page_at_aligned|unfold page_at; lia|]. rewrite page_of_at.
    intros j Hj. split; [lia|by apply Hused].
  - rewrite page_of_at in Hr'. exists h'. split; [done|].
    split; [intros; by eapply frame_meta|]. by split_and!.
Qed.

#[export] Instance page_allocator_manager : PageManager PageAllocator := {|
  pm_get := get_page;
  pm_free := free_page;
  pm_base := base_addr;
  pm_pages a := size (bitmap a);
  pm_meta := pa_meta;
  pm_rep := pa_rep;
  pm_area := pa_area_law;
  pm_rep_ext a h u u' := fun '(conj Hwf (conj Hap Hr)) Hu =>
    conj Hwf (conj Hap (proj1 (bm_rep_proper (bitmap a) u u' Hu h h eq_refl) Hr));
  pm_apart a h u x := fun '(conj _ (conj Hap _)) Hx => Z.lt_le_trans _ _ _ (proj2 Hx) Hap;
  pm_stable := pa_stable_law;
  pm_get_law := pa_get_law;
  pm_free_law := pa_free_law
|}.
End implementation.

(** ** Properties *)
Section properties.
Context `{Platform} {G A : Type} `{!PageManager A} (PAGE_ALLOC : Lens G (Singleton A))
  `{!LensLaws PAGE_ALLOC} (default : M G A).
Implicit Types (g : G) (a : A) (h : Hw) (live : list block) (b : block).

(** The addresses [b] was allocated for, and blocks that do not overlap. *)
Definition b_end b : Z := b_ptr b + layout_size (b_layout b).
Definition apart b b' : Prop := b_end b <= b_ptr b' \/ b_end b' <= b_ptr b.

Lemma size_in_pages b : b_end b <= b_ptr b + b_pages b * 4096.
Proof using. unfold b_end, b_pages, pages. zlia. Qed.

Lemma owners_apart a b b' live :
  block_ok a b -> block_ok a b' -> (forall j, (owners a j live <= 1)%nat) ->
  (exists rest, live ≡ₚ b :: b' :: rest) -> apart b b'.
Proof using.
  intros (Hl & i & Hp & Hi & He) (Hl' & i' & Hp' & Hi' & He') Hown (rest & Hperm).
  pose proof (pages_pos _ Hl). pose proof (pages_pos _ Hl').
  pose proof (size_in_pages b). pose proof (size_in_pages b'). unfold b_pages in *.
  assert (~ (exists j, in_block a j b /\ in_block a j b')) as Hdis.
  { intros (j & Hj & Hj'). specialize (Hown j).
    rewrite (owners_perm _ _ _ _ Hperm), !owners_cons, !decide_True in Hown by done. lia. }
  unfold apart. rewrite Hp, Hp' in *.
  destruct (decide (i + pages (b_layout b) <= i')); [left; lia|].
  destruct (decide (i' + pages (b_layout b') <= i)); [right; lia|].
  exfalso. apply Hdis. exists (Z.max i i').
  rewrite (in_block_at a _ b i), (in_block_at a _ b' i') by done. unfold b_pages. lia.
Qed.

(** C1: The heap: after any history of allocations, releases of held blocks and
    writes off the manager's own data, starting from a manager with all pages
    free, every live block is page-aligned, inside the managed area and off
    the manager's data; any two live blocks occupy disjoint addresses; and the
    pages in use are exactly those of live blocks, so nothing leaks. *)
Theorem heap_safety g a h0 h live :
  ready PAGE_ALLOC g a -> (0 < spin_fuel)%nat -> pm_rep a h0 (fun _ => false) ->
  rtc (heap_step PAGE_ALLOC default g a) ([], h0) (live, h) ->
  (forall b, b ∈ live -> b_ptr b mod 4096 = 0 /\ pm_base a <= b_ptr b /\
     b_end b <= pm_base a + pm_pages a * 4096 /\
     (forall x, pm_meta a x -> x < b_ptr b)) /\
  (forall b b' rest, live ≡ₚ b :: b' :: rest -> apart b b') /\
  pm_rep a h (used a live).
Proof using LensLaws0.
  intros Hg Hf Hrep Hsteps.
  destruct (heap_inv_reachable _ default g a live h0 h Hg Hf Hrep Hsteps) as (Hok & Hown & Hrep').
  simpl in *. destruct (pm_area a h _ Hrep') as (? & ? & Hal & ?). split_and!; [| |done].
  - intros b Hb. rewrite Forall_forall in Hok. destruct (Hok b Hb) as (Hl & i & Hp & Hi & He).
    pose proof (size_in_pages b). split_and!; [by rewrite Hp, Z_mod_plus_full|lia..|].
    intros x Hx. pose proof (pm_apart a h _ x Hrep' Hx). lia.
  - intros b b' rest Hperm. apply (owners_apart a b b' live); [..|by eexists].
    + rewrite Forall_forall in Hok. apply Hok. rewrite Hperm. set_solver.
    + rewrite Forall_forall in Hok. apply Hok. rewrite Hperm. set_solver.
    + done.
Qed.

(** In every reachable heap, releasing any live block with its own layout
    succeeds. *)
Theorem dealloc_live_succeeds g a h0 h live b :
  ready PAGE_ALLOC g a -> (0 < spin_fuel)%nat -> pm_rep a h0 (fun _ => false) ->
  rtc (heap_step PAGE_ALLOC default g a) ([], h0) (live, h) -> b ∈ live ->
  exists h', dealloc PAGE_ALLOC default (b_ptr b) (b_layout b) g h = (Ok tt, (g, h')) /\
    forall live', live ≡ₚ b :: live' -> pm_rep a h' (used a live').
Proof using LensLaws0.
  intros Hg Hf Hrep Hsteps Hb.
  pose proof (heap_inv_reachable _ default g a live h0 h Hg Hf Hrep Hsteps) as Hinv.
  apply list_elem_of_split in Hb as (l1 & l2 & ->).
  destruct (dealloc_step_inv _ default g a b _ (l1 ++ l2) h Hg Hf Hinv) as (h' & Hrun & Hinv').
  { by rewrite Permutation_middle. }
  exists h'. split; [done|]. intros live' Hperm. destruct Hinv' as (_ & _ & Hrep').
  eapply pm_rep_ext; [exact Hrep'|]. intros j _. unfold used. simpl.
  rewrite (owners_perm a j (l1 ++ l2) live'); [done|].
  rewrite <- Permutation_middle in Hperm. by apply Permutation_cons_inv in Hperm.
Qed.

(** [alloc] either returns a block of free pages, large enough, aligned to
    every alignment that divides the page size, and marks exactly these pages;
    or it panics and leaves memory as it was.  It never returns null to report
    exhaustion. *)
Theorem alloc_outcomes g a h u l :
  ready PAGE_ALLOC g a -> (0 < spin_fuel)%nat -> pm_rep a h u -> layout_ok l ->
  (exists p i h', alloc PAGE_ALLOC default l g h = (Ok p, (g, h')) /\
     p = pm_base a + i * 4096 /\ 0 <= i /\ i + pages l <= pm_pages a /\
     layout_size l <= pages l * 4096 /\ ((layout_align l | 4096) -> (layout_align l | p)) /\
     (forall j, i <= j < i + pages l -> u j = false) /\
     pm_rep a h' (flip_run i (pages l) u)) \/
  (exists why, alloc PAGE_ALLOC default l g h = (Panic why, (g, h))).
Proof using LensLaws0.
  intros Hg Hf Hrep Hl. pose proof (pages_pos l Hl) as [Hp _].
  destruct (pm_get_law a h u (pages l) Hrep Hp) as (r & h1 & Hget & _ & Hr).
  rewrite (alloc_run _ _ l g a h r h1) by done.
  destruct r as [[q|]|why| | |]; try done; simpl.
  - left. destruct Hr as (i & -> & Hi & He & Hfree & Hrep'). exists (pm_base a + i * 4096), i, h1.
    split_and!; try done; [unfold pages; zlia|]. intros Hal.
    destruct (pm_area a h _ Hrep) as (_ & _ & Hb & _). apply Z.mod_divide in Hb; [|done].
    apply Z.divide_add_r; [by etrans|]. by apply Z.divide_mul_r.
  - right. subst. by eexists.
  - right. subst. by eexists.
Qed.
End properties.

(** ** A heap to run *)
Definition fresh_hw : Hw := MkHw {[ 0x1000 := 0; 0x1001 := 0 ]} [] [] 0x8 0 0 None false.
Definition example_global : Singleton PageAllocator := MkSingleton SINGLE_INITED (Some example_pa).
Definition example_default : M (Singleton PageAllocator) PageAllocator := mret example_pa.

Lemma fresh_rep `{Platform} : pm_rep example_pa fresh_hw (fun _ => false).
Proof.
  split; [apply example_pa_wf|]. split; [by vm_compute|]. intros i Hi. simpl in Hi.
  exists 0. rewrite Z.bits_0. split_and!; [|done..].
  assert (i / 8 = 0 \/ i / 8 = 1) as [-> | ->] by zlia; reflexivity.
Qed.

(** Page-sized blocks are page-aligned and no more: a layout that asks for 8 KiB
    alignment gets an address that is not. *)
Lemma alloc_ignores_alignment :
  exists h p, (let '(r, _) := alloc (H := constant_platform true 0) (whole _) example_default
      (MkLayout 4096 8192) example_global h in r = Ok p) /\ ~ (8192 | p).
Proof.
  exists (MkHw {[ 0x1000 := 1; 0x1001 := 0 ]} [] [] 0x8 0 0 None false), 0x5000.
  split; [by vm_compute|]. intros [k Hk]. lia.
Qed.

Lemma heap_safety_witness :
  exists live h, live = [MkBlock 0x4000 (MkLayout 5000 8)] /\
    pm_rep (H := constant_platform true 0) example_pa h (used (H := constant_platform true 0) example_pa live).
Proof.
  set (P := constant_platform true 0).
  eexists [MkBlock 0x4000 (MkLayout 5000 8)], _. split; [reflexivity|].
  eapply (@heap_safety P _ PageAllocator _ (whole _) _ example_default example_global example_pa fresh_hw).
  - reflexivity.
  - cbn. lia.
  - apply (@fresh_rep P).
  - eapply rtc_l; [apply (Step_alloc _ _ _ _ (MkLayout 5000 8) 0x4000);
      [split; cbn; lia|vm_compute; reflexivity]|].
    eapply rtc_l; [apply (Step_alloc _ _ _ _ (MkLayout 100 8) 0x6000);
      [split; cbn; lia|vm_compute; reflexivity]|].
    eapply rtc_l; [apply (Step_dealloc _ _ _ _ (MkBlock 0x6000 (MkLayout 100 8)) _
      [MkBlock 0x4000 (MkLayout 5000 8)]); [reflexivity|vm_compute; reflexivity]|].
    apply rtc_refl.
Defined.

Lemma dealloc_live_succeeds_witness :
  exists h h', dealloc (H := constant_platform true 0) (whole _) example_default 0x4000 (MkLayout 5000 8)
    example_global h = (Ok tt, (example_global, h')).
Proof.
  set (P := constant_platform true 0).
  edestruct (@dealloc_live_succeeds P _ PageAllocator _ (whole _) _ example_default example_global
    example_pa fresh_hw) as (h' & Hrun & _).
  - reflexivity.
  - cbn. lia.
  - apply (@fresh_rep P).
  - eapply rtc_l; [apply (Step_alloc _ _ _ _ (MkLayout 5000 8) 0x4000);
      [split; cbn; lia|vm_compute; reflexivity]|]. apply rtc_refl.
  - apply list_elem_of_here.
  - eexists _, h'. exact Hrun.
Defined.

Lemma alloc_outcomes_witness :
  exists p h', alloc (H := constant_platform true 0) (whole _) example_default (MkLayout 5000 8)
    example_global fresh_hw = (Ok p, (example_global, h')) /\ (8 | p).
Proof.
  set (P := constant_platform true 0).
  destruct (@alloc_outcomes P _ PageAllocator _ (whole _) _ example_default example_global example_pa
    fresh_hw (fun _ => false) (MkLayout 5000 8)) as [(p & i & h' & Hrun & _ & _ & _ & _ & Hal & _)|(why & Hp)].
  - reflexivity.
  - cbn. lia.
  - apply (@fresh_rep P).
  - split; cbn; lia.
  - exists p, h'. split; [exact Hrun|]. apply Hal. exists 512. reflexivity.
  - exfalso. vm_compute in Hp. discriminate.
Defined.
