(* ===== verification/Intr.v ===== *)
(** * Interrupt descriptors: [arch/x86/intr.rs]

    Gate options, gate entries, the 256-entry table with its named fields and
    its [Index]/[IndexMut], [update] and the end-of-interrupt command.  A
    handler is a function pointer of one of the four handler types; the type
    parameter of an entry keeps them apart as [PhantomData] does.  [decode_gate]
    is the processor's reading of the eight bytes of an entry, and the
    theorems say what the processor finds in the table the code builds. *)
From Stdlib Require Import ZArith Lia.
From stdpp Require Import base tactics numbers list gmap.
From S2P Require Import Prelude.
From S2P Require Import Machine.
From S2P Require Import BitAccess.
From S2P Require Import X86.
From S2P Require Import Loader.

(** ** Handlers: function pointers, by signature *)
Record HandlerFunc := MkHandlerFunc { hf_addr : Z }.
Record HandlerFuncErrCode := MkHandlerFuncErrCode { hfe_addr : Z }.
Record DivergingHandlerFunc := MkDivergingHandlerFunc { dhf_addr : Z }.
Record DivergingHandlerFuncErrCode := MkDivergingHandlerFuncErrCode { dhfe_addr : Z }.

(** [handler as usize]. *)
Class Handler (T : Type) := { as_usize : T -> Z }.
#[export] Instance HandlerFunc_handler : Handler HandlerFunc := {| as_usize := hf_addr |}.
#[export] Instance HandlerFuncErrCode_handler : Handler HandlerFuncErrCode := {| as_usize := hfe_addr |}.
#[export] Instance DivergingHandlerFunc_handler : Handler DivergingHandlerFunc :=
  {| as_usize := dhf_addr |}.
#[export] Instance DivergingHandlerFuncErrCode_handler : Handler DivergingHandlerFuncErrCode :=
  {| as_usize := dhfe_addr |}.

(** ** Gate options: [InterruptOption(u16)] *)
Section options.
Context `{Platform}.
Implicit Types (self : Z) (val : bool).

Definition is_trap self : result bool := get_bit 16 self 8.
Definition set_trap self val : result Z := set_bit 16 self 8 val.
Definition privilege_level self : result Z := get_bits 16 self (range_inclusive 13 14).
Definition set_privilege_level self (val : Z) : result Z := set_bits 16 self (range_inclusive 13 14) val.
Definition is_present self : result bool := get_bit 16 self 15.
Definition set_present self val : result Z := set_bit 16 self 15 val.

Definition option_new (is_trap : bool) (privilege_level : PrivilegeLevel) (is_present : bool) : result Z :=
  o ← set_trap 0x0E00 is_trap;
  o ← set_privilege_level o (privilege_as_u16 privilege_level);
  set_present o is_present.

Definition option_default : result Z := option_new false Ring0 false.
End options.

(** ** Gate entries *)
Record InterruptEntry (T : Type) := MkEntry {
  pointer_low : Z;
  gdt_selector : Z;
  options : Z;
  pointer_middle : Z
}.
Arguments MkEntry {T} _ _ _ _.
Arguments pointer_low {T} _.
Arguments gdt_selector {T} _.
Arguments options {T} _.
Arguments pointer_middle {T} _.

#[export] Instance InterruptEntry_eq_dec T : EqDecision (InterruptEntry T).
Proof. solve_decision. Defined.

Section entry.
Context `{Platform} {T : Type}.
Implicit Types self : InterruptEntry T.

Definition pointer self : result Z :=
  m ← shl 32 (pointer_middle self) 16; Ok (Z.lor m (pointer_low self)).

Definition set_option (opt : Z) : M (InterruptEntry T) unit :=
  self ← get; put (MkEntry (pointer_low self) (gdt_selector self) opt (pointer_middle self)).

Definition set_handle_addr (pointer : Z) : M (InterruptEntry T) unit :=
  let low := wrap 16 (Z.land pointer 0xffff) in
  self ← get;
  _ ← put (MkEntry low (gdt_selector self) (options self) (pointer_middle self));
  m ← lift (shr 32 pointer 16);
  let middle := wrap 16 m in
  self ← get;
  _ ← put (MkEntry (pointer_low self) (gdt_selector self) (options self) middle);
  cs ← get_cs;
  self ← get;
  _ ← put (MkEntry (pointer_low self) cs (options self) (pointer_middle self));
  opt ← lift (option_new false Ring0 true);
  set_option opt.

(** The four [set_handle_fn]s. *)
Definition set_handle_fn `{Handler T} (handler : T) : M (InterruptEntry T) unit :=
  set_handle_addr (as_usize handler).

Definition entry_default : result (InterruptEntry T) :=
  o ← option_default; Ok (MkEntry 0 0 o 0).
End entry.

(** ** The table *)
Record InterruptDescriptorTable := MkIDT {
  divide_error : InterruptEntry HandlerFunc;
  debug : InterruptEntry HandlerFunc;
  non_maskable_interrupt : InterruptEntry HandlerFunc;
  breakpoint : InterruptEntry HandlerFunc;
  overflow : InterruptEntry HandlerFunc;
  bound_range_exceeded : InterruptEntry HandlerFunc;
  invalid_opcode : InterruptEntry HandlerFunc;
  device_not_available : InterruptEntry HandlerFunc;
  double_fault : InterruptEntry DivergingHandlerFuncErrCode;
  coprocessor_segment_overrun : InterruptEntry HandlerFunc;
  invalid_tss : InterruptEntry HandlerFuncErrCode;
  segment_not_present : InterruptEntry HandlerFuncErrCode;
  stack_segment_fault : InterruptEntry HandlerFuncErrCode;
  general_protection_fault : InterruptEntry HandlerFuncErrCode;
  page_fault : InterruptEntry HandlerFuncErrCode;
  reserved_1 : InterruptEntry HandlerFunc;
  x87_floating_point : InterruptEntry HandlerFunc;
  alignment_check : InterruptEntry HandlerFuncErrCode;
  machine_check : InterruptEntry DivergingHandlerFunc;
  simd_floating_point : InterruptEntry HandlerFunc;
  virtualization : InterruptEntry HandlerFunc;
  reserved_2 : list (InterruptEntry HandlerFunc);      (** 9 entries *)
  security_exception : InterruptEntry HandlerFuncErrCode;
  reserved_3 : InterruptEntry HandlerFunc;
  interrupts : list (InterruptEntry HandlerFunc)       (** 256 - 32 entries *)
}.

(** Laws of a field. *)
Ltac lens_laws := split; [by intros ? []|by intros ? ? []|by intros []].

(** A field of the table, as what [&mut self.field] gives access to. *)
Ltac idt_field f :=
  exact (MkLens f (fun e '(MkIDT a0 a1 a2 a3 a4 a5 a6 a7 a8 a9 a10 a11 a12
      a13 a14 a15 a16 a17 a18 a19 a20 a21 a22 a23 a24) => ltac:(
    let r := constr:(MkIDT a0 a1 a2 a3 a4 a5 a6 a7 a8 a9 a10 a11 a12
      a13 a14 a15 a16 a17 a18 a19 a20 a21 a22 a23 a24) in
    let v := eval cbn in (f r) in
    match r with context C [v] => let r' := context C [e] in exact r' end))).

Definition divide_error_mut : Lens InterruptDescriptorTable (InterruptEntry HandlerFunc) :=
  ltac:(idt_field divide_error).
Definition debug_mut : Lens InterruptDescriptorTable (InterruptEntry HandlerFunc) :=
  ltac:(idt_field debug).
Definition non_maskable_interrupt_mut : Lens InterruptDescriptorTable (InterruptEntry HandlerFunc) :=
  ltac:(idt_field non_maskable_interrupt).
Definition breakpoint_mut : Lens InterruptDescriptorTable (InterruptEntry HandlerFunc) :=
  ltac:(idt_field breakpoint).
Definition overflow_mut : Lens InterruptDescriptorTable (InterruptEntry HandlerFunc) :=
  ltac:(idt_field overflow).
Definition bound_range_exceeded_mut : Lens InterruptDescriptorTable (InterruptEntry HandlerFunc) :=
  ltac:(idt_field bound_range_exceeded).
Definition invalid_opcode_mut : Lens InterruptDescriptorTable (InterruptEntry HandlerFunc) :=
  ltac:(idt_field invalid_opcode).
Definition device_not_available_mut : Lens InterruptDescriptorTable (InterruptEntry HandlerFunc) :=
  ltac:(idt_field device_not_available).
Definition double_fault_mut : Lens InterruptDescriptorTable (InterruptEntry DivergingHandlerFuncErrCode) :=
  ltac:(idt_field double_fault).
Definition coprocessor_segment_overrun_mut : Lens InterruptDescriptorTable (InterruptEntry HandlerFunc) :=
  ltac:(idt_field coprocessor_segment_overrun).
Definition invalid_tss_mut : Lens InterruptDescriptorTable (InterruptEntry HandlerFuncErrCode) :=
  ltac:(idt_field invalid_tss).
Definition segment_not_present_mut : Lens InterruptDescriptorTable (InterruptEntry HandlerFuncErrCode) :=
  ltac:(idt_field segment_not_present).
Definition stack_segment_fault_mut : Lens InterruptDescriptorTable (InterruptEntry HandlerFuncErrCode) :=
  ltac:(idt_field stack_segment_fault).
Definition general_protection_fault_mut : Lens InterruptDescriptorTable (InterruptEntry HandlerFuncErrCode) :=
  ltac:(idt_field general_protection_fault).
Definition page_fault_mut : Lens InterruptDescriptorTable (InterruptEntry HandlerFuncErrCode) :=
  ltac:(idt_field page_fault).
Definition reserved_1_mut : Lens InterruptDescriptorTable (InterruptEntry HandlerFunc) :=
  ltac:(idt_field reserved_1).
Definition x87_floating_point_mut : Lens InterruptDescriptorTable (InterruptEntry HandlerFunc) :=
  ltac:(idt_field x87_floating_point).
Definition alignment_check_mut : Lens InterruptDescriptorTable (InterruptEntry HandlerFuncErrCode) :=
  ltac:(idt_field alignment_check).
Definition machine_check_mut : Lens InterruptDescriptorTable (InterruptEntry DivergingHandlerFunc) :=
  ltac:(idt_field machine_check).
Definition simd_floating_point_mut : Lens InterruptDescriptorTable (InterruptEntry HandlerFunc) :=
  ltac:(idt_field simd_floating_point).
Definition virtualization_mut : Lens InterruptDescriptorTable (InterruptEntry HandlerFunc) :=
  ltac:(idt_field virtualization).
Definition reserved_2_mut : Lens InterruptDescriptorTable (list (InterruptEntry HandlerFunc)) :=
  ltac:(idt_field reserved_2).
Definition security_exception_mut : Lens InterruptDescriptorTable (InterruptEntry HandlerFuncErrCode) :=
  ltac:(idt_field security_exception).
Definition reserved_3_mut : Lens InterruptDescriptorTable (InterruptEntry HandlerFunc) :=
  ltac:(idt_field reserved_3).
Definition interrupts_mut : Lens InterruptDescriptorTable (list (InterruptEntry HandlerFunc)) :=
  ltac:(idt_field interrupts).

#[export] Instance breakpoint_laws : LensLaws breakpoint_mut.
Proof. lens_laws. Qed.
#[export] Instance double_fault_laws : LensLaws double_fault_mut.
Proof. lens_laws. Qed.
#[export] Instance segment_not_present_laws : LensLaws segment_not_present_mut.
Proof. lens_laws. Qed.
#[export] Instance page_fault_laws : LensLaws page_fault_mut.
Proof. lens_laws. Qed.

(** [size_of::<InterruptEntry<T>>()], a packed struct of four [u16]s, and of the table. *)
Definition ENTRY_SIZE : Z := 8.
Definition IDT_SIZE : Z := 256 * ENTRY_SIZE.

Section table.
Context `{Platform}.

Definition idt_new : result InterruptDescriptorTable :=
  divide_error ← entry_default (T := HandlerFunc);
  debug ← entry_default (T := HandlerFunc);
  non_maskable_interrupt ← entry_default (T := HandlerFunc);
  breakpoint ← entry_default (T := HandlerFunc);
  overflow ← entry_default (T := HandlerFunc);
  bound_range_exceeded ← entry_default (T := HandlerFunc);
  invalid_opcode ← entry_default (T := HandlerFunc);
  device_not_available ← entry_default (T := HandlerFunc);
  double_fault ← entry_default (T := DivergingHandlerFuncErrCode);
  coprocessor_segment_overrun ← entry_default (T := HandlerFunc);
  invalid_tss ← entry_default (T := HandlerFuncErrCode);
  segment_not_present ← entry_default (T := HandlerFuncErrCode);
  stack_segment_fault ← entry_default (T := HandlerFuncErrCode);
  general_protection_fault ← entry_default (T := HandlerFuncErrCode);
  page_fault ← entry_default (T := HandlerFuncErrCode);
  reserved_1 ← entry_default (T := HandlerFunc);
  x87_floating_point ← entry_default (T := HandlerFunc);
  alignment_check ← entry_default (T := HandlerFuncErrCode);
  machine_check ← entry_default (T := DivergingHandlerFunc);
  simd_floating_point ← entry_default (T := HandlerFunc);
  virtualization ← entry_default (T := HandlerFunc);
  reserved_2 ← entry_default (T := HandlerFunc);
  security_exception ← entry_default (T := HandlerFuncErrCode);
  reserved_3 ← entry_default (T := HandlerFunc);
  interrupts ← entry_default (T := HandlerFunc);
  Ok (MkIDT divide_error debug non_maskable_interrupt breakpoint overflow
    bound_range_exceeded invalid_opcode device_not_available double_fault
    coprocessor_segment_overrun invalid_tss segment_not_present stack_segment_fault
    general_protection_fault page_fault reserved_1 x87_floating_point alignment_check
    machine_check simd_floating_point virtualization (replicate 9 reserved_2)
    security_exception reserved_3 (replicate (256 - 32) interrupts)).

Definition idt_default : result InterruptDescriptorTable := idt_new.

(** [update], of the table at address [self]. *)
Definition update {S} (self : Z) : M S unit :=
  let base := wrap 32 self in
  n ← lift (sub 32 IDT_SIZE 1);
  lidt (MkDTP (wrap 16 n) base).

Definition index (self : InterruptDescriptorTable) (index : Z) : result (InterruptEntry HandlerFunc) :=
  if index =? 0 then Ok (divide_error self)
  else if index =? 1 then Ok (debug self)
  else if index =? 2 then Ok (non_maskable_interrupt self)
  else if index =? 3 then Ok (breakpoint self)
  else if index =? 4 then Ok (overflow self)
  else if index =? 5 then Ok (bound_range_exceeded self)
  else if index =? 6 then Ok (invalid_opcode self)
  else if index =? 7 then Ok (device_not_available self)
  else if index =? 9 then Ok (coprocessor_segment_overrun self)
  else if index =? 16 then Ok (x87_floating_point self)
  else if index =? 19 then Ok (simd_floating_point self)
  else if index =? 20 then Ok (virtualization self)
  else if (32 <=? index) && (index <=? 255) then
    match interrupts self !! Z.to_nat (index - 32) with
    | Some e => Ok e
    | None => Panic OutOfBounds
    end
  else if (index =? 15) || (index =? 31) || ((21 <=? index) && (index <=? 29)) then Panic Explicit (* reserved *)
  else if (index =? 8) || ((10 <=? index) && (index <=? 14)) || (index =? 17) || (index =? 30) then
    Panic Explicit (* exception with error code *)
  else if index =? 18 then Panic Explicit (* diverging *)
  else Panic Explicit (* no such entry *).

(** An element of an array field. *)
Definition array_mut {G E A} (l : Lens G (list E)) (i : Z) (m : M E A) : M G A := fun g h =>
  match view l g !! Z.to_nat i with
  | Some e =>
      let '(r, (e', h')) := m e h in (r, (over l (<[Z.to_nat i := e']> (view l g)) g, h'))
  | None => (Panic OutOfBounds, (g, h))
  end.

(** [self[index].m()] through [IndexMut]. *)
Definition index_mut {A} (index : Z) (m : M (InterruptEntry HandlerFunc) A) :
    M InterruptDescriptorTable A :=
  if index =? 0 then zoom divide_error_mut m
  else if index =? 1 then zoom debug_mut m
  else if index =? 2 then zoom non_maskable_interrupt_mut m
  else if index =? 3 then zoom breakpoint_mut m
  else if index =? 4 then zoom overflow_mut m
  else if index =? 5 then zoom bound_range_exceeded_mut m
  else if index =? 6 then zoom invalid_opcode_mut m
  else if index =? 7 then zoom device_not_available_mut m
  else if index =? 9 then zoom coprocessor_segment_overrun_mut m
  else if index =? 16 then zoom x87_floating_point_mut m
  else if index =? 19 then zoom simd_floating_point_mut m
  else if index =? 20 then zoom virtualization_mut m
  else if (32 <=? index) && (index <=? 255) then array_mut interrupts_mut (index - 32) m
  else if (index =? 15) || (index =? 31) || ((21 <=? index) && (index <=? 29)) then lift (Panic Explicit) (* reserved *)
  else if (index =? 8) || ((10 <=? index) && (index <=? 14)) || (index =? 17) || (index =? 30) then
    lift (Panic Explicit) (* exception with error code *)
  else if index =? 18 then lift (Panic Explicit) (* diverging *)
  else lift (Panic Explicit) (* no such entry *).
End table.

Record ExceptionStackFrame := MkFrame {
  instruction_pointer : Z;
  code_segment : Z;
  cpu_flags : Z;
  stack_pointer : Z;
  stack_segment : Z
}.

Definition end_of_interrupt {S} : M S unit := outb 0x20 0x20.

(** ** What the processor reads *)

(** The table as 256 entries, in the order of the fields. *)
Definition erase {T} (e : InterruptEntry T) : InterruptEntry unit :=
  MkEntry (pointer_low e) (gdt_selector e) (options e) (pointer_middle e).

Definition vectors (t : InterruptDescriptorTable) : list (InterruptEntry unit) :=
  [erase (divide_error t); erase (debug t); erase (non_maskable_interrupt t);
   erase (breakpoint t); erase (overflow t); erase (bound_range_exceeded t);
   erase (invalid_opcode t); erase (device_not_available t); erase (double_fault t);
   erase (coprocessor_segment_overrun t); erase (invalid_tss t); erase (segment_not_present t);
   erase (stack_segment_fault t); erase (general_protection_fault t); erase (page_fault t);
   erase (reserved_1 t); erase (x87_floating_point t); erase (alignment_check t);
   erase (machine_check t); erase (simd_floating_point t); erase (virtualization t)] ++
  map erase (reserved_2 t) ++ [erase (security_exception t); erase (reserved_3 t)] ++
  map erase (interrupts t).

Definition idt_wf (t : InterruptDescriptorTable) : Prop :=
  length (reserved_2 t) = 9%nat /\ length (interrupts t) = 224%nat.

Definition entry_bytes {T} (e : InterruptEntry T) : list Z :=
  le_bytes 2 (pointer_low e) ++ le_bytes 2 (gdt_selector e) ++ le_bytes 2 (options e) ++
  le_bytes 2 (pointer_middle e).

Definition idt_bytes (t : InterruptDescriptorTable) : list Z := concat (map entry_bytes (vectors t)).

(** A 32-bit gate descriptor: entry point, code segment, and the present bit,
    privilege level and five-bit type of its attribute byte. *)
Record gate := MkGate {
  g_offset : Z;
  g_selector : Z;
  g_present : bool;
  g_dpl : Z;
  g_type : Z
}.

Definition INTERRUPT_GATE_32 : Z := 0xe.

Definition decode_gate (bytes : list Z) : option gate :=
  match bytes with
  | [o0; o1; s0; s1; _; attr; o2; o3] =>
      Some (MkGate (o0 + 256 * o1 + 65536 * o2 + 16777216 * o3) (s0 + 256 * s1)
        (Z.testbit attr 7) (field attr 5 7) (field attr 0 5))
  | _ => None
  end.

(** Vector [v] of the table at the current [idtr], if it is within the limit. *)
Definition cpu_gate (idtr : Z * Z) (bytes : list Z) (v : Z) : option gate :=
  if v * 8 + 7 <=? snd idtr then decode_gate (take 8 (drop (Z.to_nat (v * 8)) bytes)) else None.

(** ** Lemmas: gates *)
Section gates.
Context `{Platform}.

Lemma option_new_run trap p present :
  option_new trap p present =
    Ok (0x0E00 + 256 * Z.b2z trap + 8192 * privilege_as_u16 p + 32768 * Z.b2z present).
Proof. by destruct trap, p, present. Qed.

Lemma option_fields trap p present o :
  option_new trap p present = Ok o ->
  o ∈u 16 /\ is_trap o = Ok trap /\ privilege_level o = Ok (privilege_as_u16 p) /\ is_present o = Ok present.
Proof.
  rewrite option_new_run. intros [= <-].
  by destruct trap, p, present; (split; [split; [cbn; lia|reflexivity]|]).
Qed.

Definition entry_ok {T} (e : InterruptEntry T) : Prop :=
  pointer_low e ∈u 16 /\ gdt_selector e ∈u 16 /\ options e ∈u 16 /\ pointer_middle e ∈u 16.

Lemma entry_default_run T :
  @entry_default _ T = Ok (MkEntry 0 0 0x0E00 0).
Proof. done. Qed.

Lemma decode_entry {T} (e : InterruptEntry T) :
  entry_ok e ->
  decode_gate (entry_bytes e) = Some (MkGate (pointer_low e + 65536 * pointer_middle e) (gdt_selector e)
    (Z.testbit (options e) 15) (field (options e) 13 15) (field (options e) 8 13)).
Proof.
  intros ([??] & [??] & Ho & [??]). unfold entry_bytes. cbn [le_bytes app decode_gate].
  change (2 ^ 16) with 65536 in *.
  assert (options e / 256 mod 256 = field (options e) 8 16) as -> by by rewrite field_div_mod by lia.
  rewrite !(Z.mod_small (_ / 256)) by (split; [zlia|apply Z.div_lt_upper_bound; lia]).
  do 2 f_equal; [pose proof (Z.div_mod (pointer_low e) 256); pose proof (Z.div_mod (pointer_middle e) 256); lia
    |pose proof (Z.div_mod (gdt_selector e) 256); lia|rewrite testbit_field by lia; done|..].
  all: apply Z.bits_inj'; intros i ?; rewrite !testbit_field by lia;
    repeat (bits_case; simpl); try done; f_equal; lia.
Qed.

(** The entry [set_handle_addr] writes. *)
Definition handler_entry {T} (p cs : Z) : InterruptEntry T :=
  MkEntry (p mod 65536) cs 0x8E00 (p / 65536).

Lemma set_handle_addr_run {T} (p : Z) (e : InterruptEntry T) h :
  p ∈u 32 -> set_handle_addr p e h = (Ok tt, (handler_entry p (reg_cs h), h)).
Proof.
  intros [??]. unfold set_handle_addr, handler_entry.
  do 2 (run_step eq_refl). run_lift shr_ok by lia. do 5 (run_step eq_refl).
  run_step eq_refl. unfold set_option, get, put, mbind, M_bind; cbn [pointer_low pointer_middle gdt_selector].
  assert (wrap 16 (Z.land p 0xffff) = p mod 65536) as ->.
  { change 0xffff with (Z.ones 16). rewrite Z.land_ones by lia. unfold wrap. by rewrite Z.mod_mod. }
  assert (wrap 16 (Z.shiftr p 16) = p / 65536) as ->; [|done].
  rewrite Z.shiftr_div_pow2 by lia. apply wrap_small. change (2 ^ 16) with 65536.
  split; [zlia|]. by apply Z.div_lt_upper_bound.
Qed.

Lemma handler_entry_ok {T} p cs : p ∈u 32 -> cs ∈u 16 -> entry_ok (handler_entry (T := T) p cs).
Proof.
  intros [??] Hcs. unfold entry_ok; cbn. split_and!; try done; split; try zlia.
Qed.

Lemma decode_handler_entry {T} p cs :
  p ∈u 32 -> cs ∈u 16 ->
  decode_gate (entry_bytes (handler_entry (T := T) p cs)) = Some (MkGate p cs true 0 INTERRUPT_GATE_32).
Proof.
  intros Hp Hcs. rewrite decode_entry by by apply handler_entry_ok.
  cbn [handler_entry pointer_low pointer_middle gdt_selector options]. do 2 f_equal; [|done..].
  pose proof (Z.div_mod p 65536). lia.
Qed.

Lemma pointer_run {T} (e : InterruptEntry T) :
  entry_ok e -> pointer e = Ok (pointer_low e + 65536 * pointer_middle e).
Proof.
  intros ([??] & _ & _ & [??]). unfold pointer. ok_step shl_ok by lia. f_equal.
  change (2 ^ 16) with 65536 in *.
  rewrite wrap_small by (rewrite Z.shiftl_mul_pow2 by lia; change (2 ^ 16) with 65536; split; lia).
  rewrite lor_shiftl_add by (try split; lia). change (2 ^ 16) with 65536. lia.
Qed.
(** Writing part of a field of the options. *)
Lemma field_with_subfield x s e s' e' v :
  0 <= s' <= s -> s <= e <= e' -> v ∈u (e - s) ->
  field (with_field x s e v) s' e' = with_field (field x s' e') (s - s') (e - s') v.
Proof.
  intros ? ? Hv. assert (v ∈u (e - s' - (s - s'))) by (by replace (e - s' - (s - s')) with (e - s) by lia).
  apply Z.bits_inj'. intros i ?.
  rewrite testbit_field, !testbit_with_field, testbit_field by (done || lia).
  destruct (Z.ltb_spec i (e' - s')); cbn [andb]; repeat case_decide; try lia; [f_equal; lia|done..].
Qed.

(** The gate the processor reads after [set_option] of new options. *)
Definition becomes {T} (set : Z -> result Z) (e : InterruptEntry T) h (g : gate) : Prop :=
  exists o e', set (options e) = Ok o /\ set_option o e h = (Ok tt, (e', h)) /\ entry_ok e' /\
    decode_gate (entry_bytes e') = Some g.

Lemma becomes_field {T} (e : InterruptEntry T) h set s n v :
  entry_ok e -> valid_range 16 s n -> v ∈u (n - s) -> set (options e) = Ok (with_field (options e) s n v) ->
  becomes set e h (MkGate (pointer_low e + 65536 * pointer_middle e) (gdt_selector e)
    (Z.testbit (with_field (options e) s n v) 15) (field (with_field (options e) s n v) 13 15)
    (field (with_field (options e) s n v) 8 13)).
Proof.
  set (o := with_field (options e) s n v). intros (? & ? & ? & ?) Hv Hn Hset. assert (o ∈u 16) by by apply uint_with_field.
  eexists o, (MkEntry _ _ o _). split; [done|]. split; [done|]. split; [done|]. by rewrite decode_entry.
Qed.
End gates.

(** ** Lemmas: the table *)
Section table_lemmas.
Context `{Platform}.
Implicit Types (t : InterruptDescriptorTable) (i : Z) (h : Hw).

(** The vectors [Index] gives access to. *)
Definition accessible i : bool :=
  bool_decide (i ∈ [0; 1; 2; 3; 4; 5; 6; 7; 9; 16; 19; 20]) || ((32 <=? i) && (i <=? 255)).

Lemma length_vectors t : idt_wf t -> length (vectors t) = 256%nat.
Proof using. intros [H2 Hi]. unfold vectors. by rewrite !length_app, !length_map, H2, Hi. Qed.

(** The first 32 vectors, and the user-defined ones. *)
Lemma vectors_split t :
  idt_wf t -> exists pre, length pre = 32%nat /\ vectors t = pre ++ map erase (interrupts t) /\
    forall l, vectors (over interrupts_mut l t) = pre ++ map erase l.
Proof using.
  intros [H2 _]. destruct t. cbn in H2. eexists. split; [|split; [|intros l]].
  2-3: cbn [vectors over interrupts_mut interrupts]; unfold vectors; rewrite !app_assoc; reflexivity.
  by rewrite !length_app, !length_map; cbn [reserved_2]; rewrite H2.
Qed.

Lemma vectors_user t i :
  idt_wf t -> 32 <= i <= 255 ->
  vectors t !! Z.to_nat i = erase <$> (interrupts t !! Z.to_nat (i - 32)).
Proof using.
  intros Hwf Hi. destruct (vectors_split t Hwf) as (pre & Hl & -> & _).
  rewrite lookup_app_r, list_lookup_fmap, Hl by lia. do 2 f_equal. lia.
Qed.

Lemma vectors_user_insert t i e :
  idt_wf t -> 32 <= i <= 255 ->
  vectors (over interrupts_mut (<[Z.to_nat (i - 32) := e]> (interrupts t)) t) =
    <[Z.to_nat i := erase e]> (vectors t).
Proof using.
  intros Hwf Hi. destruct (vectors_split t Hwf) as (pre & Hl & -> & ->).
  rewrite insert_app_r_alt, Hl by lia. f_equal.
  change (map erase) with (fmap (M := list) (@erase HandlerFunc)).
  rewrite list_fmap_insert. f_equal. lia.
Qed.

(** What access to an entry is: a value, and a place to write one back. *)
Record entry_access t i (e : InterruptEntry HandlerFunc)
    (put : InterruptEntry HandlerFunc -> InterruptDescriptorTable) : Prop := {
  acc_index : index t i = Ok e;
  acc_vector : vectors t !! Z.to_nat i = Some (erase e);
  acc_mut : forall A (m : M _ A) h,
    index_mut i m t h = let '(r, (e', h')) := m e h in (r, (put e', h'));
  acc_put : forall e', vectors (put e') = <[Z.to_nat i := erase e']> (vectors t) /\
    idt_wf (put e') /\ index (put e') i = Ok e'
}.

Lemma field_access t i (l : Lens InterruptDescriptorTable (InterruptEntry HandlerFunc)) :
  index t i = Ok (view l t) ->
  vectors t !! Z.to_nat i = Some (erase (view l t)) ->
  (forall A (m : M _ A), index_mut i m = zoom l m) ->
  (forall e, vectors (over l e t) = <[Z.to_nat i := erase e]> (vectors t) /\
    idt_wf (over l e t) /\ index (over l e t) i = Ok e) ->
  exists e put, entry_access t i e put.
Proof using.
  intros Hi Hv Hm Hp. exists (view l t), (fun e => over l e t). split; [done|done| |done].
  intros A m h. by rewrite Hm.
Qed.

Lemma user_access t i :
  idt_wf t -> 32 <= i <= 255 -> exists e put, entry_access t i e put.
Proof using.
  intros Hwf Hi. pose proof Hwf as [H2 Hint].
  destruct (lookup_lt_is_Some_2 (interrupts t) (Z.to_nat (i - 32))) as [e He]; [lia|].
  exists e, (fun e' => over interrupts_mut (<[Z.to_nat (i - 32) := e']> (interrupts t)) t).
  assert (forall t', index t' i = match interrupts t' !! Z.to_nat (i - 32) with
    | Some e => Ok e | None => Panic OutOfBounds end) as Hidx.
  { intros t'. unfold index. repeat (bits_case; cbn [andb]); done. }
  split.
  - by rewrite Hidx, He.
  - by rewrite vectors_user, He.
  - intros A m h. unfold index_mut. repeat (bits_case; cbn [andb]).
    unfold array_mut. cbn [view interrupts_mut]. by rewrite He.
  - intros e'. split_and!.
    + by apply vectors_user_insert.
    + unfold idt_wf in *. destruct t; cbn in *. by rewrite length_insert.
    + rewrite Hidx. destruct t; cbn in *. rewrite list_lookup_insert_eq; [done|].
      by eapply lookup_lt_Some.
Qed.

Lemma index_access t i :
  idt_wf t -> accessible i = true -> exists e put, entry_access t i e put.
Proof using.
  intros Hwf [Hin|Hu]%orb_true_iff.
  - apply bool_decide_eq_true in Hin. destruct t.
    repeat (apply elem_of_cons in Hin as [->|Hin];
      [first [apply (field_access _ _ divide_error_mut); try done; by split_and!
        |apply (field_access _ _ debug_mut); done
        |apply (field_access _ _ non_maskable_interrupt_mut); done
        |apply (field_access _ _ breakpoint_mut); done
        |apply (field_access _ _ overflow_mut); done
        |apply (field_access _ _ bound_range_exceeded_mut); done
        |apply (field_access _ _ invalid_opcode_mut); done
        |apply (field_access _ _ device_not_available_mut); done
        |apply (field_access _ _ coprocessor_segment_overrun_mut); done
        |apply (field_access _ _ x87_floating_point_mut); done
        |apply (field_access _ _ simd_floating_point_mut); done
        |apply (field_access _ _ virtualization_mut); done]|]).
    by apply elem_of_nil in Hin.
  - apply andb_true_iff in Hu as [?%Z.leb_le ?%Z.leb_le]. by apply user_access.
Qed.

Lemma index_reserved t i :
  accessible i = false ->
  index t i = Panic Explicit /\
  forall A (m : M _ A) h, index_mut i m t h = (Panic Explicit, (t, h)).
Proof using.
  intros [Hin Hu]%orb_false_iff. apply bool_decide_eq_false in Hin.
  rewrite !elem_of_cons, elem_of_nil in Hin.
  unfold index, index_mut. rewrite Hu.
  repeat (case_match; [rewrite ?Z.eqb_eq in *; first [by exfalso; tauto|done]|]); done.
Qed.
End table_lemmas.

(** ** Lemmas: what the processor finds *)
Section processor.
Context `{Platform}.
Implicit Types (t : InterruptDescriptorTable) (v : Z) (h : Hw).

Lemma cpu_gate_vector t base v :
  idt_wf t -> 0 <= v < 256 ->
  cpu_gate (base, 2047) (idt_bytes t) v = (vectors t !! Z.to_nat v) ≫= (fun e => decode_gate (entry_bytes e)).
Proof using.
  intros Hwf Hv. unfold cpu_gate; cbn [snd]. destruct (Z.leb_spec (v * 8 + 7) 2047); [|lia].
  destruct (lookup_lt_is_Some_2 (vectors t) (Z.to_nat v)) as [e He]; [rewrite length_vectors by done; lia|].
  rewrite He; cbn [mbind option_bind]. f_equal.
  replace (Z.to_nat (v * 8)) with (Z.to_nat v * 8)%nat by lia. apply concat_chunk.
  - apply Forall_forall. intros l Hl. apply list_elem_of_fmap in Hl as (e' & -> & _).
    unfold entry_bytes. by rewrite !length_app, !length_le_bytes.
  - change (map entry_bytes) with (fmap (M := list) (@entry_bytes unit)).
    by rewrite list_lookup_fmap, He.
Qed.

Lemma cpu_gate_beyond t base v : 256 <= v -> cpu_gate (base, 2047) (idt_bytes t) v = None.
Proof using. intros. unfold cpu_gate; cbn [snd]. by destruct (Z.leb_spec (v * 8 + 7) 2047); [lia|]. Qed.

Lemma cpu_gate_insert t t' base i v e :
  idt_wf t -> idt_wf t' -> vectors t' = <[Z.to_nat i := e]> (vectors t) ->
  0 <= i < 256 -> 0 <= v < 256 ->
  cpu_gate (base, 2047) (idt_bytes t') v =
    if decide (v = i) then decode_gate (entry_bytes e) else cpu_gate (base, 2047) (idt_bytes t) v.
Proof using.
  intros Hwf Hwf' Hv Hi ?. rewrite !cpu_gate_vector, Hv by done. case_decide as Hd.
  - subst. rewrite list_lookup_insert_eq by (rewrite length_vectors by done; lia). done.
  - rewrite list_lookup_insert_ne by lia. done.
Qed.

Lemma update_run {S} (base : Z) (s : S) h :
  base ∈u 32 -> update base s h = (Ok tt, (s, set_idtr (base, 2047) h)).
Proof using. intros Hb. unfold update. rewrite wrap_small by done. done. Qed.

Lemma accessible_bounds i : accessible i = true -> 0 <= i < 256.
Proof using.
  intros [Hin%bool_decide_eq_true|[?%Z.leb_le ?%Z.leb_le]%andb_true_iff]%orb_true_iff; [|lia].
  rewrite !elem_of_cons, elem_of_nil in Hin. lia.
Qed.

Lemma idt_new_run : exists t, idt_new = Ok t /\ idt_wf t /\
  vectors t = replicate 256 (MkEntry 0 0 0x0E00 0).
Proof using. eexists. by split_and!. Qed.
End processor.

(** ** Properties *)
Section properties.
Context `{Platform}.
Implicit Types (t : InterruptDescriptorTable) (i v : Z) (h : Hw).

(** Gate options: [InterruptOption::new] never panics; its three arguments
    read back, and the other bits make it a 32-bit interrupt or trap gate. *)
Theorem option_new_fields trap p present :
  exists o, option_new trap p present = Ok o /\ o ∈u 16 /\ is_trap o = Ok trap /\
    privilege_level o = Ok (privilege_as_u16 p) /\ is_present o = Ok present /\
    field o 8 13 = (if trap then 0xf else 0xe) /\ field o 0 8 = 0.
Proof.
  eexists. split; [apply option_new_run|].
  destruct (option_fields trap p present _ (option_new_run _ _ _)) as (? & ? & ? & ?).
  split_and!; try done; by destruct trap, p, present.
Qed.

(** C30: Gate options: on every entry, the getters read what the processor reads
    from it, and each setter changes its own part of the gate, the trap bit
    of the type, the privilege level or the present bit, and nothing else; a
    privilege level that does not exist panics. *)
Theorem gate_options {T} (e : InterruptEntry T) (g : gate) trap level present h :
  entry_ok e -> decode_gate (entry_bytes e) = Some g -> level ∈u 16 ->
  is_trap (options e) = Ok (Z.odd (g_type g)) /\
  privilege_level (options e) = Ok (g_dpl g) /\
  is_present (options e) = Ok (g_present g) /\
  becomes (fun o => set_trap o trap) e h
    (MkGate (g_offset g) (g_selector g) (g_present g) (g_dpl g) (with_field (g_type g) 0 1 (Z.b2z trap))) /\
  becomes (fun o => set_present o present) e h
    (MkGate (g_offset g) (g_selector g) present (g_dpl g) (g_type g)) /\
  (level < 4 -> becomes (fun o => set_privilege_level o level) e h
    (MkGate (g_offset g) (g_selector g) (g_present g) level (g_type g))) /\
  (4 <= level -> set_privilege_level (options e) level = Panic AssertFailed).
Proof.
  intros Hok Hg Hlevel. pose proof Hok as (_ & _ & Ho & _).
  rewrite decode_entry in Hg by done. apply (inj Some) in Hg as <-.
  cbn [g_offset g_selector g_present g_dpl g_type].
  assert (forall b, Z.b2z b ∈u 1) as Hb by by intros [].
  split_and!.
  - unfold is_trap. rewrite (get_bit_spec 16) by lia. by rewrite <- Z.bit0_odd, testbit_field by lia.
  - unfold privilege_level. by erewrite (get_bits_spec 16) by (done || unfold valid_range; lia).
  - unfold is_present. by rewrite (get_bit_spec 16) by lia.
  - pose proof (becomes_field e h (fun o => set_trap o trap) 8 9 (Z.b2z trap) Hok) as Hw.
    rewrite testbit_with_field, decide_False, (field_with_field_disjoint _ 8 9), field_with_subfield in Hw by (done || lia).
    apply Hw; [unfold valid_range; lia|done|by apply (set_bit_spec 16)].
  - pose proof (becomes_field e h (fun o => set_present o present) 15 16 (Z.b2z present) Hok) as Hw.
    rewrite testbit_with_field, decide_True, !field_with_field_disjoint in Hw by (done || lia).
    rewrite Z.b2z_bit0 in Hw.
    apply Hw; [unfold valid_range; lia|done|by apply (set_bit_spec 16)].
  - intros Hl. pose proof (becomes_field e h (fun o => set_privilege_level o level) 13 15 level Hok) as Hw.
    assert (level ∈u 2) by (split; [apply Hlevel|lia]).
    rewrite testbit_with_field, decide_False, field_with_field, field_with_field_disjoint in Hw by (done || lia).
    apply Hw; [unfold valid_range; lia|done|].
    unfold set_privilege_level. erewrite (set_bits_run 16) by (done || unfold valid_range; lia). by rewrite decide_True.
  - intros Hl. unfold set_privilege_level. erewrite (set_bits_run 16) by (done || unfold valid_range; lia).
    rewrite decide_False; [done|]. intros [_ ?]. lia.
Qed.

(** [set_handle_fn], for each of the four handler types: whatever the entry
    held, the processor then reads a present ring-0 32-bit interrupt gate to
    exactly that function in the current code segment, and [pointer] returns
    the function's address. *)
Theorem set_handle_fn_gate {T} `{Handler T} (handler : T) (e : InterruptEntry T) h :
  as_usize handler ∈u 32 -> reg_cs h ∈u 16 ->
  exists e', set_handle_fn handler e h = (Ok tt, (e', h)) /\ entry_ok e' /\
    decode_gate (entry_bytes e') = Some (MkGate (as_usize handler) (reg_cs h) true 0 INTERRUPT_GATE_32) /\
    pointer e' = Ok (as_usize handler).
Proof.
  intros Hp Hcs. exists (handler_entry (as_usize handler) (reg_cs h)).
  pose proof (handler_entry_ok (T := T) _ _ Hp Hcs) as Hok.
  split_and!; [by apply set_handle_addr_run|done|by apply decode_handler_entry|].
  rewrite pointer_run by done. cbn. f_equal. pose proof (Z.div_mod (as_usize handler) 65536). lia.
Qed.

(** C31: [Index] and [IndexMut]: an accessible index denotes the entry of that
    vector, a change through it reaches that vector and no other, and is what
    the index then returns; every other index (reserved, with error code,
    diverging, or beyond 255) panics and changes nothing. *)
Theorem idt_index_spec t i :
  idt_wf t -> 0 <= i ->
  if accessible i then
    exists e, index t i = Ok e /\ vectors t !! Z.to_nat i = Some (erase e) /\
      exists put : InterruptEntry HandlerFunc -> InterruptDescriptorTable,
        (forall A (m : M _ A) h, index_mut i m t h =
          let '(r, (e', h')) := m e h in (r, (put e', h'))) /\
        (forall e', vectors (put e') = <[Z.to_nat i := erase e']> (vectors t) /\
          index (put e') i = Ok e')
  else
    index t i = Panic Explicit /\
    forall A (m : M _ A) h, index_mut i m t h = (Panic Explicit, (t, h)).
Proof.
  intros Hwf Hi. destruct (accessible i) eqn:Ha; [|by apply index_reserved].
  destruct (index_access t i Hwf Ha) as (e & put & [Hidx Hv Hm Hput]).
  exists e. split_and!; [done..|]. exists put. split; [exact Hm|].
  intros e'. destruct (Hput e') as (? & ? & ?). done.
Qed.

(** A fresh table has 256 entries, none present: no vector leads anywhere. *)
Theorem idt_new_absent :
  exists t, idt_new = Ok t /\ idt_wf t /\
    forall base v, 0 <= v < 256 -> exists g, cpu_gate (base, 2047) (idt_bytes t) v = Some g /\
      g_present g = false.
Proof.
  destruct idt_new_run as (t & Hrun & Hwf & Hv). exists t. split_and!; [done..|].
  intros base v Hb. rewrite cpu_gate_vector, Hv, lookup_replicate_2 by (done || lia).
  by eexists.
Qed.

(** C15: Installing a handler through the table and loading the table: [lidt]
    gets the table's address and a limit that covers exactly its 256 entries;
    the processor's gate for the vector is the handler's; the gates of all
    other vectors are what they were; vectors beyond 255 have none. *)
Theorem idt_install_dispatch t i (handler : HandlerFunc) (base : Z) h :
  idt_wf t -> accessible i = true -> as_usize handler ∈u 32 -> reg_cs h ∈u 16 -> base ∈u 32 ->
  exists t', (_ ← index_mut i (set_handle_fn handler); update base) t h =
      (Ok tt, (t', set_idtr (base, 2047) h)) /\ idt_wf t' /\
    cpu_gate (base, 2047) (idt_bytes t') i =
      Some (MkGate (as_usize handler) (reg_cs h) true 0 INTERRUPT_GATE_32) /\
    (forall v, 0 <= v < 256 -> v ≠ i ->
      cpu_gate (base, 2047) (idt_bytes t') v = cpu_gate (base, 2047) (idt_bytes t) v) /\
    (forall v, 256 <= v -> cpu_gate (base, 2047) (idt_bytes t') v = None).
Proof.
  intros Hwf Ha Hp Hcs Hb. pose proof (accessible_bounds i Ha).
  destruct (index_access t i Hwf Ha) as (e & put & [_ _ Hm Hput]).
  destruct (Hput (handler_entry (as_usize handler) (reg_cs h))) as (Hv & Hwf' & _).
  eexists. split_and!; [|exact Hwf'|..].
  - eapply run_bind_eq; [rewrite Hm; unfold set_handle_fn; rewrite set_handle_addr_run by done; reflexivity|].
    by apply update_run.
  - rewrite (cpu_gate_insert t _ base i i _ Hwf Hwf' Hv), decide_True by done.
    by apply (decode_handler_entry (T := unit)).
  - intros v ? ?. by rewrite (cpu_gate_insert t _ base i v _ Hwf Hwf' Hv), decide_False by done.
  - intros v ?. by apply cpu_gate_beyond.
Qed.
End properties.

Definition example_hw_cs : Hw := MkHw ∅ [] [] 0x8 0 0 None false.

(** A ring-0 interrupt gate opened to ring 3. *)
Lemma gate_options_witness :
  @becomes HandlerFunc (fun o => @set_privilege_level (constant_platform true 0) o 3)
    (MkEntry 0x1234 8 0x8E00 0xc002) example_hw_cs (MkGate 0xc0021234 8 true 3 0xe).
Proof.
  destruct (@gate_options (constant_platform true 0) HandlerFunc (MkEntry 0x1234 8 0x8E00 0xc002)
    (MkGate 0xc0021234 8 true 0 0xe) true 3 true example_hw_cs) as (_ & _ & _ & _ & _ & Hset & _).
  - split_and!; (split; [cbn; lia|reflexivity]).
  - reflexivity.
  - split; [lia|reflexivity].
  - apply Hset. lia.
Defined.

Lemma set_handle_fn_gate_witness :
  exists e', set_handle_fn (H := constant_platform true 0) (MkHandlerFuncErrCode 0xc0021234)
      (MkEntry 0 0 0 0) example_hw_cs = (Ok tt, (e', example_hw_cs)) /\
    decode_gate (entry_bytes e') = Some (MkGate 0xc0021234 0x8 true 0 0xe).
Proof.
  destruct (@set_handle_fn_gate (constant_platform true 0) HandlerFuncErrCode _
    (MkHandlerFuncErrCode 0xc0021234) (MkEntry 0 0 0 0) example_hw_cs) as (e' & Hrun & _ & Hg & _).
  - split; [cbn; lia|reflexivity].
  - split; [cbn; lia|reflexivity].
  - exists e'. split; [exact Hrun|exact Hg].
Defined.

Lemma idt_index_spec_witness :
  exists t, idt_wf t /\ (exists e, @index t 0x21 = Ok e) /\ @index t 14 = Panic Explicit.
Proof.
  destruct (@idt_new_run (constant_platform true 0)) as (t & _ & Hwf & _).
  pose proof (@idt_index_spec t 0x21 Hwf ltac:(lia)) as (e & He & _).
  pose proof (@idt_index_spec t 14 Hwf ltac:(lia)) as (Hp & _).
  exists t. split; [exact Hwf|]. split; [exists e; exact He|exact Hp].
Defined.

Lemma idt_install_dispatch_witness :
  exists t t', (_ ← index_mut 0x20 (set_handle_fn (H := constant_platform true 0) (MkHandlerFunc 0xc0021000));
      update (H := constant_platform true 0) 0xc0030000) t example_hw_cs =
        (Ok tt, (t', set_idtr (0xc0030000, 2047) example_hw_cs)) /\
    cpu_gate (0xc0030000, 2047) (idt_bytes t') 0x20 = Some (MkGate 0xc0021000 0x8 true 0 0xe).
Proof.
  destruct (@idt_new_run (constant_platform true 0)) as (t & _ & Hwf & _).
  destruct (@idt_install_dispatch (constant_platform true 0) t 0x20 (MkHandlerFunc 0xc0021000) 0xc0030000
    example_hw_cs Hwf) as (t' & Hrun & _ & Hg & _).
  - reflexivity.
  - split; [cbn; lia|reflexivity].
  - split; [cbn; lia|reflexivity].
  - split; [lia|reflexivity].
  - exists t, t'. split; [exact Hrun|exact Hg].
Defined.
