(* ===== verification/Kernel.v ===== *)
(** * The kernel's globals and the print macros

    The statics of the program as one record, a lens for each singleton, and
    the bodies of [print!], [println!], [serial_print!] and [serial_println!]
    ([io/vga.rs], [io/serial.rs]), which go through a singleton to an
    implementation of [FmtWrite].  The lemmas give the effect of a print on the
    whole kernel, first use (which creates the device's driver) included. *)
From Stdlib Require Import ZArith Lia String.
From stdpp Require Import base tactics numbers list gmap.
From S2P Require Import Prelude.
From S2P Require Import Machine.
From S2P Require Import Fmt.
From S2P Require Import Serial.
From S2P Require Import Vga.
From S2P Require Import Singleton.
From S2P Require Import Page.
From S2P Require Import Intr.

(** ** Globals *)

Record Kernel := MkKernel {
  vga_buffer : Singleton VgaBuffer;
  serial_io : Singleton SerialPort;
  intr_table : Singleton InterruptDescriptorTable;
  page_alloc : Singleton PageAllocator;
  ticks : Z
}.

(** The statics before [main]. *)
Definition kernel_start : Kernel := MkKernel UNINIT UNINIT UNINIT UNINIT 0.

Definition VGA_BUFFER : Lens Kernel (Singleton VgaBuffer) :=
  MkLens vga_buffer (fun v k => MkKernel v (serial_io k) (intr_table k) (page_alloc k) (ticks k)).
Definition SERIAL_IO : Lens Kernel (Singleton SerialPort) :=
  MkLens serial_io (fun v k => MkKernel (vga_buffer k) v (intr_table k) (page_alloc k) (ticks k)).
Definition INTR_TABLE : Lens Kernel (Singleton InterruptDescriptorTable) :=
  MkLens intr_table (fun v k => MkKernel (vga_buffer k) (serial_io k) v (page_alloc k) (ticks k)).
Definition PAGE_ALLOC : Lens Kernel (Singleton PageAllocator) :=
  MkLens page_alloc (fun v k => MkKernel (vga_buffer k) (serial_io k) (intr_table k) v (ticks k)).
Definition TICKS : Lens Kernel Z :=
  MkLens ticks (fun v k => MkKernel (vga_buffer k) (serial_io k) (intr_table k) (page_alloc k) v).

#[export] Instance VGA_BUFFER_laws : LensLaws VGA_BUFFER.
Proof. by split; intros; repeat match goal with k : Kernel |- _ => destruct k end. Qed.
#[export] Instance SERIAL_IO_laws : LensLaws SERIAL_IO.
Proof. by split; intros; repeat match goal with k : Kernel |- _ => destruct k end. Qed.
#[export] Instance INTR_TABLE_laws : LensLaws INTR_TABLE.
Proof. by split; intros; repeat match goal with k : Kernel |- _ => destruct k end. Qed.
#[export] Instance PAGE_ALLOC_laws : LensLaws PAGE_ALLOC.
Proof. by split; intros; repeat match goal with k : Kernel |- _ => destruct k end. Qed.
#[export] Instance TICKS_laws : LensLaws TICKS.
Proof. by split; intros; repeat match goal with k : Kernel |- _ => destruct k end. Qed.

(** ** The macros: the arguments are the pieces of the formatted text *)
Section macros.
Context `{Platform}.
Implicit Types args : list (list Z).

Definition newline : list Z := [10].

Definition vga_print args : M Kernel unit := get_mut VGA_BUFFER vga_default (write_fmt args).
Definition print args : M Kernel unit := vga_print args.
Definition println args : M Kernel unit := vga_print (args ++ [newline]).

Definition serial_print args : M Kernel unit := get_mut SERIAL_IO serial_default (write_fmt args).
Definition serial_println args : M Kernel unit := serial_print (args ++ [newline]).
End macros.

(** ** What a print does to the kernel *)

(** The console's state, the default one before first use. *)
Definition console (k : Kernel) : VgaBuffer :=
  match data (vga_buffer k) with Some v => v | None => MkVgaBuffer 0 0x0f end.

(** A singleton at rest: untouched or initialised. *)
Definition settled {T} (s : Singleton T) : Prop :=
  s = UNINIT \/ exists t, s = MkSingleton SINGLE_INITED (Some t).

Definition con_ok (k : Kernel) (h : Hw) : Prop :=
  settled (vga_buffer k) /\ vga_ok (console k) h.

Definition serial_ok (k : Kernel) : Prop :=
  serial_io k = UNINIT \/ serial_io k = MkSingleton SINGLE_INITED (Some (MkSerialPort 0x3f8)).

(** Nothing but the screen and the ports changed. *)
Definition only_io (h h' : Hw) : Prop := exists es rows, h' = log_ios es (set_screen rows h).

(** Nothing but the screen and the CRT controller's ports changed. *)
Definition console_io (h h' : Hw) : Prop :=
  exists es rows, Forall crtc_port es /\ h' = log_ios es (set_screen rows h).

Lemma console_only_io h h' : console_io h h' -> only_io h h'.
Proof. intros (es & rows & _ & ->). by exists es, rows. Qed.

Lemma only_io_regs h h' :
  only_io h h' -> mem h' = mem h /\ reg_cs h' = reg_cs h /\ reg_esp h' = reg_esp h /\
    reg_cr3 h' = reg_cr3 h /\ reg_idtr h' = reg_idtr h /\ reg_if h' = reg_if h.
Proof. intros (es & rows & ->). by rewrite log_ios_spec. Qed.

Lemma only_io_refl h : only_io h h.
Proof. exists [], (screen h). by destruct h. Qed.

Lemma only_io_trans h1 h2 h3 : only_io h1 h2 -> only_io h2 h3 -> only_io h1 h3.
Proof.
  intros (es & rows & ->) (es' & rows' & ->). exists (es ++ es'), rows'.
  by rewrite set_screen_log_ios, set_screen_twice, log_ios_app.
Qed.

Lemma only_io_ports es h : only_io h (log_ios es h).
Proof. exists es, (screen h). f_equal. by destruct h. Qed.

Section prints.
Context `{Platform}.
Implicit Types (k : Kernel) (h : Hw) (args : list (list Z)).

(** A method of a settled singleton runs on its value, or on the default. *)
Lemma wp_get_mut {T A} (l : Lens Kernel (Singleton T)) `{!LensLaws l} (default : M Kernel T)
    (t0 : T) (d : Hw -> Hw) (m : M T A) (Q : A -> Kernel -> Hw -> Prop) k h :
  (1 < spin_fuel)%nat -> settled (view l k) ->
  (forall k h, default k h = (Ok t0, (k, d h))) ->
  (forall t h', (view l k = MkSingleton SINGLE_INITED (Some t) /\ h' = h) \/
      (view l k = UNINIT /\ t = t0 /\ h' = d h) ->
    wp m (fun a t' h2 => Q a (over l (MkSingleton SINGLE_INITED (Some t')) k) h2) t h') ->
  wp (get_mut l default m) Q k h.
Proof.
  intros Hf [Hv|[t Hv]] Hd Hm; unfold wp.
  - rewrite (get_mut_first l default m t0 None k (over l (MkSingleton SINGLE_INITING None) k) h (d h));
      [|done|done|apply Hd|by rewrite view_over].
    specialize (Hm t0 (d h) (or_intror (conj Hv (conj eq_refl eq_refl)))). unfold wp in Hm.
    destruct (m t0 (d h)) as [[] [t' h2]]; try done. by rewrite over_over.
  - rewrite (get_mut_inited l default m t) by (done || lia).
    specialize (Hm t h (or_introl (conj Hv eq_refl))). unfold wp in Hm.
    by destruct (m t h) as [[] [t' h2]].
Qed.

Lemma wp_vga_print args (Q : unit -> Kernel -> Hw -> Prop) k h :
  (1 < spin_fuel)%nat -> con_ok k h ->
  (forall v h', (col_pos v, screen h') =
      text_ref (cur_color (console k)) (concat args) (col_pos (console k), screen h) ->
    cur_color v = cur_color (console k) -> vga_ok v h' -> console_io h h' ->
    Q tt (over VGA_BUFFER (MkSingleton SINGLE_INITED (Some v)) k) h') ->
  wp (vga_print args) Q k h.
Proof.
  intros Hf [Hs Hok] HQ. unfold vga_print.
  apply (wp_get_mut VGA_BUFFER vga_default (MkVgaBuffer 0 0x0f) (fun h => h)); try done.
  intros t h' Ht. unfold wp. rewrite write_fmt_concat.
  assert (t = console k /\ h' = h) as [-> ->].
  { unfold console. cbn [view VGA_BUFFER] in Ht.
    by destruct Ht as [[-> ->]|(-> & -> & ->)]. }
  eapply wp_mono; [by apply write_str_run|].
  intros [] v h' (Hst & Hcol & Hok' & (es & Hp & Hes) & _). apply HQ; try done.
  by exists es, (screen h').
Qed.

(** Printing keeps the console usable and touches nothing but its state, the
    screen and the ports. *)
Lemma wp_print_any args (Q : unit -> Kernel -> Hw -> Prop) k h :
  (1 < spin_fuel)%nat -> con_ok k h ->
  (forall v h', con_ok (over VGA_BUFFER (MkSingleton SINGLE_INITED (Some v)) k) h' -> console_io h h' ->
    Q tt (over VGA_BUFFER (MkSingleton SINGLE_INITED (Some v)) k) h') ->
  wp (vga_print args) Q k h.
Proof.
  intros Hf Hok HQ. apply wp_vga_print; [done..|]. intros v h' _ _ Hv Hio.
  apply HQ; [|done]. split; [right; by exists v|done].
Qed.

Lemma wp_serial_print args (Q : unit -> Kernel -> Hw -> Prop) k h :
  (1 < spin_fuel)%nat -> Responsive 0x3fd OUTPUT_EMPTY -> serial_ok k ->
  (forall es, data_outs 0x3f8 es = concat (map encode (concat args)) -> guarded 0x3f8 false es = true ->
    let init := match data (serial_io k) with None => init_events 0x3f8 | Some _ => [] end in
    Q tt (over SERIAL_IO (MkSingleton SINGLE_INITED (Some (MkSerialPort 0x3f8))) k)
      (log_ios (init ++ es) h)) ->
  wp (serial_print args) Q k h.
Proof.
  intros Hf Hresp Hs HQ. unfold serial_print.
  apply (wp_get_mut SERIAL_IO serial_default (MkSerialPort 0x3f8) (log_ios (init_events 0x3f8)));
    [done|change (settled (serial_io k)); destruct Hs as [-> | ->]; [by left|right; by eexists]| |].
  { intros k' h'. unfold serial_default. erewrite run_bind; [reflexivity|]. by apply serial_init_run. }
  intros t h' Ht. unfold wp. rewrite write_fmt_concat.
  assert (t = MkSerialPort 0x3f8) as ->.
  { destruct Ht as [[Hv _]|(_ & -> & _)]; [|done]. cbn in Hv.
    destruct Hs as [Hs|Hs]; rewrite Hs in Hv; by simplify_eq. }
  destruct (serial_write_str_sends (concat args) (MkSerialPort 0x3f8) ltac:(by split) h')
    as (r & es & Hrun & Hg & Ho & Hr).
  rewrite (Hr Hresp) in *. cbn [write_str SerialPort_FmtWrite]. rewrite Hrun.
  destruct Ho as [[_ Ho]|[? _]]; [|done]. cbn [port_base] in *. specialize (HQ es Ho Hg).
  cbn [view SERIAL_IO] in Ht.
  destruct Ht as [[Hv ->]|(Hv & _ & ->)]; rewrite Hv in HQ; cbn in HQ; [done|].
  by rewrite <- log_ios_app.
Qed.
End prints.
