(* ===== verification/Main.v ===== *)
(** * The kernel's entry point and interrupt handlers: [main.rs]

    [main] up to its idle loop, the handlers it installs, the keyboard decoder
    and the panic handler, over all the other components.  The idle loop is
    modelled by what happens in it: hardware interrupts are served one after
    the other ([serve]). *)
From Stdlib Require Import ZArith Lia String.
From stdpp Require Import base tactics numbers list gmap.
From S2P Require Import Prelude.
From S2P Require Import Machine.
From S2P Require Import Fmt.
From S2P Require Import BitAccess.
From S2P Require Import X86.
From S2P Require Import Pic.
From S2P Require Import Serial.
From S2P Require Import Vga.
From S2P Require Import Singleton.
From S2P Require Import Loader.
From S2P Require Import MemMap.
From S2P Require Import Bitmap.
From S2P Require Import Page.
From S2P Require Import Alloc.
From S2P Require Import Intr.
From S2P Require Import Kernel.

Definition TIMER_FREQ : Z := 200.

(** The addresses the linker gives to the handlers and to [INTR_TABLE]'s data. *)
Record Symbols := MkSymbols {
  breakpoint_sym : Z;
  page_fault_sym : Z;
  double_fault_sym : Z;
  segment_not_present_sym : Z;
  timer_sym : Z;
  keyboard_sym : Z;
  intr_table_sym : Z
}.

(** ** Scan codes *)

(** Element [i] of an array literal of characters. *)
Definition char_at (s : string) (i : Z) : result (option Z) :=
  match bs s !! Z.to_nat i with
  | Some c => Ok (Some c)
  | None => Panic OutOfBounds
  end.

Definition scancode_to_char `{Platform} (code : Z) : result (option Z) :=
  if code =? 0x00 then Panic Explicit
  else if (0x02 <=? code) && (code <=? 0x0a) then
    c ← add 8 48 code;
    c ← sub 8 c 1;
    Ok (Some c)
  else if code =? 0x0b then Ok (Some 48)
  else if (0x10 <=? code) && (code <=? 0x19) then
    i ← sub 32 code 0x10; char_at "qwertyuiop" i
  else if code =? 0x1c then Ok (Some 10)
  else if code =? 0x0e then Ok (Some 0x08)
  else if (0x1e <=? code) && (code <=? 0x26) then
    i ← sub 32 code 0x1e; char_at "asdfghjkl" i
  else if (0x2c <=? code) && (code <=? 0x32) then
    i ← sub 32 code 0x2c; char_at "zxcvbnm" i
  else if code =? 0x39 then Ok (Some 32)
  else if 0x80 <=? code then Ok None
  else Ok (Some 63).

(** ** Handlers *)
Section handlers.
Context `{Platform}.

(** The derived [Debug] of [ExceptionStackFrame]. *)
Definition frame_fmt (f : ExceptionStackFrame) : list Z :=
  debug_struct (bs "ExceptionStackFrame")
    [(bs "instruction_pointer", display (instruction_pointer f));
     (bs "code_segment", display (code_segment f)); (bs "cpu_flags", display (cpu_flags f));
     (bs "stack_pointer", display (stack_pointer f));
     (bs "stack_segment", display (stack_segment f))].

Definition breakpoint_handler (f : ExceptionStackFrame) : M Kernel unit :=
  println [bs "BREAKPOINT: "; frame_fmt f].

Definition double_fault_handler (f : ExceptionStackFrame) (_error_code : Z) : M Kernel unit :=
  _ ← println [bs "DOUBLE FAULT "; frame_fmt f];
  lift (Panic Explicit).

Definition page_fault_handler (f : ExceptionStackFrame) (error_code : Z) : M Kernel unit :=
  println [bs "PAGE FAULT#"; display error_code; bs " "; frame_fmt f].

Definition timer_handler : M Kernel unit :=
  _ ← zoom TICKS (t ← get; t ← lift (add 64 t 1); put t);
  end_of_interrupt.

Definition segment_not_present_handler (f : ExceptionStackFrame) (error_code : Z) : M Kernel unit :=
  println [bs "SEGMENT NOT PRESENT "; display error_code; bs " "; frame_fmt f].

Definition keyboard_handler : M Kernel unit :=
  scancode ← inb 0x60;
  ch ← lift (scancode_to_char scancode);
  _ ← match ch with Some ch => print [[ch]] | None => mret tt end;
  end_of_interrupt.

(** The panic handler prints the panic's text and never returns. *)
Definition panic (info : list Z) : M Kernel unit :=
  _ ← println [info];
  _ ← serial_println [info];
  lift Hang.
End handlers.

(** ** Start-up, in the four parts the source separates by blank lines *)
Section main.
Context `{Platform} (sy : Symbols).

Definition main_banner : M Kernel unit :=
  _ ← serial_println [bs "RondOS> HELLO RondOS"];
  _ ← println [bs "HELLO RondOS"];
  size ← get_kernel_size;
  size ← lift (div size 1024);
  _ ← println [bs "Kernel Size "; display size; bs " KiB"];
  avl ← available_mem_size;
  avl ← lift (div avl 1024);
  println [bs "Available Memory Size "; display avl; bs " KiB"].

Definition main_devices : M Kernel unit :=
  _ ← pic_init;
  pit_configure_channel 0 2 TIMER_FREQ.

(** [INTR_TABLE.get_mut().m(..)]. *)
Definition table (m : M InterruptDescriptorTable unit) : M Kernel unit :=
  get_mut INTR_TABLE (lift idt_default) m.

Definition main_table : M Kernel unit :=
  _ ← table (zoom breakpoint_mut (set_handle_fn (MkHandlerFunc (breakpoint_sym sy))));
  _ ← table (zoom page_fault_mut (set_handle_fn (MkHandlerFuncErrCode (page_fault_sym sy))));
  _ ← table (zoom double_fault_mut
        (set_handle_fn (MkDivergingHandlerFuncErrCode (double_fault_sym sy))));
  _ ← table (zoom segment_not_present_mut
        (set_handle_fn (MkHandlerFuncErrCode (segment_not_present_sym sy))));
  _ ← table (index_mut 0x20 (set_handle_fn (MkHandlerFunc (timer_sym sy))));
  _ ← table (index_mut 0x21 (set_handle_fn (MkHandlerFunc (keyboard_sym sy))));
  _ ← table (update (intr_table_sym sy));
  sti.

(** [Box::new(v)] of an [i32], through the global allocator. *)
Definition box_new (v : Z) : M Kernel Z :=
  p ← alloc PAGE_ALLOC page_allocator_default (MkLayout 4 4);
  _ ← store_le 4 p v;
  mret p.

Definition main_report : M Kernel unit :=
  mems ← get_memlayout;
  _ ← for_in mems (fun m => t ← memlayout_fmt m; println [t]);
  e ← esp;
  tp ← lift (pg_round_down e);
  _ ← println [bs "esp page: "; lower_hex tp];
  a ← box_new 42;
  v ← load_le 4 a;
  println [display v; bs " at "; bs "0x" ++ lower_hex a].

(** [main], up to the loop of [hlt]. *)
Definition main : M Kernel unit :=
  _ ← main_banner;
  _ ← main_devices;
  _ ← main_table;
  main_report.
End main.

(** The idle loop: the hardware interrupts that arrive in it, in order. *)
Inductive irq := Timer | Keyboard.

Definition serve `{Platform} (irqs : list irq) : M Kernel unit :=
  for_in irqs (fun i => match i with Timer => timer_handler | Keyboard => keyboard_handler end).

(** ** Reference: the keyboard *)

(** The keys of scan-code set 1: for each row, its first code and its characters. *)
Definition key_rows : list (Z * string) :=
  [(0x02, "1234567890"%string); (0x10, "qwertyuiop"%string); (0x1e, "asdfghjkl"%string);
   (0x2c, "zxcvbnm"%string); (0x39, " "%string)].

(** Backspace and enter. *)
Definition control_keys : list (Z * Z) := [(0x0e, 8); (0x1c, 10)].

Definition keys : list (Z * Z) :=
  control_keys ++
  flat_map (fun '(first, chars) => zip (seqZ first (Z.of_nat (length (bs chars)))) (bs chars)) key_rows.

Definition key_char (code : Z) : option Z :=
  snd <$> head (List.filter (fun k => fst k =? code) keys).

(** ** Lemmas: interrupts *)

Definition EOI : io_event := Out 0x20 0x20.

Definition eois (es : list io_event) : nat := length (filter (eq EOI) es).

(** Serving [n] interrupts: [n] end-of-interrupt commands went to the master
    PIC and nothing else to either PIC, and nothing but the screen and the
    ports changed. *)
Definition served (n : nat) (h h' : Hw) : Prop :=
  exists es rows, h' = log_ios es (set_screen rows h) /\ pic_writes es = replicate n EOI.

Section interrupts.
Context `{Platform}.
Implicit Types (k : Kernel) (h : Hw).

Lemma eois_app es es' : eois (es ++ es') = (eois es + eois es')%nat.
Proof. unfold eois. by rewrite filter_app, length_app. Qed.

Lemma eois_console es : Forall crtc_port es -> eois es = 0%nat.
Proof.
  unfold eois. induction 1 as [|e es He _ IH]; [done|]. rewrite filter_cons.
  case_decide as Hd; [|done]. subst e. cbn in He. lia.
Qed.

(** Among the writes to the PICs are all end-of-interrupt commands. *)
Lemma eois_pic es n : pic_writes es = replicate n EOI -> eois es = n.
Proof.
  assert (eois es = eois (pic_writes es)) as ->.
  { unfold eois. induction es as [|e es IH]; [done|]. cbn [pic_writes List.filter].
    fold (pic_writes es). rewrite filter_cons.
    destruct (to_pic e) eqn:He; [rewrite filter_cons; case_decide; cbn [length]; by rewrite IH|].
    rewrite decide_False by by intros <-. exact IH. }
  intros ->. unfold eois. induction n as [|n IH]; [done|]. cbn [replicate]. rewrite filter_cons_True by done.
  cbn. by rewrite IH.
Qed.

Lemma console_pic es : Forall crtc_port es -> pic_writes es = [].
Proof.
  induction 1 as [|e es He _ IH]; [done|]. cbn [pic_writes List.filter].
  destruct e as [p v|p v]; [exact IH|]. cbn in He. by destruct He as [-> | ->].
Qed.

Lemma served_refl h : served 0 h h.
Proof. exists [], (screen h). by destruct h. Qed.

Lemma served_trans n m h1 h2 h3 : served n h1 h2 -> served m h2 h3 -> served (n + m) h1 h3.
Proof.
  intros (es & rows & -> & Hn) (es' & rows' & -> & Hm). exists (es ++ es'), rows'.
  split; [by rewrite set_screen_log_ios, set_screen_twice, log_ios_app|].
  by rewrite pic_writes_app, Hn, Hm, replicate_add.
Qed.

Lemma served_in v h : served 0 h (log_io (In 0x60 v) h).
Proof. exists [In 0x60 v], (screen h). by destruct h. Qed.

Lemma served_console h h' : console_io h h' -> served 0 h h'.
Proof. intros (es & rows & Hp & ->). exists es, rows. split; [done|]. by apply console_pic. Qed.

Lemma served_eoi h : served 1 h (log_io EOI h).
Proof. exists [EOI], (screen h). by destruct h. Qed.

Lemma con_ok_io k h e : con_ok k h -> con_ok k (log_io e h).
Proof. done. Qed.

(** The globals other than the console and the tick count. *)
Definition same_statics k k' : Prop :=
  serial_io k' = serial_io k /\ intr_table k' = intr_table k /\ page_alloc k' = page_alloc k.

Lemma timer_run k h :
  0 <= ticks k -> ticks k + 1 < 2 ^ 64 ->
  timer_handler k h = (Ok tt, (over TICKS (ticks k + 1) k, log_io EOI h)).
Proof.
  intros H0 Hb. unfold timer_handler. eapply run_bind_eq; [|reflexivity].
  unfold zoom. cbn [view TICKS]. unfold mbind, M_bind, get, put, lift.
  rewrite add_ok by (split; lia). reflexivity.
Qed.

(** The scan code the keyboard controller gives next. *)
Definition next_scancode h : Z := port_in (trace h) 0x60.

Lemma scancode_table code :
  0 <= code < 256 ->
  scancode_to_char code =
    if code =? 0 then Panic Explicit
    else if 0x80 <=? code then Ok None else Ok (Some (default 63 (key_char code))).
Proof.
  intros Hc. rewrite <- (Z2Nat.id code) by lia.
  assert (Z.to_nat code < 256)%nat as Hn by lia. revert Hn. generalize (Z.to_nat code) as n.
  do 256 (intros [|n]; [reflexivity|revert n]). intros n ?. lia.
Qed.

Lemma scancode_total code :
  code ∈u 8 -> code ≠ 0 -> exists ch, scancode_to_char code = Ok ch.
Proof.
  intros [??] Hne. rewrite scancode_table by lia. rewrite (proj2 (Z.eqb_neq code 0)) by done.
  destruct (0x80 <=? code); eauto.
Qed.

Lemma wp_keyboard (Q : unit -> Kernel -> Hw -> Prop) k h :
  (1 < spin_fuel)%nat -> con_ok k h -> next_scancode h ≠ 0 ->
  (forall k' h', con_ok k' h' -> same_statics k k' -> ticks k' = ticks k -> served 1 h (log_io EOI h') ->
    (forall ch, scancode_to_char (next_scancode h) = Ok (Some ch) ->
      (col_pos (console k'), screen h') =
        putc_ref (cur_color (console k)) ch (col_pos (console k), screen h)) ->
    (scancode_to_char (next_scancode h) = Ok None -> k' = k /\ screen h' = screen h) ->
    Q tt k' (log_io EOI h')) ->
  wp keyboard_handler Q k h.
Proof.
  intros Hf Hcon Hne HQ. unfold keyboard_handler. apply wp_bind, wp_inb. cbv zeta.
  fold (next_scancode h).
  destruct (scancode_total (next_scancode h) (port_in_byte _ _) Hne) as [ch Hch].
  wp_ok Hch. apply wp_bind. destruct ch as [ch|].
  - apply wp_vga_print; [done|by apply con_ok_io|]. intros v h' Hst Hcol Hok Hio.
    apply HQ; [split; [right; by exists v|exact Hok]|by repeat split|reflexivity| | |].
    + apply (served_trans 0 1 _ h'); [|apply served_eoi].
      apply (served_trans 0 0 _ (log_io (In 0x60 (next_scancode h)) h)); [apply served_in|].
      by apply served_console.
    + intros ch' Hch'. rewrite Hch in Hch'. injection Hch' as <-. exact Hst.
    + rewrite Hch. discriminate.
  - apply wp_ret. apply HQ; [exact Hcon|by repeat split|reflexivity| | |].
    + apply (served_trans 0 1 _ (log_io (In 0x60 (next_scancode h)) h)); [apply served_in|apply served_eoi].
    + rewrite Hch. discriminate.
    + by repeat split.
Qed.

Definition timers (irqs : list irq) : Z :=
  Z.of_nat (length (List.filter (fun i => match i with Timer => true | Keyboard => false end) irqs)).

Lemma serve_run irqs k h :
  (1 < spin_fuel)%nat -> (forall tr, port_in tr 0x60 ≠ 0) -> con_ok k h ->
  0 <= ticks k -> ticks k + timers irqs < 2 ^ 64 ->
  wp (serve irqs) (fun _ k' h' => con_ok k' h' /\ same_statics k k' /\
    ticks k' = ticks k + timers irqs /\ served (length irqs) h h') k h.
Proof.
  intros Hf Hkey. revert k h. induction irqs as [|i irqs IH]; intros k h Hcon H0 Hb.
  { apply wp_ret. split_and!; try done; [unfold timers; cbn [List.filter length]; lia|apply served_refl]. }
  assert (0 <= timers irqs) as Ht by (unfold timers; lia).
  unfold serve; cbn [for_in]. apply wp_bind. destruct i.
  - assert (timers (Timer :: irqs) = 1 + timers irqs) as Hc by (unfold timers; cbn [List.filter length]; lia).
    rewrite Hc in *. unfold wp at 1. rewrite timer_run by lia.
    eapply wp_mono; [apply IH; [done|cbn; lia|cbn; lia]|].
    intros [] k' h' (Hcon' & Hs & Htk & Hsv). cbn [ticks over TICKS] in Htk. split_and!; [done|done|lia|].
    by apply (served_trans 1 (length irqs) _ (log_io EOI h)); [apply served_eoi|].
  - assert (timers (Keyboard :: irqs) = timers irqs) as Hc by done. rewrite Hc in *.
    apply wp_keyboard; [done|done|apply Hkey|]. intros k1 h1 Hcon1 Hs1 Ht1 Hsv1 _ _.
    eapply wp_mono; [apply IH; [done|lia|lia]|].
    intros [] k' h' (Hcon' & Hs & Htk & Hsv). split_and!; [done| |lia|].
    + destruct Hs as (?&?&?), Hs1 as (?&?&?). split_and!; congruence.
    + by apply (served_trans 1 (length irqs) _ (log_io EOI h1)).
Qed.
End interrupts.

(** The codes that type a character. *)
Definition typed (code : Z) : option Z :=
  if (code =? 0) || (0x80 <=? code) then None else Some (default 63 (key_char code)).

Definition codes_of (c : Z) : list Z :=
  List.filter (fun code => bool_decide (typed code = Some c)) (seqZ 0 256).

Lemma codes_of_alnum c :
  48 <= c <= 57 \/ 97 <= c <= 122 -> exists key, codes_of c = [key].
Proof.
  intros Hc. rewrite <- (Z2Nat.id c) by lia.
  assert (48 <= Z.to_nat c <= 57 \/ 97 <= Z.to_nat c <= 122)%nat as Hn by lia. revert Hn.
  generalize (Z.to_nat c) as n.
  do 123 (intros [|n]; [intros ?; first [exfalso; lia|eexists; vm_compute; reflexivity]|revert n]).
  intros n ?. lia.
Qed.

Lemma in_codes_of c code :
  List.In code (codes_of c) <-> 0 <= code < 256 /\ typed code = Some c.
Proof.
  unfold codes_of. rewrite filter_In, bool_decide_eq_true, <- list_elem_of_In, elem_of_seqZ. tauto.
Qed.

(** ** Properties of the handlers *)
Section properties.
Context `{Platform}.
Implicit Types (k : Kernel) (h : Hw).

Lemma typed_run code c :
  0 <= code < 256 -> scancode_to_char code = Ok (Some c) <-> typed code = Some c.
Proof.
  intros Hc. rewrite scancode_table by done. unfold typed.
  destruct (code =? 0), (0x80 <=? code); cbn; split; try done; by intros [= ->].
Qed.

(** C35: The keyboard decoder on every byte: 0 (a controller error) panics, a
    release code gives no character, a make code gives the character of that
    key of scan-code set 1, or a question mark for a key without one; no array
    index is ever out of range.  Every digit and lower-case letter is typed by
    exactly one code. *)
Theorem scancode_spec (code c : Z) :
  code ∈u 8 -> 48 <= c <= 57 \/ 97 <= c <= 122 ->
  scancode_to_char code =
    (if code =? 0 then Panic Explicit
     else if 0x80 <=? code then Ok None else Ok (Some (default 63 (key_char code)))) /\
  exists key, key ∈u 8 /\ scancode_to_char key = Ok (Some c) /\
    forall code', code' ∈u 8 -> scancode_to_char code' = Ok (Some c) -> code' = key.
Proof.
  intros Hcode Hc. split; [by apply scancode_table|].
  destruct (codes_of_alnum c Hc) as [key Hkey]. exists key.
  assert (List.In key (codes_of c)) as Hin by (rewrite Hkey; by left).
  apply in_codes_of in Hin as [Hb Ht]. split_and!; [exact Hb|by apply typed_run|].
  intros code' Hb' Hrun. assert (List.In code' (codes_of c)) as Hin'.
  { apply in_codes_of. split; [exact Hb'|by apply typed_run]. }
  rewrite Hkey in Hin'. by destruct Hin' as [->|[]].
Qed.

(** The timer interrupt adds one to the tick count and acknowledges the
    interrupt, and does nothing else.  At 2^64 - 1 ticks a debug build panics
    before the acknowledgement and a release build starts over at 0. *)
Theorem timer_handler_spec k h :
  ticks k ∈u 64 ->
  timer_handler k h =
    if decide (ticks k + 1 < 2 ^ 64) then (Ok tt, (over TICKS (ticks k + 1) k, log_io EOI h))
    else if overflow_checks then (Panic Overflow, (k, h))
    else (Ok tt, (over TICKS 0 k, log_io EOI h)).
Proof.
  intros [H0 Hb]. case_decide; [by apply timer_run|].
  assert (ticks k = 2 ^ 64 - 1) as Ht by lia.
  unfold timer_handler, zoom. cbn [view TICKS]. unfold mbind, M_bind, get, put, lift, add, arith.
  rewrite Ht, decide_False by (unfold uint; lia). destruct overflow_checks; [|done].
  destruct k; by cbn in *; subst.
Qed.

(** C34: The keyboard interrupt with a working console: a make code shows its
    character as the terminal does, a release code shows nothing, and the
    interrupt is acknowledged exactly once, as the last access.  An error
    code panics before the acknowledgement. *)
Theorem keyboard_handler_spec k h :
  (1 < spin_fuel)%nat -> con_ok k h ->
  if next_scancode h =? 0 then
    keyboard_handler k h = (Panic Explicit, (k, log_io (In 0x60 0) h))
  else exists k' h', keyboard_handler k h = (Ok tt, (k', log_io EOI h')) /\
    con_ok k' h' /\ same_statics k k' /\ ticks k' = ticks k /\ served 1 h (log_io EOI h') /\
    (col_pos (console k'), screen h') =
      match scancode_to_char (next_scancode h) with
      | Ok (Some ch) => putc_ref (cur_color (console k)) ch (col_pos (console k), screen h)
      | _ => (col_pos (console k), screen h)
      end.
Proof.
  intros Hf Hcon. destruct (Z.eqb_spec (next_scancode h) 0) as [He|Hne].
  { unfold keyboard_handler. eapply run_bind_eq; [reflexivity|]. fold (next_scancode h).
    rewrite He. reflexivity. }
  assert (wp keyboard_handler (fun _ k' h2 => exists h', h2 = log_io EOI h' /\
    con_ok k' h' /\ same_statics k k' /\ ticks k' = ticks k /\ served 1 h (log_io EOI h') /\
    (col_pos (console k'), screen h') =
      match scancode_to_char (next_scancode h) with
      | Ok (Some ch) => putc_ref (cur_color (console k)) ch (col_pos (console k), screen h)
      | _ => (col_pos (console k), screen h)
      end) k h) as Hwp.
  { apply wp_keyboard; [done..|]. intros k' h' Hc Hs Ht Hsv Hsome Hnone. exists h'.
    split_and!; [done|exact Hc|exact Hs|exact Ht|exact Hsv|].
    destruct (scancode_total (next_scancode h) (port_in_byte _ _) Hne) as [[ch|] Hch]; rewrite Hch.
    - by apply Hsome.
    - by destruct (Hnone Hch) as [-> ->]. }
  apply wp_run in Hwp as ([] & k' & h2 & Hrun & h' & -> & Hrest). by exists k', h'.
Qed.

(** The idle loop: on a keyboard that reports no error, any sequence of
    timer and keyboard interrupts is served without a panic or a hang (as
    long as the tick count fits), counts the timer interrupts exactly, sends
    one acknowledgement per interrupt, keeps the console usable and leaves
    memory, the descriptor table and the allocator alone. *)
Theorem serve_spec irqs k h :
  (1 < spin_fuel)%nat -> (forall tr, port_in tr 0x60 ≠ 0) -> con_ok k h ->
  0 <= ticks k -> ticks k + timers irqs < 2 ^ 64 ->
  exists k' h', serve irqs k h = (Ok tt, (k', h')) /\ con_ok k' h' /\ same_statics k k' /\
    ticks k' = ticks k + timers irqs /\ served (length irqs) h h' /\ mem h' = mem h.
Proof.
  intros Hf Hkey Hcon H0 Hb.
  pose proof (proj1 (wp_run _ _ _ _) (serve_run irqs k h Hf Hkey Hcon H0 Hb))
    as ([] & k' & h' & Hrun & Hcon' & Hs & Ht & Hsv).
  exists k', h'. split_and!; try done. destruct Hsv as (es & rows & -> & _). by rewrite log_ios_spec.
Qed.
End properties.

(** A kernel whose console is ready; the keyboard always answers [0x1e]. *)
Definition idle_kernel : Kernel :=
  over VGA_BUFFER (MkSingleton SINGLE_INITED (Some example_vga)) kernel_start.

Lemma idle_con_ok : con_ok idle_kernel Vga.example_hw.
Proof. split; [right; by eexists|exact example_vga_ok]. Qed.

Lemma scancode_spec_witness :
  @scancode_to_char (constant_platform true 0) 0x9e = Ok None /\
  exists key, @scancode_to_char (constant_platform true 0) key = Ok (Some 97).
Proof.
  destruct (@scancode_spec (constant_platform true 0) 0x9e 97) as (Hrun & key & _ & Hkey & _).
  - split; [lia|reflexivity].
  - right. lia.
  - split; [rewrite Hrun; reflexivity|]. exists key. exact Hkey.
Defined.

Lemma timer_handler_spec_witness :
  @timer_handler (constant_platform true 0) idle_kernel Vga.example_hw =
    (Ok tt, (over TICKS 1 idle_kernel, log_io EOI Vga.example_hw)).
Proof.
  rewrite (@timer_handler_spec (constant_platform true 0) idle_kernel Vga.example_hw);
    [reflexivity|split; [cbn; lia|reflexivity]].
Defined.

Lemma keyboard_handler_spec_witness :
  exists k' h', @keyboard_handler (constant_platform true 0x1e) idle_kernel Vga.example_hw =
    (Ok tt, (k', log_io EOI h')) /\ col_pos (console k') = 1.
Proof.
  destruct (@keyboard_handler_spec (constant_platform true 0x1e) idle_kernel Vga.example_hw)
    as (k' & h' & Hrun & _ & _ & _ & _ & Hst).
  - cbn. lia.
  - exact idle_con_ok.
  - exists k', h'. split; [exact Hrun|].
    change (col_pos (console k')) with (fst (col_pos (console k'), screen h')). rewrite Hst. reflexivity.
Defined.

Lemma serve_spec_witness :
  exists k' h', @serve (constant_platform true 0x1e) [Timer; Keyboard; Timer] idle_kernel Vga.example_hw =
    (Ok tt, (k', h')) /\ ticks k' = 2.
Proof.
  destruct (@serve_spec (constant_platform true 0x1e) [Timer; Keyboard; Timer] idle_kernel Vga.example_hw)
    as (k' & h' & Hrun & _ & _ & Ht & _).
  - cbn. lia.
  - intros tr. cbn. discriminate.
  - exact idle_con_ok.
  - cbn. lia.
  - reflexivity.
  - exists k', h'. split; [exact Hrun|exact Ht].
Defined.
