(* ===== verification/Interleave.v ===== *)
(** * Interrupts between the accesses of start-up and of the heap

    After [sti] the timer and the keyboard interrupt [main] at any point.  The
    report of [main] and the heap operations are laid out as sequences of
    accesses ([Steps]); an interrupt, handled by the code of [main.rs], may come
    before any of them.  Timer interrupts leave every print and every
    allocation as it is; the heap is also blind to key presses.  What a key
    press may do to a print is the subject of [Preempt]. *)
From Stdlib Require Import ZArith Lia String.
From stdpp Require Import base tactics numbers list gmap.
From S2P Require Import Prelude.
From S2P Require Import Machine.
From S2P Require Import Fmt.
From S2P Require Import X86.
From S2P Require Import Serial.
From S2P Require Import Vga.
From S2P Require Import Preempt.
From S2P Require Import Singleton.
From S2P Require Import Steps.
From S2P Require Import Loader.
From S2P Require Import MemMap.
From S2P Require Import Bitmap.
From S2P Require Import Page.
From S2P Require Import Alloc.
From S2P Require Import Intr.
From S2P Require Import Kernel.
From S2P Require Import Main.

(** ** Accesses *)

(** One byte of memory. *)
Inductive mem_access {St} : forall B, M St B -> Prop :=
  | acc_load8 a : mem_access Z (load8 a)
  | acc_store8 a b : mem_access unit (store8 a b).

(** Memory, the text buffer, an output port, a register. *)
Inductive hw_access {St} : forall B, M St B -> Prop :=
  | acc_mem B m : mem_access B m -> hw_access B m
  | acc_outb p v : hw_access unit (outb p v)
  | acc_esp : hw_access Z esp
  | acc_write_cell row col c : hw_access unit (write_cell row col c)
  | acc_rows_copy start end_ dest : hw_access unit (rows_copy_within start end_ dest)
  | acc_row_copy row start end_ dest : hw_access unit (row_copy_within row start end_ dest).

(** A method's accesses: the hardware, and the fields of [self]. *)
Inductive method {T} (P : forall B, M T B -> Prop) : forall B, M T B -> Prop :=
  | method_hw B m : P B m -> method P B m
  | method_get : method P T get
  | method_put t : method P unit (put t)
  | method_lift B r : method P B (lift r).

(** Accesses to a lazily initialised static: the atomic state, the write of the
    value, and the accesses of its methods. *)
Inductive static {T} (l : Lens Kernel (Singleton T)) (P : forall B, M T B -> Prop) :
    forall B, M Kernel B -> Prop :=
  | static_cas current new : static l P (Z + Z) (compare_exchange l current new)
  | static_load : static l P Z (load l)
  | static_store v : static l P unit (store l v)
  | static_write t : static l P unit (write_data l t)
  | static_data B m : method P B m -> static l P B (with_data l m).

(** The accesses of the report of [main], and of the heap. *)
Inductive report_access : forall B, M Kernel B -> Prop :=
  | report_hw B m : hw_access B m -> report_access B m
  | report_vga B m : static VGA_BUFFER hw_access B m -> report_access B m
  | report_heap B m : static PAGE_ALLOC mem_access B m -> report_access B m.

Inductive heap_access : forall B, M Kernel B -> Prop :=
  | heap_mem B m : mem_access B m -> heap_access B m
  | heap_pages B m : static PAGE_ALLOC mem_access B m -> heap_access B m.

#[export] Hint Constructors mem_access hw_access method static report_access heap_access : access.

(** ** Layouts of the components *)
Section layouts.
Context `{Platform} {St : Type} (P : forall B, M St B -> Prop).
Hypothesis loads : forall a, P Z (load8 a).
Hypothesis stores : forall a b, P unit (store8 a b).

Definition load_le_traced n a : Traced P (load_le n a).
Proof using loads. revert a. induction n as [|n IH]; intros a; cbn [load_le]; traced. Defined.

Definition store_le_traced n a v : Traced P (store_le n a v).
Proof using stores. revert a v. induction n as [|n IH]; intros a v; cbn [store_le]; traced. Defined.

Definition available_loop_traced mems last_end size : Traced P (available_loop mems last_end size).
Proof using loads.
  revert last_end size. induction mems as [|mem mems IH]; intros last_end size; cbn [available_loop].
  { traced. }
  unfold kind, addr, len. traced; apply load_le_traced.
Defined.

Definition available_mem_size_traced : Traced P available_mem_size.
Proof using loads.
  unfold available_mem_size, get_memlayout, get_memlayout_buflen. traced;
    [apply load_le_traced|apply available_loop_traced].
Defined.

Definition memlayout_fmt_traced self : Traced P (memlayout_fmt self).
Proof using loads. unfold memlayout_fmt, addr, len, kind. traced; apply load_le_traced. Defined.

Definition get_memlayout_traced : Traced P get_memlayout.
Proof using loads. unfold get_memlayout, get_memlayout_buflen. traced. apply load_le_traced. Defined.

Definition bitmap_new_traced data_ptr size : Traced P (bitmap_new data_ptr size).
Proof using stores. unfold bitmap_new, write_bytes_at. traced. Defined.

Definition contains_traced self start len val : Traced P (contains self start len val).
Proof using loads. unfold contains, test. traced. Defined.

Definition find_traced self start len val : Traced P (find self start len val).
Proof using loads. unfold find. traced. apply contains_traced. Defined.

Definition flips_traced self idx len : Traced P (flips self idx len).
Proof using loads stores. unfold flips, flip. traced. Defined.

Definition page_allocator_default_traced : Traced P page_allocator_default.
Proof using loads stores.
  unfold page_allocator_default. cbv zeta. traced;
    [apply available_mem_size_traced|apply bitmap_new_traced].
Defined.
End layouts.

#[export] Hint Resolve load_le_traced store_le_traced memlayout_fmt_traced get_memlayout_traced
  contains_traced find_traced flips_traced page_allocator_default_traced : traced.

Section methods.
Context `{Platform}.

(** [putc] in the order of its source, field by field. *)
Definition putc_src_traced c : Traced (method hw_access) (putc_src c).
Proof. unfold putc_src, set_col, new_line, clear_row, update_cursor. cbv zeta. traced. Defined.

Definition putc_traced c : Traced (method hw_access) (putc c) :=
  traced_equiv _ (putc c) (putc_src c) (putc_src_quiet c) (putc_src_traced c).

Definition get_page_traced cnt : Traced (method mem_access) (get_page cnt).
Proof. unfold get_page. traced. Defined.

Definition free_page_traced page cnt : Traced (method mem_access) (free_page page cnt).
Proof. unfold free_page, all. traced. Defined.
End methods.

#[export] Hint Resolve putc_traced get_page_traced free_page_traced : traced.

(** A use of a static: [init], with its loops, and the method. *)
Section statics.
Context `{Platform} {T : Type} (l : Lens Kernel (Singleton T)) `{!LensLaws l}
  (P : forall B, M T B -> Prop) (Q : forall B, M Kernel B -> Prop).
Hypothesis statics : forall B m, static l P B m -> Q B m.

Definition initialise_traced default : Traced Q default -> Traced Q (initialise l default).
Proof using statics. intros Hd. unfold initialise. traced. Defined.

Definition init_loop_traced default fuel : Traced Q default -> Traced Q (init_loop l default fuel).
Proof using statics.
  intros Hd. induction fuel as [|fuel IH]; cbn [init_loop]; traced; by apply initialise_traced.
Defined.

Definition get_mut_traced default {A} (m : M T A) :
  Traced Q default -> Traced (method P) m -> Traced Q (get_mut l default m).
Proof using LensLaws0 statics.
  intros Hd Hm. unfold get_mut, init. traced; [by apply init_loop_traced|].
  apply (traced_data l (method P)); [|auto with access..|exact Hm].
  intros B m' Hm'. auto with access.
Defined.
End statics.

Section code.
Context `{Platform}.

Definition vga_print_traced args : Traced report_access (vga_print args).
Proof.
  unfold vga_print. apply (get_mut_traced VGA_BUFFER hw_access); [auto with access| |].
  - unfold vga_default. traced.
  - unfold write_fmt. apply traced_for_in. intros s. cbn [write_str VgaBuffer_FmtWrite].
    unfold vga_write_str, write_bytes. traced.
Defined.

Definition println_traced args : Traced report_access (println args) := vga_print_traced (args ++ [newline]).

Definition alloc_traced layout : Traced heap_access (alloc PAGE_ALLOC page_allocator_default layout).
Proof.
  unfold alloc. cbv zeta. traced.
  apply (get_mut_traced PAGE_ALLOC mem_access); [auto with access|traced|].
  cbn [pm_get page_allocator_manager]. traced.
Defined.

Definition dealloc_traced ptr layout :
  Traced heap_access (dealloc PAGE_ALLOC page_allocator_default ptr layout).
Proof.
  unfold dealloc. cbv zeta.
  apply (get_mut_traced PAGE_ALLOC mem_access); [auto with access|traced|].
  cbn [pm_free page_allocator_manager]. traced.
Defined.

Definition box_new_traced v : Traced heap_access (box_new v).
Proof. unfold box_new. traced. apply alloc_traced. Defined.

Lemma heap_in_report B (m : M Kernel B) : heap_access B m -> report_access B m.
Proof. destruct 1; auto with access. Qed.

(** What only reads memory or uses the heap is laid out in the heap's accesses. *)
Definition heap_traced {A} (m : M Kernel A) (Hm : Traced heap_access m) : Traced report_access m :=
  traced_mono heap_access report_access m heap_in_report Hm.

Definition main_report_traced : Traced report_access main_report.
Proof.
  unfold main_report. apply traced_bind; [apply heap_traced; traced|intros mems].
  apply traced_bind; [apply traced_for_in; intros m|intros _].
  { apply traced_bind; [apply heap_traced; traced|intros t; apply println_traced]. }
  apply traced_bind; [traced|intros e]. apply traced_bind; [traced|intros tp].
  apply traced_bind; [apply println_traced|intros _].
  apply traced_bind; [apply heap_traced, box_new_traced|intros a].
  apply traced_bind; [apply heap_traced; traced|intros v]. apply println_traced.
Defined.

(** The code of [main.rs] from [sti] on, and the heap's operations, access by
    access. *)
Definition report_prog : prog Kernel unit := @prog_of _ _ _ main_report main_report_traced.
Definition alloc_prog layout : prog Kernel Z := @prog_of _ _ _ _ (alloc_traced layout).
Definition dealloc_prog ptr layout : prog Kernel unit := @prog_of _ _ _ _ (dealloc_traced ptr layout).
End code.

#[local] Opaque main_report_traced alloc_traced dealloc_traced.

(** ** What a timer interrupt may change *)

Definition set_trace (tr : list io_event) (h : Hw) : Hw :=
  MkHw (mem h) (screen h) tr (reg_cs h) (reg_esp h) (reg_cr3 h) (reg_idtr h) (reg_if h).

(** [tr'] is [tr] with [n] end-of-interrupt commands among its events. *)
Inductive with_eois : nat -> list io_event -> list io_event -> Prop :=
  | eois_nil : with_eois 0 [] []
  | eois_event n e tr tr' : with_eois n tr tr' -> with_eois n (e :: tr) (e :: tr')
  | eois_more n tr tr' : with_eois n tr tr' -> with_eois (Datatypes.S n) tr (EOI :: tr').

Lemma with_eois_refl tr : with_eois 0 tr tr.
Proof. induction tr; by constructor. Qed.

Lemma with_eois_count n tr tr' : with_eois n tr tr' -> eois tr' = (eois tr + n)%nat.
Proof.
  unfold eois. induction 1 as [|n e tr tr' _ IH|n tr tr' _ IH]; [done| |].
  - rewrite !filter_cons. case_decide; cbn [length]; lia.
  - rewrite filter_cons_True by done. cbn [length]. lia.
Qed.

(** The same hardware but for [n] end-of-interrupt commands in the trace. *)
Definition similar (n : nat) (h1 h2 : Hw) : Prop :=
  h2 = set_trace (trace h2) h1 /\ with_eois n (trace h1) (trace h2).

(** [m] cannot tell such hardware apart. *)
Definition blind {St B} (m : M St B) : Prop :=
  forall n s h1 h2, similar n h1 h2 ->
    exists h2', m s h2 = ((m s h1).1, ((m s h1).2.1, h2')) /\ similar n (m s h1).2.2 h2'.

(** A static the timer does not touch. *)
Class Apart {T} (l : Lens Kernel (Singleton T)) := {
  view_apart : forall k x, view l (over TICKS x k) = view l k;
  over_apart : forall k x t, over l t (over TICKS x k) = over TICKS x (over l t k);
  ticks_apart : forall k t, ticks (over l t k) = ticks k
}.

#[export] Instance VGA_BUFFER_apart : Apart VGA_BUFFER.
Proof. by split; intros []. Qed.
#[export] Instance PAGE_ALLOC_apart : Apart PAGE_ALLOC.
Proof. by split; intros []. Qed.

(** [served] timer interrupts, in bursts, ahead of [k1] and [h1]. *)
Definition ahead (t0 : Z) (served : list nat) (s1 s2 : Kernel * Hw) : Prop :=
  ticks s1.1 = t0 /\ s2.1 = over TICKS (t0 + Z.of_nat (sum_list served)) s1.1 /\
  similar (sum_list served) s1.2 s2.2.

(** A burst of timer interrupts. *)
Definition timer_burst `{Platform} (n : nat) : M Kernel unit := serve (replicate n Timer).

Section blindness.
Context `{Platform}.
Implicit Types (k : Kernel) (h : Hw) (n : nat).

Lemma similar_trace n h tr e :
  with_eois n (trace h) tr -> similar n (log_io e h) (log_io e (set_trace tr h)).
Proof. intros Ht. split; [done|by constructor]. Qed.

Lemma similar_fields n h1 h2 :
  similar n h1 h2 -> mem h2 = mem h1 /\ screen h2 = screen h1 /\ reg_esp h2 = reg_esp h1.
Proof. by intros [-> _]. Qed.

Lemma similar_set_mem n h1 h2 m : similar n h1 h2 -> similar n (set_mem m h1) (set_mem m h2).
Proof. intros [Hh Ht]. split; [|done]. rewrite Hh. done. Qed.

Lemma similar_set_screen n h1 h2 v : similar n h1 h2 -> similar n (set_screen v h1) (set_screen v h2).
Proof. intros [Hh Ht]. split; [|done]. rewrite Hh. done. Qed.

Lemma similar_log_io n h1 h2 e : similar n h1 h2 -> similar n (log_io e h1) (log_io e h2).
Proof. intros [Hh Ht]. split; [rewrite Hh; done|]. by constructor. Qed.

Hint Resolve similar_set_mem similar_set_screen similar_log_io : core.

(** Outcomes that are the same on both sides. *)
Ltac blind_cases :=
  repeat (case_match || case_decide); cbn [fst snd]; eauto.

Lemma mem_blind {St} B (m : M St B) : mem_access B m -> blind m.
Proof.
  intros [a|a b] n s h1 h2 Hs; destruct (similar_fields _ _ _ Hs) as (Hm & _ & _);
    unfold load8, store8; rewrite Hm; blind_cases.
Qed.

Lemma hw_blind {St} B (m : M St B) : hw_access B m -> blind m.
Proof.
  destruct 1 as [B m Hm|p v| |row col c|start end_ dest|row start end_ dest];
    intros n s h1 h2 Hs; [by eapply mem_blind|..];
    destruct (similar_fields _ _ _ Hs) as (_ & Hscr & Hesp).
  - eexists. split; [reflexivity|]. by apply similar_log_io.
  - unfold esp, hw, mbind, M_bind, mret, M_ret. rewrite Hesp. eauto.
  - unfold write_cell. rewrite Hscr. blind_cases.
  - unfold rows_copy_within, hw, mbind, M_bind, lift, modify_hw. rewrite Hscr. blind_cases.
  - unfold row_copy_within, hw, mbind, M_bind, lift, modify_hw. rewrite Hscr. blind_cases.
Qed.

Lemma method_blind {T} (P : forall B, M T B -> Prop) B (m : M T B) :
  (forall B (m : M T B), P B m -> blind m) -> method P B m -> blind m.
Proof.
  intros HP [B' m' Hm| |t|B' r]; [by apply HP|..]; intros n s h1 h2 Hs; by exists h2.
Qed.
End blindness.

Lemma sum_list_app (l l' : list nat) : sum_list (l ++ l') = (sum_list l + sum_list l')%nat.
Proof. induction l as [|x l IH]; cbn; lia. Qed.

Section timers.
Context `{Platform} (t0 : Z) (all : list nat).
Implicit Types (k : Kernel) (h : Hw).

Lemma blind_in_step B (m : M Kernel B) :
  (forall k h, (m k h).2.1 = k) -> (forall k k' h, (m k' h).1 = (m k h).1 /\ (m k' h).2.2 = (m k h).2.2) ->
  blind m -> in_step (ahead t0) m.
Proof using.
  intros Hk Hind Hm served k1 h1 k2 h2 (Ht & Hk2 & Hs). cbn [fst snd] in *.
  destruct (Hm _ k2 _ _ Hs) as (h2' & Hrun & Hs'). rewrite Hk in Hrun.
  destruct (Hind k1 k2 h1) as [Hr Hh]. rewrite Hr in Hrun. rewrite Hh in Hs'.
  exists k2, h2'. split; [done|]. by split_and!; [rewrite Hk|rewrite Hk|].
Qed.

Lemma hw_in_step B (m : M Kernel B) : hw_access B m -> in_step (ahead t0) m.
Proof using.
  intros Hm. apply blind_in_step; [..|by apply hw_blind].
  - intros k h. destruct Hm as [B m []| | | | |]; try done;
      unfold load8, store8, write_cell, rows_copy_within, row_copy_within, hw, mbind, M_bind, lift, modify_hw;
      by repeat (case_match || case_decide); simplify_eq.
  - intros k k' h. destruct Hm as [B m []| | | | |]; try done;
      unfold load8, store8, write_cell, rows_copy_within, row_copy_within, hw, mbind, M_bind, lift, modify_hw;
      by repeat (case_match || case_decide); simplify_eq.
Qed.

Lemma ahead_over {T} (l : Lens Kernel (Singleton T)) `{!Apart l} served k1 k2 h1 h2 h1' h2' v :
  ahead t0 served (k1, h1) (k2, h2) -> similar (sum_list served) h1' h2' ->
  ahead t0 served (over l v k1, h1') (over l v k2, h2').
Proof using.
  intros (Ht & Hk & _) Hs. cbn [fst snd] in *. subst k2.
  split_and!; cbn [fst snd]; [by rewrite ticks_apart|by rewrite over_apart|done].
Qed.

Lemma static_in_step {T} (l : Lens Kernel (Singleton T)) `{!Apart l} P B (m : M Kernel B) :
  (forall B (m : M T B), P B m -> blind m) -> static l P B m -> in_step (ahead t0) m.
Proof using.
  intros HP Hm served k1 h1 k2 h2 Ha.
  assert (view l k2 = view l k1) as Hv.
  { destruct Ha as (_ & Hk & _). cbn in Hk. subst. apply view_apart. }
  pose proof (proj2 (proj2 Ha)) as Hs; cbn [snd] in Hs.
  destruct Hm as [current new| |v|t|B m Hm].
  - rewrite !compare_exchange_run, Hv. case_match; do 2 eexists; (split; [reflexivity|]); [|done].
    by apply (ahead_over l _ k1 k2 h1 h2).
  - rewrite !load_run, Hv. eauto.
  - unfold store, get, put, mbind, M_bind. rewrite Hv. do 2 eexists. split; [reflexivity|].
    by apply (ahead_over l _ k1 k2 h1 h2).
  - unfold write_data, get, put, mbind, M_bind. rewrite Hv. do 2 eexists. split; [reflexivity|].
    by apply (ahead_over l _ k1 k2 h1 h2).
  - unfold with_data. rewrite Hv. destruct (data (view l k1)) as [t|]; [|by exists k2, h2].
    destruct (method_blind P B m HP Hm _ t h1 h2 Hs) as (h2' & Hrun & Hs'). rewrite Hrun.
    destruct (m t h1) as [r [t' h1']]. cbn [fst snd] in *.
    do 2 eexists. split; [reflexivity|]. by apply (ahead_over l _ k1 k2 h1 h2).
Qed.

Lemma report_in_step B (m : M Kernel B) : report_access B m -> in_step (ahead t0) m.
Proof using.
  destruct 1 as [B m Hm|B m Hm|B m Hm]; [by apply hw_in_step|..].
  - eapply (static_in_step VGA_BUFFER); [|exact Hm]. apply hw_blind.
  - eapply (static_in_step PAGE_ALLOC); [|exact Hm]. apply mem_blind.
Qed.

Hypothesis ticks_fit : 0 <= t0 /\ t0 + Z.of_nat (sum_list all) < 2 ^ 64.

Lemma ahead_tick n k1 h1 k2 h2 :
  ticks k1 = t0 -> k2 = over TICKS (t0 + Z.of_nat n) k1 -> similar n h1 h2 -> t0 + Z.of_nat n + 1 < 2 ^ 64 ->
  exists h2', timer_handler k2 h2 = (Ok tt, (over TICKS (t0 + Z.of_nat (S n)) k1, h2')) /\ similar (S n) h1 h2'.
Proof using ticks_fit.
  intros Ht -> [Hh Hw] Hb. exists (log_io EOI h2).
  assert (ticks (over TICKS (t0 + Z.of_nat n) k1) = t0 + Z.of_nat n) as Htk by done.
  rewrite timer_run by (rewrite Htk; lia). split.
  - rewrite Htk, <- Z.add_assoc. by replace (Z.of_nat (S n)) with (Z.of_nat n + 1) by lia.
  - split; [by rewrite Hh|]. by constructor.
Qed.

Lemma ahead_burst m n k1 h1 k2 h2 :
  ticks k1 = t0 -> k2 = over TICKS (t0 + Z.of_nat n) k1 -> similar n h1 h2 ->
  t0 + Z.of_nat (n + m) < 2 ^ 64 ->
  exists h2', timer_burst m k2 h2 = (Ok tt, (over TICKS (t0 + Z.of_nat (n + m)) k1, h2')) /\
    similar (n + m) h1 h2'.
Proof using ticks_fit.
  intros Ht. revert n k2 h2. induction m as [|m IH]; intros n k2 h2 Hk Hs Hb.
  { exists h2. rewrite Nat.add_0_r. by subst k2. }
  destruct (ahead_tick n k1 h1 k2 h2 Ht Hk Hs ltac:(lia)) as (h3 & Hrun & Hs3).
  destruct (IH (S n) _ h3 eq_refl Hs3 ltac:(lia)) as (h4 & Hrun4 & Hs4).
  rewrite <- Nat.add_succ_comm. exists h4. split; [|done].
  unfold timer_burst, serve. cbn [replicate for_in]. by rewrite (run_bind _ _ _ _ _ _ _ Hrun).
Qed.

Lemma timer_handled served (n : nat) k1 h1 k2 h2 :
  ahead t0 served (k1, h1) (k2, h2) -> served ++ [n] `prefix_of` all ->
  exists k2' h2', timer_burst n k2 h2 = (Ok tt, (k2', h2')) /\
    ahead t0 (served ++ [n]) (k1, h1) (k2', h2').
Proof using ticks_fit.
  intros (Ht & Hk & Hs) [rest Hall]. cbn [fst snd] in *.
  assert (sum_list (served ++ [n]) = sum_list served + n)%nat as Hsum by (rewrite sum_list_app; cbn; lia).
  assert (sum_list all = sum_list served + n + sum_list rest)%nat as Hsum' by (by rewrite Hall, sum_list_app, Hsum).
  destruct (ahead_burst n (sum_list served) k1 h1 k2 h2 Ht Hk Hs ltac:(lia)) as (h2' & Hrun & Hs').
  exists (over TICKS (t0 + Z.of_nat (sum_list served + n)) k1), h2'. split; [exact Hrun|].
  unfold ahead; cbn [fst snd]. by rewrite Hsum.
Qed.
End timers.

(** ** What any interrupt may change of the heap: nothing *)

(** The interrupts [served] beside [k1] and [h1]: the statics and memory of the
    heap are the same, and the console of the interrupted side is as [con] says,
    which the heap has no part in. *)
Record beside (con : Kernel -> Hw -> Prop) (t0 : Z) (served : list irq) (s1 s2 : Kernel * Hw) : Prop := {
  bs_pages : page_alloc s2.1 = page_alloc s1.1;
  bs_serial : serial_io s2.1 = serial_io s1.1;
  bs_table : intr_table s2.1 = intr_table s1.1;
  bs_ticks : ticks s2.1 = t0 + timers served;
  bs_hw : s2.2 = set_trace (trace s2.2) (set_screen (screen s2.2) s1.2);
  bs_eois : eois (trace s2.2) = (eois (trace s1.2) + length served)%nat;
  bs_con : con s2.1 s2.2
}.

Class HeapApart (con : Kernel -> Hw -> Prop) := {
  con_pages : forall v k h, con k h -> con (over PAGE_ALLOC v k) h;
  con_mem : forall m k h, con k h -> con k (set_mem m h)
}.

#[export] Instance con_ok_apart : HeapApart con_ok.
Proof. by split. Qed.

Lemma timers_app a b : timers (a ++ b) = timers a + timers b.
Proof. unfold timers. rewrite List.filter_app, length_app. lia. Qed.

Lemma served_eois n h h' : served n h h' -> eois (trace h') = (eois (trace h) + n)%nat.
Proof.
  intros (es & rows & -> & Hn%eois_pic). rewrite log_ios_spec. cbn [trace set_screen]. rewrite eois_app, <- Hn.
  assert (eois (rev es) = eois es) as ->; [|lia].
  unfold eois. by rewrite <- (Permutation_rev es).
Qed.

Section heap.
Context `{Platform} (con : Kernel -> Hw -> Prop) `{!HeapApart con} (t0 : Z).
Implicit Types (k : Kernel) (h : Hw).

Lemma beside_over served k1 k2 h1 h2 v :
  beside con t0 served (k1, h1) (k2, h2) -> beside con t0 served (over PAGE_ALLOC v k1, h1) (over PAGE_ALLOC v k2, h2).
Proof using HeapApart0. intros []. split; try done. by apply con_pages. Qed.

Lemma beside_store served k1 k2 h1 h2 m :
  beside con t0 served (k1, h1) (k2, h2) -> beside con t0 served (k1, set_mem m h1) (k2, set_mem m h2).
Proof using HeapApart0.
  intros []. split; try done; cbn [fst snd] in *; [by rewrite bs_hw0 at 1|by apply con_mem].
Qed.

(** One byte of memory, wherever it is accessed from. *)
Lemma mem_beside {St} B (m : M St B) served (t : St) k1 k2 h1 h2 :
  mem_access B m -> beside con t0 served (k1, h1) (k2, h2) ->
  exists h2', m t h2 = ((m t h1).1, ((m t h1).2.1, h2')) /\
    beside con t0 served (k1, (m t h1).2.2) (k2, h2').
Proof using HeapApart0.
  intros Hm Hb. assert (mem h2 = mem h1) as Hmem.
  { pose proof (bs_hw _ _ _ _ _ Hb) as Hh. cbn in Hh. by rewrite Hh. }
  destruct Hm as [a|a b]; unfold load8, store8; rewrite Hmem;
    repeat case_match; cbn [fst snd]; eauto using beside_store.
Qed.

Lemma heap_in_step B (m : M Kernel B) : heap_access B m -> in_step (beside con t0) m.
Proof using HeapApart0.
  intros Hm served k1 h1 k2 h2 Hb. pose proof (bs_pages _ _ _ _ _ Hb) as Hv; cbn [fst] in Hv.
  destruct Hm as [B m Hm|B m Hm].
  { destruct (mem_beside B m served k1 k1 k2 h1 h2 Hm Hb) as (h2' & Hrun & Hb').
    exists k2, h2'. destruct Hm; unfold load8, store8 in *; revert Hrun Hb'; repeat case_match;
      intros Hrun Hb'; simplify_eq/=; done. }
  destruct Hm as [current new| |v|t|B m Hm].
  - rewrite !compare_exchange_run. cbn [view PAGE_ALLOC]. rewrite Hv.
    case_match; do 2 eexists; (split; [reflexivity|]); [by apply beside_over|done].
  - rewrite !load_run. cbn [view PAGE_ALLOC]. rewrite Hv. eauto.
  - unfold store, get, put, mbind, M_bind. cbn [view PAGE_ALLOC]. rewrite Hv.
    do 2 eexists. split; [reflexivity|]. by apply beside_over.
  - unfold write_data, get, put, mbind, M_bind. cbn [view PAGE_ALLOC]. rewrite Hv.
    do 2 eexists. split; [reflexivity|]. by apply beside_over.
  - unfold with_data. cbn [view PAGE_ALLOC]. rewrite Hv.
    destruct (data (page_alloc k1)) as [t|]; [|by exists k2, h2].
    assert (exists h2', m t h2 = ((m t h1).1, ((m t h1).2.1, h2')) /\
      beside con t0 served (k1, (m t h1).2.2) (k2, h2')) as (h2' & Hrun & Hb').
    { destruct Hm as [B m Hm| | |]; [by apply mem_beside|by exists h2..]. }
    rewrite Hrun. destruct (m t h1) as [r [t' h1']]. cbn [fst snd] in *.
    do 2 eexists. split; [reflexivity|]. by apply beside_over.
Qed.

End heap.

Section served_heap.
Context `{Platform} (t0 : Z) (all : list (list irq)).
Implicit Types (k : Kernel) (h : Hw).
Hypothesis fuel : (1 < spin_fuel)%nat.
Hypothesis no_error_code : forall tr, port_in tr 0x60 ≠ 0.
Hypothesis ticks_fit : 0 <= t0 /\ t0 + timers (concat all) < 2 ^ 64.

Lemma irqs_handled served (irqs : list irq) k1 h1 k2 h2 :
  beside con_ok t0 (concat served) (k1, h1) (k2, h2) -> served ++ [irqs] `prefix_of` all ->
  exists k2' h2', serve irqs k2 h2 = (Ok tt, (k2', h2')) /\
    beside con_ok t0 (concat (served ++ [irqs])) (k1, h1) (k2', h2').
Proof using fuel no_error_code ticks_fit.
  intros Hb [rest Hall]. destruct Hb. cbn [fst snd] in *.
  assert (timers (concat all) = timers (concat served) + timers irqs + timers (concat rest)) as Hsum
    by (by rewrite Hall, !concat_app, !timers_app; cbn; rewrite app_nil_r).
  assert (0 <= timers (concat rest) /\ 0 <= timers (concat served) /\ 0 <= timers irqs) as (?&?&?)
    by (unfold timers; lia).
  destruct (proj1 (wp_run _ _ _ _) (serve_run irqs k2 h2 fuel no_error_code bs_con0 ltac:(lia) ltac:(lia)))
    as ([] & k3 & h3 & Hrun & Hcon & (Hs & Ht & Hp) & Htk & Hsv).
  exists k3, h3. split; [done|]. pose proof (served_eois _ _ _ Hsv) as He.
  rewrite concat_app; cbn [concat]; rewrite app_nil_r.
  split; cbn [fst snd]; try congruence; try done.
  - rewrite timers_app. lia.
  - destruct Hsv as (es & rows & -> & _). rewrite log_ios_spec. cbn. by rewrite bs_hw0.
  - rewrite length_app. lia.
Qed.
End served_heap.

(** ** Properties *)
Section properties.
Context `{Platform}.
Implicit Types (k : Kernel) (h : Hw).

(** The layout is the code. *)
Lemma report_prog_run k h : run report_prog k h = main_report k h.
Proof. exact (@prog_run _ report_access _ main_report main_report_traced k h). Qed.

Lemma report_interrupted k h (irqs : list nat) :
  0 <= ticks k -> ticks k + Z.of_nat (sum_list irqs) < 2 ^ 64 ->
  exists n tr, (n <= sum_list irqs)%nat /\
    preempt timer_burst irqs report_prog k h =
      ((main_report k h).1, (over TICKS (ticks k + Z.of_nat n) (main_report k h).2.1,
        set_trace tr (main_report k h).2.2)) /\
    with_eois n (trace (main_report k h).2.2) tr.
Proof.
  intros H0 Hb.
  destruct (preempt_sim timer_burst report_access (ahead (ticks k)) irqs
    (report_in_step (ticks k)) (timer_handled (ticks k) irqs (conj H0 Hb)) report_prog irqs [] k h k h)
    as (served & k2 & h2 & Hrun & [rest Hp] & Ht & Hk & Hh & Htr).
  - apply prog_fine.
  - done.
  - split_and!; [done|by destruct k; cbn; rewrite Z.add_0_r|]. split; [by destruct h|apply with_eois_refl].
  - rewrite report_prog_run in *. cbn [fst snd] in *.
    exists (sum_list served), (trace h2). split; [rewrite Hp, sum_list_app; lia|]. split; [|done].
    rewrite Hrun, Hk. by rewrite <- Hh.
Qed.

(** C13: Timer interrupts before any accesses of the report of [main], any number
    of them at a time and at the granularity of single bytes, ports and
    statics, are invisible to it: laid out as such accesses, and interrupted
    before any of them, the code has the same outcome, whatever that is, and
    leaves the same memory, screen, statics and registers; only the tick count
    has grown by the interrupts served, and their end-of-interrupt commands are
    among the port writes. *)
Theorem report_preemptible k h (irqs : list nat) :
  0 <= ticks k -> ticks k + Z.of_nat (sum_list irqs) < 2 ^ 64 ->
  fine report_access report_prog /\ run report_prog k h = main_report k h /\
  let '(r, (k1, h1)) := main_report k h in
  exists n tr, (n <= sum_list irqs)%nat /\
    preempt timer_burst irqs report_prog k h =
      (r, (over TICKS (ticks k + Z.of_nat n) k1, set_trace tr h1)) /\
    with_eois n (trace h1) tr.
Proof.
  intros H0 Hb. split_and!; [apply prog_fine|apply report_prog_run|].
  pose proof (report_interrupted k h irqs H0 Hb) as Hi.
  by destruct (main_report k h) as [r [k1 h1]].
Qed.

(** [p] lays out [m] in accesses to memory and to the static of the heap, and
    interrupted before any of them it does to the heap what [m] does. *)
Definition undisturbed {A} (m : M Kernel A) (p : prog Kernel A) (irqs : list (list irq)) k h : Prop :=
  fine heap_access p /\ run p k h = m k h /\
  let '(r, (k1, h1)) := m k h in
  exists served k2 h2, served `prefix_of` irqs /\
    preempt serve irqs p k h = (r, (k2, h2)) /\
    page_alloc k2 = page_alloc k1 /\ mem h2 = mem h1 /\ con_ok k2 h2 /\
    ticks k2 = ticks k + timers (concat served) /\
    eois (trace h2) = (eois (trace h1) + length (concat served))%nat.

Lemma heap_undisturbed {A} (m : M Kernel A) (Hm : Traced heap_access m) irqs k h :
  (1 < spin_fuel)%nat -> (forall tr, port_in tr 0x60 ≠ 0) -> con_ok k h ->
  0 <= ticks k -> ticks k + timers (concat irqs) < 2 ^ 64 ->
  undisturbed m (prog_of m) irqs k h.
Proof.
  intros Hf Hkey Hcon H0 Hb. pose proof (prog_run m k h) as Hrun. split_and!; [apply prog_fine|done|].
  destruct (preempt_sim serve heap_access (fun served => beside con_ok (ticks k) (concat served)) irqs
    (fun B m Hm served => heap_in_step con_ok (ticks k) B m Hm (concat served))
    (irqs_handled (ticks k) irqs Hf Hkey (conj H0 Hb)) (prog_of m) irqs [] k h k h)
    as (served & k2 & h2 & Hpre & Hp & Hbs).
  - apply prog_fine.
  - done.
  - split; cbn [fst snd]; try done; [unfold timers; cbn; lia|by destruct h].
  - rewrite Hrun in *. destruct (m k h) as [r [k1 h1]]. cbn [fst snd] in *. destruct Hbs; cbn [fst snd] in *.
    exists served, k2, h2. split_and!; try done. by rewrite bs_hw0.
Qed.

(** C14: Timer and keyboard interrupts before any accesses of an allocation or a
    release, any number of them at a time, are invisible to the heap: at the granularity of single bytes of
    memory and accesses to [PAGE_ALLOC], the operation gives the same result and
    leaves the same allocator and the same memory, the console stays usable,
    and each interrupt served is counted and acknowledged. *)
Theorem heap_preemptible layout ptr (irqs : list (list irq)) k h :
  (1 < spin_fuel)%nat -> (forall tr, port_in tr 0x60 ≠ 0) -> con_ok k h ->
  0 <= ticks k -> ticks k + timers (concat irqs) < 2 ^ 64 ->
  undisturbed (alloc PAGE_ALLOC page_allocator_default layout) (alloc_prog layout) irqs k h /\
  undisturbed (dealloc PAGE_ALLOC page_allocator_default ptr layout) (dealloc_prog ptr layout) irqs k h.
Proof.
  intros. split; [by apply (heap_undisturbed _ (alloc_traced layout))|].
  by apply (heap_undisturbed _ (dealloc_traced ptr layout)).
Qed.
End properties.

(** ** Witnesses *)

(** Three timer interrupts in the report, on a machine whose memory map faults. *)
Lemma report_preemptible_witness :
  exists r k h n tr, @preempt Kernel unit nat (@timer_burst (constant_platform true 0x21)) [2; 0; 1]%nat
      (@report_prog (constant_platform true 0x21)) kernel_start example_hw =
    (r, (over TICKS (0 + Z.of_nat n) k, set_trace tr h)) /\ (n <= 3)%nat.
Proof.
  destruct (@report_preemptible (constant_platform true 0x21) kernel_start example_hw [2; 0; 1]%nat)
    as (_ & _ & Hp).
  - cbn. lia.
  - reflexivity.
  - destruct (@main_report (constant_platform true 0x21) kernel_start example_hw) as [r [k h]].
    destruct Hp as (n & tr & Hn & Hrun & _). exists r, k, h, n, tr. split; [exact Hrun|exact Hn].
Defined.

(** An untouched console and a heap of sixteen pages. *)
Definition heap_kernel : Kernel := MkKernel UNINIT UNINIT UNINIT example_global 0.
Definition heap_hw : Hw := MkHw {[ 0x1000 := 0; 0x1001 := 0 ]} blank_screen [] 8 0 0 None false.

(** A timer and a keyboard interrupt inside an allocation. *)
Lemma heap_preemptible_witness :
  exists p k2 h2, @preempt Kernel Z (list irq) (@serve (constant_platform true 0x21)) [[Timer]; []; [Keyboard; Timer]]
      (@alloc_prog (constant_platform true 0x21) (MkLayout 4 4)) heap_kernel heap_hw =
    (Ok p, (k2, h2)) /\ page_alloc k2 = example_global /\ con_ok k2 h2.
Proof.
  destruct (@heap_preemptible (constant_platform true 0x21) (MkLayout 4 4) 0 [[Timer]; []; [Keyboard; Timer]]
    heap_kernel heap_hw) as [(_ & _ & Hp) _].
  - cbn. lia.
  - intros tr. cbn. discriminate.
  - split; [by left|exact (conj (proj1 example_vga_ok) (proj2 example_vga_ok))].
  - cbn. lia.
  - reflexivity.
  - assert (exists p k1 h1, @alloc (constant_platform true 0x21) Kernel PageAllocator _ PAGE_ALLOC
      (@page_allocator_default (constant_platform true 0x21) Kernel) (MkLayout 4 4) heap_kernel heap_hw = (Ok p, (k1, h1)) /\
      page_alloc k1 = example_global) as (p & k1 & h1 & Halloc & Hpages).
    { do 3 eexists. split; vm_compute; reflexivity. }
    rewrite Halloc in Hp. destruct Hp as (served & k2 & h2 & _ & Hrun & Hpg & _ & Hcon & _).
    exists p, k2, h2. split; [exact Hrun|]. split; [by rewrite Hpg|exact Hcon].
Defined.
