(* ===== verification/Races.v ===== *)
(** * Any interrupt at any point of the report

    [Interleave] lets timer interrupts come anywhere in the report of [main]
    and any interrupt anywhere in a heap operation.  Here both kinds come
    anywhere in the report.  A key press prints on the console [main] is printing
    on, so the screen is no longer what it was, and the column may be moved off
    the row.  The walk along a layout ([stays]) keeps an account of that: where
    the column is, and whether it has been off the row before.  It shows that
    nothing but a column off the row makes the report panic, that every line
    leaves the column on the row, and that memory, the heap and the other
    statics are what the undisturbed report leaves.  [Uptime] puts the result
    to use. *)
From Stdlib Require Import ZArith Lia String.
From stdpp Require Import base tactics numbers list gmap.
From S2P Require Import Prelude.
From S2P Require Import Machine.
From S2P Require Import Fmt.
From S2P Require Import X86.
From S2P Require Import Serial.
From S2P Require Import Vga.
From S2P Require Import Preempt.
From S2P Require Import Singleton.
From S2P Require Import Steps.
From S2P Require Import Loader.
From S2P Require Import MemMap.
From S2P Require Import Bitmap.
From S2P Require Import Page.
From S2P Require Import Alloc.
From S2P Require Import Intr.
From S2P Require Import Kernel.
From S2P Require Import Main.
From S2P Require Import Interleave.

(** ** The column under interference *)

(** Has the column been off the row: not so far, at some time before but not
    now, or possibly now. *)
Inductive history := Never | Before | Now.

#[export] Instance history_eq_dec : EqDecision history.
Proof. solve_decision. Defined.

(** The history when the column was on the row just now. *)
Definition calm (past : history) : history := match past with Never => Never | _ => Before end.

(** The history after an access that left the column at [c]. *)
Definition observe (past : history) (c : Z) : history := if decide (c = BUFFER_WIDTH) then Now else calm past.

Definition column_ok (past : history) (c : Z) : Prop := 0 <= c < BUFFER_WIDTH \/ past = Now /\ c = BUFFER_WIDTH.

(** What the histories at the end of some code may be, if it does not move the column. *)
Definition settles {A} (past : history) (a : A) (past' : history) : Prop := past' = past \/ past = Now /\ past' = Before.

(** A claim about the end of some code that does not rest on the column being
    off the row. *)
Definition lasting {A} (Q : A -> history -> Prop) : Prop := forall a, Q a Now -> Q a Before.

Lemma settles_lasting {A} past : lasting (@settles A past).
Proof. intros a [<-|[? [=]]]. by right. Qed.

Lemma any_lasting {A} : lasting (fun (_ : A) _ => True).
Proof. done. Qed.

#[export] Hint Resolve settles_lasting any_lasting : core.

Section stays.
Context {St : Type} (column : St -> Z) (good : St -> Hw -> Prop) (frame : St * Hw -> St * Hw -> Prop).
Implicit Types (past : history).

(** A console in use whose column the history allows. *)
Definition on past (s : St) (h : Hw) : Prop := column_ok past (column s) /\ good s h.

(** [stays Q past p]: from a console with history [past], and with anything that
    keeps the console as its history allows between the accesses, [p] accesses
    the console only and ends in [Q], or it panics with an index out of bounds
    after the column was off the row. *)
Fixpoint stays {A} (Q : A -> history -> Prop) past (p : prog St A) : Prop :=
  match p with
  | Ret (Ok a) => Q a past
  | Ret (Panic why) => why = OutOfBounds /\ past ≠ Never
  | Ret _ => False
  | Act m k => forall s h, on past s h ->
      frame (s, h) (m s h).2 /\
      match (m s h).1 with
      | Ok b =>
          let past' := observe past (column (m s h).2.1) in
          on past' (m s h).2.1 (m s h).2.2 /\ stays Q past' (k b)
      | Panic why => why = OutOfBounds /\ past ≠ Never
      | _ => False
      end
  end.

(** An access that does not move the column, with a value in [Φ]. *)
Definition still past {B} (Φ : B -> Prop) (m : M St B) : Prop := forall s h, on past s h ->
  frame (s, h) (m s h).2 /\
  ((exists b s' h', m s h = (Ok b, (s', h')) /\ Φ b /\ column s' = column s /\ good s' h') \/
   (m s h).1 = Panic OutOfBounds /\ past ≠ Never).

Lemma on_now past s h : on past s h -> on Now s h.
Proof. intros [[Hc|[_ Hc]] Hg]; (split; [|done]); [by left|by right]. Qed.

Lemma on_settled past s h : on past s h -> past ≠ Now -> on Never s h.
Proof. intros [[Hc|[-> _]] Hg] Hn; [|done]. split; [by left|done]. Qed.

Lemma on_never past s h : on Never s h -> on past s h.
Proof. intros [[Hc|[[=] _]] Hg]. split; [by left|done]. Qed.

Lemma on_observe past s h : on past s h -> on (observe past (column s)) s h.
Proof.
  intros [Hc Hg]. split; [|done]. unfold observe. case_decide as Hd; [by right|].
  left. by destruct Hc as [?|[_ ?]].
Qed.

Lemma observe_settles {A} past s h (a : A) : on past s h -> settles past a (observe past (column s)).
Proof.
  intros [Hc _]. unfold observe, settles, calm. case_decide as Hd.
  - destruct Hc as [Hc|[-> _]]; [lia|by left].
  - destruct past; auto.
Qed.

Lemma stays_later {A} (Q : A -> history -> Prop) p : lasting Q -> stays Q Now p -> stays Q Before p.
Proof.
  intros HQ. destruct p as [[a|why| | |]|B m k]; cbn; try done.
  { apply HQ. }
  { by intros [-> _]. }
  intros Hp s h Hon%on_now. destruct (Hp s h Hon) as [Hf Hm]. split; [done|].
  destruct (m s h) as [[b|why| | |] ?]; cbn in *; try done. split; [by destruct Hm|done].
Qed.

Lemma stays_settles {A B} (Q : A -> history -> Prop) past past' (b : B) p :
  lasting Q -> settles past b past' -> stays Q past p -> stays Q past' p.
Proof. intros HQ [->|[-> ->]]; [done|by apply stays_later]. Qed.

Lemma stays_mono {A} (Q Q' : A -> history -> Prop) past p :
  (forall a past', Q a past' -> Q' a past') -> stays Q past p -> stays Q' past p.
Proof.
  intros HQ. revert past. induction p as [[a|why| | |]|B m k IH]; intros past; cbn; try done; [apply HQ|].
  intros Hp s h Hon. destruct (Hp s h Hon) as [Hf Hm]. split; [done|].
  destruct (m s h) as [[b| | | |] [s' h']]; try done. destruct Hm. split; [done|]. by apply IH.
Qed.

Lemma stays_bind {A B} (Q : A -> history -> Prop) (R : B -> history -> Prop) past p f :
  stays Q past p -> (forall a past', Q a past' -> stays R past' (f a)) -> stays R past (prog_bind p f).
Proof.
  intros Hp Hf. revert past Hp. induction p as [[a|why| | |]|B' m k IH]; intros past; cbn; try done; [apply Hf|].
  intros Hp s h Hon. destruct (Hp s h Hon) as [Hfr Hm]. split; [done|].
  destruct (m s h) as [[b| | | |] [s' h']]; try done. destruct Hm. split; [done|]. by apply IH.
Qed.

(** Code that does not move the column, and then other code. *)
Lemma stays_then {A B} (R : B -> history -> Prop) past p (f : A -> prog St B) :
  lasting R -> stays (settles past) past p -> (forall a, stays R past (f a)) -> stays R past (prog_bind p f).
Proof. intros HR Hp Hf. eapply stays_bind; [exact Hp|]. intros a past' Hs. by eapply stays_settles. Qed.

Lemma stays_act {A B} (Q : A -> history -> Prop) past (Φ : B -> Prop) m k :
  lasting Q -> still past Φ m -> (forall b, Φ b -> stays Q past (k b)) -> stays Q past (Act m k).
Proof.
  intros HQ Hm Hk s h Hon. destruct (Hm s h Hon) as [Hf [(b & s' & h' & Hrun & Hb & Hc & Hg)|[Hp Hn]]].
  - rewrite Hrun in *. cbn [fst snd] in *. split; [done|]. rewrite Hc. split.
    + rewrite <- Hc. apply on_observe. split; [|done]. rewrite Hc. apply Hon.
    + eapply stays_settles; [done|by apply (observe_settles past s h b)|by apply Hk].
  - split; [done|]. destruct (m s h) as [r ?]. cbn in *. by subst r.
Qed.

(** *** The forms of a layout *)
Section forms.
Context (P : forall B, M St B -> Prop).

Lemma stays_access {B} (Q : B -> history -> Prop) past Φ (m : M St B) Hm :
  lasting Q -> still past Φ m -> (forall b, Q b past) -> stays Q past (@prog_of _ _ _ _ (traced_access P m Hm)).
Proof. intros HQ Hs Hb. eapply stays_act; [done|exact Hs|]. intros b _. apply Hb. Qed.

Lemma stays_then_access {A B} (Q : A -> history -> Prop) past Φ (m : M St B) (k : B -> M St A) Hm Hk :
  lasting Q -> still past Φ m -> (forall b, Φ b -> stays Q past (@prog_of _ _ _ _ (Hk b))) ->
  stays Q past (@prog_of _ _ _ _ (traced_bind P m k (traced_access P m Hm) Hk)).
Proof. intros HQ Hs Hb. eapply stays_act; [done|exact Hs|exact Hb]. Qed.

Lemma stays_then_lift {A B} (Q : A -> history -> Prop) past (r : result B) (b : B) (k : B -> M St A) Hk :
  r = Ok b -> stays Q past (@prog_of _ _ _ _ (Hk b)) ->
  stays Q past (@prog_of _ _ _ _ (traced_bind P (lift r) k (traced_lift P r) Hk)).
Proof. by intros ->. Qed.

Lemma stays_then_code {A B} (Q : A -> history -> Prop) past (m : M St B) (k : B -> M St A) Hm Hk :
  lasting Q -> stays (settles past) past (@prog_of _ _ _ _ Hm) -> (forall b, stays Q past (@prog_of _ _ _ _ (Hk b))) ->
  stays Q past (@prog_of _ _ _ _ (traced_bind P m k Hm Hk)).
Proof. apply stays_then. Qed.

(** A loop that does not move the column. *)
Lemma stays_for_each past lo hi (body : Z -> M St unit) (Hb : forall x, Traced P (body x)) :
  (forall i, lo <= i < hi -> stays (settles past) past (@prog_of _ _ _ _ (Hb i))) ->
  stays (settles past) past (@prog_of _ _ _ _ (traced_for_each P lo hi body Hb)).
Proof.
  unfold traced_for_each, for_each. intros Hs. assert (Z.of_nat (Z.to_nat (hi - lo)) <= Z.max 0 (hi - lo)) as Hn by lia.
  revert Hn Hs. generalize (Z.to_nat (hi - lo)). intros n. revert lo.
  induction n as [|n IH]; intros lo Hn Hs; cbn; [by left|].
  apply stays_then; [done|apply Hs; lia|]. intros _. apply IH; [lia|]. intros i Hi. apply Hs. lia.
Qed.

(** A loop whose body moves the column. *)
Lemma stays_for_in {A} (l : list A) past (body : A -> M St unit) (Hb : forall x, Traced P (body x)) :
  Forall (fun x => forall past, stays (fun _ _ => True) past (@prog_of _ _ _ _ (Hb x))) l ->
  stays (fun _ _ => True) past (@prog_of _ _ _ _ (traced_for_in P l body Hb)).
Proof.
  intros Hl. revert past. induction Hl as [|x l Hx _ IH]; intros past; cbn; [done|].
  eapply stays_bind; [apply Hx|]. intros _ past' _. apply IH.
Qed.

(** The same where the last turn settles the column. *)
Lemma stays_for_in_last {A} (Q : history -> Prop) (l : list A) (x : A) past (body : A -> M St unit)
    (Hb : forall x, Traced P (body x)) :
  Forall (fun x => forall past, stays (fun _ _ => True) past (@prog_of _ _ _ _ (Hb x))) l ->
  (forall past, stays (fun _ => Q) past (@prog_of _ _ _ _ (Hb x))) ->
  stays (fun _ => Q) past (@prog_of _ _ _ _ (traced_for_in P (l ++ [x]) body Hb)).
Proof.
  intros Hl Hx. revert past. induction Hl as [|y l Hy _ IH]; intros past; cbn.
  - eapply stays_bind; [apply Hx|]. intros [] past' HQ. exact HQ.
  - eapply stays_bind; [apply Hy|]. intros [] past' _. apply IH.
Qed.
End forms.

(** Undisturbed, such code ends as said. *)
Lemma stays_run {A} (Q : A -> history -> Prop) past p s h :
  (forall s, frame s s) -> (forall s1 s2 s3, frame s1 s2 -> frame s2 s3 -> frame s1 s3) ->
  stays Q past p -> on past s h ->
  frame (s, h) (run p s h).2 /\
  ((exists a past' s' h', run p s h = (Ok a, (s', h')) /\ Q a past' /\ on past' s' h') \/
   (run p s h).1 = Panic OutOfBounds).
Proof.
  intros Hrefl Htrans. revert past s h. induction p as [[a|why| | |]|B m k IH]; intros past s h Hp Hon; cbn [run stays] in *; try done.
  - split; [apply Hrefl|]. left. by exists a, past, s, h.
  - destruct Hp as [-> _]. split; [apply Hrefl|by right].
  - destruct (Hp s h Hon) as [Hf Hm]. unfold mbind, M_bind.
    destruct (m s h) as [[b|why| | |] [s' h']]; cbn [fst snd] in *; try done.
    + destruct Hm as [Hon' Hk]. destruct (IH b _ s' h' Hk Hon') as [Hf' Hrun]. split; [by eapply Htrans|done].
    + destruct Hm as [-> _]. split; [done|by right].
Qed.
End stays.

(** ** The console's own code *)

Definition vga_good (self : VgaBuffer) (h : Hw) : Prop := rows_ok (screen h).
Definition vga_frame (s s' : VgaBuffer * Hw) : Prop := console_io s.2 s'.2.

Abbreviation vga_on := (on col_pos vga_good).
Abbreviation vga_stays := (stays col_pos vga_good vga_frame).
Abbreviation vga_still := (still col_pos vga_good vga_frame).

(** The bytes that [main] prints: no backspace and no delete. *)
Definition plain (c : Z) : Prop := c ≠ 8 /\ c ≠ 0x7f.

#[export] Instance plain_dec c : Decision (plain c).
Proof. unfold plain. apply _. Defined.

Lemma console_io_refl h : console_io h h.
Proof. exists [], (screen h). split; [done|]. by destruct h. Qed.

Lemma console_io_trans h1 h2 h3 : console_io h1 h2 -> console_io h2 h3 -> console_io h1 h3.
Proof.
  intros (es & rows & Hp & ->) (es' & rows' & Hp' & ->). exists (es ++ es'), rows'.
  split; [by apply Forall_app|]. by rewrite set_screen_log_ios, set_screen_twice, log_ios_app.
Qed.

Section accesses.
Context `{Platform}.
Implicit Types (h : Hw) (past : history).

Lemma still_get past : vga_still past (fun _ => True) get.
Proof. intros s h [_ Hg]. split; [apply console_io_refl|]. left. by exists s, s, h. Qed.

Lemma still_outb past p v : p = 0x3D4 \/ p = 0x3D5 -> vga_still past (fun _ => True) (outb p v).
Proof.
  intros Hp s h [_ Hg]. split.
  - exists [Out p v], (screen h). split; [by constructor|]. by destruct h.
  - left. by exists tt, s, (log_io (Out p v) h).
Qed.

(** Another picture of the same geometry. *)
Lemma still_repaint {B} past (m : M VgaBuffer B) :
  (forall s h, rows_ok (screen h) -> exists b rows, m s h = (Ok b, (s, set_screen rows h)) /\ rows_ok rows) ->
  vga_still past (fun _ => True) m.
Proof.
  intros Hm s h [_ Hg]. destruct (Hm s h Hg) as (b & rows & Hrun & Hr). split.
  - rewrite Hrun. by exists [], rows.
  - left. by exists b, s, (set_screen rows h).
Qed.

Lemma still_write_cell past col c :
  0 <= col < 80 -> vga_still past (fun _ => True) (write_cell (BUFFER_HEIGHT - 1) col c).
Proof.
  intros Hc. apply still_repaint. intros s h Hok.
  assert (wp (write_cell (BUFFER_HEIGHT - 1) col c) (fun _ s' h' => s' = s /\
    exists rows, h' = set_screen rows h /\ rows_ok rows) s h) as Hwp.
  { apply wp_bottom_write; [done|done|]. split; [done|]. eexists. split; [done|].
    apply rows_ok_on_bottom; [done|]. intros. by rewrite length_insert. }
  apply wp_run in Hwp as (b & s' & h' & Hrun & -> & rows & -> & Hr). by exists b, rows.
Qed.

(** The cell behind the row. *)
Lemma still_write_off past col c :
  80 <= col -> past ≠ Never -> vga_still past (fun _ => False) (write_cell (BUFFER_HEIGHT - 1) col c).
Proof. intros Hc Hn s h [_ Hg]. rewrite write_off_row by done. split; [apply console_io_refl|by right]. Qed.

Lemma still_rows_copy past row :
  1 <= row < 25 -> vga_still past (fun _ => True) (rows_copy_within row (row + 1) (row - 1)).
Proof.
  intros Hr. apply still_repaint. intros s h [Hl Hf].
  unfold rows_copy_within, hw, mbind, M_bind, lift, modify_hw, slice_copy_within. rewrite decide_True by lia.
  eexists tt, _. split; [done|]. split; [rewrite !length_app, !length_take, !length_drop; lia|].
  rewrite !Forall_app. auto 6 using Forall_take, Forall_drop.
Qed.

Section forms.
Context (P : forall B, M VgaBuffer B -> Prop) {A : Type} (Q : A -> history -> Prop).

(** A look at the column. *)
Lemma stays_then_get past (k : VgaBuffer -> M VgaBuffer A) Hg Hk :
  (forall v, 0 <= col_pos v < 80 -> vga_stays Q (calm past) (@prog_of _ _ _ _ (Hk v))) ->
  (past = Now -> forall v, col_pos v = 80 -> vga_stays Q Now (@prog_of _ _ _ _ (Hk v))) ->
  vga_stays Q past (@prog_of _ _ _ _ (traced_bind P get k (traced_access P get Hg) Hk)).
Proof using.
  intros Hin Hoff v h Hon. split; [apply console_io_refl|]. cbn. split; [by apply on_observe|].
  destruct Hon as [[Hc|[-> Hc]] _]; unfold observe.
  - rewrite decide_False by (unfold BUFFER_WIDTH in *; lia). by apply Hin.
  - rewrite decide_True by done. by apply Hoff.
Qed.

Lemma stays_then_put past v (k : unit -> M VgaBuffer A) Hp Hk :
  0 <= col_pos v <= 80 -> vga_stays Q (observe past (col_pos v)) (@prog_of _ _ _ _ (Hk tt)) ->
  vga_stays Q past (@prog_of _ _ _ _ (traced_bind P (put v) k (traced_access P (put v) Hp) Hk)).
Proof using.
  intros Hv Hk' s h [_ Hg]. split; [apply console_io_refl|]. cbn. split; [|done]. split; [|done].
  unfold column_ok, observe, BUFFER_WIDTH. case_decide; [by right|left; lia].
Qed.
(** [set_col]. *)
Lemma stays_then_set past p (k : unit -> M VgaBuffer A) Hg Hp Hk :
  0 <= p <= 80 -> lasting Q -> vga_stays Q (observe past p) (@prog_of _ _ _ _ (Hk tt)) ->
  vga_stays Q past (@prog_of _ _ _ _ (traced_bind P (self ← get; put (MkVgaBuffer p (cur_color self))) k
    (traced_bind P get (fun self => put (MkVgaBuffer p (cur_color self))) (traced_access P get Hg)
      (fun self => traced_access P (put (MkVgaBuffer p (cur_color self))) (Hp self))) Hk)).
Proof using.
  intros Hv HQ Hk'.
  eapply (stays_act _ _ _ _ past (fun _ => True)); [done|apply still_get|]. intros v _ s h [_ Hg']. split; [apply console_io_refl|].
  cbn. split; [|done]. split; [|done]. unfold column_ok, observe, BUFFER_WIDTH; cbn.
  case_decide; [by right|left; lia].
Qed.
End forms.
End accesses.

(** [walk] goes along what does not depend on the column. *)
Ltac in_word := unfold BUFFER_HEIGHT, BUFFER_WIDTH in *; split; [lia|change (2 ^ 32) with 4294967296; lia].
Ltac walk_still := solve [apply still_get|apply still_outb; lia|apply still_write_cell; unfold BUFFER_WIDTH in *; lia].
Ltac walk_step :=
  cbv beta; match goal with
  | |- forall _, True -> _ => intros ? _
  | |- forall _, _ => intros ?
  | |- stays _ _ _ _ _ (@prog_of _ _ _ _ (traced_bind _ (lift (mul _ _ _)) _ _ _)) =>
      eapply stays_then_lift; [apply mul_ok; in_word|]
  | |- stays _ _ _ _ _ (@prog_of _ _ _ _ (traced_bind _ (lift (add _ _ _)) _ _ _)) =>
      eapply stays_then_lift; [apply add_ok; in_word|]
  | |- stays _ _ _ _ _ (@prog_of _ _ _ _ (traced_bind _ (lift (sub _ _ _)) _ _ _)) =>
      eapply stays_then_lift; [apply sub_ok; in_word|]
  | |- stays _ _ _ _ _ (@prog_of _ _ _ _ (traced_bind _ (lift (shr _ _ _)) _ _ _)) =>
      eapply stays_then_lift; [apply shr_ok; lia|]
  | |- stays _ _ _ _ _ (@prog_of _ _ _ _ (traced_bind _ _ _ (traced_access _ _ _) _)) =>
      eapply stays_then_access; [by auto|walk_still|]
  | |- stays _ _ _ _ _ (@prog_of _ _ _ _ (traced_access _ _ _)) =>
      eapply stays_access; [by auto|walk_still|]
  end.

(** *** [putc] *)
Section putc.
Context `{Platform}.
Implicit Types (past : history).

(** After a byte: a new line leaves the column on the row. *)
Definition printed (c : Z) (_ : unit) (past : history) : Prop := c = 10 -> past ≠ Now.

Lemma printed_lasting c : lasting (printed c).
Proof. by intros a Hp Hc. Qed.
Hint Resolve printed_lasting : core.

Lemma calm_now past : calm past ≠ Now.
Proof. by destruct past. Qed.

Lemma calm_calm past : calm (calm past) = calm past.
Proof. by destruct past. Qed.

Lemma observe_0 past : observe past 0 = calm past.
Proof. done. Qed.

(** The end of a method that moved the column, and a new line. *)
Ltac walk_cursor :=
  let v := fresh "v" in let Hv := fresh in let Hnow := fresh in
  apply stays_then_get; [intros v Hv|intros Hnow v Hv]; repeat walk_step.
Ltac walk_new_line :=
  apply stays_then_code; [by auto| |intros _];
  [apply stays_for_each; let i := fresh in let Hi := fresh in intros i Hi; walk_step; eapply stays_access; [by auto|apply still_rows_copy; unfold BUFFER_HEIGHT in *; lia|by left]|];
  apply stays_then_code; [by auto| |intros _];
  [repeat walk_step; apply stays_for_each; intros ? ?; repeat walk_step; by left|];
  do 2 walk_step; apply stays_then_put; [cbn; lia|rewrite observe_0].

Lemma putc_stays past c :
  plain c -> vga_stays (printed c) past (prog_of (putc c) (Traced := putc_traced c)).
Proof.
  intros [H8 H7f]. unfold putc_traced, traced_equiv; cbn [prog_of]. unfold putc_src_traced.
  unfold putc_src, set_col, new_line, clear_row, update_cursor. cbv zeta.
  destruct (Z.eqb_spec c 10) as [E10|E10].
  { walk_new_line; walk_cursor; [intros _; apply calm_now|by destruct past]. }
  destruct (c =? 13).
  { apply stays_then_set; [lia|by auto|]. walk_cursor; by intros ?. }
  rewrite !(proj2 (Z.eqb_neq c _)) by done.
  apply stays_then_get.
  2: { intros -> v Hv. do 2 walk_step. eapply stays_then_access; [by auto|by apply still_write_off; [lia|]|by intros]. }
  intros v Hv. do 2 walk_step. do 2 walk_step.
  apply stays_then_get; [intros w Hw; cbv beta|intros Hnow; by destruct past].
  destruct (decide (col_pos w = BUFFER_WIDTH - 1)).
  { walk_new_line; walk_cursor; by intros ?. }
  apply stays_then_get; [intros x Hx|intros Hnow; by destruct past].
  walk_step. apply stays_then_set; [lia|by auto|]. walk_cursor; by intros ?.
Qed.

End putc.

(** ** Prints on the console in use *)

Definition con_column (k : Kernel) : Z := col_pos (console k).
Definition con_good (k : Kernel) (h : Hw) : Prop :=
  (exists v, vga_buffer k = MkSingleton SINGLE_INITED (Some v)) /\ rows_ok (screen h).

(** Nothing but the console changed. *)
Definition console_only (s s' : Kernel * Hw) : Prop :=
  (exists v, s'.1 = over VGA_BUFFER v s.1) /\ console_io s.2 s'.2.

Abbreviation con_on := (on con_column con_good).
Abbreviation con_stays := (stays con_column con_good console_only).
Abbreviation con_still := (still con_column con_good console_only).

#[export] Instance con_on_apart past : HeapApart (con_on past).
Proof. by split. Qed.

Lemma console_only_refl s : console_only s s.
Proof. split; [|apply console_io_refl]. exists (vga_buffer s.1). by destruct s as [[] ?]. Qed.

Lemma console_only_trans s1 s2 s3 : console_only s1 s2 -> console_only s2 s3 -> console_only s1 s3.
Proof.
  intros [[v Hv] Hio] [[v' Hv'] Hio']. split; [|by eapply console_io_trans].
  exists v'. by rewrite Hv', Hv.
Qed.

Lemma con_on_ok k h : con_on Never k h -> con_ok k h.
Proof.
  intros [[Hc|[[=] _]] [[v Hv] Hr]]. split; [right; by exists v|]. by split.
Qed.

Section console.
Context `{Platform}.
Implicit Types (k : Kernel) (h : Hw) (past : history).

(** A method's layout on the console in use. *)
Lemma stays_data {A} (Q : A -> history -> Prop) past p :
  lasting Q -> vga_stays Q past p -> con_stays Q past (prog_data VGA_BUFFER p).
Proof.
  intros HQ. revert past. induction p as [r|B m f IH]; intros past Hp; cbn [prog_data].
  - intros k h Hon. pose proof Hon as [_ [[v Hv] _]]. unfold with_data. cbn [view VGA_BUFFER]. rewrite Hv; cbn [data inited].
    assert (over VGA_BUFFER (MkSingleton SINGLE_INITED (Some v)) k = k) as Hk by (rewrite <- Hv; by destruct k).
    destruct r as [a|why| | |]; cbn [lift] in *; try done; cbn [fst snd]; rewrite Hk;
      (split; [apply console_only_refl|]); [|done].
    split; [by apply on_observe|]. cbn. destruct (observe_settles _ _ _ _ _ a Hon) as [-> |[-> ->]]; [exact Hp|by apply HQ].
  - intros k h [Hc [[v Hv] Hr]]. unfold con_column, console in Hc. rewrite Hv in Hc.
    destruct (Hp v h (conj Hc Hr)) as [Hio Hm]. unfold with_data. cbn [view VGA_BUFFER]. rewrite Hv; cbn [data inited].
    destruct (m v h) as [r [v' h']]. cbn [fst snd] in *. split; [split; [by eexists|exact Hio]|].
    destruct r as [b|why| | |]; try done. destruct Hm as [[Hc' Hr'] Hm]. split; [|by apply IH].
    split; [exact Hc'|]. split; [by exists v'|exact Hr'].
Qed.

(** The state of the singleton of a console in use. *)
Lemma still_state {B} past (m : M Kernel B) (b : B) :
  (forall k h v, vga_buffer k = MkSingleton SINGLE_INITED (Some v) -> m k h = (Ok b, (k, h))) ->
  con_still past (eq b) m.
Proof.
  intros Hm k h [_ [[v Hv] Hr]]. rewrite (Hm k h v Hv). split; [apply console_only_refl|].
  left. exists b, k, h. split_and!; try done. split; [by exists v|done].
Qed.

Lemma still_cas past :
  con_still past (eq (inr SINGLE_INITED)) (compare_exchange VGA_BUFFER SINGLE_UNINIT SINGLE_INITING).
Proof.
  apply still_state. intros k h v Hv. rewrite compare_exchange_run. cbn [view VGA_BUFFER]. by rewrite Hv.
Qed.

Lemma still_load past : con_still past (eq SINGLE_INITED) (load VGA_BUFFER).
Proof. apply still_state. intros k h v Hv. rewrite load_run. cbn [view VGA_BUFFER]. by rewrite Hv. Qed.

Lemma text_stays past s :
  Forall plain s ->
  vga_stays (fun _ _ => True) past (prog_of (write_bytes s) (Traced := traced_for_in _ s putc putc_traced)).
Proof.
  intros Hp. apply stays_for_in. apply (Forall_impl _ _ _ Hp). intros c Hc past'.
  eapply stays_mono; [|by apply putc_stays]. done.
Qed.

Lemma newline_stays past :
  vga_stays (fun _ past' => past' ≠ Now) past
    (prog_of (write_bytes newline) (Traced := traced_for_in _ newline putc putc_traced)).
Proof.
  apply (stays_for_in_last _ _ _ _ (fun past' => past' ≠ Now) [] 10); [done|]. intros past'.
  eapply stays_mono; [|by apply (putc_stays past' 10)]. intros a H' Hp. by apply Hp.
Qed.

(** A line that [main] prints. *)
Lemma println_stays past args :
  (0 < spin_fuel)%nat -> Forall (Forall plain) args ->
  con_stays (fun _ past' => past' ≠ Now) past (prog_of (println args) (Traced := println_traced args)).
Proof.
  intros Hf Hp. unfold println_traced, vga_print_traced, get_mut_traced.
  unfold println, vga_print, get_mut, init. destruct spin_fuel as [|fuel] eqn:E; [lia|].
  assert (lasting (fun (_ : unit) past' => past' ≠ Now)) as HQ by done.
  apply stays_then_code; [done| |intros _].
  { apply stays_then_code; [by auto| |intros _].
    - cbn [init_loop_traced nat_rect init_loop]. eapply stays_then_access; [by auto|apply still_cas|].
      intros stat <-. by left.
    - eapply stays_then_access; [by auto|apply still_load|]. intros v <-. by left. }
  cbn [traced_data prog_of]. apply stays_data; [done|]. cbv zeta.
  apply (stays_for_in_last _ _ _ _ (fun past' => past' ≠ Now)); [|apply newline_stays].
  apply (Forall_impl _ _ _ Hp). intros s Hs past'. by apply text_stays.
Qed.
End console.

(** ** The text that [main] prints *)

#[export] Instance plain_text_dec s : Decision (Forall plain s).
Proof. apply _. Defined.

Lemma plain_digits fuel radix n : 0 < radix <= 16 -> Forall plain (digits fuel radix n).
Proof.
  intros Hr. assert (forall d, plain (digit_char (d mod radix))) as Hd.
  { intros d. pose proof (Z.mod_pos_bound d radix). unfold plain, digit_char. case_match; lia. }
  revert n. induction fuel as [|fuel IH]; intros n; cbn [digits]; [done|].
  assert (forall d, Forall plain [digit_char (d mod radix)]) as H1 by (intros d; by apply Forall_singleton).
  case_match; [apply H1|]. apply Forall_app. split; [apply IH|apply H1].
Qed.

Lemma plain_display n : Forall plain (display n).
Proof. by apply plain_digits. Qed.

Lemma plain_lower_hex n : Forall plain (lower_hex n).
Proof. by apply plain_digits. Qed.

Lemma plain_bs s : bool_decide (Forall plain (bs s)) = true -> Forall plain (bs s).
Proof. apply bool_decide_eq_true. Qed.

Lemma plain_app s s' : Forall plain s -> Forall plain s' -> Forall plain (s ++ s').
Proof. intros. by apply Forall_app. Qed.

Create HintDb plain.
#[export] Hint Resolve plain_display plain_lower_hex plain_app : plain.
#[export] Hint Extern 1 (Forall plain (bs _)) => apply plain_bs; reflexivity : plain.

Lemma plain_debug_fields sep fields :
  Forall plain sep -> Forall (fun f => Forall plain f.1 /\ Forall plain f.2) fields ->
  Forall plain (debug_fields sep fields).
Proof.
  intros Hs Hf. revert sep Hs. induction Hf as [|[n v] fields [Hn Hv] _ IH]; intros sep Hs; cbn [debug_fields]; [constructor|].
  assert (Forall plain (debug_fields (bs ", ") fields)) by (apply IH; auto with plain). auto 6 with plain.
Qed.

Lemma plain_debug_struct name fields :
  Forall plain name -> Forall (fun f => Forall plain f.1 /\ Forall plain f.2) fields ->
  Forall plain (debug_struct name fields).
Proof.
  intros Hn Hf. unfold debug_struct. destruct fields; [done|].
  pose proof (plain_debug_fields [] _ ltac:(constructor) Hf). auto 6 with plain.
Qed.

Lemma memlayout_fmt_plain `{Platform} {S} m (s s' : S * Hw) t :
  memlayout_fmt m s.1 s.2 = (Ok t, s') -> Forall plain t.
Proof.
  unfold memlayout_fmt, mbind, M_bind.
  destruct (addr m s.1 s.2) as [[a| | | |] [s1 h1]]; try done.
  destruct (len m s1 h1) as [[l| | | |] [s2 h2]]; try done.
  destruct (kind m s2 h2) as [[kd| | | |] [s3 h3]]; try done. intros Ht.
  assert (forall x : list Z, (Ok x, (s3, h3)) = (Ok t, s') -> Forall plain x -> Forall plain t) as Hx
    by by intros x [= -> _].
  refine (Hx _ Ht _).
  assert (Forall plain (kind_fmt kd)) as Hk by (destruct kd; apply plain_bs; reflexivity).
  apply plain_debug_struct; repeat constructor; cbn [fst snd]; auto with plain.
Qed.

(** ** Any interrupt, on a console whose column may be off the row *)
Section differences.
Context (t0 : Z).
Implicit Types (k : Kernel) (h : Hw) (served : list irq).

Lemma eois_rev es : eois (rev es) = eois es.
Proof using. unfold eois. by rewrite <- (Permutation_rev es). Qed.

Lemma beside_con con con' served s1 s2 :
  beside con t0 served s1 s2 -> con' s2.1 s2.2 -> beside con' t0 served s1 s2.
Proof using. intros [] ?. by split. Qed.

(** The interrupted side goes on: an interrupt is served, or code of its own
    uses the console. *)
Lemma beside_goes_on con con' served served' s1 k2 h2 k2' h2' es rows :
  beside con t0 served s1 (k2, h2) -> h2' = log_ios es (set_screen rows h2) ->
  same_statics k2 k2' -> ticks k2' = t0 + timers served' ->
  (length served' = length served + eois es)%nat -> con' k2' h2' ->
  beside con' t0 served' s1 (k2', h2').
Proof using.
  intros [Hp Hs Ht _ Hh He _] -> (? & ? & ?) Htk Hn Hw. cbn [fst snd] in *.
  split; cbn [fst snd]; [congruence..|done| | |done].
  - rewrite log_ios_spec. cbn. by rewrite Hh.
  - rewrite log_ios_spec. cbn [trace set_screen]. rewrite eois_app, eois_rev, He. lia.
Qed.

Lemma console_only_statics s s' :
  console_only s s' -> same_statics s.1 s'.1 /\ ticks s'.1 = ticks s.1 /\ exists es rows,
    s'.2 = log_ios es (set_screen rows s.2) /\ eois es = 0%nat.
Proof using.
  intros [[v ->] (es & rows & Hp & ->)]. split_and!; [done|done|]. exists es, rows.
  split; [done|]. by apply eois_console.
Qed.

Lemma beside_console_r con con' served s1 s2 s2' :
  beside con t0 served s1 s2 -> console_only s2 s2' -> con' s2'.1 s2'.2 -> beside con' t0 served s1 s2'.
Proof using.
  destruct s2 as [k2 h2], s2' as [k2' h2']. intros Hb Hc Hw.
  destruct (console_only_statics _ _ Hc) as (Hs & Ht & es & rows & Hh & He). cbn [fst snd] in *.
  eapply beside_goes_on; [exact Hb|exact Hh|exact Hs| | |exact Hw].
  - rewrite Ht. apply (bs_ticks _ _ _ _ _ Hb).
  - by rewrite He, Nat.add_0_r.
Qed.

Lemma beside_console con served s1 s1' s2 :
  beside con t0 served s1 s2 -> console_only s1 s1' -> beside con t0 served s1' s2.
Proof using.
  destruct s1 as [k1 h1], s1' as [k1' h1'], s2 as [k2 h2].
  intros [Hp Hs Ht Htk Hh He Hw] [[v Hv] (es & rows & Hes & Hh1)]. cbn [fst snd] in *. subst k1' h1'.
  split; cbn [fst snd]; try done.
  - rewrite log_ios_spec. by rewrite Hh.
  - rewrite log_ios_spec. cbn [trace set_screen]. rewrite eois_app, eois_rev, He. by rewrite (eois_console es).
Qed.
End differences.

Section handlers.
Context `{Platform} (t0 : Z) (all : list irq).
Hypothesis fuel : (1 < spin_fuel)%nat.
Hypothesis no_error_code : forall tr, port_in tr 0x60 ≠ 0.
Hypothesis ticks_fit : 0 <= t0 /\ t0 + timers all < 2 ^ 64.
Implicit Types (k : Kernel) (h : Hw) (served : list irq).

Lemma serve_one i k h :
  serve [i] k h = (match i with Timer => timer_handler | Keyboard => keyboard_handler end) k h.
Proof using.
  unfold serve; cbn [for_in]. unfold mbind, M_bind. destruct i.
  - by destruct (timer_handler k h) as [[[]| | | |] [k' h']].
  - by destruct (keyboard_handler k h) as [[[]| | | |] [k' h']].
Qed.

(** One character, undisturbed: the console is usable afterwards, or the column
    was off the row and the print has panicked. *)
Lemma print_char past c k h :
  con_on past k h ->
  (exists s', vga_print [[c]] k h = (Ok tt, s') /\ console_only (k, h) s' /\ con_on Never s'.1 s'.2) \/
  exists s', vga_print [[c]] k h = (Panic OutOfBounds, s') /\ past = Now.
Proof using fuel.
  intros [[Hc|[-> Hc]] [[v Hv] Hr]].
  - left. enough (wp (vga_print [[c]]) (fun _ k' h' => console_only (k, h) (k', h') /\ con_on Never k' h') k h) as Hwp.
    { apply wp_run in Hwp as ([] & k' & h' & Hrun & ? & ?). by exists (k', h'). }
    apply wp_vga_print; [done|split; [right; by exists v|by split]|].
    intros v' h' _ _ [Hc' Hr'] Hio. split; [split; [by eexists|exact Hio]|]. split; [by left|]. split; [by eexists|done].
  - unfold con_column, console in Hc. rewrite Hv in Hc; cbn in Hc.
    unfold vga_print. rewrite (get_mut_inited VGA_BUFFER _ _ v) by (done || lia). rewrite write_fmt_concat.
    cbn [concat app write_str VgaBuffer_FmtWrite]. unfold vga_write_str, write_bytes. cbn [for_in].
    destruct (decide (recovers c)) as [Hrec|Hrec].
    + left. destruct (putc_recovers c v h Hr Hc Hrec) as (v' & es & rows & Hrun & Hc' & Hr' & _ & Hes).
      rewrite (run_bind _ _ _ _ _ _ _ Hrun). eexists. split; [reflexivity|]. cbn [fst snd].
      split; [split; [by eexists|by exists es, rows]|]. split; [by left|].
      split; [by eexists|by rewrite log_ios_spec].
    + right. rewrite (run_bind_panic _ _ _ _ _ _ (putc_off_row c v h Hr Hc Hrec)). by eexists.
Qed.

(** A key press: the port is read, the console perhaps used, the interrupt
    acknowledged. *)
Lemma keyboard_on past k h :
  con_on past k h ->
  (exists k' h' es rows, keyboard_handler k h = (Ok tt, (k', h')) /\ same_statics k k' /\
    ticks k' = ticks k /\ con_on past k' h' /\ h' = log_ios es (set_screen rows h) /\ eois es = 1%nat) \/
  exists s', keyboard_handler k h = (Panic OutOfBounds, s') /\ past = Now.
Proof using fuel no_error_code.
  intros Hon. set (h1 := log_io (In 0x60 (next_scancode h)) h). assert (con_on past k h1) as Hon1 by done.
  destruct (scancode_total (next_scancode h) (port_in_byte _ _) (no_error_code _)) as [ch Hch].
  assert (forall (m : M Kernel unit), (match ch with Some c => print [[c]] | None => mret tt end) k h1 = m k h1 ->
    keyboard_handler k h = (_ ← m; end_of_interrupt) k h1) as Hrun.
  { intros m Hm. unfold keyboard_handler. eapply run_bind_eq; [reflexivity|].
    fold (next_scancode h). rewrite (run_bind _ _ _ _ _ _ _ (f_equal (fun r => (r, (k, h1))) Hch)).
    unfold mbind, M_bind. by rewrite Hm. }
  destruct ch as [c|].
  - rewrite (Hrun (print [[c]]) eq_refl). unfold print.
    destruct (print_char past c k h1 Hon1) as [([k' h'] & Hp & Hc & Hon')|(s' & Hp & Hn)].
    + left. rewrite (run_bind _ _ _ _ _ _ _ Hp).
      destruct (console_only_statics _ _ Hc) as (Hs & Ht & es & rows & Hh & He). cbn [fst snd] in *.
      exists k', (log_io EOI h'), (In 0x60 (next_scancode h) :: es ++ [EOI]), rows.
      split_and!; [done|done|done|by apply (on_never _ _ past)| |].
      * change (log_ios (?e :: ?es) ?h) with (log_ios es (log_io e h)). rewrite log_ios_app. by rewrite Hh.
      * change (?e :: ?l) with ([e] ++ l). rewrite !eois_app, He. done.
    + right. rewrite (run_bind_panic _ _ _ _ _ _ Hp). by eexists.
  - rewrite (Hrun (mret tt) eq_refl). left.
    exists k, (log_io EOI h1), [In 0x60 (next_scancode h); EOI], (screen h). split_and!; try done.
Qed.

(** Any interrupt: served, or a panic with the column off the row. *)
Lemma irq_on past served (i : irq) s1 k2 h2 :
  beside (con_on past) t0 served s1 (k2, h2) -> served ++ [i] `prefix_of` all ->
  (exists s2', serve [i] k2 h2 = (Ok tt, s2') /\ beside (con_on past) t0 (served ++ [i]) s1 s2') \/
  exists s2', serve [i] k2 h2 = (Panic OutOfBounds, s2') /\ past = Now.
Proof using fuel no_error_code ticks_fit.
  intros Hb [rest Hall]. pose proof (bs_con _ _ _ _ _ Hb) as Hw. pose proof (bs_ticks _ _ _ _ _ Hb) as Ht.
  cbn [fst snd] in *. rewrite serve_one.
  assert (timers all = timers served + timers [i] + timers rest) as Hsum by (by rewrite Hall, !timers_app).
  assert (0 <= timers rest /\ 0 <= timers served) as [??] by (unfold timers; lia).
  destruct i.
  - change (timers [Timer]) with 1 in Hsum. left. rewrite timer_run by lia. eexists. split; [done|].
    eapply (beside_goes_on t0 _ _ served _ _ _ _ _ _ [EOI] (screen h2)); [exact Hb|by destruct h2|done| | |done].
    + rewrite timers_app. change (timers [Timer]) with 1. cbn. lia.
    + rewrite length_app. done.
  - destruct (keyboard_on past k2 h2 Hw) as [(k' & h' & es & rows & Hrun & Hs & Htk & Hw' & Hh & He)|Hp];
      [left|by right].
    rewrite Hrun. eexists. split; [done|]. eapply beside_goes_on; [exact Hb|exact Hh|exact Hs| | |exact Hw'].
    + rewrite timers_app. change (timers [Keyboard]) with 0. lia.
    + by rewrite length_app, He.
Qed.

(** A burst of them. *)
Lemma irqs_on past served irqs s1 s2 :
  beside (con_on past) t0 served s1 s2 -> served ++ irqs `prefix_of` all ->
  (exists s2', serve irqs s2.1 s2.2 = (Ok tt, s2') /\ beside (con_on past) t0 (served ++ irqs) s1 s2') \/
  exists s2', serve irqs s2.1 s2.2 = (Panic OutOfBounds, s2') /\ past = Now.
Proof using fuel no_error_code ticks_fit.
  revert served s2. induction irqs as [|i irqs IH]; intros served [k2 h2] Hb Hp.
  { left. exists (k2, h2). by rewrite app_nil_r. }
  assert (served ++ i :: irqs = (served ++ [i]) ++ irqs) as Happ by by rewrite <- app_assoc.
  rewrite Happ in *. cbn [fst snd].
  assert (serve (i :: irqs) k2 h2 = (_ ← serve [i]; serve irqs) k2 h2) as ->
    by (unfold serve; cbn [for_in]; by rewrite bind_assoc).
  unfold mbind, M_bind.
  destruct (irq_on past served i s1 k2 h2 Hb)
    as [([k3 h3] & -> & Hb3)|([k3 h3] & -> & Hn)]; [by destruct Hp as [rest ->]; exists (irqs ++ rest); rewrite app_assoc|..].
  - by apply (IH (served ++ [i]) (k3, h3)).
  - right. eauto.
Qed.

(** On a usable console every interrupt is served. *)
Lemma irqs_settled served irqs s1 s2 :
  beside (con_on Never) t0 served s1 s2 -> served ++ irqs `prefix_of` all ->
  exists s2', serve irqs s2.1 s2.2 = (Ok tt, s2') /\ beside (con_on Never) t0 (served ++ irqs) s1 s2'.
Proof using fuel no_error_code ticks_fit.
  intros Hb Hp. by destruct (irqs_on Never served irqs s1 s2 Hb Hp) as [?|(? & _ & [=])].
Qed.

(** ** Interrupted code and undisturbed code *)

Definition off_row (s : Kernel * Hw) : Prop := con_column s.1 = BUFFER_WIDTH.

(** Interrupted at [s2], [p] panics with an index out of bounds after it came
    through a state with the column off the row. *)
Definition lost_column {A} (irqs : list (list irq)) (p : prog Kernel A) (s2 : Kernel * Hw) : Prop :=
  exists s', passes serve irqs p s2 s' /\ off_row s' /\
    exists s2', preempt_rest serve irqs p s2.1 s2.2 = (Panic OutOfBounds, s2').

(** The undisturbed run at [s1] and the interrupted one at [s2]. *)
Definition racing served (s1 s2 : Kernel * Hw) : Prop :=
  con_on Never s1.1 s1.2 /\ beside (con_on Never) t0 served s1 s2.

(** If the undisturbed [p] returns, the interrupted one either panics after the
    column was off the row, or returns the same, with the console alone in
    another state and its column on the row. *)
Definition robust {A} (p : prog Kernel A) : Prop :=
  forall irqs served a s1 s1' s2, served ++ concat irqs = all -> racing served s1 s2 ->
    run p s1.1 s1.2 = (Ok a, s1') ->
    lost_column irqs p s2 \/
    exists served' irqs' s2',
      preempt_rest serve irqs p s2.1 s2.2 = (Ok (a, irqs'), s2') /\
      served' ++ concat irqs' = all /\ racing served' s1' s2'.

Lemma robust_ret {A} (r : result A) : robust (Ret r).
Proof using.
  intros irqs served a s1 s1' [k2 h2] Hall Hb [= -> <-]. right. exists served, irqs, (k2, h2).
  split_and!; [done|done|]. by destruct s1.
Qed.

(** Code after code; the second part may rely on what the first one returns. *)
Lemma robust_bind {A B} (p : prog Kernel A) (f : A -> prog Kernel B) :
  robust p -> (forall a, (exists s s', run p s.1 s.2 = (Ok a, s')) -> robust (f a)) -> robust (prog_bind p f).
Proof using.
  intros Hp Hf irqs served b s1 s1' s2 Hall Hb Hrun.
  rewrite (run_prog_bind p f s1.1 s1.2) in Hrun. unfold mbind, M_bind in Hrun.
  destruct (run p s1.1 s1.2) as [[a| | | |] [k1 h1]] eqn:Hrun1; try done.
  pose proof (preempt_rest_bind serve irqs p f s2.1 s2.2) as Hbind.
  destruct (Hp irqs served a s1 (k1, h1) s2 Hall Hb Hrun1)
    as [(s' & Hpass & Hoff & s2' & Hpanic)|(served' & irqs' & [k2 h2] & Hrun2 & Hall' & Hb')].
  { left. exists s'. split_and!; [by apply passes_bind_l|done|]. exists s2'. rewrite Hbind.
    by apply run_bind_panic. }
  rewrite (run_bind _ _ _ _ _ _ _ Hrun2) in Hbind. unfold lost_column. rewrite Hbind.
  destruct (Hf a (ex_intro _ s1 (ex_intro _ _ Hrun1)) irqs' served' b (k1, h1) s1' (k2, h2) Hall' Hb' Hrun)
    as [(s' & Hpass & Hoff & Hpanic)|Hok]; [left|by right].
  exists s'. split_and!; [by eapply passes_bind_r|done|done].
Qed.

(** Code that cannot see the console. *)
Lemma heap_on B (m : M Kernel B) k h : heap_access B m -> con_on Never k h -> con_on Never (m k h).2.1 (m k h).2.2.
Proof using H.
  intros Hm Hw. assert (beside (con_on Never) (ticks k) [] (k, h) (k, h)) as Hb.
  { split; cbn [fst snd]; try done; [by rewrite Z.add_0_r|by destruct h]. }
  destruct (heap_in_step (con_on Never) (ticks k) B m Hm [] k h k h Hb) as (k' & h' & -> & Hb').
  exact (bs_con _ _ _ _ _ Hb').
Qed.

(** One access that sees the same on both sides. *)
Lemma robust_act {A B} (m : M Kernel B) (f : B -> prog Kernel A) :
  (forall served b s1 s1' s2, racing served s1 s2 -> m s1.1 s1.2 = (Ok b, s1') ->
    exists s2', m s2.1 s2.2 = (Ok b, s2') /\ racing served s1' s2') ->
  (forall b, robust (f b)) -> robust (Act m f).
Proof using fuel no_error_code ticks_fit.
  intros Hm Hk irqs served a s1 s1' s2 Hall [Hw1 Hb] Hrun. cbn [run] in Hrun. unfold mbind, M_bind in Hrun.
  destruct (m s1.1 s1.2) as [[b| | | |] [k1 h1]] eqn:Hrun1; try done.
  destruct irqs as [|i irqs].
  - destruct (Hm served b s1 (k1, h1) s2 (conj Hw1 Hb) Hrun1) as (s3 & Hrun2 & Hb3).
    unfold lost_column. cbn [preempt_rest passes]. unfold mbind, M_bind. rewrite Hrun2. destruct s3 as [k3 h3].
    destruct (Hk b [] served a (k1, h1) s1' (k3, h3) Hall Hb3 Hrun) as [(s' & Hp & Ho & s2' & Hpanic)|Hok];
      [left|by right].
    exists s'. split_and!; [|done|by exists s2']. right. exists b, (k3, h3). by split.
  - cbn [concat] in Hall. destruct (irqs_settled served i s1 s2 Hb) as (s3 & Hi & Hb3);
      [by exists (concat irqs); rewrite <- app_assoc|].
    destruct (Hm _ b s1 (k1, h1) s3 (conj Hw1 Hb3) Hrun1) as (s4 & Hrun2 & Hb4).
    unfold lost_column. cbn [preempt_rest passes]. unfold mbind, M_bind. rewrite Hi. destruct s3 as [k3 h3].
    cbn [fst snd] in Hrun2. rewrite Hrun2. destruct s4 as [k4 h4].
    assert ((served ++ i) ++ concat irqs = all) as Hall' by by rewrite <- app_assoc.
    destruct (Hk b irqs (served ++ i) a (k1, h1) s1' (k4, h4) Hall' Hb4 Hrun) as [(s' & Hp & Ho & s2' & Hpanic)|Hok];
      [left|by right].
    exists s'. split_and!; [|done|by exists s2']. right. exists (k3, h3), b, (k4, h4). by split_and!.
Qed.

Lemma robust_heap {A} (p : prog Kernel A) : fine heap_access p -> robust p.
Proof using fuel no_error_code ticks_fit.
  induction 1 as [r|B m k Hm _ IH]; [apply robust_ret|]. apply robust_act; [|exact IH].
  intros served b [k1 h1] s1' [k2 h2] [Hw Hb] Hrun. cbn [fst snd] in *.
  destruct (heap_in_step (con_on Never) t0 B m Hm served k1 h1 k2 h2 Hb) as (k2' & h2' & Hrun2 & Hb').
  pose proof (heap_on B m k1 h1 Hm Hw) as Hw'. rewrite Hrun in *. by exists (k2', h2').
Qed.

Lemma robust_esp : robust (Act esp (fun e => Ret (Ok e))).
Proof using fuel no_error_code ticks_fit.
  apply robust_act; [|intros; apply robust_ret].
  intros served b [k1 h1] s1' [k2 h2] [Hw Hb] [= <- <-]. exists (k2, h2).
  split; [|done]. pose proof (bs_hw _ _ _ _ _ Hb) as Hh. cbn [fst snd] in *. by rewrite Hh.
Qed.

(** Code that uses nothing but the console, interrupted: a panic comes after the
    column was off the row, before [p] or inside it. *)
Lemma console_interrupted {A} (Q : A -> history -> Prop) past (p : prog Kernel A) irqs served s1 s2 :
  con_stays Q past p -> served ++ concat irqs = all -> beside (con_on past) t0 served s1 s2 ->
  ((past ≠ Never \/ exists s', passes serve irqs p s2 s' /\ off_row s') /\
    exists s2', preempt_rest serve irqs p s2.1 s2.2 = (Panic OutOfBounds, s2')) \/
  exists a past' served' irqs' s2', preempt_rest serve irqs p s2.1 s2.2 = (Ok (a, irqs'), s2') /\ Q a past' /\
    served' ++ concat irqs' = all /\ beside (con_on past') t0 served' s1 s2'.
Proof using fuel no_error_code ticks_fit.
  revert past irqs served s2. induction p as [[a|why| | |]|B m k IH]; intros past irqs served [k2 h2] Hp Hall Hb;
    cbn [stays] in Hp; try done; cbn [fst snd].
  { right. by exists a, past, served, irqs, (k2, h2). }
  { left. destruct Hp as [-> Hn]. split; [by left|by exists (k2, h2)]. }
  (* from the access on *)
  assert (forall served irqs k2 h2, served ++ concat irqs = all -> beside (con_on past) t0 served s1 (k2, h2) ->
    ((past ≠ Never \/ exists b s3 s', m k2 h2 = (Ok b, s3) /\ passes serve irqs (k b) s3 s' /\ off_row s') /\
      exists s2', (b ← m; preempt_rest serve irqs (k b)) k2 h2 = (Panic OutOfBounds, s2')) \/
    exists a past' served' irqs' s2', (b ← m; preempt_rest serve irqs (k b)) k2 h2 = (Ok (a, irqs'), s2') /\
      Q a past' /\ served' ++ concat irqs' = all /\ beside (con_on past') t0 served' s1 s2') as Hstep.
  { intros served0 irqs0 k0 h0 Hall0 Hb0. pose proof (bs_con _ _ _ _ _ Hb0) as Hw0; cbn [fst snd] in Hw0.
    destruct (Hp k0 h0 Hw0) as (Hc & Hm). unfold mbind, M_bind.
    destruct (m k0 h0) as [[b|why| | |] [k' h']] eqn:Hrun; cbn [fst snd] in Hc, Hm; try done.
    2: { destruct Hm as [-> Hn]. left. split; [by left|by exists (k', h')]. }
    destruct Hm as [Hon Hk].
    destruct (IH b _ irqs0 served0 (k', h') Hk Hall0) as [[Hwhy Hpanic]|Hok];
      [by eapply beside_console_r; [exact Hb0|exact Hc|exact Hon]| |by right].
    left. split; [|exact Hpanic]. destruct past; [right|by left..]. exists b, (k', h').
    destruct Hwhy as [Hn|(s' & Hs' & Hoff)]; [|by exists s'].
    exists (k', h'). split_and!; [done|apply passes_here|].
    unfold observe in Hn. case_decide as Hd; [exact Hd|by destruct Hn]. }
  destruct irqs as [|i irqs]; cbn [preempt_rest].
  - destruct (Hstep served [] k2 h2 Hall Hb) as [[Hwhy Hpanic]|Hok]; [left|by right]. split; [|exact Hpanic].
    destruct Hwhy as [?|(b & s3 & s' & Hm & Hs' & Hoff)]; [by left|right].
    exists s'. split; [|done]. right. by exists b, s3.
  - cbn [concat] in Hall.
    destruct (irqs_on past served i s1 (k2, h2) Hb) as [([k3 h3] & Hi & Hb3)|(s3 & Hi & ->)];
      [by exists (concat irqs); rewrite <- app_assoc|..]; cbn [fst snd] in *.
    2: { left. split; [by left|]. exists s3. by apply run_bind_panic. }
    rewrite (run_bind _ _ _ _ _ _ _ Hi).
    destruct (Hstep (served ++ i) irqs k3 h3) as [[Hwhy Hpanic]|Hok]; [by rewrite <- app_assoc|done|left|by right].
    split; [|exact Hpanic]. destruct Hwhy as [?|(b & s4 & s' & Hm & Hs' & Hoff)]; [by left|right].
    exists s'. split; [|done]. right. by exists (k3, h3), b, s4.
Qed.

(** Code that leaves the column on the row. *)
Lemma robust_console (p : prog Kernel unit) :
  con_stays (fun _ past' => past' ≠ Now) Never p -> robust p.
Proof using fuel no_error_code ticks_fit.
  intros Hp irqs served [] [k1 h1] s1' s2 Hall [Hw Hb] Hrun. cbn [fst snd] in *.
  destruct (stays_run _ _ _ _ _ p k1 h1 console_only_refl console_only_trans Hp Hw) as [Hc Hend].
  rewrite Hrun in Hc, Hend. cbn [fst snd] in *.
  destruct Hend as [([] & past' & k1' & h1' & [= ->] & Hn & Hw')|[=]].
  destruct (console_interrupted _ Never p irqs served (k1', h1') s2 Hp Hall)
    as [[[?|(s' & Hs' & Hoff)] Hpanic]|([] & past2 & served' & irqs' & s2' & Hr & Hn2 & Ha & Hb')].
  - eapply beside_console; [exact Hb|exact Hc].
  - done.
  - left. by exists s'.
  - right. exists served', irqs', s2'. split_and!; [done|done|]. split.
    + by apply on_settled with past'.
    + eapply beside_con; [exact Hb'|]. apply on_settled with past2; [|done]. exact (bs_con _ _ _ _ _ Hb').
Qed.

(** The forms of a layout. *)
Lemma robust_then P {A B} (m : M Kernel B) (k : B -> M Kernel A) Hm Hk :
  robust (@prog_of _ _ _ _ Hm) -> (forall b, (exists s s', m s.1 s.2 = (Ok b, s')) -> robust (@prog_of _ _ _ _ (Hk b))) ->
  robust (@prog_of _ _ _ _ (traced_bind P m k Hm Hk)).
Proof using.
  intros Hr Hf. apply robust_bind; [done|]. intros a (s & s' & Hrun). apply Hf. exists s, s'.
  by rewrite <- (@prog_run _ _ _ _ Hm s.1 s.2).
Qed.

Lemma robust_for_in P {A} (l : list A) (body : A -> M Kernel unit) (Hb : forall x, Traced P (body x)) :
  (forall x, robust (@prog_of _ _ _ _ (Hb x))) -> robust (@prog_of _ _ _ _ (traced_for_in P l body Hb)).
Proof using. intros Hr. induction l as [|x l IH]; cbn; [apply robust_ret|]. by apply robust_bind. Qed.

Lemma robust_heap_traced {A} (m : M Kernel A) Hm : robust (@prog_of _ _ _ _ (heap_traced m Hm)).
Proof using fuel no_error_code ticks_fit. apply robust_heap, (@prog_fine _ _ _ _ Hm). Qed.

Lemma robust_println args :
  Forall (Forall plain) args -> robust (prog_of (println args) (Traced := println_traced args)).
Proof using fuel no_error_code ticks_fit. intros Hp. apply robust_console, println_stays; [lia|done]. Qed.

Lemma robust_report : robust report_prog.
Proof using fuel no_error_code ticks_fit.
  unfold report_prog, main_report_traced, main_report.
  apply robust_then; [apply robust_heap_traced|intros mems _].
  apply robust_then; [apply robust_for_in; intros m|intros _ _].
  { apply robust_then; [apply robust_heap_traced|intros t (s & s' & Ht)]. apply robust_println.
    constructor; [by eapply memlayout_fmt_plain|constructor]. }
  apply robust_then; [apply robust_esp|intros e _]. apply robust_then; [apply robust_ret|intros tp _].
  apply robust_then; [apply robust_println; repeat constructor; auto with plain|intros _ _].
  apply robust_then; [apply robust_heap_traced|intros a _].
  apply robust_then; [apply robust_heap_traced|intros v _].
  apply robust_println. repeat constructor; auto with plain.
Qed.
End handlers.

(** ** The report with any interrupts in it *)
Section report.
Context `{Platform}.
Implicit Types (k : Kernel) (h : Hw) (irqs : list (list irq)).

(** What a run with the interrupts [served] in it has left as it would be. *)
Definition intact (t0 : Z) (served : list irq) (s1 s2 : Kernel * Hw) : Prop :=
  page_alloc s2.1 = page_alloc s1.1 /\ intr_table s2.1 = intr_table s1.1 /\
  serial_io s2.1 = serial_io s1.1 /\ mem s2.2 = mem s1.2 /\ reg_idtr s2.2 = reg_idtr s1.2 /\
  reg_if s2.2 = reg_if s1.2 /\ con_ok s2.1 s2.2 /\ ticks s2.1 = t0 + timers served /\
  eois (trace s2.2) = (eois (trace s1.2) + length served)%nat.

Lemma beside_intact t0 served s1 s2 : beside (con_on Never) t0 served s1 s2 -> intact t0 served s1 s2.
Proof. intros [Hp Hs Ht Htk Hh He Hw]. unfold intact. rewrite Hh. split_and!; try done. by apply con_on_ok. Qed.

Lemma report_raced irqs k h k1 h1 :
  (1 < spin_fuel)%nat -> (forall tr, port_in tr 0x60 ≠ 0) -> con_on Never k h ->
  0 <= ticks k -> ticks k + timers (concat irqs) < 2 ^ 64 -> main_report k h = (Ok tt, (k1, h1)) ->
  (exists s' s2, passes serve irqs report_prog (k, h) s' /\ off_row s' /\
    preempt serve irqs report_prog k h = (Panic OutOfBounds, s2)) \/
  exists served rest s2, concat irqs = served ++ rest /\
    preempt serve irqs report_prog k h = (Ok tt, s2) /\ beside (con_on Never) (ticks k) served (k1, h1) s2.
Proof.
  intros Hf Hkey Hw H0 Hb Hrun.
  assert (racing (ticks k) [] (k, h) (k, h)) as Hrace.
  { split; [done|]. split; cbn [fst snd]; try done; [by rewrite Z.add_0_r|by destruct h]. }
  rewrite <- (report_prog_run k h) in Hrun. rewrite (preempt_rest_fst serve irqs report_prog k h).
  destruct (robust_report (ticks k) (concat irqs) Hf Hkey (conj H0 Hb) irqs [] tt (k, h) (k1, h1) (k, h)
    eq_refl Hrace Hrun) as [(s' & Hp & Hoff & s2 & Hpanic)|(served & rest & [k2 h2] & Hp & Hall & Hr)];
    cbn [fst snd] in *.
  - left. exists s', s2. split_and!; [done|done|]. by apply run_bind_panic.
  - right. exists served, (concat rest), (k2, h2). rewrite (run_bind _ _ _ _ _ _ _ Hp). split_and!; [done|done|apply Hr].
Qed.
End report.

(** *** The race on a whole line *)

(** Printing AB with the column two cells before the end of the row, and one
    key press just before the [n]-th of its accesses. *)
Definition key_before (n : nat) : result unit :=
  let P := constant_platform true 0x1e in
  (@preempt Kernel unit (list irq) (@serve P) (replicate n [] ++ [[Keyboard]])
     (prog_of (@println P [bs "AB"]) (Traced := @println_traced P [bs "AB"]))
     (MkKernel (MkSingleton SINGLE_INITED (Some (MkVgaBuffer 78 0x0f))) UNINIT UNINIT UNINIT 0)
     example_hw).1.

(** Of all the accesses of the first byte and the ones around it there is one
    before which the key press is fatal: the read of the column for its
    increment, after the test. *)
Example race_window :
  map key_before (seq 0 40) = replicate 6 (Ok tt) ++ [Panic OutOfBounds] ++ replicate 33 (Ok tt).
Proof. by vm_compute. Qed.
