(* ===== verification/Contexts.v ===== *)
(** * Contexts that share a singleton: the protocol is what the code does

    [Singleton] describes concurrent use of a singleton by a protocol of seven
    program counters.  Here the protocol is derived from the code: each context
    runs [SINGLETON.get_mut().m(..)], laid out access by access ([Steps]); the
    contexts share the statics and the hardware, and a schedule says whose
    access is next.  Every such run is a run of the protocol ([pool_refines]),
    so its theorems are about the code of [utils/singleton.rs]. *)
From Stdlib Require Import ZArith Lia String.
From stdpp Require Import base tactics numbers list gmap relations.
From S2P Require Import Prelude.
From S2P Require Import Machine.
From S2P Require Import Vga.
From S2P Require Import Singleton.
From S2P Require Import Steps.
From S2P Require Import Kernel.
From S2P Require Import Interleave.

(** ** Contexts in a shared state *)

(** The next access of a context. *)
Definition advance {St A} (p : prog St A) (σ : St * Hw) : prog St A * (St * Hw) :=
  match p with
  | Ret r => (Ret r, σ)
  | Act m k => let '(r, σ') := m σ.1 σ.2 in (prog_bind (Ret r) k, σ')
  end.

Record pool (St A : Type) := MkPool { contexts : list (prog St A); common : St * Hw }.
Arguments MkPool {St A} _ _.
Arguments contexts {St A} _.
Arguments common {St A} _.

Definition pool_step {St A} (w : pool St A) (i : nat) : pool St A :=
  match contexts w !! i with
  | Some p => let '(p', σ) := advance p (common w) in MkPool (<[i := p']> (contexts w)) σ
  | None => w
  end.

(** [schedule] lists whose turn it is. *)
Definition pool_run {St A} (schedule : list nat) (w : pool St A) : pool St A :=
  fold_left pool_step schedule w.

(** ** [get_mut], access by access *)
Section layout.
Context `{Platform} {G T A : Type} (l : Lens G (Singleton T)) (default : prog G T).

Definition after_loop (use : prog G A) : prog G A :=
  Act (load l) (fun v => if v =? SINGLE_INITED then use else Ret (Panic AssertFailed)).

Fixpoint spin_prog (fuel : nat) (k : prog G A) : prog G A :=
  match fuel with
  | O => Ret Hang
  | S fuel' => Act (load l) (fun v => if negb (v =? SINGLE_INITING) then k else spin_prog fuel' k)
  end.

Definition publish (k : prog G A) (t : T) : prog G A :=
  Act (write_data l t) (fun _ => Act (store l SINGLE_INITED) (fun _ => k)).

Fixpoint loop_prog (fuel : nat) (use : prog G A) : prog G A :=
  match fuel with
  | O => Ret Hang
  | S fuel' =>
      Act (compare_exchange l SINGLE_UNINIT SINGLE_INITING) (fun stat =>
        match stat with
        | inl _ => prog_bind default (publish (loop_prog fuel' use))
        | inr v =>
            if v =? SINGLE_INITED then after_loop use
            else if v =? SINGLE_UNINIT then loop_prog fuel' use
            else if v =? SINGLE_INITING then spin_prog spin_fuel (loop_prog fuel' use)
            else prog_bind default (publish (loop_prog fuel' use))
        end)
  end.

Definition get_mut_prog (m : prog T A) : prog G A := loop_prog spin_fuel (prog_data l m).
End layout.

(** Contexts that all use the singleton behind [l], each with a method of its own. *)
Definition callers `{Platform} {G T A} (l : Lens G (Singleton T)) (default : prog G T)
    (methods : list (prog T A)) (g : G) (h : Hw) : pool G A :=
  MkPool (get_mut_prog l default <$> methods) (g, h).

(** ** The layout is the code *)
Section layout_code.
Context `{Platform} {G T A : Type} (l : Lens G (Singleton T)) `{!LensLaws l} (default : prog G T).

Lemma run_spin_prog fuel (k : prog G A) :
  run (spin_prog l fuel k) ≡
    (_ ← spin_until fuel (v ← load l; mret (negb (v =? SINGLE_INITING))); run k).
Proof using.
  induction fuel as [|fuel IH]; [done|]. cbn [spin_prog run spin_until].
  rewrite !M_bind_assoc. apply M_bind_proper; [|done]. intros v.
  change (run (if negb (v =? SINGLE_INITING) then k else spin_prog l fuel k) ≡
    (_ ← (if negb (v =? SINGLE_INITING) then mret tt
          else spin_until fuel (v ← load l; mret (negb (v =? SINGLE_INITING)))); run k)).
  by destruct (negb _).
Qed.

Lemma run_publish (d : M G T) (k : prog G A) (k' : M G unit) (k2 : M G A) :
  run default ≡ d -> run k ≡ (_ ← k'; k2) ->
  run (prog_bind default (publish l k)) ≡
    (_ ← (_ ← initialise l d; k'); k2).
Proof using.
  intros Hd Hk. rewrite run_prog_bind. unfold initialise. rewrite !M_bind_assoc.
  apply M_bind_proper; [|done]. intros t. cbn [run publish]. rewrite !M_bind_assoc.
  apply M_bind_proper; [|done]. intros _. by apply M_bind_proper; [intros _|].
Qed.

Lemma run_loop_prog d fuel (use : prog G A) :
  run default ≡ d ->
  run (loop_prog l default fuel use) ≡
    (_ ← init_loop l d fuel; v ← load l; _ ← lift (assert (v =? SINGLE_INITED)); run use).
Proof using.
  intros Hd. induction fuel as [|fuel IH]; [done|]. cbn [loop_prog run init_loop].
  rewrite M_bind_assoc. apply M_bind_proper; [|done]. intros [x|v]; [by apply run_publish|].
  destruct (v =? SINGLE_INITED).
  { unfold after_loop. cbn [run]. intros s h. rewrite (run_bind (mret tt) _ s h tt s h) by done.
    rewrite !(run_bind _ _ _ _ _ _ _ (load_run l s h)). by destruct (inited (view l s) =? SINGLE_INITED). }
  destruct (v =? SINGLE_UNINIT); [exact IH|].
  destruct (v =? SINGLE_INITING); [|by apply run_publish].
  rewrite run_spin_prog, M_bind_assoc. by apply M_bind_proper; [intros _|].
Qed.

Lemma run_get_mut_prog d (m : prog T A) :
  run default ≡ d -> run (get_mut_prog l default m) ≡ get_mut l d (run m).
Proof using LensLaws0.
  intros Hd. unfold get_mut_prog, get_mut, init. rewrite (run_loop_prog d) by done.
  rewrite !M_bind_assoc. apply M_bind_proper; [|done]. intros _.
  rewrite !M_bind_assoc. apply M_bind_proper; [|done]. intros v.
  apply M_bind_proper; [|done]. intros _. apply run_prog_data, _.
Qed.
End layout_code.

(** ** The simulation *)
Section simulation.
Context `{Platform} {G T A : Type} (l : Lens G (Singleton T)) `{!LensLaws l} `{!Inhabited T}.
Context (default : prog G T).

(** An access of [T::default()] leaves the cell alone; one of a method changes
    at most the value in it. *)
Definition untouched B (m : M G B) : Prop := forall g h, view l (m g h).2.1 = view l g.

Definition in_use B (m : M G B) : Prop := forall g h,
  inited (view l (m g h).2.1) = inited (view l g) /\
  (is_Some (data (view l (m g h).2.1)) <-> is_Some (data (view l g))).

(** What a context has still to do, at each program counter of the protocol. *)
Inductive at_pc : prog G A -> pc -> Prop :=
  | at_cas fuel use : fine in_use use -> at_pc (loop_prog l default fuel use) AtCas
  | at_spin fuel fuel' use : fine in_use use ->
      at_pc (spin_prog l fuel (loop_prog l default fuel' use)) AtSpin
  | at_default p fuel use : fine untouched p -> fine in_use use ->
      at_pc (prog_bind p (publish l (loop_prog l default fuel use))) AtDefault
  | at_store fuel use : fine in_use use ->
      at_pc (Act (store l SINGLE_INITED) (fun _ => loop_prog l default fuel use)) AtStore
  | at_check use : fine in_use use -> at_pc (after_loop l use) AtCheck
  | at_use use : fine in_use use -> at_pc use AtUse
  | at_crashed : at_pc (Ret (Panic AssertFailed)) Crashed.

(** The cell and the protocol's shared state: the same flag, and a value in
    one exactly when there is one in the other. *)
Definition same_cell (g : G) (sh : shared T) : Prop :=
  s_inited sh = inited (view l g) /\ (is_Some (s_data sh) <-> is_Some (data (view l g))).

(** A context's access is a step of the protocol, or does not show in it. *)
Definition simulated (p : pc) (sh : shared T) (next : prog G A * (G * Hw)) : Prop :=
  exists p' sh', (p' = p /\ sh' = sh \/ exists v, (p', sh') = thread_step v p sh) /\
    at_pc next.1 p' /\ same_cell next.2.1 sh'.

Lemma simulated_stutter p sh next : at_pc next.1 p -> same_cell next.2.1 sh -> simulated p sh next.
Proof using. intros. exists p, sh. auto. Qed.

Lemma simulated_step v p sh next :
  at_pc next.1 (thread_step v p sh).1 -> same_cell next.2.1 (thread_step v p sh).2 ->
  simulated p sh next.
Proof using.
  intros. exists (thread_step v p sh).1, (thread_step v p sh).2. split_and!; [|done|done].
  right. exists v. by destruct (thread_step v p sh).
Qed.

Lemma fine_resume {B C} (P : forall D, M G D -> Prop) (r : result B) (k : B -> prog G C) :
  (forall b, fine P (k b)) -> fine P (prog_bind (Ret r) k).
Proof using. intros Hk. destruct r; [apply Hk|constructor..]. Qed.

Lemma fine_any {St B} (p : prog St B) : fine (fun _ _ => True) p.
Proof using. by induction p; constructor. Qed.

Lemma with_data_in_use {B} (m : M T B) : in_use B (with_data l m).
Proof using LensLaws0.
  intros g h. unfold with_data. destruct (view l g) as [i [t|]] eqn:Hv; cbn.
  - destruct (m t h) as [r [t' h']]; cbn. rewrite view_over. cbn. by split; [|split; eauto].
  - by rewrite Hv.
Qed.

Lemma method_in_use (m : prog T A) : fine in_use (prog_data l m).
Proof using LensLaws0.
  apply (fine_data l (fun _ _ => True)); [|intros; apply with_data_in_use|apply fine_any].
  intros. apply with_data_in_use.
Qed.

Lemma cas_simulated fuel use sh g h :
  fine untouched default -> fine in_use use -> same_cell g sh ->
  simulated AtCas sh (advance (loop_prog l default fuel use) (g, h)).
Proof using LensLaws0 Inhabited0.
  intros Hd Hu [Hi Hs]. destruct fuel as [|fuel].
  { apply simulated_stutter; [by apply (at_cas 0 use)|done]. }
  apply (simulated_step inhabitant); cbn [loop_prog advance fst snd]; rewrite compare_exchange_run;
    cbn [thread_step]; rewrite Hi; destruct (inited (view l g) =? SINGLE_UNINIT) eqn:E0.
  - by apply at_default.
  - cbn. destruct (inited (view l g) =? SINGLE_INITED); [by apply at_check|]. rewrite E0.
    destruct (inited (view l g) =? SINGLE_INITING); [by apply at_spin|by apply at_default].
  - cbn. unfold same_cell. rewrite view_over. by cbn.
  - cbn. by destruct (inited (view l g) =? SINGLE_INITED), (inited (view l g) =? SINGLE_INITING).
Qed.

Lemma spin_simulated fuel fuel' use sh g h :
  fine in_use use -> same_cell g sh ->
  simulated AtSpin sh (advance (spin_prog l fuel (loop_prog l default fuel' use)) (g, h)).
Proof using Inhabited0.
  intros Hu [Hi Hs]. destruct fuel as [|fuel].
  { apply simulated_stutter; [by apply (at_spin 0 fuel' use)|done]. }
  apply (simulated_step inhabitant); cbn [spin_prog advance fst snd]; rewrite load_run;
    cbn [thread_step prog_bind fst snd]; rewrite Hi; destruct (inited (view l g) =? SINGLE_INITING); cbn.
  - by apply at_spin.
  - by apply at_cas.
  - done.
  - done.
Qed.

Lemma write_data_run t g h :
  write_data l t g h = (Ok tt, (over l (MkSingleton (inited (view l g)) (Some t)) g, h)).
Proof using. done. Qed.

Lemma store_run v g h :
  store l v g h = (Ok tt, (over l (MkSingleton v (data (view l g))) g, h)).
Proof using. done. Qed.

Lemma default_simulated p fuel use sh g h :
  fine untouched p -> fine in_use use -> same_cell g sh ->
  simulated AtDefault sh (advance (prog_bind p (publish l (loop_prog l default fuel use))) (g, h)).
Proof using LensLaws0.
  intros Hp Hu [Hi Hs]. destruct Hp as [[t|why|x| |]|B m k Hm Hk].
  - apply (simulated_step t); cbn [prog_bind publish advance fst snd]; rewrite write_data_run;
      [by apply at_store|].
    split; cbn; rewrite view_over; cbn; [done|]. by split; eauto.
  - apply simulated_stutter; [by apply (at_default (Ret (Panic why)) fuel use); [constructor|]|done].
  - apply simulated_stutter; [by apply (at_default (Ret (PageFault x)) fuel use); [constructor|]|done].
  - apply simulated_stutter; [by apply (at_default (Ret Undefined) fuel use); [constructor|]|done].
  - apply simulated_stutter; [by apply (at_default (Ret Hang) fuel use); [constructor|]|done].
  - specialize (Hm g h). cbn [prog_bind advance fst snd]. destruct (m g h) as [r [g' h']].
    cbn in Hm. apply simulated_stutter; cbn [fst snd].
    + destruct r as [b|why|x| |];
        [apply (at_default (k b))|apply (at_default (Ret (Panic why)) fuel use)
        |apply (at_default (Ret (PageFault x)) fuel use)|apply (at_default (Ret Undefined) fuel use)
        |apply (at_default (Ret Hang) fuel use)]; try constructor; auto.
    + split; by rewrite Hm.
Qed.

Lemma use_simulated use sh g h :
  fine in_use use -> same_cell g sh -> simulated AtUse sh (advance use (g, h)).
Proof using.
  intros Hu Hc. destruct Hu as [r|B m k Hm Hk].
  - apply simulated_stutter; [apply at_use; constructor|done].
  - specialize (Hm g h). destruct Hc as [Hi Hs]. cbn [advance fst snd].
    destruct (m g h) as [r [g' h']]. cbn in Hm. destruct Hm as [Hi' Hs'].
    apply simulated_stutter; [by apply at_use, fine_resume|].
    split; cbn [fst snd]; [congruence|]. by rewrite Hs'.
Qed.

(** One access of one context. *)
Lemma advance_simulated prg p sh g h :
  fine untouched default -> at_pc prg p -> same_cell g sh ->
  simulated p sh (advance prg (g, h)).
Proof using LensLaws0 Inhabited0.
  intros Hd Hat Hc. destruct Hat as [fuel use Hu|fuel fuel' use Hu|q fuel use Hq Hu|fuel use Hu|use Hu|use Hu|].
  - by apply cas_simulated.
  - by apply spin_simulated.
  - by apply default_simulated.
  - apply (simulated_step inhabitant); cbn [advance fst snd]; rewrite store_run; [by apply at_cas|].
    destruct Hc. split; cbn; by rewrite view_over.
  - destruct Hc as [Hi Hs]. apply (simulated_step inhabitant); cbn [after_loop advance fst snd];
      rewrite load_run; cbn [thread_step prog_bind fst snd]; rewrite Hi;
      destruct (inited (view l g) =? SINGLE_INITED); by constructor.
  - by apply use_simulated.
  - apply simulated_stutter; [constructor|done].
Qed.

(** ** Pools *)

Definition related (w : pool G A) (st : system T) : Prop :=
  Forall2 at_pc (contexts w) (pcs st) /\ same_cell (common w).1 (sh st).

Lemma pool_step_simulated w i st :
  fine untouched default -> related w st ->
  exists st', rtc step st st' /\ related (pool_step w i) st'.
Proof using LensLaws0 Inhabited0.
  intros Hd [Hpcs Hc]. unfold pool_step. destruct (contexts w !! i) as [prg|] eqn:Hi.
  2: { by exists st. }
  destruct (Forall2_lookup_l _ _ _ _ _ Hpcs Hi) as (p & Hp & Hat).
  destruct (common w) as [g h] eqn:Hw. cbn in Hc.
  destruct (advance_simulated prg p (sh st) g h Hd Hat Hc) as (p' & sh' & Hor & Hat' & Hc').
  destruct (advance prg (g, h)) as [prg' σ']. cbn in Hat', Hc'.
  destruct Hor as [[-> ->]|[v Hv]].
  - exists st. split; [done|]. split; [|done]. cbn [contexts].
    rewrite <- (list_insert_id _ _ _ Hp). by apply Forall2_insert.
  - exists (MkSystem (<[i := p']> (pcs st)) sh'). split.
    + apply rtc_once. exists v, i. unfold sys_step. by rewrite Hp, <- Hv.
    + split; [|done]. by apply Forall2_insert.
Qed.

Lemma pool_run_simulated schedule w st :
  fine untouched default -> related w st ->
  exists st', rtc step st st' /\ related (pool_run schedule w) st'.
Proof using LensLaws0 Inhabited0.
  intros Hd. revert w st. induction schedule as [|i schedule IH]; intros w st Hr; [by exists st|].
  destruct (pool_step_simulated w i st Hd Hr) as (st1 & Hstep & Hr1).
  destruct (IH _ _ Hr1) as (st2 & Hrun & Hr2). exists st2. split; [by etrans|done].
Qed.

Lemma related_start methods g h :
  view l g = UNINIT -> related (callers l default methods g h) (start (length methods)).
Proof using LensLaws0.
  intros Hv. split; cbn.
  - apply Forall2_fmap_l, Forall2_same_length_lookup_2; [by rewrite length_replicate|].
    intros i m p Hm [-> _]%lookup_replicate. apply at_cas, method_in_use.
  - split; cbn; by rewrite Hv.
Qed.
End simulation.

(** ** Properties *)

(** C9: Concurrent first use, from the code: contexts that all run
    [SINGLETON.get_mut().m(..)], each with a method of its own, on a fresh
    singleton whose [T::default()] does not use the singleton itself, take
    their accesses in any order.  Whatever was run so far is a run of the
    protocol; so at most one context is ever creating the value, none stops at
    the assertion, and a context that is past [init] has an initialised value
    under its reference. *)
Theorem get_mut_refines_protocol `{Platform} {G T A} `{!Inhabited T} (l : Lens G (Singleton T))
    (default : prog G T) (methods : list (prog T A)) (schedule : list nat) g h :
  LensLaws l -> fine (untouched l) default -> view l g = UNINIT ->
  (forall m : prog T A, run (get_mut_prog l default m) ≡ get_mut l (run default) (run m)) /\
  let w := pool_run schedule (callers l default methods g h) in
  exists st, reachable (length methods) st /\ related l default w st /\
    (forall i j p q, pcs st !! i = Some p -> pcs st !! j = Some q -> critical p -> critical q -> i = j) /\
    (forall i, pcs st !! i ≠ Some Crashed) /\
    forall i, pcs st !! i = Some AtUse ->
      inited (view l (common w).1) = SINGLE_INITED /\ is_Some (data (view l (common w).1)).
Proof.
  intros Hl Hd Hv. split; [intros m; by apply run_get_mut_prog|].
  destruct (pool_run_simulated l default schedule (callers l default methods g h) (start (length methods)))
    as (st & Hrun & Hpcs & Hi & Hs); [done|by apply related_start|].
  exists st. pose proof (inv_reachable _ _ Hrun) as Hinv.
  split_and!; [done|done|by apply inv_exclusive|intros i; by apply inv_no_crash|].
  intros i Huse. destruct (inv_use _ i Hinv Huse) as (Hi' & Hs' & _).
  split; [congruence|by apply Hs].
Qed.

(** *** Witnesses *)

(** Two contexts of the kernel that both print first: context 0 wins, context
    1 waits for the console and then prints in turn with context 0. *)
Definition print_char (P := constant_platform true 0) (c : Z) : prog VgaBuffer unit :=
  prog_of (@putc P c) (Traced := @putc_traced P c).

Definition console_default (P := constant_platform true 0) : prog Kernel VgaBuffer :=
  prog_of (@vga_default P Kernel) (Traced := traced_lift (untouched VGA_BUFFER) (@vga_new P)).

Definition two_printers : pool Kernel unit :=
  @callers (constant_platform true 0) _ _ _ VGA_BUFFER console_default [print_char 65; print_char 66]
    kernel_start example_hw.

Definition turns : list nat := [0; 1; 0; 1; 0; 1; 1; 1]%nat ++ concat (replicate 40 [0; 1]%nat).

Lemma get_mut_refines_protocol_witness :
  contexts (pool_run turns two_printers) = [Ret (Ok tt); Ret (Ok tt)] /\
  exists st, reachable 2 st /\ related (H := constant_platform true 0) VGA_BUFFER console_default
    (pool_run turns two_printers) st.
Proof.
  split; [vm_compute; reflexivity|].
  destruct (get_mut_refines_protocol (H := constant_platform true 0) (Inhabited0 := populate example_vga)
    VGA_BUFFER console_default [print_char 65; print_char 66] turns kernel_start example_hw
    VGA_BUFFER_laws (fine_ret _ _) eq_refl) as (_ & st & Hst & Hrel & _).
  exists st. split; [exact Hst|exact Hrel].
Defined.
