(* ===== verification/Boot.v ===== *)
(** * Start-up end to end: [main] of [main.rs]

    On a machine as the boot loader leaves it ([booted]), [main] reaches its
    idle loop.  The four parts of [main] are run one after the other against
    what the components promise; [main_boots] puts them together, and the last
    theorem follows a hardware interrupt from the PIC through the table. *)
From Stdlib Require Import ZArith Lia String.
From stdpp Require Import base tactics numbers list gmap.
From S2P Require Import Prelude.
From S2P Require Import Machine.
From S2P Require Import Fmt.
From S2P Require Import BitAccess.
From S2P Require Import X86.
From S2P Require Import Pic.
From S2P Require Import Serial.
From S2P Require Import Vga.
From S2P Require Import Singleton.
From S2P Require Import Loader.
From S2P Require Import MemMap.
From S2P Require Import Bitmap.
From S2P Require Import Page.
From S2P Require Import Alloc.
From S2P Require Import Intr.
From S2P Require Import Kernel.
From S2P Require Import Main.

(** ** What start-up relies on *)

(** The linker's addresses. *)
Record symbols_ok (sy : Symbols) : Prop := {
  ok_breakpoint : breakpoint_sym sy ∈u 32;
  ok_page_fault : page_fault_sym sy ∈u 32;
  ok_double_fault : double_fault_sym sy ∈u 32;
  ok_segment_not_present : segment_not_present_sym sy ∈u 32;
  ok_timer : timer_sym sy ∈u 32;
  ok_keyboard : keyboard_sym sy ∈u 32;
  ok_intr_table : intr_table_sym sy ∈u 32
}.

(** The memory the counted regions amount to, as [PageAllocator::default] sees it. *)
Definition memsize (rs : list region) (B : Z) : Z := wrap 32 (cnt (covered rs) 0 B).

(** The machine as the boot loader leaves it: a text screen of 25 by 80, the
    kernel's size and the memory map [rs] at their addresses, a well-formed map
    of at least two pages that fits below the top of the address space; of the
    managed memory only the bitmap and the first page need be mapped (the
    loader maps 64 MiB, whatever the memory map says). *)
Record booted (rs : list region) (B size : Z) (h : Hw) : Prop := {
  boot_screen : rows_ok (screen h);
  boot_size : bytes_at h 0xc0020200 (le_bytes 4 size) /\ size ∈u 32;
  boot_map : holds_map h rs;
  boot_sorted : map_sorted rs;
  boot_bound : 0 <= B < 2 ^ 64 /\ Forall (fun r => counted r = true -> r_end r <= B) rs;
  boot_memory : 8192 <= memsize rs B <= 0x3ff00000;
  boot_mapped : mapped h 0xc0100000 ((bitmap_pages_of (memsize rs B) + 1) * 4096);
  boot_regs : reg_cs h ∈u 16 /\ reg_esp h ∈u 32
}.

(** ** What start-up shows *)

(** A line printed with [println!] or [serial_println!]. *)
Definition line (args : list (list Z)) : list Z := concat (args ++ [newline]).

Definition banner_text (size avl : Z) : list Z :=
  line [bs "HELLO RondOS"] ++
  line [bs "Kernel Size "; display (size / 1024); bs " KiB"] ++
  line [bs "Available Memory Size "; display (avl / 1024); bs " KiB"].

Definition region_text (r : region) : list Z :=
  debug_struct (bs "MemLayout")
    [(bs "addr", bs "0x" ++ lower_hex (r_addr r)); (bs "len", bs "0x" ++ lower_hex (r_len r));
     (bs "kind", kind_fmt (r_kind r))].

Definition report_text (rs : list region) (esp box : Z) : list Z :=
  concat (map (fun r => line [region_text r]) rs) ++
  line [bs "esp page: "; lower_hex (esp / 4096 * 4096)] ++
  line [display 42; bs " at "; bs "0x" ++ lower_hex box].

(** What the serial line carries. *)
Definition wire_text : list Z := concat (map encode (line [bs "RondOS> HELLO RondOS"])).

(** What start-up has sent so far: text to the console, bytes over the serial
    line, writes to the interrupt controllers. *)
Definition output : Type := list Z * (list Z * list io_event).

(** Since [h0] the console has printed the text of [out] on a screen that was
    that of [h0], the UART has transmitted its bytes, and the interrupt
    controllers have got its writes. *)
Record shown (h0 : Hw) (out : output) (k : Kernel) (h : Hw) : Prop := {
  shown_screen : (col_pos (console k), screen h) = text_ref 0x0f out.1 (0, screen h0);
  shown_color : cur_color (console k) = 0x0f;
  shown_used : out.1 ≠ [] -> exists v, vga_buffer k = MkSingleton SINGLE_INITED (Some v);
  shown_wire : exists es, trace h = rev es ++ trace h0 /\
    (forall u, transmitted (uart_after 0x3f8 es u) = transmitted u ++ out.2.1) /\ pic_writes es = out.2.2
}.

Lemma uart_after_crtc es u : Forall crtc_port es -> uart_after 0x3f8 es u = u.
Proof.
  intros He. revert u. induction He as [|e es Hp _ IH]; intros u; [done|].
  unfold uart_after in *. cbn [fold_left]. rewrite IH.
  destruct e as [p v|p v]; [done|]. cbn in Hp. destruct Hp as [-> | ->]; done.
Qed.

Lemma shown_print h0 out k h v h' txt :
  shown h0 out k h ->
  (col_pos v, screen h') = text_ref (cur_color (console k)) txt (col_pos (console k), screen h) ->
  cur_color v = cur_color (console k) -> console_io h h' ->
  shown h0 (out.1 ++ txt, out.2) (over VGA_BUFFER (MkSingleton SINGLE_INITED (Some v)) k) h'.
Proof.
  intros [Hscr Hcol _ (es & Htr & Hw & Hpic)] Hst Hc (es' & rows & Hp & ->). split; cbn [fst snd].
  - change (console (over VGA_BUFFER (MkSingleton SINGLE_INITED (Some v)) k)) with v.
    rewrite Hst, Hscr, Hcol. unfold text_ref. by rewrite fold_left_app.
  - change (console (over VGA_BUFFER (MkSingleton SINGLE_INITED (Some v)) k)) with v. congruence.
  - intros _. by exists v.
  - exists (es ++ es'). split_and!.
    + rewrite trace_log_ios. cbn [trace set_screen]. by rewrite Htr, rev_app_distr, app_assoc.
    + intros u. unfold uart_after. rewrite fold_left_app.
      change (fold_left (uart_event 0x3f8) es u) with (uart_after 0x3f8 es u).
      change (fold_left (uart_event 0x3f8) es' ?x) with (uart_after 0x3f8 es' x).
      by rewrite uart_after_crtc.
    + rewrite pic_writes_app, Hpic, (console_pic es') by done. apply app_nil_r.
Qed.

Lemma shown_same h0 out k h k' h' :
  shown h0 out k h -> vga_buffer k' = vga_buffer k -> screen h' = screen h -> trace h' = trace h ->
  shown h0 out k' h'.
Proof. intros [] Hv Hs Ht. by split; rewrite ?Hs, ?Ht; unfold console; rewrite ?Hv. Qed.

(** ** Part 1: the banner *)
Section banner.
Context `{Platform}.
Implicit Types (k : Kernel) (h : Hw).

Lemma only_io_mem h h' : only_io h h' -> mem h' = mem h.
Proof. intros Hio. by destruct (only_io_regs _ _ Hio). Qed.

Lemma bytes_at_mem h h' a bytes : mem h' = mem h -> bytes_at h a bytes -> bytes_at h' a bytes.
Proof. intros Hm Hb i b Hi. rewrite Hm. by apply Hb. Qed.

Lemma holds_map_mem h h' rs : mem h' = mem h -> holds_map h rs -> holds_map h' rs.
Proof. intros Hm [Hb Hrest]. split; [by eapply bytes_at_mem|exact Hrest]. Qed.

(** A print in the middle of start-up. *)
Lemma wp_println args {A} (m : M Kernel A) (Q : A -> Kernel -> Hw -> Prop) k h :
  (1 < spin_fuel)%nat -> con_ok k h ->
  (forall v h', con_ok (over VGA_BUFFER (MkSingleton SINGLE_INITED (Some v)) k) h' -> only_io h h' ->
    wp m Q (over VGA_BUFFER (MkSingleton SINGLE_INITED (Some v)) k) h') ->
  wp (_ ← println args; m) Q k h.
Proof.
  intros Hf Hc HQ. apply wp_bind, wp_print_any; [done..|]. intros v h' Hv Hio.
  apply HQ; [done|by apply console_only_io].
Qed.

Lemma wp_step {A B} (m : M Kernel A) (f : A -> M Kernel B) (Q : B -> Kernel -> Hw -> Prop) a k h :
  m k h = (Ok a, (k, h)) -> wp (f a) Q k h -> wp (m ≫= f) Q k h.
Proof. intros Hm Hf. apply wp_bind. unfold wp at 1. by rewrite Hm. Qed.

Lemma memsize_avail rs B size h {S} (s : S) :
  booted rs B size h -> forall h', mem h' = mem h ->
  available_mem_size s h' = (Ok (cnt (covered rs) 0 B), (s, h')).
Proof.
  intros [_ _ Hmap Hs [HB He] _ _ _] h' Hm.
  apply available_mem_size_ok; [by eapply holds_map_mem|done..].
Qed.

Lemma kernel_size_run rs B size h {S} (s : S) :
  booted rs B size h -> forall h', mem h' = mem h -> get_kernel_size s h' = (Ok size, (s, h')).
Proof.
  intros [_ [Hs Hu] _ _ _ _ _ _] h' Hm. apply load_le_run; [by eapply bytes_at_mem|exact Hu].
Qed.

(** Serial output does not reach the interrupt controllers. *)
Lemma guarded_pic es ready : guarded 0x3f8 ready es = true -> pic_writes es = [].
Proof.
  revert ready. induction es as [|[p v|p v] es IH]; intros ready Hg; [done|by eapply IH|].
  cbn [guarded] in Hg. apply andb_true_iff in Hg as [[->%Z.eqb_eq _]%andb_true_iff Hg]. by eapply IH.
Qed.

(** The state of start-up: console and serial port in use or untouched, the
    rest as given, memory untouched so far. *)
Record starting (h0 : Hw) (t : Singleton InterruptDescriptorTable) (out : output) k h : Prop := {
  st_con : con_ok k h;
  st_table : intr_table k = t;
  st_pages : page_alloc k = UNINIT;
  st_ticks : ticks k = 0;
  st_mem : mem h = mem h0;
  st_cs : reg_cs h = reg_cs h0;
  st_esp : reg_esp h = reg_esp h0;
  st_shown : shown h0 out k h
}.

Lemma starting_io h0 t out out' k h k' h' :
  starting h0 t out k h -> con_ok k' h' -> only_io h h' -> shown h0 out' k' h' ->
  intr_table k' = intr_table k -> page_alloc k' = page_alloc k -> ticks k' = ticks k ->
  starting h0 t out' k' h'.
Proof.
  intros [] Hc Hio ? ? ? ?. destruct (only_io_regs _ _ Hio) as (?&?&?&_).
  split; [done|congruence..].
Qed.

Lemma wp_starting_println h0 t out args {A} (m : M Kernel A) (Q : A -> Kernel -> Hw -> Prop) k h :
  (1 < spin_fuel)%nat -> starting h0 t out k h ->
  (forall k' h', starting h0 t (out.1 ++ line args, out.2) k' h' -> reg_idtr h' = reg_idtr h ->
    reg_if h' = reg_if h -> wp m Q k' h') ->
  wp (_ ← println args; m) Q k h.
Proof.
  intros Hf Hs HQ. apply wp_bind, wp_vga_print; [done|apply Hs|]. intros v h' Hst Hcol Hok Hio.
  destruct (only_io_regs _ _ (console_only_io _ _ Hio)) as (_&_&_&_&?&?).
  apply HQ; [|done|done]. eapply starting_io; [exact Hs| |by apply console_only_io| |done..].
  - split; [right; by exists v|done].
  - eapply shown_print; [apply Hs|exact Hst|done|done].
Qed.

(** A print that ends a part of start-up. *)
Lemma wp_starting_last h0 t out args (Q : unit -> Kernel -> Hw -> Prop) k h :
  (1 < spin_fuel)%nat -> starting h0 t out k h ->
  (forall k' h', starting h0 t (out.1 ++ line args, out.2) k' h' -> mem h' = mem h ->
    page_alloc k' = page_alloc k -> reg_idtr h' = reg_idtr h -> reg_if h' = reg_if h -> Q tt k' h') ->
  wp (println args) Q k h.
Proof.
  intros Hf Hs HQ. apply wp_vga_print; [done|apply Hs|]. intros v h' Hst Hcol Hok Hio.
  destruct (only_io_regs _ _ (console_only_io _ _ Hio)) as (?&_&_&_&?&?).
  apply HQ; [|done..]. eapply starting_io; [exact Hs| |by apply console_only_io| |done..].
  - split; [right; by exists v|done].
  - eapply shown_print; [apply Hs|exact Hst|done|done].
Qed.

Lemma banner_run rs B size h :
  (1 < spin_fuel)%nat -> Responsive 0x3fd OUTPUT_EMPTY -> booted rs B size h ->
  wp main_banner (fun _ k' h' =>
    starting h UNINIT (banner_text size (cnt (covered rs) 0 B), (wire_text, [])) k' h') kernel_start h.
Proof.
  intros Hf Hr Hb. unfold main_banner, serial_println. apply wp_bind, wp_serial_print; [done..|by left|].
  intros es Hes Hg. cbn zeta.
  assert (starting h UNINIT ([], (wire_text, [])) (over SERIAL_IO (MkSingleton SINGLE_INITED (Some (MkSerialPort 0x3f8))) kernel_start)
    (log_ios (init_events 0x3f8 ++ es) h)) as Hs.
  { eapply (starting_io h UNINIT ([], ([], [])) _ kernel_start h); [|split; [by left|]|apply only_io_ports| |done..].
    - split; try done; [split; [by left|]; split; [cbn; unfold col_ok; lia|apply Hb]|].
      split; [done|done|by intros []|]. exists []. split_and!; [done| |done]. intros u. by rewrite app_nil_r.
    - split; [cbn; unfold col_ok; lia|]. rewrite log_ios_spec. apply Hb.
    - split; [by rewrite log_ios_spec|done|by intros []|]. exists (init_events 0x3f8 ++ es).
      split_and!; [apply trace_log_ios| |by rewrite pic_writes_app, (guarded_pic es false)]. intros u. unfold uart_after. rewrite fold_left_app.
      change (fold_left (uart_event 0x3f8) (init_events 0x3f8) u) with (uart_after 0x3f8 (init_events 0x3f8) u).
      rewrite uart_after_init. change (fold_left (uart_event 0x3f8) es ?x) with (uart_after 0x3f8 es x).
      rewrite (uart_after_guarded 0x3f8 es false) by done. cbn [transmitted snd]. by rewrite Hes. }
  eapply wp_starting_println; [done|exact Hs|]. intros k1 h1 Hs1 _ _.
  eapply wp_step; [eapply kernel_size_run; [exact Hb|apply Hs1]|].
  wp_ok div_ok; [done|].
  eapply wp_starting_println; [done|exact Hs1|]. intros k2 h2 Hs2 _ _.
  eapply wp_step; [eapply memsize_avail; [exact Hb|apply Hs2]|].
  wp_ok div_ok; [done|].
  eapply wp_starting_last; [done|exact Hs2|]. intros k3 h3 Hs3 _ _ _ _.
  unfold banner_text. by rewrite !app_assoc.
Qed.
End banner.

(** ** Part 2: the devices *)

Definition device_events : list io_event :=
  [Out PIC0_DATA 0xff; Out PIC1_DATA 0xff;
   Out PIC0_CTRL 0x11; Out PIC0_DATA 0x20; Out PIC0_DATA 0x04; Out PIC0_DATA 0x01;
   Out PIC1_CTRL 0x11; Out PIC1_DATA 0x28; Out PIC1_DATA 0x02; Out PIC1_DATA 0x01;
   Out PIC0_DATA 0x00; Out PIC1_DATA 0x00;
   Out PIT_PORT_CONTROL 0x34; Out 0x40 0x4e; Out 0x40 0x17].

Definition pic_programming : list io_event := pic_writes device_events.

(** ** Part 3: the table *)

(** The vectors [main] installs, with their handlers, in order. *)
Definition installed (sy : Symbols) : list (Z * Z) :=
  [(3, breakpoint_sym sy); (14, page_fault_sym sy); (8, double_fault_sym sy);
   (11, segment_not_present_sym sy); (0x20, timer_sym sy); (0x21, keyboard_sym sy)].

(** The table with these handlers. *)
Definition install (cs : Z) (vs : list (InterruptEntry unit)) (hs : list (Z * Z)) :
    list (InterruptEntry unit) :=
  fold_left (fun vs '(v, p) => <[Z.to_nat v := handler_entry p cs]> vs) hs vs.

Definition empty_vectors : list (InterruptEntry unit) := replicate 256 (MkEntry 0 0 0x0E00 0).

Section table.
Context `{Platform}.
Implicit Types (k : Kernel) (h : Hw) (t : InterruptDescriptorTable).

Lemma devices_run k h : main_devices k h = (Ok tt, (k, log_ios device_events h)).
Proof. done. Qed.

(** The singleton holds a table with these vectors; an untouched one holds the
    empty table. *)
Definition table_is (s : Singleton InterruptDescriptorTable) (vs : list (InterruptEntry unit)) : Prop :=
  (s = UNINIT /\ vs = empty_vectors) \/
  (exists t, s = MkSingleton SINGLE_INITED (Some t) /\ idt_wf t /\ vectors t = vs).

(** [m] installs the handler [p] as vector [v]. *)
Definition installs (m : M InterruptDescriptorTable unit) (v p : Z) : Prop :=
  forall t h, idt_wf t -> exists t', m t h = (Ok tt, (t', h)) /\ idt_wf t' /\
    vectors t' = <[Z.to_nat v := handler_entry p (reg_cs h)]> (vectors t).

Lemma table_op (m : M InterruptDescriptorTable unit) vs (Q : unit -> Kernel -> Hw -> Prop) k h :
  (1 < spin_fuel)%nat -> table_is (intr_table k) vs ->
  (forall t, idt_wf t -> vectors t = vs ->
    wp m (fun a t' h' => Q a (over INTR_TABLE (MkSingleton SINGLE_INITED (Some t')) k) h') t h) ->
  wp (table m) Q k h.
Proof.
  intros Hf Ht Hm. destruct idt_new_run as (t0 & Hnew & Hwf0 & Hv0). unfold table.
  apply (wp_get_mut INTR_TABLE (lift idt_default) t0 (fun h => h)); [done| | |].
  - change (settled (intr_table k)). destruct Ht as [[-> _]|(t & -> & _)]; [by left|right; by eexists].
  - intros k' h'. unfold lift, idt_default. by rewrite Hnew.
  - intros t h' Hcase. destruct Hcase as [[Hv ->]|(Hv & -> & ->)]; cbn [view INTR_TABLE] in Hv;
      destruct Ht as [[Hs ->]|(t1 & Hs & Hwf & <-)]; rewrite Hs in Hv; simplify_eq; by apply Hm.
Qed.

Lemma table_install (m : M InterruptDescriptorTable unit) v p vs hs {A} (m' : M Kernel A)
    (Q : A -> Kernel -> Hw -> Prop) h0 out k h :
  (1 < spin_fuel)%nat -> installs m v p ->
  (exists s, starting h0 s out k h /\ table_is s (install (reg_cs h0) vs hs)) ->
  (forall k', (exists s, starting h0 s out k' h /\ table_is s (install (reg_cs h0) vs (hs ++ [(v, p)]))) ->
    wp m' Q k' h) ->
  wp (_ ← table m; m') Q k h.
Proof.
  intros Hf Hm (s & Hs & Ht) HQ. apply wp_bind.
  apply (table_op _ (install (reg_cs h0) vs hs)); [done|by rewrite (st_table _ _ _ _ _ Hs)|].
  intros t Hwf Hv. destruct (Hm t h Hwf) as (t' & Hrun & Hwf' & Hv').
  apply wp_run. exists tt, t', h. split; [done|]. apply HQ. eexists. split.
  - destruct Hs. split; try done. by eapply shown_same.
  - right. exists t'. split_and!; [done|done|]. unfold install. rewrite fold_left_app. cbn [fold_left].
    change (fold_left _ hs vs) with (install (reg_cs h0) vs hs). rewrite Hv', Hv.
    by destruct Hs as [_ _ _ _ _ -> _ _].
Qed.

Lemma installs_field {T} (l : Lens InterruptDescriptorTable (InterruptEntry T)) v p :
  p ∈u 32 ->
  (forall t e, idt_wf t -> idt_wf (over l e t) /\ vectors (over l e t) = <[Z.to_nat v := erase e]> (vectors t)) ->
  installs (zoom l (set_handle_addr p)) v p.
Proof.
  intros Hp Hl t h Hwf. eexists. split.
  - unfold zoom. by rewrite set_handle_addr_run.
  - by destruct (Hl t (handler_entry p (reg_cs h)) Hwf).
Qed.

Lemma installs_index v p :
  p ∈u 32 -> accessible v = true -> installs (index_mut v (set_handle_addr p)) v p.
Proof.
  intros Hp Ha t h Hwf. destruct (index_access t v Hwf Ha) as (e & put & [_ _ Hm Hput]).
  destruct (Hput (handler_entry p (reg_cs h))) as (Hv & Hwf' & _).
  eexists. split; [|by split]. rewrite Hm. by rewrite set_handle_addr_run.
Qed.

Lemma table_run sy h0 out k h :
  (1 < spin_fuel)%nat -> symbols_ok sy -> starting h0 UNINIT out k h ->
  wp (main_table sy) (fun _ k' h' => exists t, idt_wf t /\
    vectors t = install (reg_cs h0) empty_vectors (installed sy) /\
    starting h0 (MkSingleton SINGLE_INITED (Some t)) out k' h' /\
    h' = set_if true (set_idtr (intr_table_sym sy, 2047) h)) k h.
Proof.
  intros Hf [] Hs. unfold main_table.
  assert (exists s, starting h0 s out k h /\ table_is s (install (reg_cs h0) empty_vectors [])) as Hst.
  { exists UNINIT. split; [done|]. by left. }
  apply (table_install _ 3 (breakpoint_sym sy) empty_vectors [] _ _ h0 out); [done| |exact Hst|clear Hst].
  { apply installs_field; [done|]. by intros []. }
  intros k1 Hst. eapply (table_install _ 14 (page_fault_sym sy)); [done| |exact Hst|clear Hst].
  { apply installs_field; [done|]. by intros []. }
  intros k2 Hst. eapply (table_install _ 8 (double_fault_sym sy)); [done| |exact Hst|clear Hst].
  { apply installs_field; [done|]. by intros []. }
  intros k3 Hst. eapply (table_install _ 11 (segment_not_present_sym sy)); [done| |exact Hst|clear Hst].
  { apply installs_field; [done|]. by intros []. }
  intros k4 Hst. eapply (table_install _ 0x20 (timer_sym sy)); [done| |exact Hst|clear Hst].
  { by apply installs_index. }
  intros k5 Hst. eapply (table_install _ 0x21 (keyboard_sym sy)); [done| |exact Hst|clear Hst].
  { by apply installs_index. }
  intros k6 (s & Hs6 & Ht). apply wp_bind.
  eapply table_op; [done|by rewrite (st_table _ _ _ _ _ Hs6)|].
  intros t Hwf Hv. apply wp_run. do 3 eexists. split; [by apply update_run|].
  exists t. split_and!; [done|exact Hv| |reflexivity].
  destruct Hs6 as [[Hc1 Hc2] ? ? ? ? ? ? ?]. split; try done. by eapply shown_same.
Qed.
End table.

(** ** Part 4: the report and the first allocation *)
Section report.
Context `{Platform}.
Implicit Types (k : Kernel) (h : Hw).

Lemma first_page n :
  8192 <= n < 2 ^ 32 -> 1 <= size (bitmap (allocator_of n)) /\
  0xc0100000 + bitmap_pages_of n * 4096 + 4096 <= 0xc0100000 + n.
Proof.
  intros ?. unfold allocator_of; cbn [bitmap size].
  assert (2 <= n / 4096 /\ 4096 * (n / 4096) <= n) as [? ?] by zlia.
  assert (bitmap_pages_of n <= n / 4096 - 1); [|lia].
  unfold bitmap_pages_of. generalize dependent (n / 4096). intros pgs ? ?. zlia.
Qed.

Lemma allocator_apart n :
  0 <= n < 2 ^ 32 ->
  data_ptr (bitmap (allocator_of n)) + (size (bitmap (allocator_of n)) + 7) / 8 <= base_addr (allocator_of n).
Proof. intros ?. pose proof (bitmap_pages_bounds n). cbn. zlia. Qed.

(** The first allocation, of any size the managed area has room for: the
    allocator comes up on the memory map and gives its first pages, of which it
    touches none. *)
Lemma first_alloc l n m k h :
  (1 < spin_fuel)%nat -> layout_ok l -> 0 <= n <= 0x3ff00000 -> pages l <= size (bitmap (allocator_of n)) ->
  mapped h 0xc0100000 (bitmap_pages_of n * 4096) ->
  page_alloc k = UNINIT -> n = wrap 32 m ->
  (forall s : Kernel, available_mem_size s h = (Ok m, (s, h))) ->
  let a := allocator_of n in
  exists m', alloc PAGE_ALLOC page_allocator_default l k h =
      (Ok (base_addr a), (over PAGE_ALLOC (MkSingleton SINGLE_INITED (Some a)) k, set_mem m' h)) /\
    pa_rep a (set_mem m' h) (flip_run 0 (pages l) (fun _ => false)) /\
    (forall x, base_addr a <= x -> m' !! x = mem h !! x).
Proof.
  intros Hf Hl Hn Hsz Hmap Hk Hm Hav a. assert (0 <= n < 2 ^ 32) as Hn32 by lia.
  pose proof (pages_pos l Hl) as [Hp _]. pose proof (allocator_of_wf n Hn) as Hwf.
  set (k1 := over PAGE_ALLOC (MkSingleton SINGLE_INITING None) k).
  destruct (page_allocator_default_run m k1 h) as (h1 & Hrun & Hr & Hfr); [apply Hav|by rewrite <- Hm|].
  rewrite <- Hm in Hrun, Hr, Hfr. fold a in Hrun, Hr, Hfr, Hwf, Hsz.
  destruct (get_page_cases a (fun _ => false) (pages l) h1 Hwf Hr ltac:(lia)) as (r & h2 & Hget & Hfr2 & Hcase).
  assert (fits (fun _ => false) (size (bitmap a)) false 0 (pages l)) as H01 by (intros j ?; split; [lia|done]).
  assert (exists i, r = Ok (Some (page_at a i)) /\ i = 0 /\
    bm_rep (bitmap a) (flip_run i (pages l) (fun _ => false)) h2) as (i & -> & -> & Hr2).
  { destruct r as [[p|]|[]| | |]; try done;
      [|destruct Hcase as [_ Hno]; by destruct (Hno 0 ltac:(lia))..].
    destruct Hcase as (i & -> & _ & _ & Hi & _ & Hmin & Hrep). exists i. split_and!; [done| |done].
    destruct (decide (i = 0)); [done|]. by destruct (Hmin 0 ltac:(lia)). }
  destruct (bm_frame_trans _ _ _ _ Hfr Hfr2) as (m' & -> & Hout). exists m'. split_and!.
  - unfold alloc, mbind at 1, M_bind at 1.
    rewrite (get_mut_first PAGE_ALLOC page_allocator_default _ a None k k1 h h1); try done.
    rewrite (pages_run l pm_get) by done.
    change (pm_get (pages l) a h1) with (get_page (pages l) a h1). rewrite Hget.
    unfold page_at. by rewrite Z.mul_0_l, Z.add_0_r.
  - split_and!; [done|by apply allocator_apart|done].
  - intros x Hx. apply Hout. pose proof (allocator_apart n Hn32). subst a. lia.
Qed.

Lemma pa_rep_ext a h u u' : bits_eq (size (bitmap a)) u u' -> pa_rep a h u -> pa_rep a h u'.
Proof. intros Hu (? & ? & ?). split_and!; [done|done|by rewrite <- Hu]. Qed.

Lemma first_page_used n : bits_eq n (flip_run 0 1 (fun _ => false)) (fun j => j =? 0).
Proof.
  intros j ?. unfold flip_run. case_decide; symmetry; [apply Z.eqb_eq|apply Z.eqb_neq]; lia.
Qed.

Lemma box_run n m v k h :
  (1 < spin_fuel)%nat -> 8192 <= n <= 0x3ff00000 ->
  mapped h 0xc0100000 ((bitmap_pages_of n + 1) * 4096) ->
  page_alloc k = UNINIT -> n = wrap 32 m ->
  (forall s : Kernel, available_mem_size s h = (Ok m, (s, h))) ->
  let a := allocator_of n in
  exists m', box_new v k h =
      (Ok (base_addr a), (over PAGE_ALLOC (MkSingleton SINGLE_INITED (Some a)) k, set_mem m' h)) /\
    pa_rep a (set_mem m' h) (fun j => j =? 0) /\
    bytes_at (set_mem m' h) (base_addr a) (le_bytes 4 v).
Proof.
  intros Hf Hn Hmap Hk Hm Hav a.
  pose proof (first_page n ltac:(lia)) as [Hsz _].
  pose proof (bitmap_pages_bounds n ltac:(lia)) as ([? _] & _).
  destruct (first_alloc (MkLayout 4 4) n m k h) as (m1 & Hrun & Hrep & Hout); try done;
    [lia|intros x Hx; apply Hmap; lia|].
  fold a in Hrun, Hrep, Hout. eapply pa_rep_ext in Hrep; [|apply first_page_used].
  destruct (store_le_run 4 (base_addr a) v (over PAGE_ALLOC (MkSingleton SINGLE_INITED (Some a)) k)
    (set_mem m1 h)) as (m2 & Hst & Hb & Hout2).
  { intros x Hx. cbn [mem set_mem]. rewrite Hout by lia. apply Hmap. cbn in Hx |- *. lia. }
  exists m2. split_and!.
  - unfold box_new. run_step Hrun. run_step Hst. done.
  - apply (pa_stable_law a (set_mem m1 h)); [done|]. intros x Hx. cbn [mem set_mem]. apply Hout2.
    unfold pa_meta in Hx. pose proof (allocator_apart n ltac:(lia)). subst a. lia.
  - exact Hb.
Qed.
End report.

(** ** Start-up as a whole *)
Section startup.
Context `{Platform}.
Implicit Types (k : Kernel) (h : Hw) (sy : Symbols).

(** What the loops and prints of the last part keep. *)
Definition reporting h0 t out idtr k h : Prop :=
  starting h0 t out k h /\ reg_idtr h = idtr /\ reg_if h = true.

Lemma wp_reporting_println h0 t out idtr args {A} (m : M Kernel A) (Q : A -> Kernel -> Hw -> Prop) k h :
  (1 < spin_fuel)%nat -> reporting h0 t out idtr k h ->
  (forall k' h', reporting h0 t (out.1 ++ line args, out.2) idtr k' h' -> wp m Q k' h') ->
  wp (_ ← println args; m) Q k h.
Proof.
  intros Hf (Hs & Hi & Hif) HQ. eapply (wp_starting_println h0 t); [done..|].
  intros k' h' Hs' Hi' Hif'. apply HQ. split_and!; [done|congruence..].
Qed.

Lemma memlayout_fmt_run {S} r p (s : S) h :
  region_ok r -> bytes_at h p (region_bytes r) -> memlayout_fmt p s h = (Ok (region_text r), (s, h)).
Proof.
  intros Hr Hb. destruct (accessors_run r p s h Hr Hb) as (Ha & Hl & Hk).
  unfold memlayout_fmt. run_step Ha. run_step Hl. by run_step Hk.
Qed.

Lemma report_loop h0 t out idtr rs (Q : unit -> Kernel -> Hw -> Prop) k h :
  (1 < spin_fuel)%nat -> holds_map h0 rs -> reporting h0 t out idtr k h ->
  (forall k' h', reporting h0 t (out.1 ++ concat (map (fun r => line [region_text r]) rs), out.2) idtr k' h' ->
    Q tt k' h') ->
  wp (for_in (region_ptrs 0xc0020208 rs) (fun m => t ← memlayout_fmt m; println [t])) Q k h.
Proof.
  intros Hf (Hb & _ & Hok) Hrep HQ. apply bytes_at_app in Hb as [_ Hb].
  rewrite length_le_bytes in Hb. change (0xc0020204 + Z.of_nat 4) with 0xc0020208 in Hb.
  revert out k h Hrep Hb HQ. generalize 0xc0020208 as base.
  induction Hok as [|r rs Hr Hok IH]; intros base out k h Hrep Hb HQ.
  { apply wp_ret, HQ. cbn [map concat]. rewrite app_nil_r. by destruct out. }
  cbn [map concat] in Hb. rewrite bytes_at_app, length_region_bytes in Hb. destruct Hb as [Hbr Hb].
  rewrite region_ptrs_cons. cbn [for_in]. apply wp_bind. eapply wp_step.
  { apply memlayout_fmt_run; [exact Hr|]. eapply bytes_at_mem; [apply Hrep|done]. }
  destruct Hrep as (Hs & Hi & Hif). eapply wp_starting_last; [done|exact Hs|].
  intros k1 h1 Hs1 _ _ Hi1 Hif1. eapply IH; [split_and!; [exact Hs1|congruence..]|exact Hb|].
  intros k2 h2 Hrep2. apply HQ. cbn [fst snd] in Hrep2. by rewrite <- app_assoc in Hrep2.
Qed.

(** All that start-up prints. *)
Definition boot_text (rs : list region) (B size esp : Z) : list Z :=
  banner_text size (cnt (covered rs) 0 B) ++
  report_text rs esp (base_addr (allocator_of (memsize rs B))).

(** The state in which the idle loop starts. *)
Record idle sy rs B size h0 (t : InterruptDescriptorTable) k h : Prop := {
  idle_con : con_ok k h;
  idle_wf : idt_wf t;
  idle_vectors : vectors t = install (reg_cs h0) empty_vectors (installed sy);
  idle_table : intr_table k = MkSingleton SINGLE_INITED (Some t);
  idle_idtr : reg_idtr h = Some (intr_table_sym sy, 2047);
  idle_if : reg_if h = true;
  idle_ticks : ticks k = 0;
  idle_pages : page_alloc k = MkSingleton SINGLE_INITED (Some (allocator_of (memsize rs B)));
  idle_rep : pa_rep (allocator_of (memsize rs B)) h (fun j => j =? 0);
  idle_box : bytes_at h (base_addr (allocator_of (memsize rs B))) (le_bytes 4 42);
  idle_shown : shown h0 (boot_text rs B size (reg_esp h0), (wire_text, pic_programming)) k h
}.

Lemma pa_rep_mem a h h' u : mem h' = mem h -> pa_rep a h u -> pa_rep a h' u.
Proof. intros Hm Hr. apply (pa_stable_law a h); [done|]. intros x _. by rewrite Hm. Qed.

Lemma report_run sy rs B size h0 t k h :
  (1 < spin_fuel)%nat -> booted rs B size h0 -> idt_wf t ->
  vectors t = install (reg_cs h0) empty_vectors (installed sy) ->
  reporting h0 (MkSingleton SINGLE_INITED (Some t)) (banner_text size (cnt (covered rs) 0 B), (wire_text, pic_programming))
    (Some (intr_table_sym sy, 2047)) k h ->
  wp main_report (fun _ k' h' => idle sy rs B size h0 t k' h') k h.
Proof.
  intros Hf Hb Hwf Hv Hrep. unfold main_report.
  eapply wp_step. { apply get_memlayout_run. eapply holds_map_mem; [apply Hrep|apply Hb]. }
  apply wp_bind. eapply report_loop; [done|apply Hb|exact Hrep|]. clear k h Hrep. intros k h Hrep.
  eapply wp_step; [reflexivity|].
  eapply wp_step; [by rewrite (st_esp _ _ _ _ _ (proj1 Hrep)); unfold lift; rewrite pg_round_down_run by apply Hb|].
  eapply wp_reporting_println; [done|exact Hrep|]. clear k h Hrep. intros k h (Hs & Hi & Hif).
  destruct (box_run (memsize rs B) (cnt (covered rs) 0 B) 42 k h) as (m & Hbox & Hpa & Hbytes);
    [done|apply Hb| |apply Hs|done| |].
  { intros x Hx. rewrite (st_mem _ _ _ _ _ Hs). by apply Hb. }
  { intros s. eapply memsize_avail; [exact Hb|apply Hs]. }
  apply wp_bind, wp_run. do 3 eexists. split; [exact Hbox|].
  eapply wp_step; [by apply (load_le_run 4 _ 42)|].
  apply wp_vga_print; [done|apply Hs|]. intros v h' Hst Hcol Hok Hio.
  eapply shown_print in Hst; [|eapply shown_same; [apply Hs|done..]|exact Hcol|exact Hio].
  apply console_only_io in Hio.
  destruct (only_io_regs _ _ Hio) as (Hm&_&_&_&Hi'&Hif'). split; try done.
  - split; [right; by exists v|done].
  - apply Hs.
  - by rewrite Hi'.
  - by rewrite Hif'.
  - apply Hs.
  - by eapply pa_rep_mem.
  - by eapply bytes_at_mem.
  - unfold boot_text, report_text. cbn [fst snd] in Hst. rewrite !app_assoc. exact Hst.
Qed.

(** Programming the devices shows nothing and programs the controllers. *)
Lemma starting_devices h0 t txt wire k h :
  starting h0 t (txt, (wire, [])) k h -> starting h0 t (txt, (wire, pic_programming)) k (log_ios device_events h).
Proof.
  intros Hs. eapply starting_io; [exact Hs|apply Hs|apply only_io_ports| |done..].
  destruct (st_shown _ _ _ _ _ Hs) as [Hscr Hcol Hused (es & Htr & Hw & Hpic)]. split; [done|done|done|].
  exists (es ++ device_events).
  split_and!; [by rewrite trace_log_ios, Htr, rev_app_distr, app_assoc| |by rewrite pic_writes_app, Hpic].
  intros u. rewrite <- Hw. unfold uart_after. by rewrite fold_left_app.
Qed.

(** Start-up up to its last part, with interrupts on. *)
Lemma main_until_report sy rs B size h :
  (1 < spin_fuel)%nat -> Responsive 0x3fd OUTPUT_EMPTY -> symbols_ok sy -> booted rs B size h ->
  exists t k2 h2, idt_wf t /\ vectors t = install (reg_cs h) empty_vectors (installed sy) /\
    reporting h (MkSingleton SINGLE_INITED (Some t)) (banner_text size (cnt (covered rs) 0 B), (wire_text, pic_programming))
      (Some (intr_table_sym sy, 2047)) k2 h2 /\
    forall m : M Kernel unit,
      (_ ← main_banner; _ ← main_devices; _ ← main_table sy; m) kernel_start h = m k2 h2.
Proof.
  intros Hf Hr Hsy Hb.
  destruct (proj1 (wp_run _ _ _ _) (banner_run rs B size h Hf Hr Hb)) as ([] & k1 & h1 & Hbanner & Hs1).
  destruct (proj1 (wp_run _ _ _ _) (table_run sy h _ k1 (log_ios device_events h1) Hf Hsy ltac:(
    by apply starting_devices)))
    as ([] & k2 & h2 & Htable & t & Hwf & Hv & Hs2 & Hh2).
  exists t, k2, h2. split_and!; [done|done|split_and!; [exact Hs2|by rewrite Hh2|by rewrite Hh2]|].
  intros m. rewrite (run_bind _ _ _ _ _ _ _ Hbanner), (run_bind _ _ _ _ _ _ _ (devices_run _ _)).
  by rewrite (run_bind _ _ _ _ _ _ _ Htable).
Qed.

Lemma main_run sy rs B size h :
  (1 < spin_fuel)%nat -> Responsive 0x3fd OUTPUT_EMPTY -> symbols_ok sy -> booted rs B size h ->
  wp (main sy) (fun _ k' h' => exists t, idle sy rs B size h t k' h') kernel_start h.
Proof.
  intros Hf Hr Hsy Hb.
  destruct (main_until_report sy rs B size h Hf Hr Hsy Hb) as (t & k2 & h2 & Hwf & Hv & Hrep & Hrun).
  unfold wp, main. rewrite Hrun. eapply wp_mono; [by eapply report_run|].
  intros [] k3 h3 Hidle. by exists t.
Qed.
End startup.

(** ** Properties *)
Section properties.
Context `{Platform}.
Implicit Types (k : Kernel) (h : Hw) (sy : Symbols).

Lemma installed_gates sy t base cs :
  symbols_ok sy -> cs ∈u 16 -> idt_wf t ->
  vectors t = install cs empty_vectors (installed sy) ->
  (forall v p, (v, p) ∈ installed sy ->
    cpu_gate (base, 2047) (idt_bytes t) v = Some (MkGate p cs true 0 INTERRUPT_GATE_32)) /\
  (forall v, 0 <= v < 256 -> v ∉ (installed sy).*1 ->
    exists g, cpu_gate (base, 2047) (idt_bytes t) v = Some g /\ g_present g = false).
Proof.
  intros [] Hcs Hwf Hv. split.
  - intros v p Hin. unfold installed in Hin.
    repeat (apply elem_of_cons in Hin as [[= -> ->]|Hin];
      [rewrite cpu_gate_vector, Hv by (done || lia); by apply (decode_handler_entry (T := unit))|]).
    by apply elem_of_nil in Hin.
  - intros v Hb Hnot. rewrite cpu_gate_vector, Hv by done. unfold installed in Hnot |- *.
    cbn [fmap list_fmap fst] in Hnot. rewrite !elem_of_cons, elem_of_nil in Hnot.
    unfold install; cbn [fold_left].
    rewrite !list_lookup_insert_ne by lia.
    unfold empty_vectors. rewrite lookup_replicate_2 by lia. by eexists.
Qed.

(** C4: Start-up succeeds: on any machine as the boot loader leaves it, with a
    responsive serial port, [main] reaches its idle loop without a panic, a
    fault or a hang.  Interrupts are then enabled, with a table in which
    exactly the six installed vectors are present, each an interrupt gate to
    its handler; the allocator manages the counted memory with exactly its
    first page in use, and the box in that page holds 42. *)
Theorem main_boots sy rs B size h :
  (1 < spin_fuel)%nat -> Responsive 0x3fd OUTPUT_EMPTY -> symbols_ok sy -> booted rs B size h ->
  exists k' h' t a, main sy kernel_start h = (Ok tt, (k', h')) /\ reg_if h' = true /\
    reg_idtr h' = Some (intr_table_sym sy, 2047) /\
    intr_table k' = MkSingleton SINGLE_INITED (Some t) /\
    (forall v p, (v, p) ∈ installed sy -> cpu_gate (intr_table_sym sy, 2047) (idt_bytes t) v =
      Some (MkGate p (reg_cs h) true 0 INTERRUPT_GATE_32)) /\
    (forall v, 0 <= v < 256 -> v ∉ (installed sy).*1 ->
      exists g, cpu_gate (intr_table_sym sy, 2047) (idt_bytes t) v = Some g /\ g_present g = false) /\
    page_alloc k' = MkSingleton SINGLE_INITED (Some a) /\
    pa_rep a h' (fun j => j =? 0) /\ bytes_at h' (base_addr a) (le_bytes 4 42) /\
    con_ok k' h' /\ ticks k' = 0.
Proof.
  intros Hf Hr Hsy Hb. pose proof (proj1 (wp_run _ _ _ _) (main_run sy rs B size h Hf Hr Hsy Hb))
    as ([] & k' & h' & Hrun & t & []).
  destruct (installed_gates sy t (intr_table_sym sy) (reg_cs h) Hsy) as [Hg Hng]; [apply Hb|done..|].
  exists k', h', t, (allocator_of (memsize rs B)). by split_and!.
Qed.

(** C5: What start-up shows: when [main] reaches its idle loop the screen is that of
    the terminal after exactly the text of start-up, from the top left corner
    in white on black: the greeting, the two sizes, every region of the memory
    map in order, the page of the stack and the box with its address.  Over
    the serial line went the prefixed greeting and nothing else. *)
Theorem boot_output sy rs B size h :
  (1 < spin_fuel)%nat -> Responsive 0x3fd OUTPUT_EMPTY -> symbols_ok sy -> booted rs B size h ->
  exists k' h', main sy kernel_start h = (Ok tt, (k', h')) /\
    (col_pos (console k'), screen h') = text_ref 0x0f (boot_text rs B size (reg_esp h)) (0, screen h) /\
    exists es, trace h' = rev es ++ trace h /\
      forall u, transmitted (uart_after 0x3f8 es u) = transmitted u ++ wire_text.
Proof.
  intros Hf Hr Hsy Hb. pose proof (proj1 (wp_run _ _ _ _) (main_run sy rs B size h Hf Hr Hsy Hb))
    as ([] & k' & h' & Hrun & t & Hidle).
  destruct (idle_shown _ _ _ _ _ _ _ _ Hidle) as [Hscreen _ _ (es & Htr & Hwire & _)].
  exists k', h'. split_and!; [done|done|by exists es].
Qed.

(** Interrupt routing: whatever state the two PICs were in, the accesses of
    [main_devices] make line 0 raise the vector whose gate in the table of
    [main_table] is the timer handler, and line 1 that of the keyboard
    handler; no line raises a vector of the other installed handlers. *)
Theorem irq_routing sy t k h cs (p0 p1 : pic8259) :
  symbols_ok sy -> cs ∈u 16 -> idt_wf t -> vectors t = install cs empty_vectors (installed sy) ->
  exists es, main_devices k h = (Ok tt, (k, log_ios es h)) /\
    let vec := irq_vector (pic_after PIC0_CTRL es p0) (pic_after PIC1_CTRL es p1) in
    let target irq := g_offset <$> cpu_gate (intr_table_sym sy, 2047) (idt_bytes t) (vec irq) in
    target 0 = Some (timer_sym sy) /\ target 1 = Some (keyboard_sym sy) /\
    forall irq, 0 <= irq < 16 -> vec irq ∉ [3; 8; 11; 14].
Proof.
  intros Hsy Hcs Hwf Hv. exists device_events. split; [apply devices_run|].
  destruct (installed_gates sy t (intr_table_sym sy) cs Hsy Hcs Hwf Hv) as [Hg _].
  cbv zeta. assert (pic_after PIC0_CTRL device_events p0 = MkPic Ready 0x20 0x04 true 0) as -> by done.
  assert (pic_after PIC1_CTRL device_events p1 = MkPic Ready 0x28 0x02 true 0) as -> by done.
  split_and!.
  - change (irq_vector _ _ 0) with 0x20. rewrite (Hg 0x20 (timer_sym sy)); [done|].
    unfold installed. rewrite !elem_of_cons. tauto.
  - change (irq_vector _ _ 1) with 0x21. rewrite (Hg 0x21 (keyboard_sym sy)); [done|].
    unfold installed. rewrite !elem_of_cons. tauto.
  - intros irq Hirq. unfold irq_vector; cbn [vector_base]. rewrite !elem_of_cons, elem_of_nil.
    destruct (Z.ltb_spec irq 8); lia.
Qed.

Lemma kernel_run sy rs B size h irqs :
  (1 < spin_fuel)%nat -> Responsive 0x3fd OUTPUT_EMPTY -> (forall tr, port_in tr 0x60 ≠ 0) ->
  symbols_ok sy -> booted rs B size h -> timers irqs < 2 ^ 64 ->
  exists k' h', (_ ← main sy; serve irqs) kernel_start h = (Ok tt, (k', h')) /\
    ticks k' = timers irqs /\ con_ok k' h' /\
    exists a, page_alloc k' = MkSingleton SINGLE_INITED (Some a) /\ pa_rep a h' (fun j => j =? 0).
Proof.
  intros Hf Hr Hkey Hsy Hb Ht.
  pose proof (proj1 (wp_run _ _ _ _) (main_run sy rs B size h Hf Hr Hsy Hb))
    as ([] & k1 & h1 & Hrun & t & []).
  assert (0 <= timers irqs) by (unfold timers; lia).
  pose proof (proj1 (wp_run _ _ _ _) (serve_run irqs k1 h1 Hf Hkey ltac:(done) ltac:(lia) ltac:(lia)))
    as ([] & k' & h' & Hrun' & Hcon & (_ & _ & Hpages) & Hticks & Hsv).
  exists k', h'. split_and!; [by rewrite (run_bind _ _ _ _ _ _ _ Hrun)|lia|done|].
  exists (allocator_of (memsize rs B)). split; [congruence|].
  apply (pa_rep_mem _ h1); [|done]. destruct Hsv as (es & rows & -> & _). by rewrite log_ios_spec.
Qed.

(** From power-up to any number of interrupts: start-up followed by any
    sequence of timer and keyboard interrupts never panics or hangs on a
    machine whose keyboard reports no error, and the tick count is the number
    of timer interrupts. *)
Theorem kernel_runs sy rs B size h irqs :
  (1 < spin_fuel)%nat -> Responsive 0x3fd OUTPUT_EMPTY -> (forall tr, port_in tr 0x60 ≠ 0) ->
  symbols_ok sy -> booted rs B size h -> timers irqs < 2 ^ 64 ->
  exists k' h', (_ ← main sy; serve irqs) kernel_start h = (Ok tt, (k', h')) /\
    ticks k' = timers irqs /\ con_ok k' h' /\
    exists a, page_alloc k' = MkSingleton SINGLE_INITED (Some a) /\ pa_rep a h' (fun j => j =? 0).
Proof. apply kernel_run. Qed.
End properties.

(** ** A machine to boot *)

(** 640 KiB of low memory and 16 KiB from 1 MiB on. *)
Definition small_map : list region := [MkRegion 0 0xa0000 Usable; MkRegion 0x100000 0x4000 Usable].

Definition loader_bytes (size : Z) (rs : list region) : list Z :=
  le_bytes 4 size ++ le_bytes 4 (Z.of_nat (length rs)) ++ concat (map region_bytes rs).

(** What the managed area holds before start-up. *)
Definition managed_bytes : list Z := repeat 0xaa (Z.to_nat 0x4000).

Lemma length_managed : Z.of_nat (length managed_bytes) = 0x4000.
Proof. unfold managed_bytes. rewrite repeat_length. by apply Z2Nat.id. Qed.

#[local] Opaque managed_bytes.

Definition example_symbols : Symbols :=
  MkSymbols 0xc0021000 0xc0021100 0xc0021200 0xc0021300 0xc0021400 0xc0021500 0xc0030000.

(** The machine with the memory map [rs]. *)
Definition machine_of (rs : list region) : Hw :=
  MkHw (mem_of 0xc0100000 managed_bytes ∪ (mem_of 0xc0020200 (loader_bytes 0x8000 rs) ∪ ∅))
    blank_screen [] 8 0x7bf0 0 None false.

Definition small_hw : Hw := machine_of small_map.

Lemma length_loader_bytes size rs : Z.of_nat (length (loader_bytes size rs)) = 8 + 20 * Z.of_nat (length rs).
Proof.
  unfold loader_bytes. rewrite !length_app, !length_le_bytes.
  enough (Z.of_nat (length (concat (map region_bytes rs))) = 20 * Z.of_nat (length rs)) by lia.
  induction rs as [|r rs IH]; [done|]. cbn [map concat length].
  rewrite length_app, length_region_bytes. lia.
Qed.

Section machine.
Context (rs : list region) (B : Z).
Hypothesis few_regions : Z.of_nat (length rs) <= 1000.
Hypothesis regions_ok : Forall region_ok rs.
Hypothesis regions_sorted : map_sorted rs.
Hypothesis regions_bound : 0 <= B < 2 ^ 64 /\ Forall (fun r => counted r = true -> r_end r <= B) rs.

Lemma machine_bytes : bytes_at (machine_of rs) 0xc0020200 (loader_bytes 0x8000 rs).
Proof using few_regions.
  intros i b Hi. unfold machine_of; cbn [mem].
  assert (Z.of_nat i < 8 + 20 * Z.of_nat (length rs)) as Hlt
    by (apply lookup_lt_Some in Hi; rewrite <- (length_loader_bytes 0x8000); lia).
  rewrite lookup_union_r by (apply lookup_mem_of_lt; lia).
  apply lookup_union_Some_l. by rewrite lookup_mem_of.
Qed.

Lemma machine_managed : mapped (machine_of rs) 0xc0100000 8192.
Proof using.
  intros x Hx.
  apply (mapped_mem_of (machine_of rs) 0xc0100000 managed_bytes (mem_of 0xc0020200 (loader_bytes 0x8000 rs) ∪ ∅)).
  rewrite length_managed. lia.
Qed.

Lemma length_regions_u32 : Z.of_nat (length rs) ∈u 32.
Proof using few_regions. split; lia. Qed.

Lemma machine_map : holds_map (machine_of rs) rs.
Proof using few_regions regions_ok.
  split; [|split; [apply length_regions_u32|exact regions_ok]]. pose proof machine_bytes as Hb.
  unfold loader_bytes in Hb. rewrite bytes_at_app, length_le_bytes in Hb. exact (proj2 Hb).
Qed.

(** The memory size, by running the code that computes it. *)
Lemma memsize_eval n :
  @available_mem_size (constant_platform true 0) unit tt (map_hw rs) = (Ok n, (tt, map_hw rs)) ->
  memsize rs B = wrap 32 n.
Proof using All.
  intros Hrun. rewrite (available_mem_size_ok rs tt _ B) in Hrun; [|by apply map_hw_holds; [apply length_regions_u32|]|done|apply regions_bound..].
  unfold memsize. revert Hrun. generalize (cnt (covered rs) 0 B). by intros ? [= ->].
Qed.

Lemma machine_booted : memsize rs B = 0x4000 -> booted rs B 0x8000 (machine_of rs).
Proof using All.
  intros Hsize. split.
  - exact (proj2 example_vga_ok).
  - split; [|split; [lia|reflexivity]]. pose proof machine_bytes as Hb. unfold loader_bytes in Hb.
    rewrite bytes_at_app in Hb. exact (proj1 Hb).
  - exact machine_map.
  - exact regions_sorted.
  - exact regions_bound.
  - rewrite Hsize. lia.
  - rewrite Hsize. intros x Hx. change ((bitmap_pages_of 0x4000 + 1) * 4096) with 8192 in Hx.
    by apply machine_managed.
  - unfold machine_of; cbn [reg_cs reg_esp]. split; split; [lia|reflexivity|lia|reflexivity].
Qed.
End machine.

Lemma small_regions_ok : Forall region_ok small_map.
Proof. repeat constructor; vm_compute; (discriminate || reflexivity). Qed.

Lemma small_sorted : map_sorted small_map.
Proof. vm_compute. repeat constructor; discriminate. Qed.

Lemma small_bound :
  0 <= 0x104000 < 2 ^ 64 /\ Forall (fun r => counted r = true -> r_end r <= 0x104000) small_map.
Proof. split; [split; [lia|reflexivity]|]. repeat constructor; vm_compute; discriminate. Qed.

Lemma small_memsize : memsize small_map 0x104000 = 0x4000.
Proof.
  apply (memsize_eval small_map 0x104000 ltac:(cbn; lia) small_regions_ok small_sorted small_bound 0x4000).
  by vm_compute.
Qed.

Lemma small_booted : booted small_map 0x104000 0x8000 small_hw.
Proof.
  exact (machine_booted small_map 0x104000 ltac:(cbn; lia) small_regions_ok small_sorted small_bound small_memsize).
Qed.

Lemma example_symbols_ok : symbols_ok example_symbols.
Proof. split; (split; [cbn; lia|reflexivity]). Qed.

Lemma main_boots_witness :
  exists k' h', @main (constant_platform true 0x21) example_symbols kernel_start small_hw =
    (Ok tt, (k', h')) /\ reg_if h' = true /\ ticks k' = 0.
Proof.
  destruct (@main_boots (constant_platform true 0x21) example_symbols small_map 0x104000 0x8000 small_hw)
    as (k' & h' & t & a & Hrun & Hif & _ & _ & _ & _ & _ & _ & _ & _ & Ht).
  - cbn. lia.
  - exact (always_ready true _ _ (or_introl eq_refl)).
  - exact example_symbols_ok.
  - exact small_booted.
  - exists k', h'. split; [exact Hrun|]. split; [exact Hif|exact Ht].
Defined.

Lemma boot_output_witness :
  exists k' h', @main (constant_platform true 0x21) example_symbols kernel_start small_hw =
    (Ok tt, (k', h')) /\
    (col_pos (console k'), screen h') =
      text_ref 0x0f (boot_text small_map 0x104000 0x8000 0x7bf0) (0, blank_screen) /\
    exists es, trace h' = rev es /\
      transmitted (uart_after 0x3f8 es (MkUart 0 0 0 0 0 0 [])) = wire_text.
Proof.
  destruct (@boot_output (constant_platform true 0x21) example_symbols small_map 0x104000 0x8000 small_hw)
    as (k' & h' & Hrun & Hscreen & es & Htr & Hwire).
  - cbn. lia.
  - exact (always_ready true _ _ (or_introl eq_refl)).
  - exact example_symbols_ok.
  - exact small_booted.
  - exists k', h'. split; [exact Hrun|]. split; [exact Hscreen|]. exists es.
    split; [rewrite Htr; apply app_nil_r|apply Hwire].
Defined.

Lemma irq_routing_witness :
  exists t es, @main_devices (constant_platform true 0x21) kernel_start small_hw =
    (Ok tt, (kernel_start, log_ios es small_hw)) /\
    g_offset <$> cpu_gate (0xc0030000, 2047) (idt_bytes t)
      (irq_vector (pic_after PIC0_CTRL es (MkPic Ready 0 0 false 0)) (pic_after PIC1_CTRL es (MkPic Ready 0 0 false 0)) 0)
    = Some 0xc0021400.
Proof.
  destruct (proj1 (wp_run _ _ _ _) (@main_run (constant_platform true 0x21) example_symbols small_map
    0x104000 0x8000 small_hw ltac:(cbn; lia) (always_ready true _ _ (or_introl eq_refl))
    example_symbols_ok small_booted)) as ([] & k1 & h1 & _ & t & Hidle).
  destruct (@irq_routing (constant_platform true 0x21) example_symbols t kernel_start small_hw 8
    (MkPic Ready 0 0 false 0) (MkPic Ready 0 0 false 0)) as (es & Hrun & Htimer & _).
  - exact example_symbols_ok.
  - split; [lia|reflexivity].
  - exact (idle_wf _ _ _ _ _ _ _ _ Hidle).
  - exact (idle_vectors _ _ _ _ _ _ _ _ Hidle).
  - exists t, es. split; [exact Hrun|exact Htimer].
Defined.

Lemma kernel_runs_witness :
  exists k' h', (_ ← @main (constant_platform true 0x21) example_symbols;
      @serve (constant_platform true 0x21) [Timer; Keyboard; Timer]) kernel_start small_hw =
    (Ok tt, (k', h')) /\ ticks k' = 2.
Proof.
  destruct (@kernel_runs (constant_platform true 0x21) example_symbols small_map 0x104000 0x8000 small_hw
    [Timer; Keyboard; Timer]) as (k' & h' & Hrun & Ht & _).
  - cbn. lia.
  - exact (always_ready true _ _ (or_introl eq_refl)).
  - intros tr. cbn. discriminate.
  - exact example_symbols_ok.
  - exact small_booted.
  - reflexivity.
  - exists k', h'. split; [exact Hrun|exact Ht].
Defined.
