(* ===== verification/Heap.v ===== *)
(** * The heap against its specification: a set of pages

    What the global allocator promises a client, without bitmaps, singletons and
    page arithmetic: the heap is the set of pages in use and the bytes off the
    allocator's own data.  A request takes the first free span, gives one
    back, or accesses a byte.  [kernel_heap] shows that the kernel answers every
    list of requests, wrong ones included, exactly as this specification does,
    whatever timer and keyboard interrupts come before any of the accesses the
    requests consist of. *)
From Stdlib Require Import ZArith Lia.
From stdpp Require Import base tactics numbers list gmap.
From S2P Require Import Prelude.
From S2P Require Import Machine.
From S2P Require Import Fmt.
From S2P Require Import X86.
From S2P Require Import Serial.
From S2P Require Import Vga.
From S2P Require Import Singleton.
From S2P Require Import Loader.
From S2P Require Import MemMap.
From S2P Require Import Bitmap.
From S2P Require Import Page.
From S2P Require Import Alloc.
From S2P Require Import Intr.
From S2P Require Import Kernel.
From S2P Require Import Main.
From S2P Require Import Steps.
From S2P Require Import Interleave.
From S2P Require Import Boot.

(** ** Requests and answers *)
Inductive request :=
  | Allocate (l : Layout)
  | Release (p : Z) (l : Layout)
  | Read (x : Z)
  | Write (x v : Z).

Inductive answer :=
  | Block (p : Z)
  | Byte (v : Z)
  | Done
  | Refused         (** the allocator panicked *)
  | Faulted         (** no memory at that address *)
  | Lost.           (** undefined behaviour or a wait without end *)

#[export] Instance answer_eq_dec : EqDecision answer.
Proof. solve_decision. Defined.

(** ** The specification *)
Record heap := MkHeap { in_use : gset Z; bytes : gmap Z Z }.

Section spec.
Context (base count : Z).
Implicit Types (used : gset Z) (s : heap) (r : request) (rs : list request).

Definition span (i n : Z) : gset Z := list_to_set (seqZ i n).

(** Pages [i] to [i + n - 1] exist and are free. *)
Definition vacant used (n i : Z) : Prop := i + n <= count /\ span i n ## used.

#[export] Instance vacant_dec used n i : Decision (vacant used n i).
Proof. unfold vacant. apply _. Defined.

Definition first_fit used (n : Z) : option Z := snd <$> list_find (vacant used n) (seqZ 0 count).

(** The page of an address, if it is the first address of one. *)
Definition page_number (p : Z) : option Z :=
  if decide (p mod 4096 = 0 /\ base <= p) then Some ((p - base) / 4096) else None.

Definition spec_step r s : answer * heap :=
  match r with
  | Allocate l =>
      match first_fit (in_use s) (pages l) with
      | Some i => (Block (base + i * 4096), MkHeap (in_use s ∪ span i (pages l)) (bytes s))
      | None => (Refused, s)
      end
  | Release p l =>
      match page_number p with
      | Some i =>
          if decide (span i (pages l) ⊆ in_use s) then
            (Done, MkHeap (in_use s ∖ span i (pages l)) (bytes s))
          else (Refused, s)
      | None => (Refused, s)
      end
  | Read x => match bytes s !! x with Some v => (Byte v, s) | None => (Faulted, s) end
  | Write x v =>
      match bytes s !! x with
      | Some _ => (Done, MkHeap (in_use s) (<[x := v]> (bytes s)))
      | None => (Faulted, s)
      end
  end.
End spec.

(** A history ends with the first request that is not served. *)
Definition goes_on (a : answer) : bool :=
  match a with Block _ | Byte _ | Done => true | _ => false end.

Fixpoint run_history {R S} (step : R -> S -> answer * S) (rs : list R) (s : S) : list answer * S :=
  match rs with
  | [] => ([], s)
  | r :: rs =>
      let '(a, s') := step r s in
      if goes_on a then let '(out, s2) := run_history step rs s' in (a :: out, s2) else ([a], s')
  end.

(** Two systems that answer every request of a history alike, one of them
    seeing the part [f] of a request. *)
Section simulation.
Context {R1 R2 S T : Type} (f : R1 -> R2) (step1 : R1 -> S -> answer * S) (step2 : R2 -> T -> answer * T)
  (ok : R1 -> Prop) (sim : list R1 -> S -> T -> Prop).
Hypothesis sim_step : forall r rs s t, sim (r :: rs) s t -> ok r ->
  (step1 r s).1 = (step2 (f r) t).1 /\ sim rs (step1 r s).2 (step2 (f r) t).2.
Hypothesis sim_stop : forall rs s t, sim rs s t -> sim [] s t.

Lemma run_history_sim rs s t :
  sim rs s t -> Forall ok rs ->
  (run_history step1 rs s).1 = (run_history step2 (map f rs) t).1 /\
  sim [] (run_history step1 rs s).2 (run_history step2 (map f rs) t).2.
Proof using sim_step sim_stop.
  intros Hsim Hok. revert s t Hsim. induction Hok as [|r rs Hr _ IH]; intros s t Hsim; [done|].
  cbn [run_history map]. destruct (sim_step r rs s t Hsim Hr) as [Ha Hs].
  destruct (step1 r s) as [a s'], (step2 (f r) t) as [a' t']; simplify_eq/=.
  destruct (goes_on a'); [|split; [done|by eapply sim_stop]].
  destruct (IH s' t' Hs) as [Hout Hsim'].
  destruct (run_history step1 rs s'), (run_history step2 (map f rs) t'). by simplify_eq/=.
Qed.
End simulation.

(** ** The kernel *)
Section kernel.
Context `{Platform}.
Implicit Types (k : Kernel) (h : Hw) (r : request) (s : heap).

Definition request_code r : M Kernel answer :=
  match r with
  | Allocate l => p ← alloc PAGE_ALLOC page_allocator_default l; mret (Block p)
  | Release p l => _ ← dealloc PAGE_ALLOC page_allocator_default p l; mret Done
  | Read x => v ← load8 x; mret (Byte v)
  | Write x v => _ ← store8 x v; mret Done
  end.

Definition request_traced r : Traced heap_access (request_code r).
Proof. destruct r; cbn [request_code]; traced; [apply alloc_traced|apply dealloc_traced]. Defined.

Definition request_prog r : prog Kernel answer := @prog_of _ _ _ _ (request_traced r).

Definition answer_of (r : result answer) : answer :=
  match r with Ok a => a | Panic _ => Refused | PageFault _ => Faulted | _ => Lost end.

(** A request without interrupts, and with interrupts: the [n]-th list is
    served before the [n]-th access. *)
Definition quiet_step r (st : Kernel * Hw) : answer * (Kernel * Hw) :=
  let '(res, st') := request_code r st.1 st.2 in (answer_of res, st').

Definition kernel_step (ri : request * list (list irq)) (st : Kernel * Hw) : answer * (Kernel * Hw) :=
  let '(res, st') := preempt serve ri.2 (request_prog ri.1) st.1 st.2 in (answer_of res, st').

(** What a client may ask: layouts and addresses that exist, and no access to
    the bitmap. *)
Definition allowed (a : PageAllocator) r : Prop :=
  match r with
  | Allocate l => layout_ok l
  | Release p l => layout_ok l /\ p ∈u 32
  | Read x | Write x _ => ~ pa_meta a x
  end.

(** The timer interrupts of a history. *)
Definition ticks_in (rs : list (request * list (list irq))) : Z := timers (concat (concat (map snd rs))).

Definition holds (used : gset Z) (j : Z) : bool := bool_decide (j ∈ used).

(** The kernel represents a heap, with room for [n] more ticks. *)
Record represents (a : PageAllocator) (n : Z) (st : Kernel * Hw) s : Prop := {
  rp_pages : page_alloc st.1 = MkSingleton SINGLE_INITED (Some a);
  rp_used : pa_rep a st.2 (holds (in_use s));
  rp_range : forall j, j ∈ in_use s -> 0 <= j < size (bitmap a);
  rp_bytes : forall x, ~ pa_meta a x -> bytes s !! x = mem st.2 !! x;
  rp_con : con_ok st.1 st.2;
  rp_ticks : 0 <= ticks st.1 /\ ticks st.1 + n < 2 ^ 64
}.
End kernel.

(** ** Spans and bits *)
Section spans.
Implicit Types (used : gset Z) (i j n : Z).

Lemma elem_of_span i n j : j ∈ span i n <-> i <= j < i + n.
Proof. unfold span. rewrite elem_of_list_to_set, elem_of_seqZ. lia. Qed.

Lemma vacant_fits count used i n :
  1 <= n -> vacant count used n i <-> fits (holds used) count false i n.
Proof.
  intros Hn. unfold vacant, fits, holds. split.
  - intros [Hc Hd] j Hj. split; [lia|]. apply bool_decide_eq_false. intros Hu.
    by apply (Hd j); [apply elem_of_span|].
  - intros Hf. split; [destruct (Hf (i + n - 1)); lia|]. intros j Hj%elem_of_span Hu.
    destruct (Hf j Hj) as [_ Hfree]. by apply bool_decide_eq_false in Hfree.
Qed.

Lemma in_use_fits count used i n :
  (forall j, j ∈ used -> 0 <= j < count) ->
  span i n ⊆ used <-> fits (holds used) count true i n.
Proof.
  intros Hr. unfold fits, holds. split.
  - intros Hs j Hj. assert (j ∈ used) as Hu by by apply Hs, elem_of_span.
    split; [by apply Hr|by apply bool_decide_eq_true].
  - intros Hf j Hj%elem_of_span. destruct (Hf j Hj) as [_ Hu]. by apply bool_decide_eq_true in Hu.
Qed.

Lemma holds_take used i n j :
  span i n ## used -> flip_run i n (holds used) j = holds (used ∪ span i n) j.
Proof.
  intros Hd. unfold flip_run, holds. specialize (Hd j). rewrite elem_of_span in Hd.
  case_decide; repeat case_bool_decide; rewrite ?elem_of_union, ?elem_of_span in *; cbn; tauto.
Qed.

Lemma holds_give used i n j :
  span i n ⊆ used -> flip_run i n (holds used) j = holds (used ∖ span i n) j.
Proof.
  intros Hs. unfold flip_run, holds. specialize (Hs j). rewrite elem_of_span in Hs.
  case_decide; repeat case_bool_decide; rewrite ?elem_of_difference, ?elem_of_span in *; cbn; tauto.
Qed.

(** The first span is the least one. *)
Lemma first_fit_some count used n i :
  0 <= i < count -> vacant count used n i -> (forall j, 0 <= j < i -> ~ vacant count used n j) ->
  first_fit count used n = Some i.
Proof.
  intros Hi Hv Hleast. unfold first_fit.
  enough (list_find (vacant count used n) (seqZ 0 count) = Some (Z.to_nat i, i)) as -> by done.
  apply list_find_Some. split_and!; [|done|].
  - rewrite lookup_seqZ. lia.
  - intros k j Hk Hlt. apply lookup_seqZ in Hk as [-> _]. apply Hleast. lia.
Qed.

Lemma first_fit_none count used n :
  (forall j, 0 <= j < count -> ~ vacant count used n j) -> first_fit count used n = None.
Proof.
  intros Hno. unfold first_fit. rewrite (proj2 (list_find_None _ _)); [done|].
  apply Forall_forall. intros j Hj%elem_of_seqZ. apply Hno. lia.
Qed.
End spans.

(** ** Every request is answered as specified *)
Section steps.
Context `{Platform} (a : PageAllocator).
Implicit Types (k : Kernel) (h : Hw) (r : request) (rs : list request) (s : heap) (st : Kernel * Hw).

Definition heap_spec r s : answer * heap := spec_step (base_addr a) (size (bitmap a)) r s.

(** The answer and the state after a request, from the run of its code. *)
Lemma answered {A} (m : M Kernel A) (f : A -> answer) (res : result A) k h st' :
  m k h = (res, st') ->
  (let '(x, s2) := (v ← m; mret (f v)) k h in (answer_of x, s2)) =
    (match res with Ok v => f v | Panic _ => Refused | PageFault _ => Faulted | _ => Lost end, st').
Proof. intros Hm. unfold mbind, M_bind. rewrite Hm. by destruct res, st'. Qed.

Lemma represents_fewer n m st s : represents a n st s -> m <= n -> represents a m st s.
Proof. intros [] ?. split; try done. lia. Qed.

(** The allocator changes the bitmap only. *)
Lemma represents_bitmap n k h s used h' :
  represents a n (k, h) s -> bm_frame (bitmap a) h h' -> bm_rep (bitmap a) (holds used) h' ->
  (forall j, j ∈ used -> 0 <= j < size (bitmap a)) ->
  represents a n (k, h') (MkHeap used (bytes s)).
Proof.
  intros [? (? & ? & _) ? Hb ? ?] (m & -> & Hm) Hrep Hrange. split; try done.
  intros x Hx. cbn. rewrite Hm by exact Hx. by apply Hb.
Qed.

Lemma allocate_step l n k h s :
  (1 < spin_fuel)%nat -> represents a n (k, h) s -> layout_ok l ->
  (quiet_step (Allocate l) (k, h)).1 = (heap_spec (Allocate l) s).1 /\
  represents a n (quiet_step (Allocate l) (k, h)).2 (heap_spec (Allocate l) s).2.
Proof.
  intros Hf Hrep Hl. pose proof (pages_pos l Hl) as [Hp _].
  pose proof Hrep as [Hready (Hwf & Hap & Hbits) Hrange _ _ _]; cbn [fst snd] in *.
  destruct (get_page_cases a _ (pages l) h Hwf Hbits ltac:(lia)) as (res & h' & Hrun & Hframe & Hcase).
  unfold quiet_step; cbn [fst snd request_code].
  rewrite (answered _ Block _ k h _ (alloc_run PAGE_ALLOC _ l k a h res h' Hl Hready ltac:(lia) Hrun)).
  unfold heap_spec; cbn [spec_step].
  assert (forall used j, vacant (size (bitmap a)) used (pages l) j <->
    fits (holds used) (size (bitmap a)) false j (pages l)) as Hvac by by intros; apply vacant_fits.
  destruct res as [[p|]|[]| | |]; try done.
  - destruct Hcase as (i & -> & _ & _ & Hi & Hfit & Hleast & Hbits').
    apply Hvac in Hfit as Hv. rewrite (first_fit_some _ _ _ i); [|done..|intros j Hj; rewrite Hvac; by apply Hleast].
    split; [done|]. apply (represents_bitmap n k h s); [done..| |].
    + eapply bm_rep_proper; [|reflexivity|exact Hbits']. intros j _. symmetry. apply holds_take, Hv.
    + intros j [Hj|Hj%elem_of_span]%elem_of_union; [by apply Hrange|]. destruct (Hfit j Hj). lia.
  - destruct Hcase as [-> Hno]. rewrite first_fit_none by (intros j Hj; rewrite Hvac; by apply Hno). done.
  - destruct Hcase as [-> Hno]. rewrite first_fit_none by (intros j Hj; rewrite Hvac; by apply Hno). done.
Qed.

(** What the specification releases is what [free_page] accepts. *)
Lemma page_number_cases p :
  page_number (base_addr a) p = Some (page_of a p) /\ p mod 4096 = 0 /\ base_addr a <= p \/
  page_number (base_addr a) p = None /\ ~ (p mod 4096 = 0 /\ base_addr a <= p).
Proof. unfold page_number. case_decide; [by left|by right]. Qed.

Lemma freeable_spec used p n :
  (forall j, j ∈ used -> 0 <= j < size (bitmap a)) ->
  freeable a (holds used) p n <->
    page_number (base_addr a) p = Some (page_of a p) /\ span (page_of a p) n ⊆ used.
Proof.
  intros Hr. unfold freeable. rewrite <- in_use_fits by done.
  destruct (page_number_cases p) as [(-> & ? & ?)|(-> & ?)]; [tauto|]. split; [tauto|by intros []].
Qed.

Lemma release_step p l n k h s :
  (1 < spin_fuel)%nat -> represents a n (k, h) s -> layout_ok l -> p ∈u 32 ->
  (quiet_step (Release p l) (k, h)).1 = (heap_spec (Release p l) s).1 /\
  represents a n (quiet_step (Release p l) (k, h)).2 (heap_spec (Release p l) s).2.
Proof.
  intros Hf Hrep Hl Hpu. pose proof (pages_pos l Hl) as [Hp _].
  pose proof Hrep as [Hready (Hwf & Hap & Hbits) Hrange _ _ _]; cbn [fst snd] in *.
  assert (forall res h', free_page p (pages l) a h = (res, (a, h')) ->
    quiet_step (Release p l) (k, h) =
      (match res with Ok _ => Done | Panic _ => Refused | PageFault _ => Faulted | _ => Lost end, (k, h'))) as Hcode.
  { intros res h' Hrun. apply (answered _ (fun _ => Done)). by apply (dealloc_run PAGE_ALLOC _ _ _ _ a); [..|lia|]. }
  pose proof (freeable_spec (in_use s) p (pages l) Hrange) as Hspec. unfold heap_spec; cbn [spec_step].
  destruct (decide (span (page_of a p) (pages l) ⊆ in_use s)) as [Hin|Hout];
    [destruct (page_number_cases p) as [(Hn & _)|(Hn & _)]|].
  - destruct (free_page_ok a (holds (in_use s)) p (pages l) h) as (h' & Hrun & Hbits' & Hframe);
      [done..|by apply Hspec|].
    rewrite (Hcode _ h' Hrun), Hn, decide_True by done. split; [done|].
    apply (represents_bitmap n k h s); [done..| |intros j [? _]%elem_of_difference; by apply Hrange].
    eapply bm_rep_proper; [|reflexivity|exact Hbits']. intros j _. symmetry. by apply holds_give.
  - destruct (free_page_fail a (holds (in_use s)) p (pages l) h) as (why & Hrun); [done..| |].
    { rewrite Hspec, Hn. by intros []. }
    by rewrite (Hcode _ h Hrun), Hn.
  - destruct (free_page_fail a (holds (in_use s)) p (pages l) h) as (why & Hrun); [done..| |].
    { rewrite Hspec. by intros []. }
    rewrite (Hcode _ h Hrun).
    destruct (page_number_cases p) as [(-> & _)|(-> & _)]; [by rewrite decide_False|done].
Qed.

Lemma access_step r n k h s :
  represents a n (k, h) s -> allowed a r ->
  match r with Read _ | Write _ _ => True | _ => False end ->
  (quiet_step r (k, h)).1 = (heap_spec r s).1 /\ represents a n (quiet_step r (k, h)).2 (heap_spec r s).2.
Proof.
  intros Hrep Hok Hr. pose proof Hrep as [Hready Hpa Hrange Hbytes Hcon Ht]; cbn [fst snd] in *.
  destruct r as [| |x|x v]; try done; unfold quiet_step, heap_spec; cbn [fst snd request_code spec_step];
    unfold load8, store8, mbind, M_bind; rewrite (Hbytes x Hok); destruct (mem h !! x); try done.
  split; [done|]. split; try done.
  - apply (pa_stable_law a h); [done|]. intros y Hy. cbn. by rewrite lookup_insert_ne by by intros ->.
  - intros y Hy. cbn. destruct (decide (x = y)) as [->|].
    + by rewrite !lookup_insert_eq.
    + rewrite !lookup_insert_ne by done. by apply Hbytes.
Qed.

Lemma quiet_step_spec r n st s :
  (1 < spin_fuel)%nat -> represents a n st s -> allowed a r ->
  (quiet_step r st).1 = (heap_spec r s).1 /\ represents a n (quiet_step r st).2 (heap_spec r s).2.
Proof.
  intros Hf Hrep Hok. destruct st as [k h], r as [l|p l|x|x v].
  - by apply allocate_step.
  - by apply release_step; [..|apply Hok|apply Hok].
  - by apply access_step.
  - by apply access_step.
Qed.

Lemma timers_nonneg irqs : 0 <= timers irqs.
Proof. unfold timers. lia. Qed.

Lemma timers_prefix l1 l2 : l1 `prefix_of` l2 -> timers (concat l1) <= timers (concat l2).
Proof. intros [rest ->]. rewrite concat_app, timers_app. pose proof (timers_nonneg (concat rest)). lia. Qed.

(** Interrupts inside a request do not change its answer. *)
Lemma kernel_step_spec ri n st s :
  (1 < spin_fuel)%nat -> (forall tr, port_in tr 0x60 ≠ 0) -> 0 <= n ->
  represents a (timers (concat ri.2) + n) st s -> allowed a ri.1 ->
  (kernel_step ri st).1 = (heap_spec ri.1 s).1 /\ represents a n (kernel_step ri st).2 (heap_spec ri.1 s).2.
Proof.
  intros Hf Hkey Hn Hrep Hok. destruct ri as [r irqs], st as [k h]; cbn [fst snd] in *.
  destruct (quiet_step_spec r _ _ _ Hf Hrep Hok) as [Ha Hrep'].
  destruct Hrep as [_ _ _ _ Hcon Ht]; cbn [fst snd] in *.
  destruct (heap_undisturbed (request_code r) (request_traced r) irqs k h Hf Hkey Hcon ltac:(lia) ltac:(lia))
    as (_ & _ & Hpre).
  unfold quiet_step, kernel_step in *; cbn [fst snd] in *.
  destruct (request_code r k h) as [res [k1 h1]]. destruct Hpre as (served & k2 & h2 & Hp & Hrun & Hpages & Hm & Hcon2 & Htk & _).
  unfold request_prog. rewrite Hrun. split; [done|]. destruct Hrep' as [Hready Hpa Hrange Hbytes _ _].
  apply timers_prefix in Hp. pose proof (timers_nonneg (concat served)).
  split; cbn [fst snd] in *; try done; [congruence|by apply (pa_rep_mem a h1)|by rewrite Hm|lia].
Qed.
End steps.

(** ** What the specification promises *)
Section promises.
Context (base count : Z).
Hypothesis base_ok : base mod 4096 = 0.
Implicit Types (s : heap) (l : Layout).

(** A block is made of existing pages that were free, and is what the request needs. *)
Lemma spec_block_fresh l s p s' :
  spec_step base count (Allocate l) s = (Block p, s') ->
  exists i, p = base + i * 4096 /\ 0 <= i /\ i + pages l <= count /\ span i (pages l) ## in_use s /\
    in_use s' = in_use s ∪ span i (pages l) /\ bytes s' = bytes s.
Proof using.
  cbn [spec_step]. unfold first_fit.
  destruct list_find as [[k i]|] eqn:Hfind; intros [= <- <-]. apply list_find_Some in Hfind as (Hk & [Hc Hd] & _).
  apply lookup_seqZ in Hk as [-> ?]. exists (0 + Z.of_nat k). split_and!; done || lia.
Qed.

(** Releasing a block undoes its allocation, whatever happened to the bytes. *)
Lemma spec_release_allocate l s p s' m :
  spec_step base count (Allocate l) s = (Block p, s') ->
  spec_step base count (Release p l) (MkHeap (in_use s') m) = (Done, MkHeap (in_use s) m).
Proof using base_ok.
  intros Hstep. destruct (spec_block_fresh l s p s' Hstep) as (i & -> & Hi & _ & Hd & Hu & _).
  cbn [spec_step in_use bytes]. unfold page_number.
  rewrite decide_True by (rewrite Z_mod_plus_full; split; [done|lia]).
  rewrite Z.add_simpl_l, Z.div_mul, Hu by done. rewrite decide_True by apply union_subseteq_r.
  do 2 f_equal. rewrite difference_union_distr_l_L, difference_diag_L, union_empty_r_L.
  by apply difference_disjoint_L.
Qed.
End promises.

(** ** The kernel *)
Section properties.
Context `{Platform}.

Lemma idle_represents sy rs B size h0 t k h n :
  booted rs B size h0 -> idle sy rs B size h0 t k h -> n < 2 ^ 64 ->
  represents (allocator_of (memsize rs B)) n (k, h) (MkHeap {[ 0 ]} (mem h)).
Proof.
  intros Hb [] Hn. destruct (first_page (memsize rs B)) as [Hsize _]; [destruct Hb; lia|].
  split; cbn [fst snd in_use bytes]; try done.
  - eapply pa_rep_ext; [|exact idle_rep]. intros j _. unfold holds.
    destruct (Z.eqb_spec j 0); case_bool_decide; set_solver.
  - intros j ->%elem_of_singleton. lia.
  - lia.
Qed.

Lemma ticks_in_cons r rs : ticks_in (r :: rs) = timers (concat r.2) + ticks_in rs.
Proof. unfold ticks_in. cbn [map concat]. by rewrite concat_app, timers_app. Qed.

Lemma kernel_heap_run sy rs B size h reqs :
  (1 < spin_fuel)%nat -> Responsive 0x3fd OUTPUT_EMPTY -> (forall tr, port_in tr 0x60 ≠ 0) ->
  symbols_ok sy -> booted rs B size h ->
  Forall (fun ri => allowed (allocator_of (memsize rs B)) ri.1) reqs -> ticks_in reqs < 2 ^ 64 ->
  let a := allocator_of (memsize rs B) in
  exists k1 h1, main sy kernel_start h = (Ok tt, (k1, h1)) /\
    let code := run_history kernel_step reqs (k1, h1) in
    let spec := run_history (heap_spec a) (map fst reqs) (MkHeap {[ 0 ]} (mem h1)) in
    code.1 = spec.1 /\ represents a 0 code.2 spec.2.
Proof.
  intros Hf Hr Hkey Hsy Hb Hreqs Ht a.
  destruct (proj1 (wp_run _ _ _ _) (main_run sy rs B size h Hf Hr Hsy Hb)) as ([] & k1 & h1 & Hrun & t & Hidle).
  exists k1, h1. split; [exact Hrun|]. cbv zeta.
  apply (run_history_sim fst kernel_step (heap_spec a) (fun ri => allowed a ri.1)
    (fun rs => represents a (ticks_in rs))).
  - intros r rest st s Hrep Hok. rewrite ticks_in_cons in Hrep. apply kernel_step_spec; try done.
    apply timers_nonneg.
  - intros rest st s Hrep. apply (represents_fewer a _ _ _ _ Hrep), timers_nonneg.
  - by apply (idle_represents sy rs B size h t).
  - exact Hreqs.
Qed.

(** C6: The heap of the running kernel is a set of pages: after start-up, any
    list of allocations, releases and accesses to memory off the bitmap, double
    frees, foreign addresses and requests that cannot be met included, with any
    timer and keyboard interrupts before any of the accesses they consist of,
    is answered by the kernel exactly as by the specification, which starts
    with the first page in use, takes the first free span for an allocation,
    gives back exactly the spans that are in use and refuses everything else.
    At the end the bitmap holds the specification's set, memory off the bitmap
    its bytes, and the console is usable. *)
Theorem kernel_heap sy rs B size h reqs :
  (1 < spin_fuel)%nat -> Responsive 0x3fd OUTPUT_EMPTY -> (forall tr, port_in tr 0x60 ≠ 0) ->
  symbols_ok sy -> booted rs B size h ->
  Forall (fun ri => allowed (allocator_of (memsize rs B)) ri.1) reqs -> ticks_in reqs < 2 ^ 64 ->
  let a := allocator_of (memsize rs B) in
  exists k1 h1, main sy kernel_start h = (Ok tt, (k1, h1)) /\
    let code := run_history kernel_step reqs (k1, h1) in
    let spec := run_history (heap_spec a) (map fst reqs) (MkHeap {[ 0 ]} (mem h1)) in
    code.1 = spec.1 /\ represents a 0 code.2 spec.2.
Proof. apply kernel_heap_run. Qed.
End properties.

(** On four pages with the first in use: two blocks, the first given back and
    taken again, then one page too many. *)
Example spec_history_example :
  (run_history (spec_step 0x4000 4)
    [Allocate (MkLayout 4097 1); Allocate (MkLayout 1 1); Release 0x5000 (MkLayout 4097 1);
     Allocate (MkLayout 10 1); Release 0x6000 (MkLayout 10 1)] (MkHeap {[ 0 ]} ∅)).1 =
  [Block 0x5000; Block 0x7000; Done; Block 0x5000; Refused].
Proof. by vm_compute. Qed.

(** Two pages after the box, with a tick and a key before its second access, the
    pages released, and released again. *)
Definition example_requests : list (request * list (list irq)) :=
  [(Allocate (MkLayout 5000 8), [[]; [Timer; Keyboard]]); (Release 0xc0102000 (MkLayout 5000 8), [[Timer]]);
   (Release 0xc0102000 (MkLayout 5000 8), [])].

Lemma kernel_heap_witness :
  exists k1 h1, @main (constant_platform true 0x21) example_symbols kernel_start small_hw = (Ok tt, (k1, h1)) /\
    (run_history (@kernel_step (constant_platform true 0x21)) example_requests (k1, h1)).1 =
      [Block 0xc0102000; Done; Refused].
Proof.
  destruct (@kernel_heap (constant_platform true 0x21) example_symbols small_map 0x104000 0x8000 small_hw
    example_requests) as (k1 & h1 & Hrun & Hans & _).
  - cbn. lia.
  - exact (always_ready true _ _ (or_introl eq_refl)).
  - intros tr. cbn. discriminate.
  - exact example_symbols_ok.
  - exact small_booted.
  - repeat constructor; try (vm_compute; discriminate).
  - reflexivity.
  - exists k1, h1. split; [exact Hrun|]. rewrite Hans, small_memsize. reflexivity.
Defined.
