(* ===== verification/Holes.v ===== *)
(** * Memory maps with holes, and a heap that is exhausted

    [available_mem_size] counts the usable bytes; [PageAllocator::default] lays
    that many out from 1 MiB on without looking at where they are.  The heap's
    specification, run until the heap is full, shows which addresses the running
    kernel gives out on a map whose usable regions are not contiguous. *)
From Stdlib Require Import ZArith Lia.
From stdpp Require Import base tactics numbers list gmap.
From S2P Require Import Prelude.
From S2P Require Import Machine.
From S2P Require Import Serial.
From S2P Require Import Loader.
From S2P Require Import MemMap.
From S2P Require Import Bitmap.
From S2P Require Import Page.
From S2P Require Import Alloc.
From S2P Require Import Kernel.
From S2P Require Import Main.
From S2P Require Import Interleave.
From S2P Require Import Boot.
From S2P Require Import Heap.

(** ** The physical addresses behind the heap *)

(** [loader.s] maps the addresses from 3 GiB on to the physical ones from 0 on. *)
Definition virt (x : Z) : Z := KERNEL_VADDR_BASE + x.

(** The physical address at which the managed pages end. *)
Definition managed_end (rs : list region) (B : Z) : Z := 0x100000 + memsize rs B / 4096 * 4096.

(** A page of physical memory without a usable byte. *)
Definition in_hole (rs : list region) (x : Z) : Prop := forall y, x <= y < x + 4096 -> covered rs y = false.

Lemma managed_end_bound rs B :
  0 <= B -> 0 < memsize rs B ->
  managed_end rs B <= 0x100000 + memsize rs B /\ 0x100000 + memsize rs B <= 0x100000 + cnt (covered rs) 0x100000 B /\
  0x100000 + memsize rs B <= B.
Proof.
  intros HB Hpos. unfold managed_end. set (c := cnt (covered rs) 0 B).
  assert (0 <= c) as Hc by (apply cnt_bounds; lia).
  assert (memsize rs B <= c) as Hle by (unfold memsize, wrap; fold c; by apply Z.mod_le).
  assert (0x100000 <= B) as HB'.
  { destruct (Z.le_gt_cases 0x100000 B); [done|]. subst c. rewrite cnt_covered_low in Hle by lia. lia. }
  assert (c = cnt (covered rs) 0x100000 B) as Hsplit by by apply cnt_covered.
  pose proof (cnt_bounds (covered rs) 0x100000 B HB'). split_and!; [zlia|lia|lia].
Qed.

(** What a hole takes in is missing above. *)
Lemma hole_leaves_out rs B y :
  0 <= B -> 0 < memsize rs B -> 0x100000 <= y < managed_end rs B -> covered rs y = false ->
  exists z, managed_end rs B <= z < B /\ covered rs z = true.
Proof.
  intros HB Hpos Hy Hhole. destruct (managed_end_bound rs B HB Hpos) as (H1 & H2 & H3).
  apply cnt_pos. pose proof (cnt_hole (covered rs) 0x100000 (managed_end rs B) y Hy Hhole).
  rewrite (cnt_split _ _ (managed_end rs B) B) in H2 by lia. lia.
Qed.

(** ** Filling the heap *)
Section fill.
Context (base count : Z).
Implicit Types (l : Layout).

Lemma vacant_span i j : 0 <= i -> 0 <= j -> vacant count (span 0 i) 1 j <-> i <= j < count.
Proof.
  intros Hi Hj. unfold vacant. split.
  - intros [Hc Hd]. split; [|lia]. apply Z.nlt_ge. intros Hlt. apply (Hd j); apply elem_of_span; lia.
  - intros ?. split; [lia|]. intros x Hx%elem_of_span Hy%elem_of_span. lia.
Qed.

Lemma span_next i : 0 <= i -> span 0 i ∪ span i 1 = span 0 (i + 1).
Proof. intros Hi. apply set_eq. intros x. rewrite elem_of_union, !elem_of_span. lia. Qed.

(** A request that is served. *)
Lemma run_history_served {R S} (step : R -> S -> answer * S) r rs s a s' :
  step r s = (a, s') -> goes_on a = true ->
  (run_history step (r :: rs) s).1 = a :: (run_history step rs s').1.
Proof. intros Hs Ha. cbn [run_history]. rewrite Hs, Ha. by destruct run_history. Qed.

(** One page at a time, from page [i] on, and one request too many. *)
Lemma fill_history l m i b :
  pages l = 1 -> 0 <= i -> i + Z.of_nat m = count ->
  (run_history (spec_step base count) (repeat (Allocate l) (S m)) (MkHeap (span 0 i) b)).1 =
    map (fun j => Block (base + j * 4096)) (seqZ i (Z.of_nat m)) ++ [Refused].
Proof.
  intros Hl. revert i. induction m as [|m IH]; intros i Hi Hm.
  - cbn [repeat run_history spec_step in_use]. rewrite Hl, first_fit_none; [done|].
    intros j Hj. rewrite vacant_span by lia. lia.
  - assert (first_fit count (span 0 i) 1 = Some i) as Hfit.
    { apply first_fit_some; [lia|rewrite vacant_span by lia; lia|]. intros j Hj. rewrite vacant_span by lia. lia. }
    change (repeat ?r (S (S m))) with (r :: repeat r (S m)).
    rewrite (run_history_served _ _ _ _ (Block (base + i * 4096)) (MkHeap (span 0 (i + 1)) b)); [| |done].
    2: { cbn [spec_step in_use bytes]. by rewrite Hl, Hfit, span_next. }
    rewrite IH, (seqZ_cons i) by lia. cbn [map app]. do 4 f_equal; lia.
Qed.
End fill.

(** ** The kernel *)
Section properties.
Context `{Platform}.

(** The blocks given out, in order, when the heap is filled page by page after
    start-up. *)
Definition all_blocks (a : PageAllocator) : list Z :=
  map (fun j => base_addr a + j * 4096) (seqZ 1 (size (bitmap a) - 1)).

Lemma all_blocks_spec rs B p :
  0 <= memsize rs B ->
  let a := allocator_of (memsize rs B) in
  p ∈ all_blocks a <-> p mod 4096 = 0 /\ base_addr a < p < virt (managed_end rs B).
Proof using.
  intros Hn. set (n := memsize rs B) in *. unfold all_blocks, virt, managed_end, KERNEL_VADDR_BASE. fold n.
  cbn [allocator_of base_addr bitmap size]. set (k := bitmap_pages_of n). rewrite list_elem_of_fmap. split.
  - intros (j & -> & Hj%elem_of_seqZ). split; [zlia|lia].
  - intros [Hmod Hp]. exists ((p - (0xc0100000 + k * 4096)) / 4096). rewrite elem_of_seqZ. zlia.
Qed.

Lemma blocks_answered (ps : list Z) p : Block p ∈ map Block ps ++ [Refused] <-> p ∈ ps.
Proof using.
  rewrite elem_of_app, list_elem_of_fmap, list_elem_of_singleton. split.
  - by intros [(q & [= ->] & Hq)|[=]].
  - intros Hq. left. by exists p.
Qed.

(** C26: The heap does not follow the memory map.  Filled page by page after
    start-up, whatever interrupts come in between, the kernel gives out every
    page from behind the box up to [managed_end] and then refuses.  So each page
    of a hole of the map below [managed_end], which has no usable byte, is given
    out as memory, while the map lists usable memory above [managed_end] that is
    in no block. *)
Theorem heap_in_holes sy rs B size0 h l reqs :
  (1 < spin_fuel)%nat -> Responsive 0x3fd OUTPUT_EMPTY -> (forall tr, port_in tr 0x60 ≠ 0) ->
  symbols_ok sy -> booted rs B size0 h -> layout_ok l -> pages l = 1 ->
  let a := allocator_of (memsize rs B) in
  map fst reqs = repeat (Allocate l) (Z.to_nat (size (bitmap a))) -> ticks_in reqs < 2 ^ 64 ->
  exists k1 h1, main sy kernel_start h = (Ok tt, (k1, h1)) /\
    let answers := (run_history kernel_step reqs (k1, h1)).1 in
    answers = map Block (all_blocks a) ++ [Refused] /\
    forall x, x mod 4096 = 0 -> base_addr a < virt x < virt (managed_end rs B) -> in_hole rs x ->
      Block (virt x) ∈ answers /\
      exists z, managed_end rs B <= z < B /\ covered rs z = true /\
        forall p, Block p ∈ answers -> p + layout_size l <= virt z.
Proof.
  intros Hf Hr Hkey Hsy Hb Hl Hp a Hreqs Ht.
  destruct (kernel_heap_run sy rs B size0 h reqs) as (k1 & h1 & Hrun & Hans & _); try done.
  { apply (Forall_fmap fst (allowed a) reqs). change (fst <$> reqs) with (map fst reqs).
    rewrite Hreqs. apply Forall_forall. intros r ->%list_elem_of_In%repeat_spec. exact Hl. }
  exists k1, h1. split; [exact Hrun|]. cbv zeta. rewrite Hans, Hreqs.
  destruct (first_page (memsize rs B)) as [Hsize _]; [destruct Hb; lia|]. fold a in Hsize.
  replace (Z.to_nat (size (bitmap a))) with (S (Z.to_nat (size (bitmap a) - 1))) by lia.
  assert ({[ 0 ]} = span 0 1) as -> by (apply set_eq; intros j; rewrite elem_of_singleton, elem_of_span; lia).
  rewrite (fill_history (base_addr a) (size (bitmap a))) by (done || lia). rewrite Z2Nat.id by lia.
  replace (map _ (seqZ 1 _)) with (map Block (all_blocks a)) by (unfold all_blocks; by rewrite map_map).
  split; [done|].
  intros x Hx Hin Hhole. destruct Hb. split.
  - apply blocks_answered, all_blocks_spec; [lia|]. split; [unfold virt, KERNEL_VADDR_BASE; zlia|exact Hin].
  - destruct (hole_leaves_out rs B x) as (z & Hz & Hc); [lia..| |by apply Hhole; lia|].
    { split; [|unfold virt in Hin; lia]. unfold virt, KERNEL_VADDR_BASE in Hin. cbn in Hin.
      pose proof (bitmap_pages_bounds (memsize rs B)). lia. }
    exists z. split_and!; [apply Hz..|exact Hc|].
    intros p [Hal Hpin]%blocks_answered%all_blocks_spec; [|lia].
    unfold pages in Hp. unfold virt, managed_end, KERNEL_VADDR_BASE in *. zlia.
Qed.
End properties.

(** ** A machine with a hole *)

(** 8 KiB from 1 MiB on and 8 KiB from 2 MiB on. *)
Definition hole_map : list region := [MkRegion 0x100000 0x2000 Usable; MkRegion 0x200000 0x2000 Usable].

Lemma hole_regions_ok : Forall region_ok hole_map.
Proof. repeat constructor; vm_compute; (discriminate || reflexivity). Qed.

Lemma hole_sorted : map_sorted hole_map.
Proof. vm_compute. repeat constructor; discriminate. Qed.

Lemma hole_bound :
  0 <= 0x202000 < 2 ^ 64 /\ Forall (fun r => counted r = true -> r_end r <= 0x202000) hole_map.
Proof. split; [split; [lia|reflexivity]|]. repeat constructor; vm_compute; discriminate. Qed.

Lemma hole_memsize : memsize hole_map 0x202000 = 0x4000.
Proof.
  apply (memsize_eval hole_map 0x202000 ltac:(cbn; lia) hole_regions_ok hole_sorted hole_bound 0x4000).
  by vm_compute.
Qed.

Lemma hole_booted : booted hole_map 0x202000 0x8000 (machine_of hole_map).
Proof.
  exact (machine_booted hole_map 0x202000 ltac:(cbn; lia) hole_regions_ok hole_sorted hole_bound hole_memsize).
Qed.

(** The page at 0x103000 lies between the regions. *)
Lemma hole_page : in_hole hole_map 0x103000.
Proof.
  intros y Hy. apply not_true_iff_false. unfold covered. rewrite existsb_exists.
  intros (r & Hin & Hr). unfold in_region, r_end in Hr.
  apply andb_true_iff in Hr as [[_ Hl%Z.leb_le]%andb_true_iff Hu%Z.ltb_lt].
  destruct Hin as [<-|[<-|[]]]; cbn in Hl, Hu; lia.
Qed.

Definition hole_requests : list (request * list (list irq)) :=
  [(Allocate (MkLayout 100 4), [[Keyboard]]); (Allocate (MkLayout 100 4), []); (Allocate (MkLayout 100 4), [[Timer]])].

Lemma hole_requests_fill :
  map fst hole_requests =
    repeat (Allocate (MkLayout 100 4)) (Z.to_nat (size (bitmap (allocator_of (memsize hole_map 0x202000))))).
Proof. by rewrite hole_memsize. Qed.

Lemma hole_end : managed_end hole_map 0x202000 = 0x104000.
Proof. unfold managed_end. by rewrite hole_memsize. Qed.

Lemma hole_page_managed :
  base_addr (allocator_of (memsize hole_map 0x202000)) < virt 0x103000 < virt (managed_end hole_map 0x202000).
Proof. rewrite hole_end, hole_memsize. vm_compute. by split. Qed.

Lemma hole_answers :
  map Block (all_blocks (allocator_of (memsize hole_map 0x202000))) ++ [Refused] =
    [Block 0xc0102000; Block 0xc0103000; Refused].
Proof. by rewrite hole_memsize. Qed.

Lemma heap_in_holes_witness :
  exists k1 h1 z,
    @main (constant_platform true 0x21) example_symbols kernel_start (machine_of hole_map) = (Ok tt, (k1, h1)) /\
    (run_history (@kernel_step (constant_platform true 0x21)) hole_requests (k1, h1)).1 =
      [Block 0xc0102000; Block 0xc0103000; Refused] /\
    0x104000 <= z /\ covered hole_map z = true.
Proof.
  destruct (@heap_in_holes (constant_platform true 0x21) example_symbols hole_map 0x202000 0x8000
    (machine_of hole_map) (MkLayout 100 4) hole_requests) as (k1 & h1 & Hrun & Hans & Hholes).
  - cbn. lia.
  - exact (always_ready true _ _ (or_introl eq_refl)).
  - intros tr. cbn. discriminate.
  - exact example_symbols_ok.
  - exact hole_booted.
  - split; cbn; lia.
  - reflexivity.
  - exact hole_requests_fill.
  - reflexivity.
  - destruct (Hholes 0x103000 eq_refl hole_page_managed hole_page) as (_ & z & Hz & Hc & _).
    rewrite hole_end in Hz. exists k1, h1, z.
    split; [exact Hrun|]. split; [exact (eq_trans Hans hole_answers)|]. split; [exact (proj1 Hz)|exact Hc].
Defined.
