(* ===== verification/Lines.v ===== *)
(** * Interrupt lines: the two 8259A, the processor and the handlers

    The board's interrupt system as a state machine.  A device raises a line;
    the pair of interrupt controllers, in the mode [pic_init] puts them in, picks
    the most urgent request that no interrupt in service outranks; the
    processor acknowledges it, looks its vector up in the table the kernel
    built and runs the handler it finds, or the handler of the exception it
    gets for a vector without one; the handler's port writes reach the
    controllers again.  The theorems say which lines the kernel serves
    however the others behave, and what becomes of the ones it does not. *)
From Stdlib Require Import ZArith Lia.
From stdpp Require Import base tactics numbers list gmap relations.
From S2P Require Import Prelude.
From S2P Require Import Machine.
From S2P Require Import Fmt.
From S2P Require Import X86.
From S2P Require Import Pic.
From S2P Require Import Serial.
From S2P Require Import Vga.
From S2P Require Import Singleton.
From S2P Require Import Loader.
From S2P Require Import MemMap.
From S2P Require Import Page.
From S2P Require Import Alloc.
From S2P Require Import Intr.
From S2P Require Import Kernel.
From S2P Require Import Main.
From S2P Require Import Interleave.
From S2P Require Import Boot.

(** ** One controller: requests and interrupts in service *)
Record chip := MkChip {
  programmed : pic8259;
  requests : gset Z;         (** IRR: inputs 0 to 7 *)
  in_service : gset Z        (** ISR *)
}.

(** The most urgent of a set of inputs: the least. *)
Definition most_urgent (X : gset Z) : option Z := snd <$> list_find (.∈ X) (seqZ 0 8).

(** OCW2: the non-specific end of interrupt.  (The kernel sends no other.) *)
Definition is_eoi (v : Z) : bool := Z.land v 0xf8 =? 0x20.

Definition chip_event (ctrl : Z) (c : chip) (e : io_event) : chip :=
  match e with
  | Out port v =>
      if port =? ctrl then
        if Z.testbit v 4 then MkChip (pic_ctrl_write v (programmed c)) ∅ ∅
        else if is_eoi v then
          MkChip (programmed c) (requests c)
            (match most_urgent (in_service c) with Some i => in_service c ∖ {[ i ]} | None => in_service c end)
        else c
      else if port =? ctrl + 1 then MkChip (pic_data_write v (programmed c)) (requests c) (in_service c)
      else c
  | In _ _ => c
  end.

(** Fully nested mode: an unmasked request more urgent than all in service. *)
Definition eligible (c : chip) (i : Z) : Prop :=
  Z.testbit (imr (programmed c)) i = false /\ set_Forall (fun j => i < j) (in_service c).

#[export] Instance eligible_dec c i : Decision (eligible c i).
Proof. unfold eligible. apply _. Defined.

Definition chip_pick (c : chip) (raised : gset Z) : option Z := most_urgent (filter (eligible c) raised).

(** ** The pair: the slave's output is input 2 of the master *)
Record board := MkBoard { master : chip; slave : chip }.

Definition board_event (b : board) (e : io_event) : board :=
  MkBoard (chip_event PIC0_CTRL (master b) e) (chip_event PIC1_CTRL (slave b) e).

Definition board_after (es : list io_event) (b : board) : board := fold_left board_event es b.

(** Lines 0 to 15 as the board numbers them; 2 is the cascade, no device is on it. *)
Definition valid_line (l : Z) : Prop := 0 <= l < 16 /\ l ≠ 2.

(** The input of the master through which a line comes, which is its priority. *)
Definition input (l : Z) : Z := if l <? 8 then l else 2.

Definition raise (l : Z) (b : board) : board :=
  if l <? 8 then
    MkBoard (MkChip (programmed (master b)) ({[ l ]} ∪ requests (master b)) (in_service (master b))) (slave b)
  else
    MkBoard (master b)
      (MkChip (programmed (slave b)) ({[ l - 8 ]} ∪ requests (slave b)) (in_service (slave b))).

Definition board_pick (b : board) : option Z :=
  let s := chip_pick (slave b) (requests (slave b)) in
  let cascade : gset Z := match s with Some _ => {[ 2 ]} | None => ∅ end in
  match chip_pick (master b) (requests (master b) ∪ cascade) with
  | Some i => if i =? 2 then Z.add 8 <$> s else Some i
  | None => None
  end.

(** INTA: the request becomes an interrupt in service. *)
Definition acknowledge (l : Z) (b : board) : board :=
  if l <? 8 then
    MkBoard (MkChip (programmed (master b)) (requests (master b) ∖ {[ l ]}) ({[ l ]} ∪ in_service (master b)))
      (slave b)
  else
    MkBoard (MkChip (programmed (master b)) (requests (master b)) ({[ 2 ]} ∪ in_service (master b)))
      (MkChip (programmed (slave b)) (requests (slave b) ∖ {[ l - 8 ]}) ({[ l - 8 ]} ∪ in_service (slave b))).

Definition vector_of (b : board) (l : Z) : Z := irq_vector (programmed (master b)) (programmed (slave b)) l.

(** ** The processor *)
Section processor.
Context `{Platform} (sy : Symbols).

(** The gate of a vector, in the table the kernel keeps at its symbol. *)
Definition gate_at (k : Kernel) (h : Hw) (v : Z) : option gate :=
  match reg_idtr h, data (intr_table k) with
  | Some idtr, Some t => if idtr.1 =? intr_table_sym sy then cpu_gate idtr (idt_bytes t) v else None
  | _, _ => None
  end.

(** The function at an address, called with a frame and an error code. *)
Definition handler_at (p : Z) (f : ExceptionStackFrame) (code : Z) : M Kernel unit :=
  if p =? timer_sym sy then timer_handler
  else if p =? keyboard_sym sy then keyboard_handler
  else if p =? segment_not_present_sym sy then segment_not_present_handler f code
  else if p =? breakpoint_sym sy then breakpoint_handler f
  else if p =? page_fault_sym sy then page_fault_handler f code
  else if p =? double_fault_sym sy then double_fault_handler f code
  else lift Undefined.

(** Vector [v] from outside: its handler, or for a gate that is not present
    exception 11, whose error code names the vector and the two facts that
    the table and an external event were involved. *)
Definition interrupt (v : Z) (f : ExceptionStackFrame) : M Kernel unit := fun k h =>
  match gate_at k h v with
  | Some g =>
      if g_present g then handler_at (g_offset g) f 0 k h
      else match gate_at k h 11 with
           | Some g' => if g_present g' then handler_at (g_offset g') f (v * 8 + 3) k h else lift Undefined k h
           | None => lift Undefined k h
           end
  | None => lift Undefined k h
  end.
End processor.

(** ** The machine *)
Record machine := MkMachine { m_kernel : Kernel; m_hw : Hw; m_board : board }.

(** The port accesses from one state of the hardware to a later one. *)
Definition new_events (h h' : Hw) : list io_event :=
  rev (take (length (trace h') - length (trace h)) (trace h')).

Section machine.
Context `{Platform} (sy : Symbols).

(** The processor, in the idle loop with interrupts on, takes the next interrupt:
    the line, and how its handler ended. *)
Definition accept (f : ExceptionStackFrame) (m : machine) : option (Z * result unit * machine) :=
  if reg_if (m_hw m) then
    match board_pick (m_board m) with
    | Some l =>
        let '(r, (k', h')) := interrupt sy (vector_of (m_board m) l) f (m_kernel m) (m_hw m) in
        Some (l, r, MkMachine k' h' (board_after (new_events (m_hw m) h') (acknowledge l (m_board m))))
    | None => None
    end
  else None.

(** A run of the idle loop, and the lines whose interrupts were taken in it, in order. *)
Inductive idles : machine -> list Z -> machine -> Prop :=
  | idles_start m : idles m [] m
  | idles_raise m ls m' l : idles m ls m' -> valid_line l ->
      idles m ls (MkMachine (m_kernel m') (m_hw m') (raise l (m_board m')))
  | idles_accept m ls m' f l m2 : idles m ls m' -> accept f m' = Some (l, Ok tt, m2) ->
      idles m (ls ++ [l]) m2.
End machine.

(** ** Lemmas: the controllers *)
Section controllers.
Implicit Types (c : chip) (b : board) (X : gset Z) (i j l : Z) (es : list io_event).

Lemma most_urgent_some X i :
  i ∈ X -> 0 <= i < 8 -> (forall j, j ∈ X -> 0 <= j < 8 -> i <= j) -> most_urgent X = Some i.
Proof.
  intros Hin Hi Hleast. unfold most_urgent.
  enough (list_find (.∈ X) (seqZ 0 8) = Some (Z.to_nat i, i)) as -> by done.
  apply list_find_Some. split_and!; [apply lookup_seqZ; lia|done|].
  intros n j Hj Hlt Hjin. apply lookup_seqZ in Hj as [-> ?]. specialize (Hleast _ Hjin). lia.
Qed.

Lemma most_urgent_inv X i :
  most_urgent X = Some i -> i ∈ X /\ 0 <= i < 8.
Proof.
  unfold most_urgent. destruct list_find as [[n j]|] eqn:Hf; intros [= <-].
  apply list_find_Some in Hf as (Hj & Hin & _). apply lookup_seqZ in Hj as [-> ?]. split; [done|lia].
Qed.

Lemma chip_pick_some c X i :
  i ∈ X -> 0 <= i < 8 -> eligible c i -> (forall j, j ∈ X -> 0 <= j < 8 -> i <= j) -> chip_pick c X = Some i.
Proof.
  intros Hin Hi He Hleast. apply most_urgent_some; [by apply elem_of_filter|done|].
  intros j [_ Hj]%elem_of_filter. by apply Hleast.
Qed.

Lemma chip_pick_inv c X i : chip_pick c X = Some i -> i ∈ X /\ 0 <= i < 8 /\ eligible c i.
Proof. intros [[He Hin]%elem_of_filter Hi]%most_urgent_inv. done. Qed.

(** Other events do not reach the controllers. *)
Lemma board_event_other b e : to_pic e = false -> board_event b e = b.
Proof.
  destruct b as [m s], e as [p v|p v]; [done|]. unfold to_pic, board_event, chip_event; cbn [master slave].
  intros Hp. rewrite !orb_false_iff in Hp. destruct Hp as [[[H0 H1] H2] H3].
  change (PIC0_CTRL + 1) with PIC0_DATA. change (PIC1_CTRL + 1) with PIC1_DATA. by rewrite H0, H1, H2, H3.
Qed.

Lemma board_after_pic es b : board_after es b = board_after (pic_writes es) b.
Proof.
  revert b. induction es as [|e es IH]; intros b; [done|]. cbn [pic_writes List.filter board_after fold_left].
  fold (pic_writes es) (board_after es (board_event b e)). destruct (to_pic e) eqn:He.
  - apply IH.
  - rewrite board_event_other by done. apply IH.
Qed.

(** The end of the most urgent interrupt in service. *)
Lemma board_eoi b i :
  i ∈ in_service (master b) -> 0 <= i < 8 -> set_Forall (fun j => i <= j) (in_service (master b)) ->
  board_after [EOI] b =
    MkBoard (MkChip (programmed (master b)) (requests (master b)) (in_service (master b) ∖ {[ i ]})) (slave b).
Proof.
  intros Hin Hi Hleast. unfold board_after, board_event, EOI; cbn -[most_urgent].
  rewrite (most_urgent_some _ i); [done..|]. intros j Hj _. by apply Hleast.
Qed.

(** [pic_init] puts both controllers in a known state. *)
Definition idle_chip (base cascade : Z) (req isr : gset Z) : chip :=
  MkChip (MkPic Ready base cascade true 0) req isr.

Lemma board_programmed b :
  board_after pic_programming b = MkBoard (idle_chip 0x20 4 ∅ ∅) (idle_chip 0x28 2 ∅ ∅).
Proof. by destruct b as [[] []]. Qed.

Lemma new_events_log es rows h : new_events h (log_ios es (set_screen rows h)) = es.
Proof.
  unfold new_events. rewrite trace_log_ios; cbn [trace set_screen].
  rewrite length_app, Nat.add_sub, length_rev, <- (length_rev es), take_app_length. apply rev_involutive.
Qed.
End controllers.

(** ** Lemmas: what an interrupt does *)

(** The handlers of the lines and of exception 11 are three functions. *)
Record handlers_apart (sy : Symbols) : Prop := {
  apart_timer_keyboard : timer_sym sy ≠ keyboard_sym sy;
  apart_absent_timer : segment_not_present_sym sy ≠ timer_sym sy;
  apart_absent_keyboard : segment_not_present_sym sy ≠ keyboard_sym sy
}.

(** The lines with a handler: the timer's and the keyboard's. *)
Definition handled (l : Z) : bool := (l =? 0) || (l =? 1).
Definition unhandled (ls : list Z) : list Z := List.filter (fun l => negb (handled l)) ls.

(** The timer interrupts among the lines taken. *)
Definition ticks_of (ls : list Z) : Z := Z.of_nat (length (List.filter (Z.eqb 0) ls)).

Section interrupts.
Context `{Platform} (sy : Symbols).
Implicit Types (k : Kernel) (h : Hw) (l : Z) (f : ExceptionStackFrame).

Definition wired k h : Prop :=
  (forall v p, (v, p) ∈ installed sy -> exists g, gate_at sy k h v = Some g /\ g_present g = true /\ g_offset g = p) /\
  (forall v, 0 <= v < 256 -> v ∉ (installed sy).*1 -> exists g, gate_at sy k h v = Some g /\ g_present g = false).

Lemma wired_same k h k' h' :
  intr_table k' = intr_table k -> reg_idtr h' = reg_idtr h -> wired k h -> wired k' h'.
Proof. intros Ht Hi. unfold wired, gate_at. by rewrite Ht, Hi. Qed.

Lemma idle_wired rs B size h0 t k h :
  symbols_ok sy -> booted rs B size h0 -> idle sy rs B size h0 t k h -> wired k h.
Proof.
  intros Hsy Hb []. destruct (installed_gates sy t (intr_table_sym sy) (reg_cs h0) Hsy) as [Hg Hng];
    [apply Hb|done..|].
  unfold wired, gate_at. rewrite idle_table, idle_idtr. cbn [data fst]. rewrite Z.eqb_refl. split.
  - intros v p Hin. eexists. split; [by apply Hg|]. done.
  - exact Hng.
Qed.

Lemma served_io n h h' : served n h h' -> only_io h h'.
Proof. intros (es & rows & -> & _). by exists es, rows. Qed.

Lemma interrupt_run l f k h :
  (1 < spin_fuel)%nat -> (forall tr, port_in tr 0x60 ≠ 0) -> handlers_apart sy ->
  wired k h -> con_ok k h -> 0 <= ticks k -> ticks k + 1 < 2 ^ 64 -> valid_line l ->
  exists k' h', interrupt sy (0x20 + l) f k h = (Ok tt, (k', h')) /\ con_ok k' h' /\ same_statics k k' /\
    ticks k' = ticks k + ticks_of [l] /\ served (if handled l then 1 else 0) h h'.
Proof.
  intros Hf Hkey [Htk Hat Hak] [Hg Hng] Hcon H0 Hb [Hl Hl2]. unfold interrupt, handled, ticks_of.
  cbn [List.filter]. rewrite (Z.eqb_sym 0 l).
  destruct (Z.eqb_spec l 0) as [->|Hn0]; [|destruct (Z.eqb_spec l 1) as [->|Hn1]]; cbn [orb length].
  - destruct (Hg (0x20 + 0) (timer_sym sy)) as (g & -> & -> & ->); [unfold installed; rewrite !elem_of_cons; tauto|].
    unfold handler_at. rewrite Z.eqb_refl, timer_run by done.
    do 2 eexists. split_and!; [reflexivity|done|done|done|apply served_eoi].
  - destruct (Hg (0x20 + 1) (keyboard_sym sy)) as (g & -> & -> & ->); [unfold installed; rewrite !elem_of_cons; tauto|].
    unfold handler_at. rewrite (proj2 (Z.eqb_neq (keyboard_sym sy) _)), Z.eqb_refl by congruence.
    assert (wp keyboard_handler (fun _ k' h' => con_ok k' h' /\ same_statics k k' /\
      ticks k' = ticks k + 0 /\ served 1 h h') k h) as Hwp.
    { apply wp_keyboard; [done|done|apply Hkey|]. intros k' h' Hc Hs Ht Hsv _ _. split_and!; done || lia. }
    apply wp_run in Hwp as ([] & k' & h' & Hrun & ?). by exists k', h'.
  - destruct (Hng (0x20 + l)) as (g & -> & ->); [lia| |].
    { unfold installed. cbn [fmap list_fmap fst]. rewrite !elem_of_cons, elem_of_nil. lia. }
    destruct (Hg 11 (segment_not_present_sym sy)) as (g' & -> & -> & ->);
      [unfold installed; rewrite !elem_of_cons; tauto|].
    unfold handler_at. rewrite !(proj2 (Z.eqb_neq (segment_not_present_sym sy) _)), Z.eqb_refl by done.
    assert (wp (segment_not_present_handler f ((0x20 + l) * 8 + 3)) (fun _ k' h' => con_ok k' h' /\ same_statics k k' /\
      ticks k' = ticks k + 0 /\ served 0 h h') k h) as Hwp.
    { apply wp_vga_print; [done..|]. intros v h' _ _ Hok Hio.
      split_and!; [split; [right; by exists v|done]|by repeat split|cbn; lia|by apply served_console]. }
    apply wp_run in Hwp as ([] & k' & h' & Hrun & ?). by exists k', h'.
Qed.
End interrupts.

(** ** The invariant of the idle loop *)
Section invariant.
Context `{Platform} (sy : Symbols) (k1 : Kernel) (h1 : Hw).
Implicit Types (m : machine) (l : Z) (ls : list Z) (f : ExceptionStackFrame).

(** The inputs of the master that stay in service: those of the interrupts
    taken that no handler ended. *)
Definition stuck ls : gset Z := list_to_set (map input (unhandled ls)).

Definition board_is ls (b : board) : Prop :=
  exists rm rs ss, b = MkBoard (idle_chip 0x20 4 rm (stuck ls)) (idle_chip 0x28 2 rs ss) /\
    (forall i, i ∈ rm -> 0 <= i < 8 /\ i ≠ 2) /\ (forall i, i ∈ rs -> 0 <= i < 8).

Record lines_inv ls m : Prop := {
  li_con : con_ok (m_kernel m) (m_hw m);
  li_wired : wired sy (m_kernel m) (m_hw m);
  li_statics : same_statics k1 (m_kernel m);
  li_ticks : ticks (m_kernel m) = ticks_of ls;
  li_mem : mem (m_hw m) = mem h1;
  li_if : reg_if (m_hw m) = true;
  li_board : board_is ls (m_board m);
  li_order : forall before l after, ls = before ++ l :: after -> handled l = false -> Forall (fun j => input j < input l) after;
  li_valid : Forall valid_line ls;
  li_count : size (stuck ls) = length (unhandled ls)
}.

Lemma elem_of_stuck ls i : i ∈ stuck ls <-> exists l, l ∈ ls /\ handled l = false /\ input l = i.
Proof using.
  unfold stuck, unhandled. rewrite elem_of_list_to_set, list_elem_of_In, in_map_iff. setoid_rewrite filter_In.
  setoid_rewrite negb_true_iff. setoid_rewrite <- list_elem_of_In.
  split; [intros (x & ? & ? & ?)|intros (x & ? & ? & ?)]; by exists x.
Qed.

Lemma stuck_app ls l : stuck (ls ++ [l]) = if handled l then stuck ls else {[ input l ]} ∪ stuck ls.
Proof using.
  unfold stuck, unhandled. rewrite List.filter_app. cbn [List.filter]. destruct (handled l); cbn [negb].
  - by rewrite app_nil_r.
  - rewrite map_app, list_to_set_app_L. cbn. rewrite union_empty_r_L. apply (comm_L _).
Qed.

Lemma board_pick_inv ls b l :
  board_is ls b -> board_pick b = Some l -> valid_line l /\ set_Forall (fun j => input l < j) (stuck ls).
Proof using.
  intros (rm & rs & ss & -> & Hrm & Hrs) Hpick. unfold board_pick in Hpick; cbn [master slave requests idle_chip] in Hpick.
  destruct (chip_pick (idle_chip 32 4 rm _) _) as [i|] eqn:Hi; [|done].
  apply chip_pick_inv in Hi as (Hin & Hb & [_ He]); cbn [in_service idle_chip] in He.
  destruct (Z.eqb_spec i 2) as [->|Hi2].
  - destruct (chip_pick (idle_chip 40 2 rs ss) rs) as [j|] eqn:Hj; [|done]. injection Hpick as <-.
    apply chip_pick_inv in Hj as (_ & Hj & _). unfold valid_line, input.
    rewrite (proj2 (Z.ltb_ge (8 + j) 8)) by lia. split; [lia|done].
  - injection Hpick as <-. unfold valid_line, input. rewrite (proj2 (Z.ltb_lt i 8)) by lia. split; [lia|done].
Qed.

Lemma board_raise ls b l : board_is ls b -> valid_line l -> board_is ls (raise l b).
Proof using.
  intros (rm & rs & ss & -> & Hrm & Hrs) [Hl Hl2]. unfold raise; cbn [master slave idle_chip requests in_service programmed].
  destruct (Z.ltb_spec l 8).
  - exists ({[ l ]} ∪ rm), rs, ss. split_and!; [done| |done].
    intros i [->%elem_of_singleton|Hi]%elem_of_union; [lia|by apply Hrm].
  - exists rm, ({[ l - 8 ]} ∪ rs), ss. split_and!; [done|done|].
    intros i [->%elem_of_singleton|Hi]%elem_of_union; [lia|by apply Hrs].
Qed.

(** An interrupt taken, and ended by its handler or not. *)
Lemma board_served ls b l es :
  board_is ls b -> valid_line l -> set_Forall (fun j => input l < j) (stuck ls) ->
  pic_writes es = replicate (if handled l then 1 else 0) EOI ->
  board_is (ls ++ [l]) (board_after es (acknowledge l b)).
Proof using.
  intros (rm & rs & ss & -> & Hrm & Hrs) [Hl Hl2] Hmin Hes. rewrite board_after_pic, Hes. unfold board_is.
  rewrite stuck_app. unfold acknowledge; cbn [master slave idle_chip requests in_service programmed].
  destruct (handled l) eqn:Hh.
  - assert (0 <= l < 2 /\ input l = l) as [Hlt Hin].
    { unfold handled in Hh. apply orb_true_iff in Hh as [->%Z.eqb_eq| ->%Z.eqb_eq]; (split; [lia|done]). }
    rewrite Hin in Hmin. rewrite (proj2 (Z.ltb_lt l 8)) by lia. cbn [replicate].
    rewrite (board_eoi _ l); cbn [master slave in_service requests programmed]; [|by apply elem_of_union_l, elem_of_singleton|lia|].
    + exists (rm ∖ {[ l ]}), rs, ss. split_and!; [|intros i [? _]%elem_of_difference; by apply Hrm|done].
      unfold idle_chip. do 2 f_equal. apply set_eq. intros j. specialize (Hmin j). cbn in Hmin.
      rewrite elem_of_difference, elem_of_union, elem_of_singleton. split; [tauto|].
      intros Hj. split; [tauto|]. intros ->. specialize (Hmin Hj). lia.
    + intros j [->%elem_of_singleton|Hj]%elem_of_union; [lia|]. specialize (Hmin j Hj). cbn in Hmin. lia.
  - cbn [replicate board_after fold_left]. unfold input. destruct (Z.ltb_spec l 8).
    + exists (rm ∖ {[ l ]}), rs, ss. split_and!; [done|intros i [? _]%elem_of_difference; by apply Hrm|done].
    + exists rm, (rs ∖ {[ l - 8 ]}), ({[ l - 8 ]} ∪ ss).
      split_and!; [done|done|intros i [? _]%elem_of_difference; by apply Hrs].
Qed.
Lemma vector_of_line ls b l : board_is ls b -> vector_of b l = 0x20 + l.
Proof using.
  intros (rm & rs & ss & -> & _). unfold vector_of, irq_vector; cbn [master slave programmed idle_chip vector_base].
  destruct (Z.ltb_spec l 8); lia.
Qed.

Lemma ticks_of_app ls ls' : ticks_of (ls ++ ls') = ticks_of ls + ticks_of ls'.
Proof using. unfold ticks_of. rewrite List.filter_app, length_app. lia. Qed.

Lemma ticks_of_bound ls : 0 <= ticks_of ls <= Z.of_nat (length ls).
Proof using. unfold ticks_of. pose proof (List.filter_length_le (Z.eqb 0) ls). lia. Qed.

(** Lines taken after one without a handler are more urgent than it. *)
Lemma order_app ls l :
  (forall before x after, ls = before ++ x :: after -> handled x = false -> Forall (fun j => input j < input x) after) ->
  set_Forall (fun j => input l < j) (stuck ls) ->
  forall before x after, ls ++ [l] = before ++ x :: after -> handled x = false ->
    Forall (fun j => input j < input x) after.
Proof using.
  intros Hord Hmin before x after Heq Hx. destruct after as [|y after _] using rev_ind; [done|].
  rewrite app_comm_cons, app_assoc in Heq. apply app_inj_tail in Heq as [Heq ->].
  apply Forall_app. split; [by eapply Hord|]. apply Forall_singleton, Hmin, elem_of_stuck.
  exists x. split_and!; [|done..]. rewrite Heq. apply elem_of_app. right. left.
Qed.

Lemma count_app ls l :
  size (stuck ls) = length (unhandled ls) -> set_Forall (fun j => input l < j) (stuck ls) ->
  size (stuck (ls ++ [l])) = length (unhandled (ls ++ [l])).
Proof using.
  intros Hc Hmin. rewrite stuck_app. unfold unhandled. rewrite List.filter_app, length_app. cbn [List.filter].
  fold (unhandled ls). destruct (handled l); cbn [negb length]; [lia|].
  rewrite size_union, size_singleton; [lia|]. apply disjoint_singleton_l. intros Hin. specialize (Hmin _ Hin). cbn in Hmin. lia.
Qed.

Lemma accept_run ls m f l :
  (1 < spin_fuel)%nat -> (forall tr, port_in tr 0x60 ≠ 0) -> handlers_apart sy ->
  lines_inv ls m -> Z.of_nat (length ls) + 1 < 2 ^ 64 -> board_pick (m_board m) = Some l ->
  exists m', accept sy f m = Some (l, Ok tt, m') /\ lines_inv (ls ++ [l]) m'.
Proof using.
  intros Hf Hkey Hsy [Hcon Hw Hs Ht Hm Hif Hbd Hord Hval Hcnt] Hlen Hpick. pose proof (ticks_of_bound ls).
  destruct (board_pick_inv _ _ _ Hbd Hpick) as [Hl Hmin].
  destruct (interrupt_run sy l f (m_kernel m) (m_hw m)) as (k' & h' & Hrun & Hcon' & Hs' & Ht' & Hsv);
    [done..|lia|lia|done|].
  unfold accept. rewrite Hif, Hpick, (vector_of_line ls), Hrun by done.
  eexists. split; [reflexivity|]. destruct (only_io_regs _ _ (served_io _ _ _ Hsv)) as (Hm' & _ & _ & _ & Hi' & Hif').
  pose proof Hs as (?&?&?). pose proof Hs' as (?&?&?). split; cbn [m_kernel m_hw m_board].
  - done.
  - by eapply wired_same.
  - split_and!; congruence.
  - rewrite ticks_of_app. lia.
  - congruence.
  - congruence.
  - destruct Hsv as (es & rows & -> & Hes). rewrite new_events_log. by apply board_served.
  - by apply order_app.
  - apply Forall_app. by split; [|constructor].
  - by apply count_app.
Qed.

(** The invariant holds all along; [idles] with fewer than 2^64 interrupts. *)
Lemma idles_inv m0 ls m :
  (1 < spin_fuel)%nat -> (forall tr, port_in tr 0x60 ≠ 0) -> handlers_apart sy ->
  lines_inv [] m0 -> idles sy m0 ls m -> Z.of_nat (length ls) < 2 ^ 64 -> lines_inv ls m.
Proof using.
  intros Hf Hkey Hsy H0 Hrun. induction Hrun as [m|m ls m' l _ IH Hl|m ls m' f l m2 _ IH Hacc]; intros Hlen; [done| |].
  - destruct (IH H0 Hlen). split; try done. by apply board_raise.
  - rewrite length_app in Hlen; cbn in Hlen. specialize (IH H0 ltac:(lia)).
    assert (board_pick (m_board m') = Some l) as Hpick.
    { unfold accept in Hacc. destruct (reg_if (m_hw m')), (board_pick (m_board m')) as [l'|]; try done.
      destruct (interrupt sy _ _ _ _) as [r [k' h']]. by injection Hacc as -> _ _. }
    destruct (accept_run ls m' f l Hf Hkey Hsy IH ltac:(lia) Hpick) as (m3 & Hacc' & Hinv).
    rewrite Hacc in Hacc'. by injection Hacc' as ->.
Qed.

Lemma stuck_range ls i : Forall valid_line ls -> i ∈ stuck ls -> 2 <= i < 8.
Proof using.
  intros Hval (l & Hl & Hh & <-)%elem_of_stuck. rewrite Forall_forall in Hval. destruct (Hval l Hl) as [Hb H2].
  unfold handled in Hh. apply orb_false_iff in Hh as [H0%Z.eqb_neq H1%Z.eqb_neq].
  unfold input. destruct (Z.ltb_spec l 8); lia.
Qed.

(** The lines with handlers outrank everything that is ever in service. *)
Lemma pick_handled ls m l :
  lines_inv ls m -> handled l = true -> l ∈ requests (master (m_board m)) ->
  (forall j, j ∈ requests (master (m_board m)) -> l <= j) -> board_pick (m_board m) = Some l.
Proof using.
  intros [_ _ _ _ _ _ (rm & rs & ss & -> & Hrm & Hrs) _ Hval _] Hh Hl Hleast.
  assert (0 <= l < 2) as Hb by (unfold handled in Hh; apply orb_true_iff in Hh as [?%Z.eqb_eq|?%Z.eqb_eq]; lia).
  unfold board_pick; cbn [master slave requests idle_chip] in *.
  set (s := chip_pick (idle_chip 40 2 rs ss) rs).
  rewrite (chip_pick_some _ _ l); [by rewrite (proj2 (Z.eqb_neq l 2)) by lia|by apply elem_of_union_l|lia| |].
  - split; [apply Z.testbit_0_l|]. intros j Hj. cbn. pose proof (stuck_range ls j Hval Hj). lia.
  - intros j [Hj|Hj]%elem_of_union _; [by apply Hleast|].
    destruct s; [apply elem_of_singleton in Hj; lia|by apply elem_of_empty in Hj].
Qed.

Lemma request_range ls m i : lines_inv ls m -> i ∈ requests (master (m_board m)) -> 0 <= i < 8.
Proof using. intros [_ _ _ _ _ _ (rm & rs & ss & -> & Hrm & _) _ _ _] Hi. by apply Hrm. Qed.

Lemma unhandled_bound ls m : lines_inv ls m -> (length (unhandled ls) <= 6)%nat.
Proof using.
  intros []. rewrite <- li_count0. change 6%nat with (length (seqZ 2 6)).
  rewrite <- (size_list_to_set (C := gset Z)) by apply NoDup_seqZ. apply subseteq_size.
  intros i Hi%stuck_range; [|done]. rewrite elem_of_list_to_set, elem_of_seqZ. lia.
Qed.
End invariant.

(** ** The kernel and its lines *)
Section properties.
Context `{Platform}.
Implicit Types (b : board) (ls : list Z).

(** The controllers after start-up, whatever they held before. *)
Lemma booted_board sy rs B size h b0 t k1 h1 :
  idle sy rs B size h t k1 h1 ->
  board_after (new_events h h1) b0 = MkBoard (idle_chip 0x20 4 ∅ ∅) (idle_chip 0x28 2 ∅ ∅).
Proof.
  intros [_ _ _ _ _ _ _ _ _ _ [_ _ _ (es & Htr & _ & Hpic)]].
  unfold new_events. rewrite Htr, length_app, Nat.add_sub, take_app_length, rev_involutive.
  rewrite board_after_pic, Hpic. apply board_programmed.
Qed.

Lemma booted_inv sy rs B size h b0 t k1 h1 :
  symbols_ok sy -> booted rs B size h -> idle sy rs B size h t k1 h1 ->
  lines_inv sy k1 h1 [] (MkMachine k1 h1 (board_after (new_events h h1) b0)).
Proof.
  intros Hsy Hb Hidle. rewrite (booted_board sy rs B size h b0 t k1) by done.
  pose proof Hidle as [Hcon _ _ _ _ Hif Ht _ _ _ _]. split; cbn [m_kernel m_hw m_board]; try done.
  - by eapply idle_wired.
  - exists ∅, ∅, ∅. split_and!; [done|by intros i ?%elem_of_empty..].
  - by intros [].
Qed.

(** C12: The timer and the keyboard are always served: whatever lines devices
    raise, with handlers or without, and whatever interrupts the idle loop has
    taken, the console is usable, memory and the other statics are as start-up
    left them and the tick count is the number of timer interrupts taken; a
    waiting timer interrupt is the next one taken, a waiting keyboard interrupt
    the next after it; and whichever is taken, its handling returns. *)
Theorem lines_served sy rs B size h b0 :
  (1 < spin_fuel)%nat -> Responsive 0x3fd OUTPUT_EMPTY -> (forall tr, port_in tr 0x60 ≠ 0) ->
  symbols_ok sy -> handlers_apart sy -> booted rs B size h ->
  exists k1 h1, main sy kernel_start h = (Ok tt, (k1, h1)) /\
    forall ls m, idles sy (MkMachine k1 h1 (board_after (new_events h h1) b0)) ls m ->
      Z.of_nat (length ls) + 1 < 2 ^ 64 ->
      con_ok (m_kernel m) (m_hw m) /\ same_statics k1 (m_kernel m) /\ mem (m_hw m) = mem h1 /\
      ticks (m_kernel m) = ticks_of ls /\
      let pending := requests (master (m_board m)) in
      (0 ∈ pending -> board_pick (m_board m) = Some 0) /\
      (1 ∈ pending -> 0 ∉ pending -> board_pick (m_board m) = Some 1) /\
      forall f l, board_pick (m_board m) = Some l -> exists m', accept sy f m = Some (l, Ok tt, m').
Proof.
  intros Hf Hr Hkey Hsy Hap Hb.
  destruct (proj1 (wp_run _ _ _ _) (main_run sy rs B size h Hf Hr Hsy Hb)) as ([] & k1 & h1 & Hrun & t & Hidle).
  exists k1, h1. split; [exact Hrun|]. intros ls m Hruns Hlen.
  pose proof (booted_inv sy rs B size h b0 t k1 h1 Hsy Hb Hidle) as H0.
  pose proof (idles_inv sy k1 h1 _ ls m Hf Hkey Hap H0 Hruns ltac:(lia)) as Hinv. pose proof Hinv as [].
  do 4 (split; [done|]). cbv zeta. split_and!.
  - intros Hp. apply (pick_handled sy k1 h1 ls); [done..|].
    intros j Hj. by apply (request_range sy k1 h1 ls m j).
  - intros Hp H0'. apply (pick_handled sy k1 h1 ls); [done..|].
    intros j Hj. destruct (request_range sy k1 h1 ls m j Hinv Hj). enough (j ≠ 0) by lia. by intros ->.
  - intros f l Hpick. destruct (accept_run sy k1 h1 ls m f l Hf Hkey Hap Hinv Hlen Hpick) as (m' & Hacc & _).
    by exists m'.
Qed.

(** C27: A line without a handler is served at most once, and takes the lines
    behind it with it: its vector has no gate, the exception handler that runs
    instead sends no end of interrupt, so the interrupt stays in service and
    only more urgent lines are taken from then on (all lines of the slave
    count as its input of the master).  At most six such interrupts are ever
    taken. *)
Theorem lines_lost sy rs B size h b0 :
  (1 < spin_fuel)%nat -> Responsive 0x3fd OUTPUT_EMPTY -> (forall tr, port_in tr 0x60 ≠ 0) ->
  symbols_ok sy -> handlers_apart sy -> booted rs B size h ->
  exists k1 h1, main sy kernel_start h = (Ok tt, (k1, h1)) /\
    forall ls m, idles sy (MkMachine k1 h1 (board_after (new_events h h1) b0)) ls m ->
      Z.of_nat (length ls) + 1 < 2 ^ 64 ->
      (length (unhandled ls) <= 6)%nat /\
      forall before l after, ls = before ++ l :: after -> handled l = false ->
        Forall (fun j => input j < input l) after /\
        forall j, board_pick (m_board m) = Some j -> input j < input l.
Proof.
  intros Hf Hr Hkey Hsy Hap Hb.
  destruct (proj1 (wp_run _ _ _ _) (main_run sy rs B size h Hf Hr Hsy Hb)) as ([] & k1 & h1 & Hrun & t & Hidle).
  exists k1, h1. split; [exact Hrun|]. intros ls m Hruns Hlen.
  pose proof (booted_inv sy rs B size h b0 t k1 h1 Hsy Hb Hidle) as H0.
  pose proof (idles_inv sy k1 h1 _ ls m Hf Hkey Hap H0 Hruns ltac:(lia)) as Hinv.
  split; [by eapply unhandled_bound|]. intros before l after Hls Hl. destruct Hinv.
  split; [by eapply li_order0|]. intros j Hpick.
  destruct (board_pick_inv _ _ _ li_board0 Hpick) as [_ Hmin]. apply Hmin, elem_of_stuck.
  exists l. split_and!; [|done..]. rewrite Hls. apply elem_of_app. right. left.
Qed.
End properties.

(** ** A machine with devices *)
Definition unprogrammed : board :=
  MkBoard (MkChip (MkPic Ready 0 0 false 0) ∅ ∅) (MkChip (MkPic Ready 0 0 false 0) ∅ ∅).

Lemma small_idle k1 h1 :
  @main (constant_platform true 0x21) example_symbols kernel_start small_hw = (Ok tt, (k1, h1)) ->
  exists t, idle example_symbols small_map 0x104000 0x8000 small_hw t k1 h1.
Proof.
  intros Hrun. pose proof (proj1 (wp_run _ _ _ _) (@main_run (constant_platform true 0x21) example_symbols small_map
    0x104000 0x8000 small_hw ltac:(cbn; lia) (always_ready true _ _ (or_introl eq_refl)) example_symbols_ok small_booted))
    as (u & k & h & Hrun' & t & Hidle).
  exists t. rewrite Hrun in Hrun'. injection Hrun' as _ <- <-. exact Hidle.
Qed.

Lemma raised l b : l < 8 -> l ∈ requests (master (raise l b)).
Proof. intros Hl. unfold raise. rewrite (proj2 (Z.ltb_lt l 8)) by done. by apply elem_of_union_l, elem_of_singleton. Qed.

Lemma example_handlers_apart : handlers_apart example_symbols.
Proof. by split. Qed.

(** From what [lines_served] says of a machine: a tick, taken; then a key and
    another tick at once: the tick comes first. *)
Lemma tick_then_both `{Platform} sy m0 (f : ExceptionStackFrame) :
  (forall ls m, idles sy m0 ls m -> Z.of_nat (length ls) + 1 < 2 ^ 64 ->
    ticks (m_kernel m) = ticks_of ls /\
    (0 ∈ requests (master (m_board m)) -> board_pick (m_board m) = Some 0) /\
    forall f l, board_pick (m_board m) = Some l -> exists m', accept sy f m = Some (l, Ok tt, m')) ->
  exists m m', idles sy m0 [0] m /\ ticks (m_kernel m) = 1 /\ 1 ∈ requests (master (m_board m)) /\
    accept sy f m = Some (0, Ok tt, m').
Proof.
  intros Hall. set (up := fun l m => MkMachine (m_kernel m) (m_hw m) (raise l (m_board m))).
  assert (idles sy m0 [] (up 0 m0)) as Hup by by apply idles_raise; [apply idles_start|].
  destruct (Hall _ _ Hup) as (_ & Hp & Hacc); [done|].
  destruct (Hacc f 0 (Hp (raised 0 (m_board m0) eq_refl))) as (m1 & Hm1).
  pose proof (idles_accept sy _ _ _ _ _ _ Hup Hm1) as Hidle1.
  assert (idles sy m0 [0] (up 0 (up 1 m1))) as Hup2 by by do 2 (apply idles_raise; [|done]).
  destruct (Hall _ _ Hup2) as (Ht & Hp2 & Hacc2); [done|].
  destruct (Hacc2 f 0 (Hp2 (raised 0 (m_board (up 1 m1)) eq_refl))) as (m2 & Hm2).
  exists (up 0 (up 1 m1)), m2. split_and!; [done|done| |done].
  unfold up, raise; cbn -[union singleton]. apply elem_of_union_r, elem_of_union_l, elem_of_singleton. done.
Qed.

Lemma lines_served_witness :
  exists k1 h1, @main (constant_platform true 0x21) example_symbols kernel_start small_hw = (Ok tt, (k1, h1)) /\
  exists m m', @idles (constant_platform true 0x21) example_symbols
      (MkMachine k1 h1 (board_after (new_events small_hw h1) unprogrammed)) [0] m /\
    ticks (m_kernel m) = 1 /\ 1 ∈ requests (master (m_board m)) /\
    @accept (constant_platform true 0x21) example_symbols (MkFrame 0 0 0 0 0) m = Some (0, Ok tt, m').
Proof.
  destruct (@lines_served (constant_platform true 0x21) example_symbols small_map 0x104000 0x8000 small_hw unprogrammed)
    as (k1 & h1 & Hrun & Hall).
  - cbn. lia.
  - exact (always_ready true _ _ (or_introl eq_refl)).
  - intros tr. cbn. discriminate.
  - exact example_symbols_ok.
  - exact example_handlers_apart.
  - exact small_booted.
  - exists k1, h1. split; [exact Hrun|]. apply tick_then_both. intros ls m Hls Hlen.
    destruct (Hall ls m Hls Hlen) as (_ & _ & _ & Ht & Hp & _ & Hacc). split; [exact Ht|]. split; [exact Hp|exact Hacc].
Defined.

(** From what [lines_lost] says: a byte arrives on the serial line, for which
    [serial_default] has the port request line 4. *)
Lemma line_4_taken `{Platform} sy k1 h1 m0 (f : ExceptionStackFrame) :
  (1 < spin_fuel)%nat -> (forall tr, port_in tr 0x60 ≠ 0) -> handlers_apart sy -> lines_inv sy k1 h1 [] m0 ->
  m_board m0 = MkBoard (idle_chip 0x20 4 ∅ ∅) (idle_chip 0x28 2 ∅ ∅) -> exists m, idles sy m0 [4] m.
Proof.
  intros Hf Hkey Hap Hinv Hb. set (m := MkMachine (m_kernel m0) (m_hw m0) (raise 4 (m_board m0))).
  assert (idles sy m0 [] m) as Hup by by apply idles_raise; [apply idles_start|].
  destruct (accept_run sy k1 h1 [] m f 4 Hf Hkey Hap) as (m' & Hacc & _).
  - by apply (idles_inv sy k1 h1 m0).
  - done.
  - unfold m; cbn [m_board]. rewrite Hb. by vm_compute.
  - exists m'. by apply (idles_accept sy _ _ _ _ _ _ Hup Hacc).
Qed.

(** Afterwards nothing at or behind line 4 is ever taken. *)
Lemma lines_lost_witness :
  exists k1 h1, @main (constant_platform true 0x21) example_symbols kernel_start small_hw = (Ok tt, (k1, h1)) /\
  exists m, @idles (constant_platform true 0x21) example_symbols
      (MkMachine k1 h1 (board_after (new_events small_hw h1) unprogrammed)) [4] m /\
    forall j, board_pick (m_board m) = Some j -> input j < 4.
Proof.
  destruct (@lines_lost (constant_platform true 0x21) example_symbols small_map 0x104000 0x8000 small_hw unprogrammed)
    as (k1 & h1 & Hrun & Hall).
  - cbn. lia.
  - exact (always_ready true _ _ (or_introl eq_refl)).
  - intros tr. cbn. discriminate.
  - exact example_symbols_ok.
  - exact example_handlers_apart.
  - exact small_booted.
  - exists k1, h1. split; [exact Hrun|]. destruct (small_idle k1 h1 Hrun) as (t & Hidle).
    destruct (@line_4_taken (constant_platform true 0x21) example_symbols k1 h1
      (MkMachine k1 h1 (board_after (new_events small_hw h1) unprogrammed)) (MkFrame 0 0 0 0 0)) as (m & Hm).
    + cbn. lia.
    + intros tr. cbn. discriminate.
    + exact example_handlers_apart.
    + exact (booted_inv _ _ _ _ _ _ _ _ _ example_symbols_ok small_booted Hidle).
    + exact (booted_board _ _ _ _ _ _ _ _ _ Hidle).
    + exists m. split; [exact Hm|]. destruct (Hall [4] m Hm eq_refl) as (_ & Hl).
      exact (proj2 (Hl [] 4 [] eq_refl eq_refl)).
Defined.
