(* ===== verification/Uptime.v ===== *)
(** * The running kernel: start-up and everything that interrupts it

    Start-up with timer interrupts in its last part, between any two accesses,
    followed by the interrupts of the idle loop. *)
From Stdlib Require Import ZArith Lia.
From stdpp Require Import base tactics numbers list gmap.
From S2P Require Import Prelude.
From S2P Require Import Machine.
From S2P Require Import Serial.
From S2P Require Import Vga.
From S2P Require Import Singleton.
From S2P Require Import Steps.
From S2P Require Import Loader.
From S2P Require Import MemMap.
From S2P Require Import Bitmap.
From S2P Require Import Page.
From S2P Require Import Alloc.
From S2P Require Import Intr.
From S2P Require Import Kernel.
From S2P Require Import Main.
From S2P Require Import Interleave.
From S2P Require Import Races.
From S2P Require Import Boot.

(** ** Start-up with interrupts after [sti] *)

(** [handle] serves the requests that are pending before an access. *)
Definition main_interrupted `{Platform} {I} (handle : I -> M Kernel unit) (sy : Symbols)
    (early : list I) : M Kernel unit :=
  _ ← main_banner;
  _ ← main_devices;
  _ ← main_table sy;
  preempt handle early report_prog.

Section uptime.
Context `{Platform}.
Implicit Types (k : Kernel) (h : Hw) (sy : Symbols).

(** The undisturbed start-up and the interrupted one, side by side. *)
Lemma interrupted_run sy rs B size h early :
  (1 < spin_fuel)%nat -> Responsive 0x3fd OUTPUT_EMPTY -> symbols_ok sy -> booted rs B size h ->
  Z.of_nat (sum_list early) < 2 ^ 64 ->
  exists k1 h1 t n tr, main sy kernel_start h = (Ok tt, (k1, h1)) /\ idle sy rs B size h t k1 h1 /\
    (n <= sum_list early)%nat /\ with_eois n (trace h1) tr /\
    main_interrupted timer_burst sy early kernel_start h =
      (Ok tt, (over TICKS (Z.of_nat n) k1, set_trace tr h1)).
Proof.
  intros Hf Hr Hsy Hb He.
  destruct (main_until_report sy rs B size h Hf Hr Hsy Hb) as (t & k2 & h2 & Hwf & Hv & Hrep & Hrun).
  destruct (proj1 (wp_run _ _ _ _) (report_run sy rs B size h t k2 h2 Hf Hb Hwf Hv Hrep))
    as ([] & k1 & h1 & Hreport & Hidle).
  assert (ticks k2 = 0) as Ht by (by destruct Hrep as [[] _]).
  destruct (report_interrupted k2 h2 early) as (n & tr & Hn & Hpre & Htr); [lia|lia|].
  rewrite Hreport, Ht in Hpre. rewrite Hreport in Htr. cbn [fst snd] in *.
  exists k1, h1, t, n, tr. unfold main, main_interrupted. by rewrite !Hrun.
Qed.

(** C10: The running kernel: start-up with timer interrupts between any two
    accesses of its last part, then any interrupts in the idle loop.  Nothing
    panics, faults or hangs; the memory is that of the undisturbed start-up, so
    the heap and the box in it are intact; the console is usable; every timer
    interrupt was counted and every interrupt acknowledged. *)
Theorem kernel_uptime sy rs B size h early irqs :
  (1 < spin_fuel)%nat -> Responsive 0x3fd OUTPUT_EMPTY -> (forall tr, port_in tr 0x60 ≠ 0) ->
  symbols_ok sy -> booted rs B size h -> Z.of_nat (sum_list early) + timers irqs < 2 ^ 64 ->
  exists k1 h1 a n k' h', main sy kernel_start h = (Ok tt, (k1, h1)) /\
    page_alloc k1 = MkSingleton SINGLE_INITED (Some a) /\ pa_rep a h1 (fun j => j =? 0) /\
    (_ ← main_interrupted timer_burst sy early; serve irqs) kernel_start h = (Ok tt, (k', h')) /\
    page_alloc k' = page_alloc k1 /\ intr_table k' = intr_table k1 /\ mem h' = mem h1 /\
    con_ok k' h' /\ (n <= sum_list early)%nat /\ ticks k' = Z.of_nat n + timers irqs /\
    eois (trace h') = (eois (trace h1) + n + length irqs)%nat.
Proof.
  intros Hf Hr Hkey Hsy Hb Ht. assert (0 <= timers irqs) by (unfold timers; lia).
  destruct (interrupted_run sy rs B size h early Hf Hr Hsy Hb ltac:(lia))
    as (k1 & h1 & t & n & tr & Hmain & Hidle & Hn & Htr & Hint). destruct Hidle.
  assert (con_ok (over TICKS (Z.of_nat n) k1) (set_trace tr h1)) as Hcon by exact idle_con.
  destruct (proj1 (wp_run _ _ _ _) (serve_run irqs _ _ Hf Hkey Hcon ltac:(cbn; lia) ltac:(cbn; lia)))
    as ([] & k' & h' & Hserve & Hcon' & (_ & Htab & Hpages) & Hticks & Hsv).
  exists k1, h1, (allocator_of (memsize rs B)), n, k', h'.
  pose proof (served_eois _ _ _ Hsv) as Heoi. cbn [trace set_trace] in Heoi.
  rewrite (with_eois_count _ _ _ Htr) in Heoi.
  split_and!; try done; [by rewrite (run_bind _ _ _ _ _ _ _ Hint)|].
  destruct Hsv as (es & rows & -> & _). by rewrite log_ios_spec.
Qed.

(** The console is in use when the report begins. *)
Lemma reporting_on h0 t out idtr k h :
  reporting h0 t out idtr k h -> out.1 ≠ [] -> ticks k = 0 /\ con_on Never k h.
Proof.
  intros [[[_ [Hcol Hrows]] _ _ Ht _ _ _ [_ _ Hused _]] _] Hne. split; [done|].
  split; [by left|]. split; [by apply Hused|done].
Qed.

(** The part of start-up before the report. *)
Definition before_report sy : M Kernel unit :=
  _ ← main_banner; _ ← main_devices; _ ← main_table sy; mret tt.

(** C11: Nothing but the race stops the kernel.  With any interrupts, timer and
    keyboard, before any accesses of the report of [main] and any interrupts in
    the idle loop, one of two things happens.  Either the report panics with an
    index out of bounds, and its run came through a state in which the
    console's column was off the row (at 80), where a key press moved it while
    [main] was printing; or start-up returns, every interrupt in the idle loop
    is served too, the heap, all of memory and the statics are as the
    undisturbed start-up left them, the console is usable and every interrupt
    was counted and acknowledged.  There is no other panic, no fault and no
    hang, and no panic at all once start-up is over. *)
Theorem kernel_any_interrupts sy rs B size h early irqs :
  (1 < spin_fuel)%nat -> Responsive 0x3fd OUTPUT_EMPTY -> (forall tr, port_in tr 0x60 ≠ 0) ->
  symbols_ok sy -> booted rs B size h -> timers (concat early ++ irqs) < 2 ^ 64 ->
  exists k1 h1 a, main sy kernel_start h = (Ok tt, (k1, h1)) /\
    page_alloc k1 = MkSingleton SINGLE_INITED (Some a) /\ pa_rep a h1 (fun j => j =? 0) /\
    ((exists s0 s' s2, before_report sy kernel_start h = (Ok tt, s0) /\
        passes serve early report_prog s0 s' /\ col_pos (console s'.1) = BUFFER_WIDTH /\
        main_interrupted serve sy early kernel_start h = (Panic OutOfBounds, s2)) \/
     exists served rest s2, concat early = served ++ rest /\
        (_ ← main_interrupted serve sy early; serve irqs) kernel_start h = (Ok tt, s2) /\
        intact 0 (served ++ irqs) (k1, h1) s2).
Proof.
  intros Hf Hr Hkey Hsy Hb Ht. rewrite timers_app in Ht.
  destruct (main_until_report sy rs B size h Hf Hr Hsy Hb) as (t & k2 & h2 & Hwf & Hv & Hrep & Hrun).
  destruct (proj1 (wp_run _ _ _ _) (report_run sy rs B size h t k2 h2 Hf Hb Hwf Hv Hrep))
    as ([] & k1 & h1 & Hreport & Hidle).
  exists k1, h1, (allocator_of (memsize rs B)). destruct Hidle.
  split_and!; [unfold main; by rewrite Hrun|done|done|].
  assert (0 <= timers irqs /\ 0 <= timers (concat early)) as [??] by (unfold timers; lia).
  destruct (reporting_on _ _ _ _ _ _ Hrep) as [Htk Hw]; [done|].
  assert (main_interrupted serve sy early kernel_start h = preempt serve early report_prog k2 h2) as Hmi
    by apply Hrun.
  destruct (report_raced early k2 h2 k1 h1 Hf Hkey Hw ltac:(lia) ltac:(lia) Hreport)
    as [(s' & s2 & Hp & Hoff & Hpanic)|(served & rest & [k3 h3] & Hall & Hp & Hbeside)].
  { left. exists (k2, h2), s', s2. split_and!; [exact (Hrun (mret tt))|done|exact Hoff|by rewrite Hmi]. }
  right. rewrite <- Hmi in Hp. rewrite Htk in Hbeside.
  rewrite Hall, timers_app in Ht. assert (0 <= timers rest) by (unfold timers; lia).
  assert (0 <= 0 /\ 0 + timers (served ++ irqs) < 2 ^ 64) as Hfit by (rewrite timers_app; lia).
  destruct (irqs_settled 0 (served ++ irqs) Hf Hkey Hfit served irqs (k1, h1) (k3, h3) Hbeside)
    as ([k4 h4] & Hserve & Hb4); [done|]. cbn [fst snd] in Hserve.
  exists served, rest, (k4, h4). split_and!; [done| |by apply beside_intact].
  by rewrite (run_bind _ _ _ _ _ _ _ Hp).
Qed.
End uptime.

(** Three timer interrupts during start-up, two of them at once, then a key and a tick. *)
Lemma kernel_uptime_witness :
  exists n k' h', (_ ← @main_interrupted (constant_platform true 0x21) nat (@timer_burst (constant_platform true 0x21)) example_symbols [2; 0; 1]%nat;
      @serve (constant_platform true 0x21) [Keyboard; Timer]) kernel_start small_hw =
    (Ok tt, (k', h')) /\ ticks k' = Z.of_nat n + 1 /\ (n <= 3)%nat.
Proof.
  destruct (@kernel_uptime (constant_platform true 0x21) example_symbols small_map 0x104000 0x8000 small_hw
    [2; 0; 1]%nat [Keyboard; Timer]) as (k1 & h1 & a & n & k' & h' & _ & _ & _ & Hrun & _ & _ & _ & _ & Hn & Ht & _).
  - cbn. lia.
  - exact (always_ready true _ _ (or_introl eq_refl)).
  - intros tr. cbn. discriminate.
  - exact example_symbols_ok.
  - exact small_booted.
  - reflexivity.
  - exists n, k', h'. split; [exact Hrun|]. split; [exact Ht|exact Hn].
Defined.

(** A key and a tick at once, then a key, during start-up; a tick and a key later. *)
Lemma kernel_any_interrupts_witness :
  exists k1 h1, @main (constant_platform true 0x21) example_symbols kernel_start small_hw = (Ok tt, (k1, h1)) /\
  let early := [[Keyboard; Timer]; []; [Keyboard]] in
  ((exists s0 s' s2, @before_report (constant_platform true 0x21) example_symbols kernel_start small_hw = (Ok tt, s0) /\
      passes (@serve (constant_platform true 0x21)) early (@report_prog (constant_platform true 0x21)) s0 s' /\
      col_pos (console s'.1) = BUFFER_WIDTH /\
      @main_interrupted (constant_platform true 0x21) (list irq) (@serve (constant_platform true 0x21))
        example_symbols early kernel_start small_hw = (Panic OutOfBounds, s2)) \/
   exists served rest s2, concat early = served ++ rest /\
      (_ ← @main_interrupted (constant_platform true 0x21) (list irq) (@serve (constant_platform true 0x21))
         example_symbols early;
       @serve (constant_platform true 0x21) [Timer; Keyboard]) kernel_start small_hw = (Ok tt, s2) /\
      intact 0 (served ++ [Timer; Keyboard]) (k1, h1) s2).
Proof.
  destruct (@kernel_any_interrupts (constant_platform true 0x21) example_symbols small_map 0x104000 0x8000 small_hw
    [[Keyboard; Timer]; []; [Keyboard]] [Timer; Keyboard]) as (k1 & h1 & a & Hmain & _ & _ & Hrun).
  - cbn. lia.
  - exact (always_ready true _ _ (or_introl eq_refl)).
  - intros tr. cbn. discriminate.
  - exact example_symbols_ok.
  - exact small_booted.
  - reflexivity.
  - exists k1, h1. split; [exact Hmain|exact Hrun].
Defined.
