(* ===== verification/Faults.v ===== *)
(** * When something goes wrong: panics and page faults

    A panic anywhere runs the panic handler of [main.rs] in the state it left;
    a panic in the panic handler runs it again ([run_panic]).  A memory access
    to an unmapped address runs the page-fault handler and is then executed
    again by the processor ([execute]).  The theorems say when a panic reaches
    the screen and the serial line, when it does not, that no page fault is
    ever overcome, and that the heap can run into one. *)
From Stdlib Require Import ZArith Lia String.
From stdpp Require Import base tactics numbers list gmap.
From S2P Require Import Prelude.
From S2P Require Import Machine.
From S2P Require Import Fmt.
From S2P Require Import X86.
From S2P Require Import Serial.
From S2P Require Import Vga.
From S2P Require Import Preempt.
From S2P Require Import Singleton.
From S2P Require Import Intr.
From S2P Require Import Loader.
From S2P Require Import MemMap.
From S2P Require Import Bitmap.
From S2P Require Import Page.
From S2P Require Import Alloc.
From S2P Require Import Kernel.
From S2P Require Import Main.
From S2P Require Import Boot.

(** ** The code under the panic runtime and the processor *)
Section code.
Context `{Platform}.

(** [#[panic_handler]]: [text why] is how [core] formats the [PanicInfo]; the
    stack has room for [depth] panics inside one another, [None] is that it
    overflowed. *)
Fixpoint run_panic (depth : nat) (text : panic_reason -> list Z) (m : M Kernel unit)
    (k : Kernel) (h : Hw) : option (result unit * (Kernel * Hw)) :=
  match m k h with
  | (Panic why, (k', h')) =>
      match depth with
      | O => None
      | S depth' => run_panic depth' text (panic (text why)) k' h'
      end
  | out => Some out
  end.

(** Vector 14: the access [m] that faulted is executed again when the handler
    returns, here at most [n] times. *)
Fixpoint execute {A} (n : nat) (f : ExceptionStackFrame) (code : Z) (m : M Kernel A) : M Kernel A :=
  fun k h =>
    match n, m k h with
    | S n', (PageFault a, (k', h')) =>
        (_ ← page_fault_handler f code; execute n' f code m) k' h'
    | _, out => out
    end.
End code.

(** What the page-fault handler prints. *)
Definition page_fault_text (f : ExceptionStackFrame) (code : Z) : list Z :=
  concat [bs "PAGE FAULT#"; display code; bs " "; frame_fmt f; [10]].

Section lemmas.
Context `{Platform}.
Implicit Types (k : Kernel) (h : Hw).

Lemma serial_ok_vga k v : serial_ok k -> serial_ok (over VGA_BUFFER v k).
Proof. done. Qed.

(** The panic handler, from any state with a usable console and serial port. *)
Lemma panic_run txt k h :
  (1 < spin_fuel)%nat -> Responsive 0x3fd OUTPUT_EMPTY -> con_ok k h -> serial_ok k ->
  exists k' h' es tr, panic txt k h = (Hang, (k', h')) /\ con_ok k' h' /\
    (col_pos (console k'), screen h') =
      text_ref (cur_color (console k)) (txt ++ [10]) (col_pos (console k), screen h) /\
    trace h' = rev es ++ tr /\ guarded 0x3f8 false es = true /\
    data_outs 0x3f8 es = concat (map encode (txt ++ [10])) /\
    mem h' = mem h /\ reg_if h' = reg_if h.
Proof.
  intros Hf Hr Hc Hs. unfold panic.
  assert (wp (_ ← println [txt]; serial_println [txt]) (fun _ k' h' => exists es tr, con_ok k' h' /\
    (col_pos (console k'), screen h') =
      text_ref (cur_color (console k)) (txt ++ [10]) (col_pos (console k), screen h) /\
    trace h' = rev es ++ tr /\ guarded 0x3f8 false es = true /\
    data_outs 0x3f8 es = concat (map encode (txt ++ [10])) /\
    mem h' = mem h /\ reg_if h' = reg_if h) k h) as Hwp.
  { apply wp_bind, wp_vga_print; [done..|]. intros v h1 Hst Hcol Hok Hio.
    change (concat ([txt] ++ [newline])) with (txt ++ [10]) in Hst.
    destruct (only_io_regs _ _ (console_only_io _ _ Hio)) as (Hm & _ & _ & _ & _ & Hif).
    apply wp_serial_print; [done..|]. intros es Hes Hg. cbn zeta.
    change (concat ([txt] ++ [newline])) with (txt ++ [10]) in Hes.
    eexists es, _. split_and!; [|by rewrite log_ios_spec| |done|done| |].
    - split; [right; by exists v|]. destruct Hok. split; [done|]. by rewrite log_ios_spec.
    - rewrite log_ios_app, log_ios_spec. reflexivity.
    - by rewrite log_ios_spec.
    - by rewrite log_ios_spec. }
  apply wp_run in Hwp as ([] & k' & h' & Hrun & es & tr & Hpost).
  exists k', h', es, tr. split; [|done].
  rewrite <- bind_assoc. by rewrite (run_bind _ _ _ _ _ _ _ Hrun).
Qed.

(** With the column off the row, a print whose text begins with any byte but a
    backspace, a new line or a carriage return panics and changes nothing. *)
Lemma print_off_row self c s args k h :
  (0 < spin_fuel)%nat -> vga_buffer k = MkSingleton SINGLE_INITED (Some self) ->
  col_pos self = 80 -> rows_ok (screen h) -> ~ recovers c -> concat args = c :: s ->
  vga_print args k h = (Panic OutOfBounds, (k, h)).
Proof.
  intros Hf Hk Hcol Hrows Hc Hargs. unfold vga_print.
  rewrite (get_mut_inited VGA_BUFFER _ _ self) by done. rewrite write_fmt_concat, Hargs.
  cbn [write_str VgaBuffer_FmtWrite]. unfold vga_write_str, write_bytes. cbn [for_in].
  rewrite (run_bind_panic _ _ _ _ _ _ (putc_off_row c self h Hrows Hcol Hc)).
  by rewrite <- Hk, (over_view (l := VGA_BUFFER)).
Qed.

(** The three bytes bring it back. *)
Lemma print_recovers self c k h :
  (0 < spin_fuel)%nat -> vga_buffer k = MkSingleton SINGLE_INITED (Some self) ->
  col_pos self = 80 -> rows_ok (screen h) -> recovers c ->
  exists k' h', vga_print [[c]] k h = (Ok tt, (k', h')) /\ con_ok k' h'.
Proof.
  intros Hf Hk Hcol Hrows Hc. unfold vga_print.
  rewrite (get_mut_inited VGA_BUFFER _ _ self) by done. rewrite write_fmt_concat.
  cbn [concat app write_str VgaBuffer_FmtWrite]. unfold vga_write_str, write_bytes. cbn [for_in].
  destruct (putc_recovers c self h Hrows Hcol Hc) as (self' & es & rows & Hrun & Hc' & Hr' & _).
  rewrite (run_bind _ _ _ _ _ _ _ Hrun). eexists _, _. split; [reflexivity|].
  split; [right; by exists self'|]. split; [exact Hc'|]. by rewrite log_ios_spec.
Qed.

(** The page-fault handler prints its line and touches nothing else. *)
Lemma page_fault_run f code k h :
  (1 < spin_fuel)%nat -> con_ok k h ->
  exists k' h', page_fault_handler f code k h = (Ok tt, (k', h')) /\ con_ok k' h' /\
    mem h' = mem h /\ cur_color (console k') = cur_color (console k) /\
    (col_pos (console k'), screen h') =
      text_ref (cur_color (console k)) (page_fault_text f code) (col_pos (console k), screen h).
Proof.
  intros Hf Hc. unfold page_fault_handler.
  assert (wp (println [bs "PAGE FAULT#"; display code; bs " "; frame_fmt f])
    (fun _ k' h' => con_ok k' h' /\ mem h' = mem h /\ cur_color (console k') = cur_color (console k) /\
      (col_pos (console k'), screen h') =
      text_ref (cur_color (console k)) (page_fault_text f code) (col_pos (console k), screen h)) k h) as Hwp.
  { apply wp_vga_print; [done..|]. intros v h' Hst Hcol Hok Hio.
    destruct (only_io_regs _ _ (console_only_io _ _ Hio)) as (Hm & _).
    split_and!; [split; [right; by exists v|done]|done|exact Hcol|exact Hst]. }
  apply wp_run in Hwp as ([] & k' & h' & ? & ?). eauto.
Qed.

(** An access that faults in every state with this memory. *)
Lemma execute_faults {A} n f code (m : M Kernel A) a k h :
  (1 < spin_fuel)%nat -> con_ok k h ->
  (forall k' h', mem h' = mem h -> m k' h' = (PageFault a, (k', h'))) ->
  exists k' h', execute n f code m k h = (PageFault a, (k', h')) /\ con_ok k' h' /\ mem h' = mem h /\
    (col_pos (console k'), screen h') =
      Nat.iter n (text_ref (cur_color (console k)) (page_fault_text f code)) (col_pos (console k), screen h).
Proof.
  intros Hf. revert k h. induction n as [|n IH]; intros k h Hc Hm; cbn [execute]; rewrite Hm by done.
  { by exists k, h. }
  destruct (page_fault_run f code k h Hf Hc) as (k1 & h1 & Hrun & Hc1 & Hm1 & Hcol & Hst).
  rewrite (run_bind _ _ _ _ _ _ _ Hrun).
  destruct (IH k1 h1 Hc1) as (k' & h' & Hrun' & Hc' & Hm' & Hst').
  { intros k2 h2 Hm2. apply Hm. congruence. }
  exists k', h'. split_and!; [done|done|congruence|]. rewrite Nat.iter_succ_r, <- Hst, <- Hcol. exact Hst'.
Qed.
End lemmas.

(** ** Properties *)
Section properties.
Context `{Platform}.
Implicit Types (k : Kernel) (h : Hw).

(** C22: A panic is reported: if code panics in a state with a usable console
    and serial port, the panic handler prints the panic's text on the screen
    as the console would, sends exactly that text over the serial line, each
    byte only after the transmitter was seen empty, and stops for ever, with
    memory as the panic left it. *)
Theorem panic_reported (m : M Kernel unit) text why depth k h k1 h1 :
  (1 < spin_fuel)%nat -> Responsive 0x3fd OUTPUT_EMPTY -> (0 < depth)%nat ->
  m k h = (Panic why, (k1, h1)) -> con_ok k1 h1 -> serial_ok k1 ->
  exists k2 h2 es tr, run_panic depth text m k h = Some (Hang, (k2, h2)) /\
    (col_pos (console k2), screen h2) =
      text_ref (cur_color (console k1)) (text why ++ [10]) (col_pos (console k1), screen h1) /\
    trace h2 = rev es ++ tr /\ guarded 0x3f8 false es = true /\
    data_outs 0x3f8 es = concat (map encode (text why ++ [10])) /\ mem h2 = mem h1.
Proof.
  intros Hf Hr Hd Hm Hc Hs.
  destruct (panic_run (text why) k1 h1 Hf Hr Hc Hs)
    as (k2 & h2 & es & tr & Hrun & _ & Hst & Htr & Hg & Ho & Hmem & _).
  exists k2, h2, es, tr. split_and!; try done.
  destruct depth as [|depth]; [lia|]. cbn [run_panic]. rewrite Hm. destruct depth; cbn [run_panic]; by rewrite Hrun.
Qed.

(** C23: A panic that is not reported: with the console's column at 80, off the
    row, where [Preempt.putc_race_panics] leaves it, a print panics, and changes
    nothing, if its text begins with any byte but a backspace, a new line or a
    carriage return (these three bring the column back on to the row).  The
    panic handler begins with such a print: for a text that begins with another
    byte, as [core]'s does, it panics before it sends anything over the serial
    line, runs inside itself until the stack overflows, however large it is,
    and leaves the kernel and the hardware untouched all the while. *)
Theorem race_fatal text self k h :
  (0 < spin_fuel)%nat -> vga_buffer k = MkSingleton SINGLE_INITED (Some self) ->
  col_pos self = 80 -> rows_ok (screen h) ->
  (forall args c s, concat args = c :: s -> ~ recovers c -> vga_print args k h = (Panic OutOfBounds, (k, h))) /\
  (forall c, recovers c -> exists k' h', vga_print [[c]] k h = (Ok tt, (k', h')) /\ con_ok k' h') /\
  ((forall why, exists d rest, text why = d :: rest /\ ~ recovers d) ->
    (forall why, panic (text why) k h = (Panic OutOfBounds, (k, h))) /\
    forall depth args c s, concat args = c :: s -> ~ recovers c ->
      run_panic depth text (vga_print args) k h = None).
Proof.
  intros Hf Hk Hcol Hrows.
  assert (forall args c s, concat args = c :: s -> ~ recovers c ->
    vga_print args k h = (Panic OutOfBounds, (k, h))) as Hprint by (intros; by eapply print_off_row).
  split_and!; [done|intros c Hc; by eapply print_recovers|]. intros Htext.
  assert (forall why, panic (text why) k h = (Panic OutOfBounds, (k, h))) as Hpanic.
  { intros why. destruct (Htext why) as (d & rest & -> & Hd). unfold panic, println.
    apply run_bind_panic. by eapply Hprint. }
  split; [done|].
  assert (forall depth m, m k h = (Panic OutOfBounds, (k, h)) -> run_panic depth text m k h = None) as Hall.
  { induction depth as [|depth IH]; intros m Hm; cbn [run_panic]; rewrite Hm; [done|]. by apply IH. }
  intros depth args c s Hargs Hc. by eapply Hall, Hprint.
Qed.

(** C24: No page fault is overcome: the handler maps nothing, so a read or a
    write of an unmapped address is executed again, faults again, and prints
    another line, as often as the processor tries. *)
Theorem page_fault_livelock (n : nat) f code a b k h :
  (1 < spin_fuel)%nat -> con_ok k h -> mem h !! a = None ->
  let faults {A} (m : M Kernel A) := exists k' h',
    execute n f code m k h = (PageFault a, (k', h')) /\ con_ok k' h' /\ mem h' = mem h /\
    (col_pos (console k'), screen h') =
      Nat.iter n (text_ref (cur_color (console k)) (page_fault_text f code)) (col_pos (console k), screen h) in
  faults (load8 a) /\ faults (store8 a b).
Proof.
  intros Hf Hc Ha faults. split; apply execute_faults; try done; intros k' h' Hm;
    unfold load8, store8; by rewrite Hm, Ha.
Qed.

(** C25: The allocator manages memory that is not mapped: it counts the memory
    map, but the loader maps a fixed amount.  Where memory from [lim] on is not
    mapped, the first allocation of a block that reaches beyond [lim] succeeds
    all the same, and writing its last byte faults, as often as the processor
    tries. *)
Theorem heap_beyond_mapping rs B l lim n f code b k h :
  (1 < spin_fuel)%nat -> con_ok k h -> page_alloc k = UNINIT ->
  holds_map h rs -> map_sorted rs -> 0 <= B < 2 ^ 64 ->
  Forall (fun r => counted r = true -> r_end r <= B) rs -> memsize rs B <= 0x3ff00000 ->
  let a := allocator_of (memsize rs B) in
  mapped h 0xc0100000 (base_addr a - 0xc0100000) -> (forall x, lim <= x -> mem h !! x = None) ->
  layout_ok l -> pages l <= size (bitmap a) -> base_addr a <= lim < base_addr a + layout_size l ->
  let last := base_addr a + layout_size l - 1 in
  exists k1 h1 k2 h2, alloc PAGE_ALLOC page_allocator_default l k h = (Ok (base_addr a), (k1, h1)) /\
    execute n f code (store8 last b) k1 h1 = (PageFault last, (k2, h2)) /\ mem h2 = mem h1.
Proof.
  intros Hf Hc Hk Hm Hs HB Hends Hn a Hmap Hlim Hl Hsz Hreach last.
  pose proof (uint_wrap 32 (cnt (covered rs) 0 B) ltac:(lia)) as [Hn0 _]. fold (memsize rs B) in Hn0.
  destruct (first_alloc l (memsize rs B) (cnt (covered rs) 0 B) k h) as (m & Hrun & _ & Hout); try done.
  { intros x Hx. apply Hmap. subst a. cbn. lia. }
  { intros s. by apply available_mem_size_ok. }
  fold a in Hrun, Hout. set (k1 := over PAGE_ALLOC _ k) in Hrun.
  assert (con_ok k1 (set_mem m h)) as Hc1 by done.
  destruct (execute_faults n f code (store8 last b) last k1 (set_mem m h) Hf Hc1)
    as (k2 & h2 & Hexec & _ & Hm2 & _).
  { intros k' h' Hm'. unfold store8. rewrite Hm'; cbn [mem set_mem].
    by rewrite Hout, Hlim by (subst last; lia). }
  by exists k1, (set_mem m h), k2, h2.
Qed.
End properties.

(** ** Witnesses *)

(** A keyboard controller that reports an error, a serial port that is ready. *)
Definition error_platform : Platform := {|
  overflow_checks := true;
  spin_fuel := 10;
  port_in := fun _ p => if p =? 0x60 then 0 else 0x21;
  port_in_byte := fun _ p => match p =? 0x60 as b return (if b then 0 else 0x21) ∈u 8 with
    | true => conj (Z.le_refl 0) eq_refl
    | false => uint_wrap 8 0x21 ltac:(lia)
    end
|}.

(** The error code of the keyboard is reported. *)
Lemma panic_reported_witness :
  exists k2 h2, @run_panic error_platform 1 (fun _ => bs "PanicInfo") (@keyboard_handler error_platform)
    kernel_start example_hw = Some (Hang, (k2, h2)) /\ mem h2 = ∅.
Proof.
  destruct (@panic_reported error_platform (@keyboard_handler error_platform) (fun _ => bs "PanicInfo")
    Explicit 1 kernel_start example_hw kernel_start (log_io (In 0x60 0) example_hw))
    as (k2 & h2 & es & tr & Hrun & _ & _ & _ & _ & Hm).
  - cbn. lia.
  - intros tr. apply Exists_cons. left. reflexivity.
  - lia.
  - reflexivity.
  - split; [by left|exact example_vga_ok].
  - by left.
  - exists k2, h2. split; [exact Hrun|exact Hm].
Defined.

Definition raced_kernel : Kernel :=
  MkKernel (MkSingleton SINGLE_INITED (Some (MkVgaBuffer 80 0x0f))) UNINIT UNINIT UNINIT 0.

(** A text panics without end, a new line recovers. *)
Lemma race_fatal_witness :
  @run_panic (constant_platform true 0x21) 100 (fun _ => bs "PanicInfo")
    (@vga_print (constant_platform true 0x21) [bs "esp page: "]) raced_kernel example_hw = None /\
  exists k' h', @vga_print (constant_platform true 0x21) [[10]] raced_kernel example_hw = (Ok tt, (k', h')) /\
    con_ok k' h'.
Proof.
  destruct (@race_fatal (constant_platform true 0x21) (fun _ => bs "PanicInfo") (MkVgaBuffer 80 0x0f)
    raced_kernel example_hw) as (_ & Hrec & Hall).
  - cbn. lia.
  - reflexivity.
  - reflexivity.
  - exact (proj2 example_vga_ok).
  - destruct Hall as [_ Hall].
    { intros why. exists 80, (bs "anicInfo"). split; [reflexivity|]. unfold recovers. lia. }
    split; [|apply Hrec; unfold recovers; tauto].
    apply (Hall 100%nat [bs "esp page: "] 101 (bs "sp page: ")); [reflexivity|unfold recovers; lia].
Defined.

Lemma page_fault_livelock_witness :
  exists k' h', @execute (constant_platform true 0x21) Z 3 (MkFrame 0xc0021000 8 0x200 0x7bf0 0x10) 0
    (load8 0xdeadbeef) kernel_start example_hw = (PageFault 0xdeadbeef, (k', h')).
Proof.
  destruct (@page_fault_livelock (constant_platform true 0x21) 3
    (MkFrame 0xc0021000 8 0x200 0x7bf0 0x10) 0 0xdeadbeef 0 kernel_start example_hw)
    as [(k' & h' & Hrun & _) _].
  - cbn. lia.
  - split; [by left|exact example_vga_ok].
  - reflexivity.
  - exists k', h'. exact Hrun.
Defined.

(** A machine of which only the bitmap's page is mapped. *)
Lemma boot_hw_unmapped x : 0xc0101000 <= x -> mem boot_hw !! x = None.
Proof.
  intros Hx. unfold boot_hw; cbn [mem set_mem].
  apply lookup_union_None. split; [apply lookup_mem_of_ge; rewrite repeat_length; lia|].
  unfold map_hw; cbn [mem set_mem]. apply lookup_union_None. split; [|apply lookup_empty].
  apply lookup_mem_of_ge. transitivity 0xc0101000; [by vm_compute|exact Hx].
Qed.

Lemma boot_hw_mapped : mapped boot_hw 0xc0100000 4096.
Proof.
  change 4096 with (Z.of_nat 4096). rewrite <- (repeat_length 0xaa 4096). apply mapped_mem_of.
Qed.

Definition bitmap_only_hw : Hw := set_screen blank_screen boot_hw.

Lemma mem_set_screen v h : mem (set_screen v h) = mem h.
Proof. done. Qed.

Lemma mem_bitmap_only : mem bitmap_only_hw = mem boot_hw.
Proof. apply mem_set_screen. Qed.

Lemma blank_con h : con_ok kernel_start (set_screen blank_screen h).
Proof. split; [by left|exact example_vga_ok]. Qed.

Lemma bitmap_only_con : con_ok kernel_start bitmap_only_hw.
Proof. apply blank_con. Qed.

Lemma bitmap_only_map : holds_map bitmap_only_hw example_map.
Proof. eapply holds_map_mem; [apply mem_bitmap_only|apply boot_hw_holds]. Qed.

Lemma bitmap_only_base : base_addr (allocator_of (memsize example_map 0x2000000)) = 0xc0101000.
Proof. unfold memsize. by rewrite example_size. Qed.

Lemma bitmap_only_pages : size (bitmap (allocator_of (memsize example_map 0x2000000))) = 7935.
Proof. unfold memsize. by rewrite example_size. Qed.

Lemma bitmap_only_mapped : mapped bitmap_only_hw 0xc0100000
  (base_addr (allocator_of (memsize example_map 0x2000000)) - 0xc0100000).
Proof.
  rewrite bitmap_only_base. intros x Hx. rewrite mem_bitmap_only. apply boot_hw_mapped. lia.
Qed.

Lemma bitmap_only_unmapped x : 0xc0101000 <= x -> mem bitmap_only_hw !! x = None.
Proof. rewrite mem_bitmap_only. apply boot_hw_unmapped. Qed.

Lemma heap_beyond_mapping_witness :
  exists p k1 h1 k2 h2, alloc (H := constant_platform true 0) PAGE_ALLOC
      (page_allocator_default (H := constant_platform true 0)) (MkLayout 8192 4) kernel_start bitmap_only_hw =
    (Ok p, (k1, h1)) /\
    execute (H := constant_platform true 0) 5 (MkFrame 0xc0021000 8 0x200 0x7bf0 0x10) 2
      (store8 (p + 8192 - 1) 0) k1 h1 = (PageFault (p + 8192 - 1), (k2, h2)).
Proof.
  destruct (heap_beyond_mapping (H := constant_platform true 0) example_map 0x2000000 (MkLayout 8192 4)
    0xc0101000 5 (MkFrame 0xc0021000 8 0x200 0x7bf0 0x10) 2 0 kernel_start bitmap_only_hw)
    as (k1 & h1 & k2 & h2 & Halloc & Hexec & _).
  - cbn. lia.
  - exact bitmap_only_con.
  - reflexivity.
  - exact bitmap_only_map.
  - vm_compute. repeat constructor; discriminate.
  - split; [lia|reflexivity].
  - repeat constructor; vm_compute; discriminate.
  - unfold memsize. rewrite example_size. lia.
  - exact bitmap_only_mapped.
  - exact bitmap_only_unmapped.
  - split; cbn; lia.
  - rewrite bitmap_only_pages. vm_compute. discriminate.
  - rewrite bitmap_only_base. cbn. lia.
  - eexists _, k1, h1, k2, h2. split; [exact Halloc|exact Hexec].
Defined.
