(* ===== verification/Fuel.v ===== *)
(** * The poll budget is no more than a budget

    Spin loops are modelled with [spin_fuel] polls, and running out is the
    outcome [Hang].  Here the budget is shown to be the only thing it stands
    for: code that does not hang with some budget does exactly the same with
    every larger one, so an outcome found with a budget is the outcome of the
    loops of the source, which have none. *)
From Stdlib Require Import ZArith Lia.
From stdpp Require Import base tactics numbers list gmap.
From S2P Require Import Prelude.
From S2P Require Import Machine.
From S2P Require Import Fmt.
From S2P Require Import X86.
From S2P Require Import Serial.
From S2P Require Import Vga.
From S2P Require Import Singleton.
From S2P Require Import Loader.
From S2P Require Import MemMap.
From S2P Require Import Page.
From S2P Require Import Alloc.
From S2P Require Import Intr.
From S2P Require Import Kernel.
From S2P Require Import Main.
From S2P Require Import Boot.

(** The same machine, polled [n] times. *)
Definition with_fuel (n : nat) (P : Platform) : Platform := {|
  overflow_checks := overflow_checks;
  spin_fuel := n;
  port_in := port_in;
  port_in_byte := port_in_byte
|}.

(** [m'] does what [m] does unless [m] hangs. *)
Definition fuel_le {S A} (m m' : M S A) : Prop :=
  forall s h, (m s h).1 ≠ Hang -> m' s h = m s h.

#[export] Instance fuel_le_preorder {S A} : PreOrder (@fuel_le S A).
Proof.
  split; [by intros m s h|]. intros m1 m2 m3 H1 H2 s h Hne.
  rewrite H2; rewrite H1; done.
Qed.

(** ** The constructs of the code *)
Section constructs.
Context {S : Type}.

Lemma fuel_bind {A B} (m m' : M S A) (k k' : A -> M S B) :
  fuel_le m m' -> (forall a, fuel_le (k a) (k' a)) -> fuel_le (m ≫= k) (m' ≫= k').
Proof.
  intros Hm Hk s h. specialize (Hm s h). unfold mbind, M_bind.
  destruct (m s h) as [[a| | | |] [s1 h1]]; cbn [fst] in *; intros Hne;
    rewrite Hm by done; try done. by apply Hk.
Qed.

Lemma fuel_for_in {A} (l : list A) (body body' : A -> M S unit) :
  (forall x, fuel_le (body x) (body' x)) -> fuel_le (for_in l body) (for_in l body').
Proof. intros Hb. induction l as [|x l IH]; cbn [for_in]; [done|]. apply fuel_bind; auto. Qed.

Lemma fuel_spin n n' (cond cond' : M S bool) :
  (n <= n')%nat -> fuel_le cond cond' -> fuel_le (spin_until n cond) (spin_until n' cond').
Proof.
  intros Hle Hc. revert n' Hle. induction n as [|n IH]; intros n' Hle; [by intros s h|].
  destruct n' as [|n']; [lia|]. cbn [spin_until]. apply fuel_bind; [done|].
  intros []; [done|]. apply IH. lia.
Qed.

Lemma fuel_with_data {T A} (l : Lens S (Singleton T)) (m m' : M T A) :
  fuel_le m m' -> fuel_le (with_data l m) (with_data l m').
Proof.
  intros Hm s h. unfold with_data. destruct (data (view l s)) as [t|]; [|done].
  specialize (Hm t h). destruct (m t h) as [r [t' h']]. cbn [fst] in *. intros Hne. by rewrite Hm.
Qed.

Lemma fuel_lift_hang {A} (m : M S A) : fuel_le (lift Hang) m.
Proof. by intros s h. Qed.
End constructs.

(** ** The code *)
Section code.
Context (P : Platform) (n : nat).
Hypothesis more : (@spin_fuel P <= n)%nat.

Let P' : Platform := with_fuel n P.

Lemma init_loop_fuel {G T} (l : Lens G (Singleton T)) (default default' : M G T) f f' :
  (f <= f')%nat -> fuel_le default default' ->
  fuel_le (@init_loop P G T l default f) (@init_loop P' G T l default' f').
Proof using more.
  intros Hle Hd. revert f' Hle. induction f as [|f IH]; intros f' Hle; [apply fuel_lift_hang|].
  destruct f' as [|f']; [lia|]. cbn [init_loop].
  assert (fuel_le (initialise l default) (initialise l default')) as Hi.
  { unfold initialise. apply fuel_bind; [done|]. by intros t. }
  apply fuel_bind; [done|]. intros [v|v]; [apply fuel_bind; [done|]; intros _; apply IH; lia|].
  repeat case_match; [done|apply IH; lia| |].
  - apply fuel_bind; [by apply fuel_spin|]. intros _. apply IH. lia.
  - apply fuel_bind; [done|]. intros _. apply IH. lia.
Qed.

Lemma get_mut_fuel {G T A} (l : Lens G (Singleton T)) (default default' : M G T) (m m' : M T A) :
  fuel_le default default' -> fuel_le m m' ->
  fuel_le (@get_mut P G T l default A m) (@get_mut P' G T l default' A m').
Proof using more.
  intros Hd Hm. unfold get_mut, init. apply fuel_bind; [|intros _; by apply fuel_with_data].
  apply fuel_bind; [|done]. by apply init_loop_fuel.
Qed.

Lemma wait_for_fuel {S} self flag : fuel_le (@wait_for P S self flag) (@wait_for P' S self flag).
Proof using more. by apply fuel_spin. Qed.

Lemma send_fuel {S} self b : fuel_le (@send P S self b) (@send P' S self b).
Proof using more.
  unfold send. case_match; repeat (apply fuel_bind; [|intros ?]); by try apply wait_for_fuel.
Qed.

Lemma serial_println_fuel args : fuel_le (@serial_println P args) (@serial_println P' args).
Proof using more.
  apply get_mut_fuel; [done|]. apply fuel_for_in. intros s. apply fuel_for_in. intros b.
  apply fuel_bind; [done|]. intros self. apply send_fuel.
Qed.

Lemma println_fuel args : fuel_le (@println P args) (@println P' args).
Proof using more. by apply get_mut_fuel. Qed.

Lemma print_fuel args : fuel_le (@print P args) (@print P' args).
Proof using more. by apply get_mut_fuel. Qed.

Lemma table_fuel (m m' : M InterruptDescriptorTable unit) :
  fuel_le m m' -> fuel_le (@table P m) (@table P' m').
Proof using more. by apply get_mut_fuel. Qed.

Lemma box_new_fuel v : fuel_le (@box_new P v) (@box_new P' v).
Proof using more.
  unfold box_new, alloc. cbv zeta. apply fuel_bind; [|done].
  apply fuel_bind; [|by intros []]. by apply get_mut_fuel.
Qed.

Lemma main_banner_fuel : fuel_le (@main_banner P) (@main_banner P').
Proof using more.
  unfold main_banner. apply fuel_bind; [apply serial_println_fuel|intros _].
  apply fuel_bind; [apply println_fuel|intros _]. apply fuel_bind; [done|intros size].
  apply fuel_bind; [done|intros kib]. apply fuel_bind; [apply println_fuel|intros _].
  apply fuel_bind; [done|intros avl]. apply fuel_bind; [done|intros kib']. apply println_fuel.
Qed.

Lemma main_table_fuel sy : fuel_le (@main_table P sy) (@main_table P' sy).
Proof using more.
  unfold main_table. repeat (apply fuel_bind; [by apply table_fuel|intros _]). done.
Qed.

Lemma main_report_fuel : fuel_le (@main_report P) (@main_report P').
Proof using more.
  unfold main_report. apply fuel_bind; [done|intros mems].
  apply fuel_bind; [apply fuel_for_in; intros m; apply fuel_bind; [done|intros t; apply println_fuel]|intros _].
  apply fuel_bind; [done|intros e]. apply fuel_bind; [done|intros tp].
  apply fuel_bind; [apply println_fuel|intros _]. apply fuel_bind; [apply box_new_fuel|intros a].
  apply fuel_bind; [done|intros v]. apply println_fuel.
Qed.

Lemma main_fuel sy : fuel_le (@main P sy) (@main P' sy).
Proof using more.
  unfold main. apply fuel_bind; [apply main_banner_fuel|intros _]. apply fuel_bind; [done|intros _].
  apply fuel_bind; [apply main_table_fuel|intros _]. apply main_report_fuel.
Qed.

Lemma serve_fuel irqs : fuel_le (@serve P irqs) (@serve P' irqs).
Proof using more.
  apply fuel_for_in. intros []; [done|]. unfold keyboard_handler. apply fuel_bind; [done|intros code].
  apply fuel_bind; [done|intros ch]. apply fuel_bind; [|done]. destruct ch; [apply print_fuel|done].
Qed.
End code.

(** ** Properties *)

(** C21: The budget of the spin loops does not matter: whatever start-up followed
    by any interrupts does with some budget, other than running out of it, in
    any state and on any machine, panics and faults included, it does exactly
    with every larger budget.  On a machine as the boot loader leaves it, whose
    serial port answers within the budget, it does not run out: every spin loop
    of the kernel ends. *)
Theorem kernel_terminates (P : Platform) sy irqs n :
  (@spin_fuel P <= n)%nat ->
  (forall k h, ((_ ← @main P sy; @serve P irqs) k h).1 ≠ Hang ->
    (_ ← @main (with_fuel n P) sy; @serve (with_fuel n P) irqs) k h = (_ ← @main P sy; @serve P irqs) k h) /\
  (forall rs B size h, (1 < @spin_fuel P)%nat -> @Responsive P 0x3fd OUTPUT_EMPTY ->
    (forall tr, @port_in P tr 0x60 ≠ 0) -> symbols_ok sy -> booted rs B size h -> timers irqs < 2 ^ 64 ->
    exists k' h', (_ ← @main (with_fuel n P) sy; @serve (with_fuel n P) irqs) kernel_start h = (Ok tt, (k', h'))).
Proof.
  intros Hle. assert (fuel_le (_ ← @main P sy; @serve P irqs)
    (_ ← @main (with_fuel n P) sy; @serve (with_fuel n P) irqs)) as Hfuel.
  { apply fuel_bind; [by apply main_fuel|]. intros _. by apply serve_fuel. }
  split; [intros k h; apply Hfuel|]. intros rs B size h Hf Hr Hkey Hsy Hb Ht.
  destruct (kernel_run sy rs B size h irqs Hf Hr Hkey Hsy Hb Ht) as (k' & h' & Hrun & _).
  exists k', h'. by rewrite Hfuel, Hrun; rewrite ?Hrun.
Qed.

Lemma kernel_terminates_witness :
  exists k' h', (_ ← @main (with_fuel 1000 (constant_platform true 0x21)) example_symbols;
      @serve (with_fuel 1000 (constant_platform true 0x21)) [Timer; Keyboard]) kernel_start small_hw =
    (Ok tt, (k', h')).
Proof.
  destruct (kernel_terminates (constant_platform true 0x21) example_symbols [Timer; Keyboard] 1000) as [_ Hrun].
  - cbn. lia.
  - apply (Hrun small_map 0x104000 0x8000).
    + cbn. lia.
    + exact (always_ready true _ _ (or_introl eq_refl)).
    + intros tr. cbn. discriminate.
    + exact example_symbols_ok.
    + exact small_booted.
    + reflexivity.
Defined.
